(* ===== verification/_CoqProject ===== *)
-Q . S2P
Prelude.v
Float64.v
Jsx.v
WebApi.v
WebUtils.v
WebOverview.v
WebUpstream.v
WebCacheTab.v
WebRules.v
WebQueryLog.v
WebShell.v
Dns.v
AuditLog.v
QueryLogApi.v
App.v
Stats.v
Lru.v
DnsCache.v
CacheFile.v
CacheInv.v
CacheProps.v
CacheMiddleware.v
CacheApi.v
NameServer.v
DomainMap.v
DomainRule.v
IpSet.v
Context.v
AddressMw.v
Middleware.v
Search.v
RewriteMw.v
Dns64.v
Ping.v
DualStack.v
Chain.v
ChainProps.v
NsStrategy.v
NsProps.v
Nom.v
NomProps.v
ConfigText.v
ConfigProps.v
AddressApi.v
Text.v
DnsClient.v
NsMiddleware.v
DnsUrl.v
DnsUrlProps.v
UpstreamApi.v
ApiContract.v
FileCache.v
Hosts.v
Leases.v
LeaseProps.v
Zones.v
SetsMw.v
LocalStages.v
Paths.v
ConfigItems.v
ConfigValues.v
ConfigLoad.v
ConfigValueProps.v
ServerLine.v
ConfigLoadProps.v
ConfigApi.v
LogFile.v
LogFileProps.v
LogFileFaults.v
HttpsRecord.v
DohApi.v
