(* ===== verification/Prelude.v ===== *)
(** * SmartDNS-rs: a verification development

    SmartDNS-rs is a caching DNS forwarder written in Rust, with a web dashboard
    written in TypeScript.  File names below are relative to the repository:
    [app.rs], [dns_mw_cache.rs] and the like are the server's, under src/;
    [page.tsx], [layout.tsx], [api.ts] and [utils.ts] are the dashboard's, under
    webui/src/.

    *** The program

    A request arrives at a listener, is queued to the loop of [serve] (app.rs),
    which counts it, refuses it when too many are active, and runs it in a batch
    as a task; [process] parses the message, runs the chain of middlewares and
    turns its result into a reply.  [DnsMiddlewareHandler::search] (dns_mw.rs)
    chooses the rule group of the client, applies access control and starts the
    chain that [build_middleware] (app.rs) has put together, outermost first: the
    stages that strip CNAME records and dump failed requests, the audit
    (dns_mw_audit.rs), which records the query in a ring buffer, aliases
    (dns_mw_cname.rs), DNS64 (dns_mw_dns64.rs), static addresses (dns_mw_addr.rs),
    leases, zones, hosts and address sets, the cache (dns_mw_cache.rs), the
    selection of an address family (dns_mw_dualstack.rs), bogus addresses
    (dns_mw_bogus.rs), and last the name servers (dns_mw_ns.rs), which ask the
    upstream servers (dns_client.rs) of a group and select an address by speed
    checks (infra/ping.rs).  Refreshes of the cache enter the same chain.  A REST
    API (src/api/) reads the ring buffer, the counters, the cache and the upstream
    statistics and edits the static address rules, whose text the configuration
    parser (config/parser) reads; the dashboard polls it through React Query and
    renders it.  All settings come from configuration files, which [RuntimeConfig]
    (dns_conf.rs) loads at the start and whenever a reload is asked for.  Logs are
    written to files that are rotated (infra/mapped_file.rs).

    *** Files

    Shared: Prelude (results, machine integers, sums and counts over lists,
    sorting), Float64 (binary64 arithmetic on the Standard Library's
    [spec_float]), Jsx (rendered trees, React Query results, the browser).

    Dashboard, one file per component of page.tsx, layout.tsx and api.ts:
    - WebApi: [apiGet], [apiPost], [apiDelete], the response interfaces as records
      with decoders, every query hook and mutation;
    - WebUtils: [formatUptime], [formatTimestamp], [formatQueryType];
    - WebOverview, WebUpstream: [OverviewTab] and [UpstreamTab] as functions of
      the query results;
    - WebCacheTab, WebRules, WebQueryLog, WebShell: the components with state
      ([CacheTab], [AddressRulesTab], [QueryLogTab], [DashboardLayout]) as a
      state record, an action type, [step] (the handlers), [enabled] (which
      actions the rendered page offers) and [view].

    Server:
    - Dns: [DnsResponse], [LookupError], TTL clipping (dns.rs, dns_error.rs,
      libdns/mod.rs);
    - AuditLog, QueryLogApi: [DnsAuditMiddleware::handle] and the handler of
      api/query_log.rs;
    - App: [process], the counters and history of [AppState], and the request loop
      as a step relation on the state of the loop and its tasks, which may panic;
    - Stats: api/stats.rs, with the documents it serialises;
    - Lru: the interface of the [lru] crate as a class of operations ([LruOps])
      and of laws ([LruLaws]), with a list implementation that satisfies it;
    - DnsCache: every operation of [DnsCache] on its shards, its prefetch heap and
      its byte counter; CacheInv: the invariant they preserve; CacheProps: what a
      user of the cache observes; CacheFile: the format of the cache file;
    - CacheMiddleware: [DnsCacheMiddleware::handle] with negative caching;
    - CacheApi: api/cache.rs composed with the dashboard's pages;
    - NameServer: [NameServer::lookup] with retries, statistics and circuit
      breaker, and [NameServerGroup::lookup]; DnsClient: [DnsClient], its groups of
      shared servers and the bootstrap store; DnsUrl: the addresses of servers and
      their parameters (dns_url.rs), DnsUrlProps: their round trip; UpstreamApi:
      [NameServerInfo], the membership of groups and api/nameserver.rs;
    - ApiContract: what the handlers serialise against what the dashboard
      decodes;
    - DomainMap: [WildcardName] (config/domain.rs), [DomainMap] and [DomainSet]
      (collections.rs); DomainRule: [DomainRule] and its merging,
      [DomainRuleMap::create] with the tree of enclosing rules (dns_rule.rs) and
      what a request takes from it;
    - IpSet: [IpMap] and [IpSet] (infra/ipset.rs) over the interval maps of the
      [rangemap] crate, and [ClientRule] (config/client_rule.rs); Context:
      [ServerOpts], the settings of [RuntimeConfig], [DnsRequest] and
      [DnsContext] (config/server_opts.rs, dns_conf.rs, dns.rs);
    - Middleware: [Next], the builder and the host (infra/middleware.rs), a stage
      being a function from the handler of the rest of the chain to a handler
      that passes context and state; Search: [search] and the default handler
      (dns_mw.rs);
    - the stages: AddressMw (dns_mw_addr.rs), RewriteMw (dns_mw_cname.rs,
      dns_mw_bogus.rs and the client's ip-rules), Dns64 (dns_mw_dns64.rs), Ping
      and DualStack (infra/ping.rs, config/speed_mode.rs, dns_mw_dualstack.rs),
      NsStrategy and NsMiddleware (dns_mw_ns.rs: the strategies as loops over
      futures that complete in any order, and the handler); Chain: the remaining
      stages, [build_middleware] and the refresh requests; ChainProps and NsProps:
      their properties;
    - Nom: the combinators of nom the parsers use, the parsers of addresses
      (config/parser/nom_recipes) and the standard library's printing of
      addresses, NomProps: their round trip; ConfigText: domains, address rules,
      lines and files, parsed and printed (config/parser/domain.rs,
      address_rule.rs, mod.rs; config/domain.rs, config/mod.rs), ConfigProps:
      their round trip; AddressApi: api/address.rs on the managed file, with
      operations of the file system that may fail;
    - Text: the standard library's functions on strings and lines that the readers
      of files use; FileCache: a value kept until the files it comes from change,
      the caches of dns_mw_hosts.rs and dnsmasq.rs under interleaved calls; Hosts:
      dns_mw_hosts.rs; Leases: dnsmasq.rs and dns_mw_dnsmasq.rs, LeaseProps: the
      names of clients and the two caches; Zones: zone/ and dns_mw_zone.rs with the reader of the ARP
      table (infra/arp.rs); SetsMw: dns_mw_ipset.rs and dns_mw_nftset.rs;
      LocalStages: the chain with these stages in their places;
    - Paths: the standard library's paths; ConfigItems: [Config] and [ConfigItem]
      (config/mod.rs, config/parser/mod.rs); ConfigValues: the parsers of the values
      (config/parser) under their keywords; ConfigLoad: [RuntimeConfigBuilder] and
      [RuntimeConfig::load] (dns_conf.rs), from lines and included files to the
      configuration the other files use; ConfigValueProps, ConfigLoadProps: their
      properties, ServerLine and HttpsRecord: those of the lines of servers and of
      HTTPS records; ConfigApi: api/forward.rs and api/listener.rs on a loaded
      configuration;
    - LogFile: [MappedFile] (infra/mapped_file.rs) over a file system of
      directories of named texts, LogFileProps: rotation, LogFileFaults: where it
      fails;
    - DohApi: the handlers of [/dns-query] (api/serve_dns.rs) and the handle that
      sends a message to the request loop (server/mod.rs).

    *** What the theorems show

    - Cache: bounded, consistent and byte-accurate after any sequence of
      operations ([cache_bounded]); within its memory budget after every insertion
      ([budget_enforced]); an insertion is found again until it expires
      ([insert_then_get]); the prefetch scan hands out what is due, once
      ([get_expired_correct], [prefetched_once]); the cache file is read back
      ([cache_file_roundtrip]).
    - Cache middleware: when it answers by itself ([cache_answers]), what happens
      on negative answers and failures ([negative_answer_remembered],
      [failure_falls_back_to_stale], [nxdomain_reply_code]).
    - Request loop: nothing is lost or settled twice and the counters add up under
      every interleaving, whichever tasks panic ([serve_accounting]); every readable
      message is answered ([process_answers]); what dropped batches and panicked
      tasks lead to ([dropped_block_service]).
    - Upstreams: accounting ([upstream_accounting]), circuit breaker
      ([breaker_trips], [healthy_upstream_never_skipped]), the choice of a group
      ([group_lookup_correct]), the totals of the API ([upstream_totals]).
    - Rules: a name gets its most specific rule ([find_most_specific]), which
      inherits from the rule of its parent name ([zones_are_parents]); what merging
      loses ([rule_options_lost]); static answers ([static_answer]) and exactly
      which records pass through, with which TTLs ([passed_answer]).
    - Chain: who is served and with which rules ([search_access]); static answers
      pass through every configuration of the chain and touch nothing else, for names
      without an alias rule ([static_answer_in_chain]); synthesised addresses are
      those of the specification ([dns64_address], and [dns64_long_prefix] for the
      prefixes that are not); exactly when an address family is hidden, by the times at which the
      lookups complete ([dualstack_selects]).  What the
      stages do to one another: [dns64_blocked], [hidden_for_an_hour],
      [refresh_uses_local_rules].
    - Name servers: to which group a request goes and by which lookup, with which
      options ([ns_routes]); every address lookup returns, in any order of events
      ([lookup_ip_returns]); the address chosen is the fastest
      ([fastest_ip_selects]); the answer the filters leave, as an equation
      ([filtered_answer]).
    - Configuration text: files of address rules are read back
      ([config_file_roundtrip]), without those for plain names of one label, where
      the wildcard syntax joins two lines ([wildcard_swallows_line]); for the same
      rules the API refines an abstract list over any sequence of requests, whatever
      reads and reloads fail and until a write does ([address_api_refines]), and what
      it does to files it cannot read ([unparsed_tail_lost]).
    - Configuration: no keyword hides another, and what numbers and switches become
      ([settings_read]); rules stay in the groups they stand in ([rules_grouped])
      and reach the page of forward rules ([forwards_listed]); listeners are read
      as they are printed ([listener_line]) and never collide ([listeners_unique]);
      loading returns ([load_returns]) unless files include one another
      ([conf_file_circle]); what is misread or cannot be set
      ([domain_rules_misread], [negative_caching_always_on]).
    - Servers: an address is read as it is printed ([url_roundtrip]); what the
      options of a server line set, together and in any order ([server_line]), and
      the option that cannot be given ([sni_never_turned_off]).  HTTPS records are
      read as they are written ([https_record_line]).
    - Log files: writing refines an abstract log of the current text and its
      backups, in the order of their times and no more than the setting allows, for
      a stem without dots in an existing directory without other files that extend
      the stem ([log_rotation]); what is written last is kept ([log_keeps_tail]).  What
      happens to logs beside one another ([rotation_eats_backup]), with a dot in
      the name ([dotted_log_overwrites]) or without a directory
      ([relative_log_fails]).
    - DNS over HTTPS: messages pass through ([wire_reply]), and what the JSON form
      answers ([doh_json_answer]).
    - Local names: the caches of hosts and lease files return, and return what was
      read when the files had the signature they have had in the last two seconds
      ([local_files_served]), which misses changes of the older of two lease files
      ([older_lease_file_missed]); names of clients resolve to their leases
      ([lease_lookup_correct], and [nameless_lease] for clients without a name);
      private reverse lookups stay local, with [local-ptr-enable] on and for names
      without an alias rule ([local_names_stay_local]); what is added to the
      firewall's sets ([ipset_adds]).
    - Query log and statistics: the ring buffer is the last 1000 audited queries
      ([query_log_is_last_1000]), the page shows the newest matching ones
      ([query_log_page_correct]), rankings and statistics are exact
      ([rankings_correct], [stats_reported]).
    - Dashboard: keys, invalidation, requests, rendering and navigation, and the
      contract with the server, where it is kept ([list_endpoints_contract], which
      also says exactly when the documents of the cache have the declared shape,
      [flush_end_to_end], [cache_pages_cover]) and where it is not
      ([unexpected_answers], [stranded_page]).

    *** Conventions, bounds and fuel

    Integers are [Z] with the wrap-around of [u64], [u32] and [usize] written out
    where the code can overflow; an [Instant] is a number of nanoseconds; clocks,
    the network and the order of arrival are arguments of the operations.  A hash
    map whose order is observable is enumerated by an arbitrary permutation.

    Eight kinds of loop are not structural.  The eviction loop of
    [enforce_memory_budget] has the number of entries as fuel, since every pass
    that continues removes one; [budget_enforced] shows that it ends with its work
    done.  The scan of the prefetch heap pops an element per turn and has the size
    of the heap as fuel; the reader of the cache file consumes at least a byte per
    entry and has the length of the input as fuel, and [cache_file_roundtrip]
    shows it enough.  The lookup in a domain map climbs a label per turn and has
    the number of labels and two as fuel; [find_most_specific] shows that no rule
    is missed.  The loops of the lookup strategies take one completed future per
    turn and may add speed checks; their fuel is a measure of the pending futures
    that counts the checks still to come, and [lookup_ip_returns] shows that they
    end before it does.  Separated lists of the parsers consume a separator per
    turn and have the length of the text as fuel, enough in [config_file_roundtrip].
    Loops that trim, split or scan a text consume a character per turn and have
    its length as fuel.  Loading a configuration recurses for every included file
    and has the depth of nested files as fuel; [load_returns] gives the depth that
    is enough, and [conf_file_circle] the files for which none is.
    The retries of a lookup are structural.

    Code outside the repository is an argument with laws: the [lru] crate
    ([LruOps], [LruLaws]), hickory's headers and message codec ([HeaderOps],
    [HeaderLaws] and the codec of CacheFile) and names ([NameOps], [NameLaws]), the
    [wildcard] crate ([Glob]), the 64-bit hashes of the standard library
    ([HashCode], [HashRule]; that the hashes one lookup compares are distinct is a
    hypothesis of the theorems on lookups), the parser of query strings, Unicode case mapping, locale
    formatting, and the sizes of Rust types ([Layout]); for the chain, networks and
    interval maps ([NetOps], [RangeMaps]), client subnets ([EcsOps]), the texts of
    names ([NameText], [NameSyntax]), the clock ([Clock]), the probes ([Network])
    and the times at which an executor completes two futures ([Executor]); for the
    upstream client, what each server answers and in which order ([UpstreamNet],
    [UpstreamNetLaws]); for the API of the address rules, a disk on which every
    operation may fail, and the reload ([Disk], [DiskLaws]); for local names and
    the configuration, files and directories ([Files], [Dirs]), the process and its
    network interfaces ([ProcessEnv], [ZoneEnv]), hickory's hosts files and names
    ([HostsOps], [NameUtf8], [NameBuild], [ArpaNames]), dates ([Dates]), MAC
    addresses ([MacOps]) and the values that other crates read ([ForeignValues]);
    the [url] crate ([UrlCrate], [UrlLaws], with an implementation that satisfies
    them) and, for DNS over HTTPS, hickory's codec and texts ([Codec]).
    [ItemValues] is what the loader needs of the value parsers, and [Stored] what a
    stage needs of the state it shares with others: both are interfaces inside the
    development.
    Every theorem that needs such a law has a witness at a concrete instance.

    *** Not modelled

    What is left is input and output, or belongs to other crates: the listeners
    (server/), which move messages between sockets and the request loop; TLS,
    proxies, certificates and the resolver traits of hickory; the DHCP client; the
    operating system's services, the command line and the updater; static files and
    the generated description of the API; the timer loop of the prefetch task.  The
    audit writer formats texts and dates for a file; its records and the file they
    go to are modelled, its task is not.  Of messages, the additional section, EDNS
    and the bits other than those of [Header] are left out; of the configuration,
    the printing of settings other than address rules, proxy URLs and byte sizes,
    which other crates read; of the domain maps, the trie variant, which is off by
    default.  The audit and log APIs print two structures of the configuration that
    nothing else reads. *)

From stdpp Require Export base list strings gmap pretty sorting.
From Stdlib Require Export ZArith Lia Ascii.

(** ** Results of fallible Rust code *)

Inductive result (A E : Type) : Type :=
| Ok (a : A)
| Err (e : E).
Arguments Ok {A E} a.
Arguments Err {A E} e.

Definition is_ok {A E} (r : result A E) : bool :=
  match r with Ok _ => true | Err _ => false end.

Declare Scope rust_scope.
Delimit Scope rust_scope with rust.

(** [let? x := e in k] is Rust's [let x = e?; k]. *)
Notation "'let?' x ':=' e 'in' k" :=
  (match e with Ok x => k | Err err => Err err end)
  (at level 10, x pattern, e at level 100, k at level 200,
   format "'let?'  x  ':='  e  'in' '//' k") : rust_scope.

(** ** Machine integers

    [u64], [u32] and [usize] values are integers in [Z]; the wrap-around of
    [fetch_add] and of release-mode arithmetic is written out. *)

Definition wrap (w : Z) (n : Z) : Z := (n `mod` 2 ^ w)%Z.
Definition u64 (n : Z) : Z := wrap 64 n.
Definition u32 (n : Z) : Z := wrap 32 n.
Definition usize_max : Z := (2 ^ 64 - 1)%Z.
Definition u64_max : Z := (2 ^ 64 - 1)%Z.

Definition in_u64 (n : Z) : Prop := (0 ≤ n ≤ u64_max)%Z.

(** [x.clamp(lo, hi)] of Rust on integers. *)
Definition clamp (x lo hi : Z) : Z :=
  if (x <? lo)%Z then lo else if (hi <? x)%Z then hi else x.

(** Automation of the development: [smartdns] holds the facts that close the
    routine side conditions. *)
Create HintDb smartdns discriminated.

Ltac split_and_all := repeat match goal with |- _ ∧ _ => split end.
Ltac zify_bool :=
  repeat match goal with
  | H : (_ <? _)%Z = true |- _ => apply Z.ltb_lt in H
  | H : (_ <? _)%Z = false |- _ => apply Z.ltb_ge in H
  | H : (_ <=? _)%Z = true |- _ => apply Z.leb_le in H
  | H : (_ <=? _)%Z = false |- _ => apply Z.leb_gt in H
  | H : (_ =? _)%Z = true |- _ => apply Z.eqb_eq in H
  | H : (_ =? _)%Z = false |- _ => apply Z.eqb_neq in H
  end.
(** Case analysis on the first [if] or [match] on a test in the goal. *)
Ltac case_if :=
  match goal with
  | |- context [if ?b then _ else _] => destruct b eqn:?
  end.

Lemma wrap_small w n : (0 ≤ n < 2 ^ w)%Z → wrap w n = n.
Proof. intros. unfold wrap. by apply Z.mod_small. Qed.

Lemma u64_small n : in_u64 n → u64 n = n.
Proof. unfold in_u64, u64_max, u64. intros. apply wrap_small. lia. Qed.

Lemma u64_range n : in_u64 (u64 n).
Proof.
  unfold in_u64, u64_max, u64, wrap.
  pose proof (Z.mod_pos_bound n (2 ^ 64)). lia.
Qed.

Lemma u64_add_l a b : u64 (u64 a + b) = u64 (a + b).
Proof. unfold u64, wrap. by rewrite Zplus_mod_idemp_l. Qed.

Lemma u64_sub_l a b : u64 (u64 a - b) = u64 (a - b).
Proof. unfold u64, wrap. by rewrite Zminus_mod_idemp_l. Qed.

Lemma u64_add_both a b c : u64 (u64 a + (u64 b + c)) = u64 (a + (b + c)).
Proof.
  rewrite u64_add_l. replace (a + (u64 b + c))%Z with (u64 b + (a + c))%Z by lia.
  rewrite u64_add_l. f_equal. lia.
Qed.

Lemma clamp_range x lo hi : (lo ≤ hi)%Z → (lo ≤ clamp x lo hi ≤ hi)%Z.
Proof. intros. unfold clamp. repeat case_if; zify_bool; lia. Qed.

Lemma clamp_id x lo hi : (lo ≤ x ≤ hi)%Z → clamp x lo hi = x.
Proof. intros. unfold clamp. repeat case_if; zify_bool; lia. Qed.

#[export] Hint Resolve u64_range clamp_range : smartdns.

(** ** Sums *)

Definition sumZ {A} (f : A → Z) (l : list A) : Z :=
  fold_right (λ a acc, f a + acc)%Z 0%Z l.

Section sums.
Context {A : Type} (f : A → Z).
Implicit Types l : list A.

Lemma sumZ_app l1 l2 : sumZ f (l1 ++ l2) = (sumZ f l1 + sumZ f l2)%Z.
Proof. induction l1; simpl; [done|]. unfold sumZ in *; simpl in *. lia. Qed.

Lemma sumZ_cons a l : sumZ f (a :: l) = (f a + sumZ f l)%Z.
Proof. done. Qed.

Lemma sumZ_fold_left l acc :
  fold_left (λ s a, s + f a)%Z l acc = (acc + sumZ f l)%Z.
Proof.
  revert acc; induction l as [|a l IH]; intros acc; simpl; [lia|].
  rewrite IH. lia.
Qed.

Lemma sumZ_nonneg l : (∀ a, a ∈ l → 0 ≤ f a)%Z → (0 ≤ sumZ f l)%Z.
Proof.
  induction l as [|a l IH]; intros H; [done|]. rewrite sumZ_cons.
  pose proof (H a ltac:(set_solver)).
  pose proof (IH ltac:(intros; apply H; set_solver)). lia.
Qed.

Lemma sumZ_Permutation l1 l2 : l1 ≡ₚ l2 → sumZ f l1 = sumZ f l2.
Proof. induction 1; rewrite ?sumZ_cons; lia. Qed.
End sums.

#[export] Instance sumZ_perm_proper {A} (f : A → Z) :
  Proper ((≡ₚ) ==> (=)) (sumZ f).
Proof. intros l1 l2. apply sumZ_Permutation. Qed.

Lemma sumZ_ext {A} (f g : A → Z) l :
  (∀ a, a ∈ l → f a = g a) → sumZ f l = sumZ g l.
Proof.
  induction l as [|a l IH]; intros H; [done|]. rewrite !sumZ_cons.
  rewrite (H a) by set_solver. rewrite IH by set_solver. done.
Qed.

Lemma sumZ_add {A} (f g : A → Z) l :
  sumZ (λ a, f a + g a)%Z l = (sumZ f l + sumZ g l)%Z.
Proof. induction l; [done|]. rewrite !sumZ_cons, IHl. lia. Qed.

Lemma sumZ_map {A B} (h : A → B) (f : B → Z) l :
  sumZ f (map h l) = sumZ (λ a, f (h a)) l.
Proof. induction l as [|a l IH]; [done|]. rewrite map_cons, !sumZ_cons, IH. done. Qed.

Lemma sumZ_const {A} (c : Z) (l : list A) :
  sumZ (λ _, c) l = (c * Z.of_nat (length l))%Z.
Proof. induction l; [simpl; lia|]. rewrite sumZ_cons, IHl. simpl length. lia. Qed.

Lemma sum_list_app (l1 l2 : list nat) : sum_list (l1 ++ l2) = sum_list l1 + sum_list l2.
Proof. induction l1 as [|n l1 IH]; simpl in *; lia. Qed.

(** [iter().filter(p).count()] *)
Definition count_if {A} (p : A → bool) (l : list A) : Z := sumZ (λ a, Z.b2z (p a)) l.

Section count_if.
Context {A : Type} (p : A → bool).
Implicit Types l : list A.

Lemma count_if_app l1 l2 : count_if p (l1 ++ l2) = (count_if p l1 + count_if p l2)%Z.
Proof. apply sumZ_app. Qed.

Lemma count_if_cons a l : count_if p (a :: l) = (Z.b2z (p a) + count_if p l)%Z.
Proof. done. Qed.

Lemma count_if_nonneg l : (0 ≤ count_if p l)%Z.
Proof. apply sumZ_nonneg. intros a _. by destruct (p a). Qed.

Lemma count_if_0 l : Forall (λ a, p a = false) l → count_if p l = 0%Z.
Proof. induction 1 as [|a l Ha]; [done|]. rewrite count_if_cons, Ha, ?length_cons. cbn [Z.b2z]. lia. Qed.

Lemma count_if_all l : Forall (λ a, p a = true) l → count_if p l = Z.of_nat (length l).
Proof. induction 1 as [|a l Ha]; [done|]. rewrite count_if_cons, Ha, ?length_cons. cbn [Z.b2z]. lia. Qed.

Lemma count_if_ext (q : A → bool) l : (∀ a, a ∈ l → p a = q a) → count_if p l = count_if q l.
Proof. intros E. apply sumZ_ext. intros a Ha. by rewrite E. Qed.
End count_if.

Lemma count_if_split {A} (p : A → bool) l : (count_if p l + count_if (λ a, negb (p a)) l = Z.of_nat (length l))%Z.
Proof. induction l as [|a l IH]; [done|]. rewrite !count_if_cons, length_cons. destruct (p a); cbn [Z.b2z negb]; lia. Qed.

#[export] Instance count_if_perm_proper {A} (p : A → bool) : Proper ((≡ₚ) ==> (=)) (count_if p).
Proof. intros l1 l2. apply sumZ_Permutation. Qed.

(** ** Sorting

    [slice::sort_by] is a stable sort; the comparison is the one of the code. *)

Section sort_by.
Context {A : Type} (cmp : A → A → comparison).

Fixpoint insert_by (x : A) (l : list A) : list A :=
  match l with
  | [] => [x]
  | y :: l' => match cmp x y with Gt => y :: insert_by x l' | _ => x :: y :: l' end
  end.

Definition sort_by (l : list A) : list A := foldr insert_by [] l.

Lemma insert_by_perm x l : insert_by x l ≡ₚ x :: l.
Proof.
  induction l as [|y l IH]; [done|]. simpl. destruct (cmp x y); try done.
  rewrite IH. apply Permutation_swap.
Qed.

Lemma sort_by_perm l : sort_by l ≡ₚ l.
Proof. induction l as [|x l IH]; [done|]. simpl. by rewrite insert_by_perm, IH. Qed.

Lemma insert_by_hd R x y l :
  HdRel R y l → R y x → HdRel R y (insert_by x l).
Proof. intros [|z l' Hz] Hx; simpl; [by constructor|]. destruct (cmp x z); by constructor. Qed.

(** Sortedness for any relation the comparison decides. *)
Lemma insert_by_sorted (R : relation A) x l :
  (∀ a b, cmp a b ≠ Gt → R a b) → (∀ a b, cmp a b = Gt → R b a) →
  Sorted R l → Sorted R (insert_by x l).
Proof.
  intros Hle Hgt. induction 1 as [|y l Hs IH Hhd]; [by repeat constructor|]. simpl.
  destruct (cmp x y) eqn:E.
  - constructor; [by constructor|]. constructor. apply Hle. congruence.
  - constructor; [by constructor|]. constructor. apply Hle. congruence.
  - constructor; [done|]. apply insert_by_hd; auto.
Qed.

Lemma sort_by_sorted (R : relation A) l :
  (∀ a b, cmp a b ≠ Gt → R a b) → (∀ a b, cmp a b = Gt → R b a) → Sorted R (sort_by l).
Proof. intros ? ?. induction l; simpl; [constructor|]. by apply insert_by_sorted. Qed.
End sort_by.

Lemma sorted_take {A} (R : relation A) n l : Sorted R l → Sorted R (take n l).
Proof.
  intros Hs. revert n. induction Hs as [|x l Hs IH Hhd]; intros [|n]; simpl; try constructor; [done|].
  destruct Hhd; destruct n; by constructor.
Qed.

(** ** The last [n] elements of a list: the contract of a bounded buffer *)

Definition last_n {A} (n : nat) (l : list A) : list A := drop (length l - n) l.

Section last_n.
Context {A : Type}.
Implicit Types l : list A.

Lemma last_n_length n l : length (last_n n l) = n `min` length l.
Proof. unfold last_n. rewrite length_drop. lia. Qed.

Lemma last_n_all n l : length l ≤ n → last_n n l = l.
Proof. intros. unfold last_n. by replace (length l - n) with 0 by lia. Qed.

(** Appending one element to a full buffer drops its oldest element. *)
Lemma last_n_snoc n l x :
  n ≠ 0 →
  last_n n (l ++ [x]) =
    let b := last_n n l ++ [x] in
    if bool_decide (n < length b) then tail b else b.
Proof.
  intros Hn. simpl. unfold last_n. rewrite !length_app. simpl.
  case_bool_decide as Hlt; rewrite length_drop in Hlt.
  - replace (length l + 1 - n) with (S (length l - n)) by lia.
    rewrite drop_app_le by lia.
    destruct (drop (length l - n) l) as [|y ys] eqn:E.
    { apply (f_equal length) in E. rewrite length_drop in E. simpl in E. lia. }
    replace (S (length l - n)) with (length l - n + 1) by lia.
    rewrite <- drop_drop, E. done.
  - replace (length l + 1 - n) with 0 by lia.
    replace (length l - n) with 0 by lia. done.
Qed.
End last_n.

(** ** Strings *)

Fixpoint join (sep : string) (l : list string) : string :=
  match l with
  | [] => ""
  | [s] => s
  | s :: l' => s +:+ sep +:+ join sep l'
  end.

Lemma string_app_nil s : "" +:+ s = s.
Proof. done. Qed.

Lemma string_app_cons c s t : String c s +:+ t = String c (s +:+ t).
Proof. done. Qed.

Lemma string_app_assoc (a b c : string) : (a +:+ b) +:+ c = a +:+ (b +:+ c).
Proof. induction a as [|x a IH]; [done|]. rewrite !string_app_cons. by rewrite IH. Qed.

Lemma string_length_app s1 s2 :
  String.length (s1 +:+ s2) = String.length s1 + String.length s2.
Proof. induction s1 as [|c s1 IH]; [done|]. rewrite string_app_cons. simpl. by rewrite IH. Qed.

(** [haystack.includes(needle)] / [haystack.contains(needle)]. *)
Fixpoint includes (needle haystack : string) : bool :=
  String.prefix needle haystack ||
  match haystack with
  | EmptyString => false
  | String _ rest => includes needle rest
  end.

Lemma includes_empty s : includes "" s = true.
Proof. destruct s; done. Qed.

Lemma includes_spec needle haystack :
  includes needle haystack = true ↔
  ∃ pre post, haystack = pre +:+ needle +:+ post.
Proof.
  assert (Hp : ∀ n h, String.prefix n h = true ↔ ∃ post, h = n +:+ post).
  { intros n. induction n as [|c n IH]; intros h.
    - split; [by exists h|destruct h; done].
    - destruct h as [|d h]; simpl; [split; [done|by intros [? ?]]|].
      destruct (Ascii.ascii_dec c d) as [->|Hne].
      + rewrite IH. split; intros [post Hpost]; exists post; [by rewrite Hpost|].
        by inversion Hpost.
      + split; [done|]. intros [post Hpost]. by inversion Hpost. }
  revert needle. induction haystack as [|c h IH]; intros needle; cbn [includes].
  - rewrite orb_true_iff, Hp. split.
    + intros [[post H]|]; [|done]. by exists "", post.
    + intros (pre & post & H). left. exists post. by destruct pre.
  - rewrite orb_true_iff, Hp, IH. split.
    + intros [[post H]|(pre & post & ->)]; [by exists "", post|].
      by exists (String c pre), post.
    + intros ([|d pre] & post & H); [left; by exists post|].
      right. exists pre, post. by inversion H.
Qed.

(** The decimal rendering of an integer, JavaScript's and Rust's alike. *)
Definition show_Z (n : Z) : string := pretty n.
