(* ===== verification/Float64.v ===== *)
(** * IEEE 754 binary64 numbers

    The [f64] of the Rust code and the [number] of the TypeScript code, as the
    Standard Library's executable [spec_float] at precision 53 and exponent
    range 1024.  Every operation below rounds to nearest even exactly as the
    hardware does, so the averages and rates the server computes and the
    thresholds the dashboard tests are the values of the program, not of an
    idealised arithmetic. *)

From S2P Require Import Prelude.
From Stdlib Require Import SpecFloat.

Abbreviation f64 := spec_float.

Module F64.
Definition prec : Z := 53.
Definition emax : Z := 1024.

(** [n as f64], and integer literals. *)
Definition of_Z (n : Z) : f64 := binary_normalize prec emax n 0 false.
Definition zero : f64 := S754_zero false.

Definition add : f64 → f64 → f64 := SFadd prec emax.
Definition mul : f64 → f64 → f64 := SFmul prec emax.
Definition div : f64 → f64 → f64 := SFdiv prec emax.

Definition is_nan (x : f64) : bool :=
  match x with S754_nan => true | _ => false end.

Definition cmp : f64 → f64 → option comparison := SFcompare.
Definition ge (x y : f64) : bool :=
  match cmp x y with Some Gt | Some Eq => true | _ => false end.

(** Rust's [f64::min]: the other operand when one of the two is NaN. *)
Definition min (x y : f64) : f64 :=
  if is_nan x then y
  else if is_nan y then x
  else match cmp x y with Some Gt => y | _ => x end.

(** The tie-breaking order of [sort_by]: [a.partial_cmp(&b).unwrap_or(Equal)]. *)
Definition partial_cmp_or_eq (x y : f64) : comparison := default Eq (cmp x y).

Definition is_finite (x : f64) : bool :=
  match x with S754_zero _ | S754_finite _ _ _ => true | _ => false end.

Lemma pos_cmp_flip m n : Pos.compare_cont Eq m n = CompOpp (Pos.compare_cont Eq n m).
Proof. apply Pos.compare_antisym. Qed.

(** The order is antisymmetric. *)
Lemma cmp_flip x y : cmp x y = CompOpp <$> cmp y x.
Proof.
  destruct x as [[]|[]| |[] m1 e1], y as [[]|[]| |[] m2 e2]; try done;
    unfold cmp, SFcompare; rewrite (Z.compare_antisym e2 e1), (pos_cmp_flip m1 m2);
    destruct (e2 ?= e1)%Z; simpl; by destruct (Pos.compare_cont Eq m2 m1).
Qed.

Lemma cmp_finite s1 m1 e1 s2 m2 e2 :
  is_Some (cmp (S754_finite s1 m1 e1) (S754_finite s2 m2 e2)).
Proof. unfold cmp. simpl. repeat case_match; eauto. Qed.

Lemma cmp_is_Some x y : is_nan x = false → is_nan y = false → is_Some (cmp x y).
Proof.
  destruct x as [[]|[]| |[] m1 e1], y as [[]|[]| |[] m2 e2];
    simpl; intros; try done; apply cmp_finite || (eexists; reflexivity).
Qed.

(** Whatever [x] is, [x.min(y)] is not above a [y] that is a number. *)
Lemma min_not_gt x y : is_nan y = false → cmp (min x y) y ≠ Some Gt.
Proof.
  intros Hy. unfold min. rewrite Hy.
  assert (Hrefl : cmp y y ≠ Some Gt).
  { destruct y as [[]|[]| |[] m e]; try done; unfold cmp; simpl;
      rewrite Z.compare_refl, ?Pos.compare_refl; done. }
  destruct (is_nan x) eqn:Hx; [done|].
  destruct (cmp x y) as [[]|] eqn:E; congruence.
Qed.

Lemma min_not_nan x y : is_nan y = false → is_nan (min x y) = false.
Proof. intros Hy. unfold min. rewrite Hy. repeat case_match; congruence. Qed.
End F64.

(** [x.toFixed(1)] of ECMAScript (Number.prototype.toFixed with one digit):
    the integer [n] with [n / 10] closest to the exact value of [x], the larger
    one on a tie, printed with one fraction digit.  [to_string] is the
    number-to-string conversion the specification falls back to from 10^21 on
    and for NaN and the infinities. *)
Definition toFixed1_digits (m : positive) (e : Z) : Z :=
  (if 0 <=? e
   then 10 * Z.pos m * 2 ^ e
   else (2 * (10 * Z.pos m) + 2 ^ (- e)) / (2 * 2 ^ (- e)))%Z.

Definition exceeds_10_21 (m : positive) (e : Z) : bool :=
  (if 0 <=? e then 10 ^ 21 <=? Z.pos m * 2 ^ e
   else 10 ^ 21 * 2 ^ (- e) <=? Z.pos m)%Z.

Definition toFixed1 (to_string : f64 → string) (x : f64) : string :=
  match x with
  | S754_zero _ => "0.0"
  | S754_finite s m e =>
      if exceeds_10_21 m e then to_string x
      else
        let n := toFixed1_digits m e in
        (if s then "-" else "") +:+
        show_Z (n `div` 10)%Z +:+ "." +:+ show_Z (n `mod` 10)%Z
  | _ => to_string x
  end.

(** The rounding of [toFixed1] is within half a unit of the last digit, and a
    tie goes up. *)
Lemma toFixed1_digits_close m e :
  (e < 0)%Z →
  (- 2 ^ (- e) <= 2 * (10 * Z.pos m) - 2 * (toFixed1_digits m e * 2 ^ (- e)) < 2 ^ (- e))%Z.
Proof.
  intros He. unfold toFixed1_digits.
  rewrite (proj2 (Z.leb_gt 0 e)) by lia.
  assert (0 < 2 ^ (- e))%Z by (apply Z.pow_pos_nonneg; lia).
  set (d := (2 ^ (- e))%Z) in *. set (a := (2 * (10 * Z.pos m))%Z).
  pose proof (Z.div_mod (a + d) (2 * d) ltac:(lia)).
  pose proof (Z.mod_pos_bound (a + d) (2 * d) ltac:(lia)).
  lia.
Qed.

Example toFixed1_third :
  toFixed1 (λ _, "") (F64.mul (F64.div (F64.of_Z 1) (F64.of_Z 3)) (F64.of_Z 100)) = "33.3".
Proof. vm_compute. reflexivity. Qed.

Example toFixed1_tie : toFixed1 (λ _, "") (F64.div (F64.of_Z 1) (F64.of_Z 4)) = "0.3".
Proof. vm_compute. reflexivity. Qed.
