(* ===== verification/Jsx.v ===== *)
(** * JSX trees, React Query results and the browser environment

    What the TypeScript components return, read and call:

    - [node]: the tree a component's JSX denotes.  Tags, texts, keys, data
      dependent properties and event handlers are kept; purely presentational
      properties ([sx], [variant], [size], [height], static [color]s and icons)
      are not part of the tree.
    - an event handler is the action it dispatches to the component's state
      machine, so a component with state is a pair of a [view] and a [step].
    - [query_result]: the three fields of React Query's result the components
      destructure.
    - [Host]: the locale dependent operations of the browser. *)

From S2P Require Import Prelude Float64.

(** ** The browser's locale and number formatting *)

Class Host := {
  toLocaleString : Z → string;          (** [Number.prototype.toLocaleString()] *)
  numberToString : f64 → string;        (** [String(x)] of a number *)
  toLowerCase : string → string;        (** [String.prototype.toLowerCase()] *)
  parseDate : string → option Z;        (** [new Date(ts).getTime()], [None] for NaN *)
  formatDate : Z → string;              (** [toLocaleString('zh-CN', {...})] *)
}.

(** ** JSX *)

Inductive node (A : Type) : Type :=
| Txt (s : string)
| El (tag : string) (props : list (string * prop A)) (children : list (node A))
with prop (A : Type) : Type :=
| PStr (s : string)
| PNum (n : Z)
| PF64 (x : f64)
| PBool (b : bool)
| PSome (n : node A)                    (** an element-valued property *)
| PUndef                                (** [undefined] *)
| PClick (a : A)                        (** [onClick], [onClose]: a fixed action *)
| PInput (f : string → A)               (** [onChange] of a text field or select *)
| PChange (f : Z → A).                  (** [onChange] of a pagination or tab bar *)
Arguments Txt {A} s.
Arguments El {A} tag props children.
Arguments PStr {A} s.
Arguments PNum {A} n.
Arguments PF64 {A} x.
Arguments PBool {A} b.
Arguments PSome {A} n.
Arguments PUndef {A}.
Arguments PClick {A} a.
Arguments PInput {A} f.
Arguments PChange {A} f.

(** [<>...</>] and a falsy child, which renders nothing. *)
Definition Frag {A} (l : list (node A)) : node A := El "" [] l.
Definition Nothing {A} : node A := Frag [].

(** [{cond && child}]. *)
Definition and_node {A} (b : bool) (n : node A) : node A := if b then n else Nothing.

(** [Array.from({ length: n }).map((_, i) => f i)]. *)
Definition array_from {A} (n : nat) (f : Z → node A) : list (node A) :=
  map (λ i, f (Z.of_nat i)) (seq 0 n).

(** [xs.map((x, i) => f x i)]. *)
Definition map_i {A B} (f : B → Z → node A) (l : list B) : list (node A) :=
  imap (λ i x, f x (Z.of_nat i)) l.

(** The elements of a given tag, outermost first, in document order. *)
Fixpoint elements_of {A} (t : string) (n : node A) : list (node A) :=
  match n with
  | Txt _ => []
  | El tag _ cs =>
      (if String.eqb tag t then [n] else []) ++ flat_map (elements_of t) cs
  end.

(** The visible text of a tree, in document order. *)
Fixpoint texts {A} (n : node A) : list string :=
  match n with
  | Txt s => [s]
  | El _ _ cs => flat_map texts cs
  end.

Definition prop_of {A} (k : string) (n : node A) : option (prop A) :=
  match n with
  | Txt _ => None
  | El _ ps _ => snd <$> find (λ kv, String.eqb (fst kv) k) ps
  end.

Definition keys_of {A} (l : list (node A)) : list (option (prop A)) :=
  map (prop_of "key") l.

Lemma elements_of_flat_map {A} t tag (ps : list (string * prop A)) cs :
  String.eqb tag t = false →
  elements_of t (El tag ps cs) = flat_map (elements_of t) cs.
Proof. intros H. simpl. by rewrite H. Qed.

Lemma length_array_from {A} n (f : Z → node A) : length (array_from n f) = n.
Proof. unfold array_from. by rewrite length_map, length_seq. Qed.

Lemma length_map_i {A B} (f : B → Z → node A) l : length (map_i f l) = length l.
Proof. unfold map_i. apply length_imap. Qed.

(** ** React Query results

    [useQuery] returns a result of which the components read [data],
    [isLoading] and [error]. *)

Record query_result (A : Type) := QueryResult {
  data : option A;
  isLoading : bool;
  error : option string;
}.
Arguments QueryResult {A}.
Arguments data {A}.
Arguments isLoading {A}.
Arguments error {A}.

(** A query that has been answered, or failed: not the case of a query whose
    first fetch is paused because the browser is offline, for which React Query
    reports [isLoading = false], no error and no data. *)
Definition settled {A} (q : query_result A) : Prop :=
  isLoading q = false → error q = None → is_Some (data q).

Definition success {A} (a : A) : query_result A := QueryResult (Some a) false None.
Definition loading {A} : query_result A := QueryResult None true None.
Definition failed {A} (e : string) : query_result A := QueryResult None false (Some e).
Definition paused {A} : query_result A := QueryResult None false None.

Definition has_error {A} (q : query_result A) : bool := bool_decide (is_Some (error q)).
