(* ===== verification/WebApi.v ===== *)
(** * The dashboard's API client (webui/src/lib/api.ts)

    The three [fetch] wrappers, the interfaces of the responses, the React
    Query hooks (key, URL, refetch interval) and mutations (request, keys they
    invalidate), and the query string the query-log hook builds.

    JSON documents are values of [json]; the TypeScript interfaces are records,
    and [decode_X] says which documents have the shape the interface declares. *)

From S2P Require Import Prelude Float64 Jsx.


(** ** JSON *)

Inductive json : Type :=
| JNull
| JBool (b : bool)
| JInt (n : Z)                         (** a number without a fraction part *)
| JFlt (x : f64)                       (** any other number *)
| JStr (s : string)
| JArr (l : list json)
| JObj (fields : list (string * json)).

(** [j.k] of a parsed document; [None] is [undefined]. *)
Definition jget (k : string) (j : json) : option json :=
  match j with
  | JObj fs => snd <$> find (λ kv, String.eqb (fst kv) k) fs
  | _ => None
  end.

Definition as_int (j : json) : option Z := match j with JInt n => Some n | _ => None end.
Definition as_number (j : json) : option f64 :=
  match j with JInt n => Some (F64.of_Z n) | JFlt x => Some x | _ => None end.
Definition as_string (j : json) : option string := match j with JStr s => Some s | _ => None end.
Definition as_bool (j : json) : option bool := match j with JBool b => Some b | _ => None end.
Definition as_list {A} (f : json → option A) (j : json) : option (list A) :=
  match j with JArr l => mapM f l | _ => None end.

Definition field {A} (k : string) (f : json → option A) (j : json) : option A :=
  jget k j ≫= f.
(** An optional property [k?: T | null]. *)
Definition field_opt {A} (k : string) (f : json → option A) (j : json) : option (option A) :=
  match jget k j with
  | None | Some JNull => Some None
  | Some v => a ← f v; Some (Some a)
  end.

(** ** fetch *)

Inductive method := GET | POST | DELETE.

Record Request := { req_method : method; req_path : string; req_body : option json }.

(** A response: the body is [None] when it is not a JSON document (an empty
    body in particular), in which case [res.json()] throws. *)
Record Response := { status : Z; statusText : string; body : option json }.

Definition ok (r : Response) : bool := ((200 <=? status r) && (status r <=? 299))%Z.

Definition api_error (r : Response) : string :=
  "API error: " +:+ show_Z (status r) +:+ " " +:+ statusText r.

Definition res_json (r : Response) : result json string :=
  match body r with
  | Some j => Ok j
  | None => Err "SyntaxError: Unexpected end of JSON input"
  end.

(** A promise is its outcome; [fetch] itself rejects on a network error. *)
Definition apiGet (fetch : Request → result Response string) (path : string)
  : result json string :=
  match fetch {| req_method := GET; req_path := path; req_body := None |} with
  | Err e => Err e
  | Ok res => if negb (ok res) then Err (api_error res) else res_json res
  end.

(** The result of a mutation is [undefined] ([None]) or a document. *)
Definition apiPost (fetch : Request → result Response string) (path : string)
    (b : option json) : result (option json) string :=
  match fetch {| req_method := POST; req_path := path; req_body := b |} with
  | Err e => Err e
  | Ok res =>
      if negb (ok res) then Err (api_error res)
      else if ((status res =? 201) || (status res =? 204))%Z then Ok None
      else match res_json res with Ok j => Ok (Some j) | Err e => Err e end
  end.

Definition apiDelete (fetch : Request → result Response string) (path : string)
    (b : option json) : result (option json) string :=
  match fetch {| req_method := DELETE; req_path := path; req_body := b |} with
  | Err e => Err e
  | Ok res =>
      if negb (ok res) then Err (api_error res)
      else if (status res =? 204)%Z then Ok None
      else match res_json res with Ok j => Ok (Some j) | Err e => Err e end
  end.

(** ** The interfaces of the responses *)

Record StatsSnapshot := {
  timestamp : Z;
  snap_total_queries : Z;
  snap_cache_hits : Z;
}.

Record StatsResponse := {
  uptime_secs : Z;
  active_queries : Z;
  cache_size : Z;
  cache_hits : Z;
  cache_query_hits : Z;
  total_queries : Z;
  bg_total_queries : Z;
  cache_hit_rate : f64;
  avg_query_time_ms : f64;
  cache_hit_avg_query_time_ms : f64;
  cache_miss_avg_query_time_ms : f64;
  cache_hit_queries : Z;
  cache_miss_queries : Z;
  bg_avg_query_time_ms : f64;
  stats_version : string;
  history : list StatsSnapshot;
}.

Record SystemStatusResponse := {
  ss_server_name : string;
  ss_version : string;
  build_date : string;
  ss_uptime : Z;
  config_loaded_at : string;
  ss_active_queries : Z;
}.

(** [query_type] arrives as a string or as [{"Unknown": n}]; the interface says
    [string], the component accepts both. *)
Record CacheEntry := {
  ce_name : string;
  hits : Z;
  last_access : string;
  query_type : json;
  records : list json;
}.

Record CachesResponse := { caches_count : Z; caches_total : Z; caches_data : list CacheEntry }.

Record CacheConfigResponse := { cc_size : option Z; cc_serve_expired : option bool }.

Record UpstreamServer := {
  us_name : option string;
  server : string;
  group : list string;
  protocol : string;
  security : string;
  ip : string;
  port : Z;
  us_status : string;
  query_total : Z;
  success_total : Z;
  failure_total : Z;
  avg_time_ms : f64;
  success_rate : f64;
}.

Record NameserversResponse := {
  ns_count : Z;
  ns_total : Z;
  ns_data : list UpstreamServer;
}.

Record Listener := { addr : string; ls_port : Z; ls_protocol : string }.
Record ListenersResponse := { ls_count : Z; ls_data : list Listener }.

Record QueryLogEntry := {
  time : string;
  client : string;
  domain : string;
  ql_query_type : string;
  elapsed_ms : f64;
  ql_result : string;
  speed_ms : option f64;
  source : string;
}.

Record QueryLogResponse := { ql_total : Z; ql_data : list QueryLogEntry }.

Record QueryLogParams := {
  p_limit : option Z;
  p_offset : option Z;
  p_domain : option string;
  p_client : option string;
  p_qtype : option string;
}.

Record NameCount := { nc_name : string; count : Z; nc_avg_time_ms : f64 }.

Record AddressEntry := { ae_domain : string; address : string }.
Record AddressesResponse := { addr_count : Z; addr_data : list AddressEntry }.

(** [forwards: unknown[]] is tested with [Array.isArray] before it is used. *)
Record ForwardEntry := { fw_name : string; fw_count : Z; forwards : json }.
Record ForwardsResponse := { fws_count : Z; fws_data : list ForwardEntry }.

Record ConfigResponse := { cfg_server_name : string; conf_dir : string }.
Record VersionResponse := { version : string }.

(** The documents that have the declared shape. *)

Definition decode_StatsSnapshot (j : json) : option StatsSnapshot :=
  t ← field "timestamp" as_int j;
  q ← field "total_queries" as_int j;
  h ← field "cache_hits" as_int j;
  Some {| timestamp := t; snap_total_queries := q; snap_cache_hits := h |}.

Definition decode_StatsResponse (j : json) : option StatsResponse :=
  up ← field "uptime_secs" as_int j;
  aq ← field "active_queries" as_int j;
  cs ← field "cache_size" as_int j;
  ch ← field "cache_hits" as_int j;
  cqh ← field "cache_query_hits" as_int j;
  tq ← field "total_queries" as_int j;
  bg ← field "bg_total_queries" as_int j;
  hr ← field "cache_hit_rate" as_number j;
  av ← field "avg_query_time_ms" as_number j;
  hav ← field "cache_hit_avg_query_time_ms" as_number j;
  mav ← field "cache_miss_avg_query_time_ms" as_number j;
  hq ← field "cache_hit_queries" as_int j;
  mq ← field "cache_miss_queries" as_int j;
  bav ← field "bg_avg_query_time_ms" as_number j;
  v ← field "version" as_string j;
  hi ← field "history" (as_list decode_StatsSnapshot) j;
  Some {| uptime_secs := up; active_queries := aq; cache_size := cs; cache_hits := ch;
          cache_query_hits := cqh; total_queries := tq; bg_total_queries := bg;
          cache_hit_rate := hr; avg_query_time_ms := av;
          cache_hit_avg_query_time_ms := hav; cache_miss_avg_query_time_ms := mav;
          cache_hit_queries := hq; cache_miss_queries := mq;
          bg_avg_query_time_ms := bav; stats_version := v; history := hi |}.

Definition decode_SystemStatusResponse (j : json) : option SystemStatusResponse :=
  n ← field "server_name" as_string j;
  v ← field "version" as_string j;
  b ← field "build_date" as_string j;
  u ← field "uptime" as_int j;
  c ← field "config_loaded_at" as_string j;
  a ← field "active_queries" as_int j;
  Some {| ss_server_name := n; ss_version := v; build_date := b; ss_uptime := u;
          config_loaded_at := c; ss_active_queries := a |}.

(** What the pages read of an entry, whose type may be a string or an object. *)
Definition read_CacheEntry (j : json) : option CacheEntry :=
  n ← field "name" as_string j;
  h ← field "hits" as_int j;
  l ← field "last_access" as_string j;
  q ← jget "query_type" j;
  r ← field "records" (as_list Some) j;
  Some {| ce_name := n; hits := h; last_access := l; query_type := q; records := r |}.
(** What the interface declares: the type is a string. *)
Definition decode_CacheEntry (j : json) : option CacheEntry :=
  _ ← field "query_type" as_string j;
  read_CacheEntry j.

Definition caches_response (entry : json → option CacheEntry) (j : json) : option CachesResponse :=
  c ← field "count" as_int j;
  t ← field "total" as_int j;
  d ← field "data" (as_list entry) j;
  Some {| caches_count := c; caches_total := t; caches_data := d |}.
Definition read_CachesResponse : json → option CachesResponse := caches_response read_CacheEntry.
Definition decode_CachesResponse : json → option CachesResponse := caches_response decode_CacheEntry.

Definition decode_UpstreamServer (j : json) : option UpstreamServer :=
  n ← field_opt "name" as_string j;
  s ← field "server" as_string j;
  g ← field "group" (as_list as_string) j;
  p ← field "protocol" as_string j;
  sec ← field "security" as_string j;
  i ← field "ip" as_string j;
  po ← field "port" as_int j;
  st ← field "status" as_string j;
  q ← field "query_total" as_int j;
  su ← field "success_total" as_int j;
  f ← field "failure_total" as_int j;
  a ← field "avg_time_ms" as_number j;
  r ← field "success_rate" as_number j;
  Some {| us_name := n; server := s; group := g; protocol := p; security := sec; ip := i;
          port := po; us_status := st; query_total := q; success_total := su;
          failure_total := f; avg_time_ms := a; success_rate := r |}.

Definition decode_NameserversResponse (j : json) : option NameserversResponse :=
  c ← field "count" as_int j;
  t ← field "total" as_int j;
  d ← field "data" (as_list decode_UpstreamServer) j;
  Some {| ns_count := c; ns_total := t; ns_data := d |}.

Definition decode_Listener (j : json) : option Listener :=
  a ← field "addr" as_string j;
  p ← field "port" as_int j;
  pr ← field "protocol" as_string j;
  Some {| addr := a; ls_port := p; ls_protocol := pr |}.

Definition decode_QueryLogEntry (j : json) : option QueryLogEntry :=
  t ← field "time" as_string j;
  c ← field "client" as_string j;
  d ← field "domain" as_string j;
  q ← field "query_type" as_string j;
  e ← field "elapsed_ms" as_number j;
  r ← field "result" as_string j;
  s ← field_opt "speed_ms" as_number j;
  so ← field "source" as_string j;
  Some {| time := t; client := c; domain := d; ql_query_type := q; elapsed_ms := e;
          ql_result := r; speed_ms := s; source := so |}.

Definition decode_QueryLogResponse (j : json) : option QueryLogResponse :=
  t ← field "total" as_int j;
  d ← field "data" (as_list decode_QueryLogEntry) j;
  Some {| ql_total := t; ql_data := d |}.

Definition decode_NameCount (j : json) : option NameCount :=
  n ← field "name" as_string j;
  c ← field "count" as_int j;
  a ← field "avg_time_ms" as_number j;
  Some {| nc_name := n; count := c; nc_avg_time_ms := a |}.

Definition decode_AddressEntry (j : json) : option AddressEntry :=
  d ← field "domain" as_string j;
  a ← field "address" as_string j;
  Some {| ae_domain := d; address := a |}.

Definition decode_AddressesResponse (j : json) : option AddressesResponse :=
  c ← field "count" as_int j;
  d ← field "data" (as_list decode_AddressEntry) j;
  Some {| addr_count := c; addr_data := d |}.

Definition decode_VersionResponse (j : json) : option VersionResponse :=
  v ← field "version" as_string j;
  Some {| version := v |}.

(** ** The query string: [URLSearchParams]

    The application/x-www-form-urlencoded serializer and parser of the URL
    standard, on the UTF-8 bytes of the strings. *)

Definition hex_digit (n : nat) : ascii :=
  if n <? 10 then ascii_of_nat (48 + n) else ascii_of_nat (55 + n).

Definition hex_value (c : ascii) : option nat :=
  let n := nat_of_ascii c in
  if (48 <=? n) && (n <=? 57) then Some (n - 48)
  else if (65 <=? n) && (n <=? 70) then Some (n - 55)
  else if (97 <=? n) && (n <=? 102) then Some (n - 87)
  else None.

(** Left as they are: ASCII letters and digits and [*-._]. *)
Definition unreserved (c : ascii) : bool :=
  let n := nat_of_ascii c in
  ((48 <=? n) && (n <=? 57)) || ((65 <=? n) && (n <=? 90)) ||
  ((97 <=? n) && (n <=? 122)) || existsb (Nat.eqb n) [42; 45; 46; 95].

Definition encode_byte (c : ascii) (rest : string) : string :=
  if (nat_of_ascii c =? 32) then String "+" rest
  else if unreserved c then String c rest
  else String "%" (String (hex_digit (nat_of_ascii c / 16))
                     (String (hex_digit (nat_of_ascii c mod 16)) rest)).

Fixpoint form_encode (s : string) : string :=
  match s with
  | EmptyString => EmptyString
  | String c s' => encode_byte c (form_encode s')
  end.

Definition to_query_string (params : list (string * string)) : string :=
  join "&" (map (λ kv, form_encode (fst kv) +:+ "=" +:+ form_encode (snd kv)) params).

(** The parser's percent decoding. *)
Fixpoint form_decode (s : string) : string :=
  match s with
  | EmptyString => EmptyString
  | String c s' =>
      if (nat_of_ascii c =? 43) then String " " (form_decode s')
      else if (nat_of_ascii c =? 37) then
        match s' with
        | String a (String b rest) =>
            match hex_value a, hex_value b with
            | Some x, Some y => String (ascii_of_nat (x * 16 + y)) (form_decode rest)
            | _, _ => String c (form_decode s')
            end
        | _ => String c (form_decode s')
        end
      else String c (form_decode s')
  end.

(** [break c s] is [s] up to the first [c], and what follows it. *)
Fixpoint break (c : ascii) (s : string) : string * option string :=
  match s with
  | EmptyString => (EmptyString, None)
  | String d s' =>
      if ascii_dec d c then (EmptyString, Some s')
      else let '(a, b) := break c s' in (String d a, b)
  end.

Definition parse_pair (s : string) : string * string :=
  let '(k, v) := break "=" s in (form_decode k, form_decode (default "" v)).

(** The pieces between [&]s; the fuel is the length of the input. *)
Fixpoint split_amp (fuel : nat) (s : string) : list string :=
  match fuel with
  | 0 => [s]
  | S fuel' =>
      match break "&" s with
      | (a, None) => [a]
      | (a, Some rest) => a :: split_amp fuel' rest
      end
  end.

Definition parse_query_string (s : string) : list (string * string) :=
  map parse_pair (filter (λ p, p ≠ "") (split_amp (String.length s) s)).

(** ** Hooks and mutations *)

Inductive key_elem := KStr (s : string) | KNum (n : Z) | KBool (b : bool) | KUndef.

Record query_options := {
  queryKey : list key_elem;
  queryPath : string;
  refetchInterval : option Z;           (** milliseconds; [None] is [false] *)
}.

Definition statsKeys := [KStr "stats"].
Definition systemStatusKeys := [KStr "system-status"].
Definition cachesKeys := [KStr "caches"].
Definition cacheConfigKeys := [KStr "cache-config"].
Definition nameserversKeys := [KStr "nameservers"].
Definition listenersKeys := [KStr "listeners"].
Definition addressesKeys := [KStr "addresses"].
Definition forwardsKeys := [KStr "forwards"].
Definition configKeys := [KStr "config"].
Definition versionKeys := [KStr "version"].

Definition useStats : query_options :=
  {| queryKey := statsKeys; queryPath := "/api/stats"; refetchInterval := Some 5000%Z |}.

Definition useSystemStatus : query_options :=
  {| queryKey := systemStatusKeys; queryPath := "/api/system/status"; refetchInterval := None |}.

Definition useCaches (offset limit : Z) : query_options :=
  {| queryKey := cachesKeys ++ [KNum offset; KNum limit];
     queryPath := "/api/caches?offset=" +:+ show_Z offset +:+ "&limit=" +:+ show_Z limit;
     refetchInterval := Some 5000%Z |}.

Definition useCacheConfig : query_options :=
  {| queryKey := cacheConfigKeys; queryPath := "/api/caches/config"; refetchInterval := None |}.

Definition useNameservers : query_options :=
  {| queryKey := nameserversKeys; queryPath := "/api/nameservers"; refetchInterval := Some 5000%Z |}.

Definition key_num (o : option Z) : key_elem := from_option KNum KUndef o.
Definition key_str (o : option string) : key_elem := from_option KStr KUndef o.

(** [if (x) query.set(k, x)]: the empty string is not sent. *)
Definition set_if_truthy (k : string) (o : option string) : list (string * string) :=
  match o with
  | Some v => if bool_decide (v = "") then [] else [(k, v)]
  | None => []
  end.

Definition set_if_number (k : string) (o : option Z) : list (string * string) :=
  match o with Some n => [(k, show_Z n)] | None => [] end.

Definition query_log_search (p : QueryLogParams) : list (string * string) :=
  set_if_number "limit" (p_limit p) ++ set_if_number "offset" (p_offset p) ++
  set_if_truthy "domain" (p_domain p) ++ set_if_truthy "client" (p_client p) ++
  set_if_truthy "qtype" (p_qtype p).

Definition useQueryLog (p : QueryLogParams) (autoRefresh : bool) : query_options :=
  let qs := to_query_string (query_log_search p) in
  {| queryKey := [KStr "query-log"; key_num (p_limit p); key_num (p_offset p);
                  key_str (p_domain p); key_str (p_client p); key_str (p_qtype p);
                  KBool autoRefresh];
     queryPath := "/api/query-log" +:+ (if bool_decide (qs = "") then "" else "?" +:+ qs);
     refetchInterval := if autoRefresh then Some 5000%Z else None |}.

Definition useTopDomains (limit : Z) : query_options :=
  {| queryKey := [KStr "top-domains"; KNum limit];
     queryPath := "/api/stats/top-domains?limit=" +:+ show_Z limit;
     refetchInterval := Some 10000%Z |}.

Definition useClients (limit : Z) : query_options :=
  {| queryKey := [KStr "clients"; KNum limit];
     queryPath := "/api/stats/clients?limit=" +:+ show_Z limit;
     refetchInterval := Some 10000%Z |}.

Definition useListeners : query_options :=
  {| queryKey := listenersKeys; queryPath := "/api/listeners"; refetchInterval := None |}.

Definition useAddresses : query_options :=
  {| queryKey := addressesKeys; queryPath := "/api/addresses"; refetchInterval := None |}.

Definition useForwards : query_options :=
  {| queryKey := forwardsKeys; queryPath := "/api/forwards"; refetchInterval := None |}.

Definition useConfig : query_options :=
  {| queryKey := configKeys; queryPath := "/api/config"; refetchInterval := None |}.

Definition useVersion : query_options :=
  {| queryKey := versionKeys; queryPath := "/api/version"; refetchInterval := None |}.

(** A mutation: what it sends, and the keys its [onSuccess] invalidates. *)
Record mutation_options := {
  mutationFn : (Request → result Response string) → result (option json) string;
  invalidates : list key_elem;
}.

Definition useFlushCache : mutation_options :=
  {| mutationFn := λ fetch, apiPost fetch "/api/caches/flush" None;
     invalidates := cachesKeys |}.

Definition useCreateAddress (dom adr : string) : mutation_options :=
  {| mutationFn := λ fetch, apiPost fetch "/api/addresses"
       (Some (JObj [("rule", JObj [("domain", JStr dom); ("address", JStr adr)])]));
     invalidates := addressesKeys |}.

Definition useDeleteAddress (dom : string) : mutation_options :=
  {| mutationFn := λ fetch, apiDelete fetch "/api/addresses" (Some (JObj [("domain", JStr dom)]));
     invalidates := addressesKeys |}.

Definition useReloadConfig : mutation_options :=
  {| mutationFn := λ fetch, apiPost fetch "/api/config/reload" None;
     invalidates := configKeys |}.

(** Every query of the dashboard. *)
Inductive hook :=
| HStats | HSystemStatus | HCaches (offset limit : Z) | HCacheConfig | HNameservers
| HQueryLog (p : QueryLogParams) (autoRefresh : bool) | HTopDomains (limit : Z)
| HClients (limit : Z) | HListeners | HAddresses | HForwards | HConfig | HVersion.

Definition options_of (h : hook) : query_options :=
  match h with
  | HStats => useStats | HSystemStatus => useSystemStatus
  | HCaches o l => useCaches o l | HCacheConfig => useCacheConfig
  | HNameservers => useNameservers | HQueryLog p a => useQueryLog p a
  | HTopDomains l => useTopDomains l | HClients l => useClients l
  | HListeners => useListeners | HAddresses => useAddresses
  | HForwards => useForwards | HConfig => useConfig | HVersion => useVersion
  end.

(** [invalidateQueries({ queryKey })] marks the queries whose key starts with it. *)
Definition invalidated (m : mutation_options) (h : hook) : Prop :=
  invalidates m `prefix_of` queryKey (options_of h).

(** ** Properties *)

Section query_string.

Fixpoint avoids (c : ascii) (s : string) : bool :=
  match s with
  | EmptyString => true
  | String d s' => (if ascii_dec d c then false else true) && avoids c s'
  end.

Lemma avoids_app c s1 s2 : avoids c (s1 +:+ s2) = avoids c s1 && avoids c s2.
Proof. induction s1 as [|d s1 IH]; [done|]. simpl. rewrite IH. by rewrite andb_assoc. Qed.

(** The delimiters of the format are never left unescaped. *)
Lemma avoids_form_encode c s :
  unreserved c = false → c ≠ "+"%char → c ≠ "%"%char → avoids c (form_encode s) = true.
Proof.
  intros Hu Hp Hq. induction s as [|d s IH]; [done|]. cbn [form_encode].
  unfold encode_byte. case_match; [simpl; case_match; [congruence|done]|].
  destruct (unreserved d) eqn:Hd.
  - simpl. case_match; [congruence|done].
  - assert (Hh : ∀ n, n < 16 → unreserved (hex_digit n) = true).
    { intros n Hn. do 16 (destruct n as [|n]; [done|]). lia. }
    assert (nat_of_ascii d < 256) by apply nat_ascii_bounded.
    pose proof (Hh (nat_of_ascii d / 16) ltac:(apply Nat.Div0.div_lt_upper_bound; lia)).
    pose proof (Hh (nat_of_ascii d mod 16) ltac:(apply Nat.mod_upper_bound; lia)).
    cbn [avoids]. repeat case_match; congruence || done.
Qed.

Lemma form_decode_encode_byte c rest :
  form_decode (encode_byte c rest) = String c (form_decode rest).
Proof. destruct c as [[] [] [] [] [] [] [] []]; reflexivity. Qed.

Lemma form_decode_encode s : form_decode (form_encode s) = s.
Proof.
  induction s as [|c s IH]; [done|]. cbn [form_encode].
  by rewrite form_decode_encode_byte, IH.
Qed.

Lemma break_none c s : avoids c s = true → break c s = (s, None).
Proof.
  induction s as [|d s IH]; [done|]. simpl. case_match; [done|]. simpl.
  intros H'. by rewrite IH.
Qed.

Lemma break_app c s1 s2 : avoids c s1 = true → break c (s1 +:+ String c s2) = (s1, Some s2).
Proof.
  induction s1 as [|d s1 IH]; simpl.
  - intros _. case_match; done.
  - case_match; [done|]. simpl. intros H'. by rewrite IH.
Qed.

Lemma parse_pair_encode k v :
  parse_pair (form_encode k +:+ "=" +:+ form_encode v) = (k, v).
Proof.
  unfold parse_pair.
  change (form_encode k +:+ "=" +:+ form_encode v)
    with (form_encode k +:+ String "=" (form_encode v)).
  rewrite break_app by (by apply avoids_form_encode).
  simpl. by rewrite !form_decode_encode.
Qed.

Lemma split_amp_join n l :
  l ≠ [] → Forall (λ s, avoids "&" s = true) l →
  String.length (join "&" l) ≤ n → split_amp n (join "&" l) = l.
Proof.
  revert n. induction l as [|s [|s' l] IH]; intros n Hne Hf Hn; [done| |].
  - inv Hf. destruct n; simpl; [done|]. by rewrite break_none.
  - inv Hf. change (join "&" (s :: s' :: l)) with (s +:+ String "&" (join "&" (s' :: l))) in *.
    rewrite string_length_app in Hn. simpl in Hn.
    destruct n as [|n]; [lia|]. cbn [split_amp]. rewrite break_app by done.
    rewrite IH; [done|done|done|]. simpl. lia.
Qed.
End query_string.

(** Whatever the user types in the filters, the query string carries it. *)
Lemma parse_to_query_string params : parse_query_string (to_query_string params) = params.
Proof.
  unfold parse_query_string, to_query_string.
  set (enc := λ kv : string * string, form_encode kv.1 +:+ "=" +:+ form_encode kv.2).
  destruct params as [|p ps]; [done|].
  rewrite split_amp_join; [|done| |done].
  2:{ apply Forall_map, Forall_forall. intros [k v] _. unfold enc. simpl.
      rewrite !avoids_app. simpl. by rewrite !avoids_form_encode. }
  induction (p :: ps) as [|[k v] l IH]; [done|].
  rewrite map_cons, filter_cons_True.
  - rewrite map_cons, IH. unfold enc. simpl fst. simpl snd. by rewrite parse_pair_encode.
  - unfold enc. simpl. destruct (form_encode k); done.
Qed.

Lemma key_num_inj a b : key_num a = key_num b → a = b.
Proof. destruct a, b; simpl; congruence. Qed.

Lemma key_str_inj a b : key_str a = key_str b → a = b.
Proof. destruct a, b; simpl; congruence. Qed.

(** A React Query cache key identifies one resource: two queries of the
    dashboard that share a key, and so share a cache entry, request the same
    URL with the same refetch interval. *)
Theorem query_key_determines_request (h1 h2 : hook)
    (Hkey : queryKey (options_of h1) = queryKey (options_of h2)) :
  queryPath (options_of h1) = queryPath (options_of h2) ∧
  refetchInterval (options_of h1) = refetchInterval (options_of h2).
Proof.
  destruct h1 as [| |o1 l1| | |p1 a1|l1|l1| | | | |],
           h2 as [| |o2 l2| | |p2 a2|l2|l2| | | | |];
    simpl in Hkey; try discriminate Hkey; try done; try (by injection Hkey as -> ->);
    try (by injection Hkey as ->).
  destruct p1, p2. simpl in Hkey.
  injection Hkey as ->%key_num_inj ->%key_num_inj ->%key_str_inj ->%key_str_inj
    ->%key_str_inj ->. done.
Qed.

Lemma query_key_determines_request_witness :
  queryKey (options_of (HCaches 50 50)) = queryKey (options_of (HCaches 50 50)) ∧
  queryPath (options_of (HCaches 50 50)) = "/api/caches?offset=50&limit=50".
Proof.
  split; [reflexivity|].
  etrans; [exact (proj1 (query_key_determines_request (HCaches 50 50) (HCaches 50 50) eq_refl))|].
  vm_compute. reflexivity.
Defined.

(** Flushing the cache refetches every page of the cache listing and no
    other query; adding or deleting an address rule refetches the rule list and
    no other query. *)
Theorem mutation_invalidates_exactly (h : hook) (dom adr : string) :
  (invalidated useFlushCache h ↔ ∃ offset limit, h = HCaches offset limit) ∧
  (invalidated (useCreateAddress dom adr) h ↔ h = HAddresses) ∧
  (invalidated (useDeleteAddress dom) h ↔ h = HAddresses).
Proof.
  unfold invalidated, useFlushCache, useCreateAddress, useDeleteAddress. simpl.
  assert (Hinj : ∀ a k l, [KStr a] `prefix_of` (k :: l) ↔ k = KStr a).
  { intros a k l. split.
    - intros [m Hm]. by inversion Hm.
    - intros ->. by exists l. }
  split_and!; destruct h; simpl; unfold cachesKeys, addressesKeys, statsKeys,
    systemStatusKeys, cacheConfigKeys, nameserversKeys, listenersKeys, forwardsKeys,
    configKeys, versionKeys; simpl; rewrite Hinj; clear Hinj; naive_solver.
Qed.

(** The outcome of a flush on every answer of the server: it succeeds
    exactly on 201, 204, or another success status with a JSON body. *)
Theorem apiPost_outcome fetch path b r (Hf : fetch {| req_method := POST; req_path := path; req_body := b |} = Ok r) :
  is_ok (apiPost fetch path b) = true ↔
  ok r = true ∧ (status r = 201%Z ∨ status r = 204%Z ∨ is_Some (body r)).
Proof.
  unfold apiPost. rewrite Hf. destruct (ok r); simpl; [|naive_solver].
  destruct ((status r =? 201) || (status r =? 204))%Z eqn:E.
  - apply orb_true_iff in E as [E%Z.eqb_eq|E%Z.eqb_eq]; naive_solver.
  - apply orb_false_iff in E as [E1%Z.eqb_neq E2%Z.eqb_neq].
    unfold res_json. destruct (body r); simpl; naive_solver.
Qed.

Lemma apiPost_outcome_witness :
  is_ok (apiPost (λ _, Ok {| status := 204; statusText := "No Content"; body := None |})
           "/api/caches/flush" None) = true.
Proof.
  apply (apiPost_outcome _ _ _ {| status := 204; statusText := "No Content"; body := None |} eq_refl).
  split; [reflexivity|]. right; left. reflexivity.
Defined.
