(* ===== verification/WebUtils.v ===== *)
(** * Formatting helpers of the dashboard

    [formatUptime] and [formatTimestamp] of webui/src/lib/utils.ts and
    [formatQueryType] of webui/src/app/dashboard/page.tsx.

    [formatUptime] receives [uptime_secs], a whole number of seconds below 2^53,
    on which the double division and [Math.floor] are the integer division. *)

From S2P Require Import Prelude Float64 Jsx WebApi.


Definition formatUptime (seconds : Z) : string :=
  let days := (seconds `div` 86400)%Z in
  let hours := ((seconds `mod` 86400) `div` 3600)%Z in
  let minutes := ((seconds `mod` 3600) `div` 60)%Z in
  let parts :=
    (if (0 <? days)%Z then [(show_Z days +:+ "天")] else []) ++
    (if (0 <? hours)%Z then [(show_Z hours +:+ "小时")] else []) ++
    [(show_Z minutes +:+ "分钟")] in
  join " " parts.

Definition formatTimestamp `{Host} (ts : string) : string :=
  if bool_decide (ts = "") then "-"
  else match parseDate ts with
       | None => "-"
       | Some t => formatDate t
       end.

(** [`UNKNOWN(${qt.Unknown})`]: the interpolation of a JSON value. *)
Definition json_to_string `{Host} (j : option json) : string :=
  match j with
  | Some (JStr s) => s
  | Some (JInt n) => show_Z n
  | Some (JFlt x) => numberToString x
  | Some (JBool b) => if b then "true" else "false"
  | Some JNull => "null"
  | Some (JArr _) => ""
  | Some (JObj _) => "[object Object]"
  | None => "undefined"
  end.

Definition formatQueryType `{Host} (qt : json) : string :=
  match qt with
  | JStr s => s
  | JObj fs =>
      match jget "Unknown" (JObj fs) with
      | Some v => "UNKNOWN(" +:+ json_to_string (Some v) +:+ ")"
      | None => "UNKNOWN"
      end
  | _ => "UNKNOWN"
  end.

(** ** Properties of [formatUptime] *)

Definition is_digit (c : ascii) : bool :=
  let n := nat_of_ascii c in (48 <=? n) && (n <=? 57).

Fixpoint all_digits (s : string) : bool :=
  match s with EmptyString => true | String c s' => is_digit c && all_digits s' end.

Definition starts_with_digit (s : string) : bool :=
  match s with EmptyString => false | String c _ => is_digit c end.

Lemma all_digits_app s1 s2 : all_digits (s1 +:+ s2) = all_digits s1 && all_digits s2.
Proof. induction s1 as [|c s1 IH]; [done|]. simpl. by rewrite IH, andb_assoc. Qed.

Lemma all_digits_pretty_N_go n s : all_digits s = true → all_digits (pretty_N_go n s) = true.
Proof.
  revert s. induction (N.lt_wf_0 n) as [n _ IH]. intros s Hs.
  assert (n = 0 ∨ 0 < n)%N as [->|Hn] by lia; [by rewrite pretty_N_go_0|].
  rewrite pretty_N_go_step by done. apply IH; [by apply N.div_lt|].
  simpl. rewrite Hs, andb_true_r. unfold pretty_N_char.
  pose proof (N.mod_lt n 10 ltac:(done)). by repeat (discriminate || case_match).
Qed.

Lemma all_digits_show n : (0 ≤ n)%Z → all_digits (show_Z n) = true.
Proof.
  intros Hn. destruct n as [|p|p]; [done| |lia].
  change (all_digits (pretty_N_go (N.pos p) "") = true). by apply all_digits_pretty_N_go.
Qed.

(** A number followed by a unit is read back unambiguously. *)
Lemma number_unit_inj a b r s :
  (0 ≤ a)%Z → (0 ≤ b)%Z →
  starts_with_digit r = false → starts_with_digit s = false →
  show_Z a +:+ r = show_Z b +:+ s → a = b ∧ r = s.
Proof.
  intros Ha Hb Hr Hs. pose proof (all_digits_show a Ha) as Da.
  pose proof (all_digits_show b Hb) as Db. intros E.
  enough (show_Z a = show_Z b ∧ r = s) as [E' ->].
  { split; [|done]. by apply (inj pretty) in E'. }
  clear Ha Hb. revert Da Db E. generalize (show_Z a) as x, (show_Z b) as y.
  induction x as [|c x IH]; intros [|d y]; 
    rewrite ?string_app_nil, ?string_app_cons; cbn [all_digits]; intros Da Db E.
  - done.
  - subst r. simpl in Hr. apply andb_true_iff in Db as [? _]. congruence.
  - subst s. simpl in Hs. apply andb_true_iff in Da as [? _]. congruence.
  - injection E as -> E. apply andb_true_iff in Da as [_ Da], Db as [_ Db].
    destruct (IH y Da Db E) as [-> ->]. done.
Qed.

(** Compares two strings that start with literals, up to the next number. *)
Ltac strip_units E :=
  rewrite ?string_app_cons, ?string_app_nil in E;
  repeat match type of E with
         | String _ _ = String _ _ => first [discriminate E | injection E as E]
         end; try discriminate E.

Lemma div_mod_minutes s :
  (0 ≤ s)%Z →
  (s `div` 60 = 1440 * (s `div` 86400) + 60 * ((s `mod` 86400) `div` 3600) + (s `mod` 3600) `div` 60)%Z.
Proof.
  intros Hs. Z.div_mod_to_equations. lia.
Qed.

(** The displayed uptime loses nothing but the seconds: two uptimes are
    shown alike exactly when they are the same number of whole minutes. *)
Theorem formatUptime_injective (s1 s2 : Z) (H1 : (0 ≤ s1)%Z) (H2 : (0 ≤ s2)%Z) :
  formatUptime s1 = formatUptime s2 ↔ (s1 `div` 60 = s2 `div` 60)%Z.
Proof.
  assert (Hd : ∀ s, (0 ≤ s)%Z → (0 ≤ s `div` 86400 ∧ 0 ≤ (s `mod` 86400) `div` 3600 < 24 ∧
                      0 ≤ (s `mod` 3600) `div` 60 < 60)%Z).
  { intros s Hs. Z.div_mod_to_equations. lia. }
  pose proof (Hd s1 H1) as (A1 & B1 & C1). pose proof (Hd s2 H2) as (A2 & B2 & C2).
  rewrite (div_mod_minutes s1), (div_mod_minutes s2) by done. unfold formatUptime.
  set (d1 := (s1 `div` 86400)%Z) in *. set (d2 := (s2 `div` 86400)%Z) in *.
  set (h1 := ((s1 `mod` 86400) `div` 3600)%Z) in *. set (h2 := ((s2 `mod` 86400) `div` 3600)%Z) in *.
  set (m1 := ((s1 `mod` 3600) `div` 60)%Z) in *. set (m2 := ((s2 `mod` 3600) `div` 60)%Z) in *.
  clearbody d1 d2 h1 h2 m1 m2. split.
  - intros E. destruct (0 <? d1)%Z eqn:?, (0 <? d2)%Z eqn:?, (0 <? h1)%Z eqn:?, (0 <? h2)%Z eqn:?;
      zify_bool; cbn [app join] in E; rewrite ?string_app_assoc in E;
      repeat (apply number_unit_inj in E as [-> E]; [|lia..|done|done]; strip_units E); lia.
  - intros E. assert (d1 = d2 ∧ h1 = h2 ∧ m1 = m2) as (-> & -> & ->) by lia. done.
Qed.

Lemma formatUptime_injective_witness :
  formatUptime 90061 = formatUptime 90119 ∧ formatUptime 90061 = "1天 1小时 1分钟".
Proof.
  split; [|reflexivity].
  apply (formatUptime_injective 90061 90119); [lia|lia|reflexivity].
Defined.
