(* ===== verification/WebOverview.v ===== *)
(** * The overview tab (webui/src/app/dashboard/page.tsx, lines 89-603)

    [MetricCard], the two rankings, the trend chart's series, the cache preview
    and the tab that puts them together.  A component that dereferences
    [undefined] throws: rendering is a partial function, [None] being the
    exception React turns into a blank page. *)

From S2P Require Import Prelude Float64 Jsx WebApi WebUtils.

Section overview.
Context `{Host} {A : Type}.

Definition MetricCard (title value : string) (subtitle : option string) : node A :=
  El "Card" []
    [El "CardContent" []
      ([El "Box" [] [El "Typography" [] [Txt title]];
        El "Typography" [] [Txt value]] ++
       match subtitle with
       | Some s => if bool_decide (s = "") then [Nothing] else [El "Typography" [] [Txt s]]
       | None => [Nothing]
       end)].

Definition MetricCardSkeleton : node A :=
  El "Card" [] [El "CardContent" []
    [El "Skeleton" [] []; El "Skeleton" [] []; El "Skeleton" [] []]].

Definition toFixed (x : f64) : string := toFixed1 numberToString x.

Definition rank_row (d : NameCount) (i : Z) : node A :=
  El "ListItem" [("key", PStr (nc_name d))]
    [El "ListItemText"
       [("primary", PSome (El "Typography" [] [Txt (nc_name d)]));
        ("secondary", PStr (toLocaleString (count d) +:+ " 次 · 平均 " +:+
                            toFixed (nc_avg_time_ms d) +:+ " ms"))] [];
     El "Chip" [("label", PStr ("#" +:+ show_Z (i + 1)))] []].

Definition rank_list (q : query_result (list NameCount)) : node A :=
  if isLoading q then
    El "Box" [] (array_from 5 (λ i, El "Skeleton" [("key", PNum i)] []))
  else
    match error q, data q with
    | Some _, _ | None, None | None, Some [] => El "Typography" [] [Txt "暂无数据"]
    | None, Some l => El "List" [] (map_i rank_row l)
    end.

Definition TopDomainsList (top_domains : query_result (list NameCount)) : node A :=
  rank_list top_domains.

Definition ClientsList (clients : query_result (list NameCount)) : node A :=
  rank_list clients.

(** [stats != null ? `${...}` : "—"] *)
Definition stat_value (stats : option StatsResponse) (f : StatsResponse → f64)
    (unit : string) : string :=
  match stats with Some s => toFixed (f s) +:+ unit | None => "—" end.

Record point := { px : Z; py : Z }.
Record series := { series_name : string; series_data : list point }.

(** [stats?.history?.length ? stats.history : [one synthetic point]] *)
Definition chart_points (stats : option StatsResponse) : list StatsSnapshot :=
  match stats with
  | Some s =>
      match history s with
      | [] => [{| timestamp := 0; snap_total_queries := total_queries s;
                  snap_cache_hits := cache_hits s |}]
      | h => h
      end
  | None => [{| timestamp := 0; snap_total_queries := 0; snap_cache_hits := 0 |}]
  end.

Definition chartSeries (stats : option StatsResponse) : list series :=
  [{| series_name := "总查询数";
      series_data := map (λ p, {| px := timestamp p * 1000; py := snap_total_queries p |})
                       (chart_points stats) |};
   {| series_name := "缓存命中";
      series_data := map (λ p, {| px := timestamp p * 1000; py := snap_cache_hits p |})
                       (chart_points stats) |}].

(** One cell of the metric grid; the card is evaluated only in the last branch. *)
Definition metric_cell (q : query_result StatsResponse) (card : option (node A))
  : option (node A) :=
  if isLoading q then Some (El "Grid" [] [MetricCardSkeleton])
  else if has_error q then
    Some (El "Grid" [] [El "Alert" [("severity", PStr "error")] [Txt "加载失败"]])
  else c ← card; Some (El "Grid" [] [c]).

Definition metric_grid (q : query_result StatsResponse) : option (list (node A)) :=
  let stats := data q in
  let hitRateValue := stat_value stats cache_hit_rate "%" in
  let avgTimeValue := stat_value stats avg_query_time_ms " ms" in
  let cacheHitAvgTimeValue := stat_value stats cache_hit_avg_query_time_ms " ms" in
  let cacheMissAvgTimeValue := stat_value stats cache_miss_avg_query_time_ms " ms" in
  let bgAvgTimeValue := stat_value stats bg_avg_query_time_ms " ms" in
  mapM (metric_cell q)
    [ (s ← stats; Some (MetricCard "运行时间" (formatUptime (uptime_secs s)) None));
      (s ← stats; Some (MetricCard "缓存命中率" hitRateValue
         (Some (toLocaleString (cache_query_hits s) +:+ " 命中 / " +:+
                toLocaleString (total_queries s) +:+ " 总查询"))));
      (s ← stats; Some (MetricCard "综合平均查询时间" avgTimeValue
         (Some (toLocaleString (cache_hit_queries s) +:+ " 命中 + " +:+
                toLocaleString (cache_miss_queries s) +:+ " 未命中"))));
      (s ← stats; Some (MetricCard "缓存命中耗时" cacheHitAvgTimeValue
         (Some (toLocaleString (cache_hit_queries s) +:+ " 次命中"))));
      (s ← stats; Some (MetricCard "上游查询耗时" cacheMissAvgTimeValue
         (Some (toLocaleString (cache_miss_queries s) +:+ " 次未命中"))));
      Some (MetricCard "后台预取耗时" bgAvgTimeValue (Some "缓存预取平均耗时"));
      (s ← stats; Some (MetricCard "总查询数" (toLocaleString (total_queries s)) None));
      (s ← stats; Some (MetricCard "后台查询数" (toLocaleString (bg_total_queries s))
         (Some "缓存预取等后台任务")));
      (s ← stats; Some (MetricCard "缓存条目数" (toLocaleString (cache_size s)) None));
      (s ← stats; Some (MetricCard "活跃查询数" (show_Z (active_queries s)) None)) ].

Definition cache_row (entry : CacheEntry) : node A :=
  El "TableRow" [("key", PStr (ce_name entry +:+ "-" +:+ formatQueryType (query_type entry)))]
    [El "TableCell" [] [El "Typography" [] [Txt (ce_name entry)]];
     El "TableCell" [] [El "Chip" [("label", PStr (formatQueryType (query_type entry)))] []];
     El "TableCell" [] [Txt (toLocaleString (hits entry))];
     El "TableCell" [] [Txt (formatTimestamp (last_access entry))]].

Definition cache_table_head : node A :=
  El "TableHead" [] [El "TableRow" []
    [El "TableCell" [] [Txt "域名"]; El "TableCell" [] [Txt "类型"];
     El "TableCell" [] [Txt "命中次数"]; El "TableCell" [] [Txt "最后访问"]]].

Definition table_skeleton (n : nat) : node A :=
  El "Box" [] (array_from n (λ i, El "Skeleton" [("key", PNum i)] [])).

Definition cache_preview (q : query_result CachesResponse) : node A :=
  if isLoading q then table_skeleton 5
  else if has_error q then El "Alert" [("severity", PStr "error")] [Txt "加载缓存数据失败"]
  else match caches_data <$> data q with
       | None | Some [] => El "Typography" [] [Txt "暂无缓存条目"]
       | Some l =>
           El "TableContainer" [] [El "Table" []
             [cache_table_head; El "TableBody" [] (map cache_row (take 10 l))]]
       end.

(** A font list as the style sheet spells it: quoted names, then a generic one. *)
Definition quoted (s : string) : string := String "034" (s +:+ String "034" "").
Definition font_family : string :=
  join ", " (map quoted ["Inter"; "Roboto"; "Helvetica"; "Arial"] ++ ["sans-serif"]).
(** [n / d] as the nearest number, for literals such as 0.3. *)
Definition literal (n d : Z) : json := JFlt (F64.div (F64.of_Z n) (F64.of_Z d)).

Definition chartOptions : json :=
  let label_colors := JObj [("colors", JStr "#9ca3af")] in
  JObj
    [ ("chart", JObj [("type", JStr "area"); ("background", JStr "transparent");
                      ("toolbar", JObj [("show", JBool false)]); ("fontFamily", JStr font_family)]);
      ("theme", JObj [("mode", JStr "dark")]);
      ("stroke", JObj [("curve", JStr "smooth"); ("width", JInt 2)]);
      ("fill", JObj [("type", JStr "gradient");
                     ("gradient", JObj [("shadeIntensity", JInt 1); ("opacityFrom", literal 3 10);
                                        ("opacityTo", literal 5 100)])]);
      ("colors", JArr [JStr "#42a5f5"; JStr "#66bb6a"]);
      ("xaxis", JObj [("type", JStr "datetime");
                      ("labels", JObj [("style", label_colors); ("datetimeUTC", JBool false)])]);
      ("yaxis", JObj [("labels", JObj [("style", label_colors)])]);
      ("grid", JObj [("borderColor", JStr "#1f2937"); ("strokeDashArray", JInt 4)]);
      ("legend", JObj [("labels", label_colors)]);
      ("tooltip", JObj [("theme", JStr "dark"); ("x", JObj [("format", JStr "HH:mm:ss")])]);
      ("dataLabels", JObj [("enabled", JBool false)]) ].

Definition chart_node (stats : option StatsResponse) : node A :=
  El "Card" [] [El "CardContent" []
    [El "Typography" [] [Txt "查询趋势"];
     El "Box" [] [El "Chart" [("type", PStr "area")]
       (map (λ s, El "Series" [("name", PStr (series_name s))]
                    (map (λ p, El "Point" [("x", PNum (px p)); ("y", PNum (py p))] [])
                       (series_data s)))
          (chartSeries stats))]]].

Definition OverviewTab (stats : query_result StatsResponse)
    (caches : query_result CachesResponse)
    (top_domains clients : query_result (list NameCount)) : option (node A) :=
  cells ← metric_grid stats;
  Some (El "Box" []
    [El "Typography" [] [Txt "系统概览"];
     El "Grid" [] cells;
     chart_node (data stats);
     El "Card" [] [El "CardContent" []
       [El "Typography" [] [Txt "缓存条目"]; cache_preview caches]];
     El "Grid" []
       [El "Grid" [] [El "Card" [] [El "CardContent" []
          [El "Box" [] [El "Typography" [] [Txt "热门域名 Top 10"]];
           TopDomainsList top_domains]]];
        El "Grid" [] [El "Card" [] [El "CardContent" []
          [El "Box" [] [El "Typography" [] [Txt "活跃客户端 Top 10"]];
           ClientsList clients]]]]]).

(** ** Properties *)

Lemma metric_cell_is_Some q c :
  is_Some (metric_cell q c) ↔ isLoading q = true ∨ is_Some (error q) ∨ is_Some c.
Proof.
  unfold metric_cell, has_error. destruct (isLoading q); [naive_solver|].
  case_bool_decide as E; [naive_solver|]. destruct c; simpl; naive_solver.
Qed.

(** Exactly the paused query, neither loading nor failed and without data,
    makes the grid throw. *)
Lemma metric_grid_is_Some q : is_Some (metric_grid q) ↔ settled q.
Proof.
  unfold metric_grid, settled. rewrite mapM_is_Some.
  destruct (data q) as [s|] eqn:Hd; simpl.
  - split; [eauto|]. intros _. repeat (constructor; [apply metric_cell_is_Some; eauto|]).
    constructor.
  - split.
    + intros Hf Hl He. inversion Hf as [|? ? Hc]; subst.
      apply metric_cell_is_Some in Hc as [|[|]]; [congruence| |done].
      rewrite He in *. done.
    + intros Hs. assert (isLoading q = true ∨ is_Some (error q)) as Hor.
      { destruct (isLoading q); [by left|]. right. destruct (error q) eqn:E; [by eexists|].
        exfalso. by destruct (Hs eq_refl eq_refl). }
      repeat (constructor; [apply metric_cell_is_Some; naive_solver|]). constructor.
Qed.

(** C34. The overview tab renders, whatever the four queries hold, exactly when
    the statistics query is loading, failed or has data: the non-null
    assertions [stats!] are safe except for a query paused before its first
    fetch. *)
Theorem overview_renders_iff_settled stats caches top_domains clients :
  is_Some (OverviewTab stats caches top_domains clients) ↔ settled stats.
Proof.
  rewrite <- metric_grid_is_Some. unfold OverviewTab.
  destruct (metric_grid stats); simpl; naive_solver.
Qed.

(** The two curves of the trend chart have the same abscissae, in order. *)
Lemma chart_series_aligned stats :
  map (λ s, map px (series_data s)) (chartSeries stats) =
  let xs := map (λ p, timestamp p * 1000)%Z (chart_points stats) in [xs; xs].
Proof. simpl. by rewrite !map_map. Qed.

(** Every curve has a colour of its own. *)
Lemma chart_colors stats : ∃ colors, jget "colors" chartOptions = Some (JArr colors) ∧
  length colors = length (chartSeries stats) ∧ NoDup colors.
Proof.
  exists [JStr "#42a5f5"; JStr "#66bb6a"]. split_and!; [done|done|].
  repeat constructor; rewrite ?list_elem_of_singleton; [done|]. apply not_elem_of_nil.
Qed.

Lemma chart_points_nonempty stats : chart_points stats ≠ [].
Proof. destruct stats as [s|]; simpl; [destruct (history s)|]; done. Qed.
End overview.
