(* ===== verification/WebUpstream.v ===== *)
(** * The upstream tab (webui/src/app/dashboard/page.tsx, lines 605-918)

    The per-server table with its totals and overall success rate, and the
    listener table. *)

From S2P Require Import Prelude Float64 Jsx WebApi WebUtils WebOverview.

Section upstream.
Context `{Host} {A : Type}.

(** [nsData.reduce((s, n) => s + (n.field || 0), 0)] *)
Definition reduce_total (f : UpstreamServer → Z) (nsData : list UpstreamServer) : Z :=
  fold_left (λ s n, s + f n)%Z nsData 0%Z.

Definition nsData (q : query_result NameserversResponse) : list UpstreamServer :=
  from_option ns_data [] (data q).

Definition overallRate (totalSuccess totalQueries : Z) : f64 :=
  if (0 <? totalQueries)%Z
  then F64.mul (F64.div (F64.of_Z totalSuccess) (F64.of_Z totalQueries)) (F64.of_Z 100)
  else F64.zero.

Definition statusChip (st : string) : node A :=
  let ok := bool_decide (st = "ok") in
  El "Chip" [("label", PStr (if ok then "正常" else "异常"));
             ("color", PStr (if ok then "success" else "error"));
             ("variant", PStr (if ok then "filled" else "outlined"))] [].

Definition rate_color (rate : f64) : string :=
  if F64.ge rate (F64.of_Z 90) then "success"
  else if F64.ge rate (F64.of_Z 50) then "warning" else "error".

Definition rateCell (rate : f64) : node A :=
  El "Box" []
    [El "Box" [] [El "Typography" [] [Txt (toFixed rate +:+ "%")]];
     El "LinearProgress" [("value", PF64 rate); ("color", PStr (rate_color rate))] []].

(** [x || fallback] on strings. *)
Definition or_else (s fallback : string) : string := if bool_decide (s = "") then fallback else s.

Definition ns_row (ns : UpstreamServer) (idx : Z) : node A :=
  El "TableRow" [("key", PNum idx)]
    [El "TableCell" [] [El "Typography" []
       [Txt (match group ns with [] => "-" | g => join ", " g end)]];
     El "TableCell" [] [El "Typography" []
       [Txt (match us_name ns with Some n => or_else n "-" | None => "-" end)]];
     El "TableCell" [] [El "Typography" [] [Txt (server ns)]];
     El "TableCell" [] [El "Typography" [] [Txt (ip ns +:+ ":" +:+ show_Z (port ns))]];
     El "TableCell" [] [El "Chip" [("label", PStr (or_else (protocol ns) "未知"))] []];
     El "TableCell" [] [El "Chip"
       [("label", PStr (or_else (security ns) "明文"));
        ("color", PStr (if bool_decide (security ns = "加密") then "secondary" else "default"))] []];
     El "TableCell" [] [statusChip (us_status ns)];
     El "TableCell" [] [Txt (toLocaleString (query_total ns))];
     El "TableCell" [] [Txt (toLocaleString (success_total ns))];
     El "TableCell" [] [Txt (toLocaleString (failure_total ns))];
     El "TableCell" [] [Txt (toFixed (avg_time_ms ns) +:+ " ms")];
     El "TableCell" [] [rateCell (success_rate ns)]].

Definition header_cells (l : list string) : node A :=
  El "TableHead" [] [El "TableRow" [] (map (λ t, El "TableCell" [] [Txt t]) l)].

Definition summary_card (title : string) (is_loading : bool) (content : node A) : node A :=
  El "Grid" [] [El "Card" [] [El "CardContent" []
    [El "Box" [] [El "Typography" [] [Txt title]];
     if is_loading then El "Skeleton" [] [] else content]]].

Definition upstream_summary (nameservers : query_result NameserversResponse)
    (listeners : query_result ListenersResponse) : node A :=
  let rows := nsData nameservers in
  let totalQueries := reduce_total query_total rows in
  let totalSuccess := reduce_total success_total rows in
  let totalFailure := reduce_total failure_total rows in
  El "Grid" []
    [summary_card "上游服务器数量" (isLoading nameservers)
       (El "Typography" [] [Txt (show_Z (from_option ns_count 0%Z (data nameservers)))]);
     summary_card "监听端口数量" (isLoading listeners)
       (El "Typography" [] [Txt (show_Z (from_option ls_count 0%Z (data listeners)))]);
     summary_card "上游总查询次数" (isLoading nameservers)
       (El "Box" []
          [El "Typography" [] [Txt (toLocaleString totalQueries)];
           El "Typography" [] [Txt ("成功 " +:+ toLocaleString totalSuccess +:+ " / 失败 " +:+
                                    toLocaleString totalFailure)]]);
     summary_card "总体成功率" (isLoading nameservers)
       (El "Typography" [] [Txt (toFixed (overallRate totalSuccess totalQueries) +:+ "%")])].

Definition ns_table (nameservers : query_result NameserversResponse) : node A :=
  if isLoading nameservers then table_skeleton 3
  else if has_error nameservers then
    El "Alert" [("severity", PStr "error")] [Txt "加载上游服务器数据失败"]
  else match nsData nameservers with
       | [] => El "Card" [] [El "CardContent" [] [El "Typography" [] [Txt "暂无上游服务器配置"]]]
       | rows =>
           El "TableContainer" [] [El "Table" []
             [header_cells ["分组"; "名称"; "地址"; "IP:端口"; "协议"; "安全"; "状态"; "查询";
                            "成功"; "失败"; "平均耗时"; "成功率"];
              El "TableBody" [] (map_i ns_row rows)]]
       end.

Definition listener_row (ls : Listener) (idx : Z) : node A :=
  El "TableRow" [("key", PNum idx)]
    [El "TableCell" [] [El "Typography" [] [Txt (addr ls)]];
     El "TableCell" [] [Txt (show_Z (ls_port ls))];
     El "TableCell" [] [El "Chip" [("label", PStr (ls_protocol ls))] []]].

Definition listener_table (listeners : query_result ListenersResponse) : node A :=
  if isLoading listeners then table_skeleton 3
  else if has_error listeners then
    El "Alert" [("severity", PStr "error")] [Txt "加载监听端口数据失败"]
  else match ls_data <$> data listeners with
       | None | Some [] =>
           El "Card" [] [El "CardContent" [] [El "Typography" [] [Txt "暂无监听端口配置"]]]
       | Some rows =>
           El "TableContainer" [] [El "Table" []
             [header_cells ["地址"; "端口"; "协议"];
              El "TableBody" [] (map_i listener_row rows)]]
       end.

Definition UpstreamTab (nameservers : query_result NameserversResponse)
    (listeners : query_result ListenersResponse) : node A :=
  El "Box" []
    [El "Typography" [] [Txt "上游服务器"];
     upstream_summary nameservers listeners;
     El "Typography" [] [Txt "上游 DNS 服务器"];
     ns_table nameservers;
     El "Typography" [] [Txt "监听端口"];
     listener_table listeners].
End upstream.

(** ** Properties *)

Lemma reduce_total_sum f l : reduce_total f l = sumZ f l.
Proof. unfold reduce_total. rewrite sumZ_fold_left. lia. Qed.

(** When each server's successes and failures add up to its queries, so do the
    totals of the summary cards. *)
Lemma totals_add_up (rows : list UpstreamServer)
    (Hrow : ∀ ns, ns ∈ rows → (success_total ns + failure_total ns = query_total ns)%Z) :
  (reduce_total success_total rows + reduce_total failure_total rows
   = reduce_total query_total rows)%Z.
Proof.
  rewrite !reduce_total_sum, <- sumZ_add. by apply sumZ_ext.
Qed.
