(* ===== verification/WebCacheTab.v ===== *)
(** * The cache tab (webui/src/app/dashboard/page.tsx, lines 920-1160)

    The component's state is the search text, the page, the snackbar and the
    pending flag of the flush mutation; its handlers are the actions of a state
    machine; the view decides which actions are available (the flush button is
    disabled while a flush is pending, the pagination only offers the existing
    pages and only when there are several). *)

From S2P Require Import Prelude Float64 Jsx WebApi WebUtils WebOverview.

Inductive Severity := SevSuccess | SevError.

Record Snackbar := { sb_open : bool; message : string; severity : Severity }.

Definition snackbar_init : Snackbar := {| sb_open := false; message := ""; severity := SevSuccess |}.
Definition show_success (m : string) : Snackbar :=
  {| sb_open := true; message := m; severity := SevSuccess |}.
Definition show_error (m : string) : Snackbar :=
  {| sb_open := true; message := m; severity := SevError |}.
Definition close_snackbar (s : Snackbar) : Snackbar :=
  {| sb_open := false; message := message s; severity := severity s |}.

Definition severity_str (s : Severity) : string :=
  match s with SevSuccess => "success" | SevError => "error" end.

Section snackbar_view.
Context {A : Type}.

Definition snackbar_node (s : Snackbar) (onClose : A) : node A :=
  El "Snackbar" [("open", PBool (sb_open s)); ("onClose", PClick onClose)]
    [El "Alert" [("onClose", PClick onClose); ("severity", PStr (severity_str (severity s)))]
       [Txt (message s)]].
End snackbar_view.

Module CacheTab.

Definition rowsPerPage : Z := 50.

Record state := {
  search : string;
  page : Z;
  snackbar : Snackbar;
  flushPending : bool;
}.

Definition init : state :=
  {| search := ""; page := 1; snackbar := snackbar_init; flushPending := false |}.

Definition offset (st : state) : Z := (page st - 1) * rowsPerPage.

(** The query the component runs in a state. *)
Definition query (st : state) : hook := HCaches (offset st) rowsPerPage.

Inductive action :=
| SetSearch (s : string)
| SetPage (p : Z)
| HandleFlush
| FlushSuccess
| FlushError
| CloseSnackbar.

Definition step (st : state) (a : action) : state :=
  match a with
  | SetSearch s =>
      {| search := s; page := page st; snackbar := snackbar st; flushPending := flushPending st |}
  | SetPage p =>
      {| search := search st; page := p; snackbar := snackbar st; flushPending := flushPending st |}
  | HandleFlush =>
      {| search := search st; page := page st; snackbar := snackbar st; flushPending := true |}
  | FlushSuccess =>
      {| search := search st; page := 1; snackbar := show_success "缓存已清空";
         flushPending := false |}
  | FlushError =>
      {| search := search st; page := page st; snackbar := show_error "清空缓存失败";
         flushPending := false |}
  | CloseSnackbar =>
      {| search := search st; page := page st; snackbar := close_snackbar (snackbar st);
         flushPending := flushPending st |}
  end.

(** [Math.ceil(total / rowsPerPage)] *)
Definition page_count (total : Z) : Z := (total + rowsPerPage - 1) `div` rowsPerPage.

(** [caches && caches.total > rowsPerPage] *)
Definition pagination_shown (q : query_result CachesResponse) : bool :=
  match data q with Some c => (rowsPerPage <? caches_total c)%Z | None => false end.

(** What the user, and the settling of the mutation, can do in a state. *)
Definition enabled (q : query_result CachesResponse) (st : state) (a : action) : bool :=
  match a with
  | SetSearch _ => true
  | SetPage p =>
      pagination_shown q &&
      match data q with
      | Some c => ((1 <=? p) && (p <=? page_count (caches_total c)))%Z
      | None => false
      end
  | HandleFlush => negb (flushPending st)
  | FlushSuccess | FlushError => flushPending st
  | CloseSnackbar => sb_open (snackbar st)
  end.

(** The states the component can be in, whatever its queries answer. *)
Inductive reachable : state → Prop :=
| reach_init : reachable init
| reach_step q st a : reachable st → enabled q st a = true → reachable (step st a).

Section view.
Context `{Host}.

Definition filteredCaches (st : state) (q : query_result CachesResponse) : list CacheEntry :=
  match data q with
  | Some c =>
      filter (λ e, includes (toLowerCase (search st)) (toLowerCase (ce_name e)) = true)
        (caches_data c)
  | None => []
  end.

Definition entries_table (st : state) (q : query_result CachesResponse) : node action :=
  if isLoading q then table_skeleton 5
  else if has_error q then
    El "Alert" [("severity", PStr "error")] [Txt "加载缓存数据失败"]
  else match filteredCaches st q with
       | [] => El "Typography" []
                 [Txt (if bool_decide (search st = "") then "暂无缓存条目"
                       else "未找到匹配的缓存条目")]
       | l => El "TableContainer" [] [El "Table" []
                [cache_table_head; El "TableBody" [] (map cache_row l)]]
       end.

Definition pagination (st : state) (q : query_result CachesResponse) : node action :=
  match data q with
  | Some c =>
      and_node (rowsPerPage <? caches_total c)%Z
        (El "Box" [] [El "Pagination"
           [("count", PNum (page_count (caches_total c)));
            ("page", PNum (page st)); ("onChange", PChange SetPage)] []])
  | None => Nothing
  end.

Definition config_cards (st : state) (q : query_result CachesResponse)
    (config : query_result CacheConfigResponse) : node action :=
  El "Grid" []
    [El "Grid" [] [El "Card" [] [El "CardContent" []
       [El "Box" [] [El "Typography" [] [Txt "缓存大小限制"]];
        if isLoading config then El "Skeleton" [] []
        else El "Typography" []
               [Txt (from_option show_Z "-" (data config ≫= cc_size))]]]];
     El "Grid" [] [El "Card" [] [El "CardContent" []
       [El "Box" [] [El "Typography" [] [Txt "当前缓存条目"]];
        if isLoading q then El "Skeleton" [] []
        else El "Typography" [] [Txt (show_Z (from_option caches_total 0%Z (data q)))]]]];
     El "Grid" [] [El "Card" [] [El "CardContent" []
       [El "Button"
          [("startIcon", PSome (if flushPending st then El "CircularProgress" [] []
                                else El "DeleteSweepIcon" [] []));
           ("onClick", PClick HandleFlush);
           ("disabled", PBool (flushPending st))] [Txt "清空缓存"]]]]].

Definition view (st : state) (q : query_result CachesResponse)
    (config : query_result CacheConfigResponse) : node action :=
  El "Box" []
    [El "Typography" [] [Txt "缓存管理"];
     config_cards st q config;
     El "Card" [] [El "CardContent" []
       [El "Box" []
          [El "Typography" [] [Txt "缓存条目"];
           El "TextField" [("value", PStr (search st)); ("onChange", PInput SetSearch)] []];
        entries_table st q;
        pagination st q]];
     snackbar_node (snackbar st) CloseSnackbar].

(** ** Properties *)

Lemma filteredCaches_spec st q e :
  e ∈ filteredCaches st q ↔
  (∃ c, data q = Some c ∧ e ∈ caches_data c) ∧
  includes (toLowerCase (search st)) (toLowerCase (ce_name e)) = true.
Proof.
  unfold filteredCaches. destruct (data q) as [c|]; [|set_solver].
  rewrite list_elem_of_filter. naive_solver.
Qed.

(** The rows of the table are the rows of the matching entries of the page,
    in the server's order. *)
Lemma entries_table_rows st q :
  isLoading q = false → error q = None → filteredCaches st q ≠ [] →
  entries_table st q = El "TableContainer" [] [El "Table" []
    [cache_table_head; El "TableBody" [] (map cache_row (filteredCaches st q))]].
Proof.
  intros Hl He Hf. unfold entries_table, has_error. rewrite Hl, He.
  rewrite bool_decide_eq_false_2 by (by intros [? ?]).
  by destruct (filteredCaches st q).
Qed.

Lemma no_pagination_in_rows (l : list CacheEntry) :
  flat_map (elements_of "Pagination") (map (cache_row (A := action)) l) = [].
Proof. induction l as [|e l IH]; [done|]. simpl. exact IH. Qed.

(** The pagination control is in the tree exactly when it is offered. *)
Lemma pagination_in_view st q config :
  length (elements_of "Pagination" (view st q config)) =
  if pagination_shown q then 1 else 0.
Proof.
  assert (Ht : elements_of "Pagination" (entries_table st q) = []).
  { unfold entries_table. destruct (isLoading q); [done|].
    destruct (has_error q); [done|].
    destruct (filteredCaches st q) as [|e l]; [done|].
    transitivity (flat_map (elements_of "Pagination") (map (cache_row (A := action)) (e :: l)) ++ []).
    - simpl. by rewrite !app_nil_r.
    - rewrite app_nil_r. apply no_pagination_in_rows. }
  assert (Hp : length (elements_of "Pagination" (pagination st q)) =
               if pagination_shown q then 1 else 0).
  { unfold pagination, pagination_shown. destruct (data q) as [c|]; [|done].
    unfold and_node. by destruct (rowsPerPage <? caches_total c)%Z. }
  assert (Hc : elements_of "Pagination" (config_cards st q config) = []).
  { unfold config_cards. by destruct (isLoading config), (isLoading q), (flushPending st). }
  unfold view. do 3 (rewrite ?elements_of_flat_map by done; cbn [flat_map]).
  rewrite Ht, Hc. unfold snackbar_node.
  do 3 (rewrite ?elements_of_flat_map by done; cbn [flat_map]).
  cbn [elements_of app]. by rewrite !app_nil_r.
Qed.
End view.

Lemma reachable_page st : reachable st → (1 ≤ page st)%Z.
Proof.
  induction 1 as [|q st a _ IH Ha]; [done|].
  destruct a; simpl in *; try lia.
  apply andb_true_iff in Ha as [_ Ha]. destruct (data q); [|done].
  apply andb_true_iff in Ha as [Ha _]. by apply Z.leb_le in Ha.
Qed.

Lemma page_count_bounds total :
  (0 ≤ total)%Z →
  (rowsPerPage * (page_count total - 1) < total ∨ total = 0)%Z ∧
  (total ≤ rowsPerPage * page_count total)%Z.
Proof.
  unfold page_count, rowsPerPage. intros. Z.div_mod_to_equations. lia.
Qed.
End CacheTab.
