(* ===== verification/WebRules.v ===== *)
(** * The rules tab (webui/src/app/dashboard/page.tsx, lines 1162-1498)

    Address rules (list, add dialog, delete) as a state machine whose handlers
    may send a mutation, forward rules (list only), and the tab that shows one
    of the two. *)

From S2P Require Import Prelude Float64 Jsx WebApi WebUtils WebOverview WebUpstream WebCacheTab.

Definition RulesTabPanel {A} (value index : Z) (children : node A) : node A :=
  El "Box" [("role", PStr "tabpanel"); ("hidden", PBool (negb (value =? index)%Z))]
    [and_node (value =? index)%Z children].

Module AddressRules.

Record state := {
  dialogOpen : bool;
  domain : string;
  address : string;
  snackbar : Snackbar;
  createPending : bool;
  deletePending : bool;
}.

Definition init : state :=
  {| dialogOpen := false; domain := ""; address := ""; snackbar := snackbar_init;
     createPending := false; deletePending := false |}.

Inductive action :=
| SetDialogOpen (b : bool)
| SetDomain (s : string)
| SetAddress (s : string)
| HandleAdd
| AddSuccess
| AddError
| HandleDelete (d : string)
| DeleteSuccess
| DeleteError
| CloseSnackbar.

(** The requests the handlers send. *)
Inductive sent :=
| SCreate (d a : string)
| SDelete (d : string).

Definition mutation_of (s : sent) : mutation_options :=
  match s with
  | SCreate d a => useCreateAddress d a
  | SDelete d => useDeleteAddress d
  end.

(** [!domain || !address] *)
Definition incomplete (st : state) : bool :=
  bool_decide (domain st = "") || bool_decide (address st = "").

Definition with_snackbar (st : state) (s : Snackbar) (cp dp : bool) : state :=
  {| dialogOpen := dialogOpen st; domain := domain st; address := address st;
     snackbar := s; createPending := cp; deletePending := dp |}.

(** The handlers: the new state, and the mutation that is sent. *)
Definition step (st : state) (a : action) : state * option sent :=
  match a with
  | SetDialogOpen b =>
      ({| dialogOpen := b; domain := domain st; address := address st;
          snackbar := snackbar st; createPending := createPending st;
          deletePending := deletePending st |}, None)
  | SetDomain s =>
      ({| dialogOpen := dialogOpen st; domain := s; address := address st;
          snackbar := snackbar st; createPending := createPending st;
          deletePending := deletePending st |}, None)
  | SetAddress s =>
      ({| dialogOpen := dialogOpen st; domain := domain st; address := s;
          snackbar := snackbar st; createPending := createPending st;
          deletePending := deletePending st |}, None)
  | HandleAdd =>
      if incomplete st then (st, None)
      else (with_snackbar st (snackbar st) true (deletePending st),
            Some (SCreate (domain st) (address st)))
  | AddSuccess =>
      ({| dialogOpen := false; domain := ""; address := "";
          snackbar := show_success "地址规则添加成功"; createPending := false;
          deletePending := deletePending st |}, None)
  | AddError =>
      (with_snackbar st (show_error "添加地址规则失败") false (deletePending st), None)
  | HandleDelete d =>
      (with_snackbar st (snackbar st) (createPending st) true, Some (SDelete d))
  | DeleteSuccess =>
      (with_snackbar st (show_success "地址规则已删除") (createPending st) false, None)
  | DeleteError =>
      (with_snackbar st (show_error "删除地址规则失败") (createPending st) false, None)
  | CloseSnackbar =>
      (with_snackbar st (close_snackbar (snackbar st)) (createPending st) (deletePending st), None)
  end.

(** The add button is disabled while a creation is pending or a field is
    empty, the delete buttons while a deletion is pending. *)
Definition enabled (st : state) (a : action) : bool :=
  match a with
  | SetDialogOpen _ | SetDomain _ | SetAddress _ => true
  | HandleAdd => dialogOpen st && negb (createPending st) && negb (incomplete st)
  | AddSuccess | AddError => createPending st
  | HandleDelete _ => negb (deletePending st)
  | DeleteSuccess | DeleteError => deletePending st
  | CloseSnackbar => sb_open (snackbar st)
  end.

(** A run of the component: the actions so far and the requests sent, latest
    first. *)
Inductive run : state → list action → list sent → Prop :=
| run_init : run init [] []
| run_step st tr out a st' m :
    run st tr out → enabled st a = true → step st a = (st', m) →
    run st' (a :: tr) (option_list m ++ out).

Section view.
Context `{Host}.

Definition rule_row (st : state) (entry : AddressEntry) : node action :=
  El "TableRow" [("key", PStr (ae_domain entry))]
    [El "TableCell" [] [El "Typography" [] [Txt (ae_domain entry)]];
     El "TableCell" [] [El "Chip" [("label", PStr (WebApi.address entry))] []];
     El "TableCell" [] [El "IconButton"
       [("onClick", PClick (HandleDelete (ae_domain entry)));
        ("disabled", PBool (deletePending st))] [El "DeleteIcon" [] []]]].

Definition rules_table (st : state) (q : query_result AddressesResponse) : node action :=
  if isLoading q then table_skeleton 5
  else if has_error q then El "Alert" [("severity", PStr "error")] [Txt "加载地址规则失败"]
  else match addr_data <$> data q with
       | None | Some [] =>
           El "Card" [] [El "CardContent" [] [El "Typography" [] [Txt "暂无地址规则"]]]
       | Some l =>
           El "TableContainer" [] [El "Table" []
             [header_cells ["域名"; "IP 地址"; "操作"];
              El "TableBody" [] (map (rule_row st) l)]]
       end.

Definition add_dialog (st : state) : node action :=
  El "Dialog" [("open", PBool (dialogOpen st)); ("onClose", PClick (SetDialogOpen false))]
    [El "DialogTitle" [] [Txt "添加地址规则"];
     El "DialogContent" []
       [El "TextField" [("label", PStr "域名"); ("value", PStr (domain st));
                        ("onChange", PInput SetDomain)] [];
        El "TextField" [("label", PStr "地址"); ("value", PStr (address st));
                        ("onChange", PInput SetAddress)] []];
     El "DialogActions" []
       [El "Button" [("onClick", PClick (SetDialogOpen false))] [Txt "取消"];
        El "Button"
          [("onClick", PClick HandleAdd);
           ("disabled", PBool (createPending st || incomplete st));
           ("startIcon", if createPending st then PSome (El "CircularProgress" [] [])
                         else PUndef)] [Txt "添加"]]].

Definition view (st : state) (q : query_result AddressesResponse) : node action :=
  El "Box" []
    [El "Box" []
       [El "Typography" []
          [Txt ("地址规则 (" +:+ show_Z (from_option addr_count 0%Z (data q)) +:+ ")")];
        El "Button" [("onClick", PClick (SetDialogOpen true))] [Txt "添加规则"]];
     rules_table st q;
     add_dialog st;
     snackbar_node (snackbar st) CloseSnackbar].
End view.

(** ** Properties *)

Lemma enabled_iff_button st :
  dialogOpen st = true →
  enabled st HandleAdd = negb (createPending st || incomplete st).
Proof. intros Ho. simpl. rewrite Ho. simpl. by rewrite negb_orb. Qed.

Lemma incomplete_false st : incomplete st = false → domain st ≠ "" ∧ address st ≠ "".
Proof.
  unfold incomplete. rewrite orb_false_iff. intros [H1 H2].
  split; by eapply bool_decide_eq_false_1.
Qed.

Definition is_create (s : sent) : bool := match s with SCreate _ _ => true | _ => false end.
Definition settles_create (a : action) : bool :=
  match a with AddSuccess | AddError => true | _ => false end.
Definition settles_delete (a : action) : bool :=
  match a with DeleteSuccess | DeleteError => true | _ => false end.

Definition complete_request (s : sent) : Prop :=
  match s with SCreate d a => d ≠ "" ∧ a ≠ "" | SDelete _ => True end.

Definition number {X} (f : X → bool) (l : list X) : Z := sumZ (λ x, Z.b2z (f x)) l.

(** C33. In every run of the address-rule component, each creation request it
    sends has a non-empty domain and address, and at any time at most one
    creation and at most one deletion are in flight: the pending flags count
    exactly the requests sent and not yet settled. *)
Theorem address_rules_requests (st : state) (tr : list action) (out : list sent)
    (Hrun : run st tr out) :
  Forall complete_request out ∧
  number is_create out = (number settles_create tr + Z.b2z (createPending st))%Z ∧
  number (λ s, negb (is_create s)) out
    = (number settles_delete tr + Z.b2z (deletePending st))%Z.
Proof.
  induction Hrun as [|st tr out a st' m Hrun IH Hen Hstep]; [done|].
  destruct IH as (IHf & IHc & IHd).
  assert (Hcons : ∀ X (f : X → bool) x l, number f (x :: l) = (Z.b2z (f x) + number f l)%Z) by done.
  destruct a; simpl in Hen, Hstep;
    try (destruct (incomplete st) eqn:Hi; simpl in Hen; [by rewrite !andb_false_r in Hen|]);
    simplify_eq/=; rewrite ?Hcons; simpl;
    try (apply andb_true_iff in Hen as [Hen _]; apply andb_true_iff in Hen as [_ Hen]);
    try apply negb_true_iff in Hen; rewrite ?Hen in *; simpl in *;
    split_and!; try lia; try done.
  all: constructor; [|done]; simpl; try done. by apply incomplete_false.
Qed.

Lemma address_rules_requests_witness :
  ∃ st tr, run st tr [SCreate "example.com" "1.2.3.4"] ∧ createPending st = true ∧
           Forall complete_request [SCreate "example.com" "1.2.3.4"].
Proof.
  set (s1 := fst (step init (SetDialogOpen true))).
  set (s2 := fst (step s1 (SetDomain "example.com"))).
  set (s3 := fst (step s2 (SetAddress "1.2.3.4"))).
  set (st := fst (step s3 HandleAdd)).
  pose proof (run_step init [] [] (SetDialogOpen true) s1 None run_init eq_refl eq_refl) as R1.
  pose proof (run_step s1 _ _ (SetDomain "example.com") s2 None R1 eq_refl eq_refl) as R2.
  pose proof (run_step s2 _ _ (SetAddress "1.2.3.4") s3 None R2 eq_refl eq_refl) as R3.
  pose proof (run_step s3 _ _ HandleAdd st (Some (SCreate "example.com" "1.2.3.4"))
                R3 eq_refl eq_refl) as Hr.
  exists st. eexists. split; [exact Hr|]. split; [reflexivity|].
  exact (proj1 (address_rules_requests _ _ _ Hr)).
Defined.
End AddressRules.

Section forward_rules.
Context `{Host} {A : Type} (stringify : json → string).

(** [typeof fw === "string" ? fw : JSON.stringify(fw)] *)
Definition forward_target (fw : json) : string :=
  match fw with JStr s => s | j => stringify j end.

Definition forward_group (g : ForwardEntry) : node A :=
  El "Card" [("key", PStr (fw_name g))]
    [El "CardContent" []
       [El "Box" []
          [El "Typography" [] [Txt (fw_name g)];
           El "Chip" [("label", PStr (show_Z (fw_count g) +:+ " 条记录"))] []];
        El "TableContainer" [] [El "Table" []
          [header_cells ["转发目标"];
           El "TableBody" []
             match forwards g with
             | JArr l => map_i (λ fw idx,
                 El "TableRow" [("key", PNum idx)]
                   [El "TableCell" [] [El "Typography" [] [Txt (forward_target fw)]]]) l
             | _ => [Nothing]
             end]]]].

Definition ForwardRulesTab (q : query_result ForwardsResponse) : node A :=
  El "Box" []
    [El "Box" [] [El "Typography" []
       [Txt ("转发规则 (" +:+ show_Z (from_option fws_count 0%Z (data q)) +:+ ")")]];
     if isLoading q then table_skeleton 3
     else if has_error q then El "Alert" [("severity", PStr "error")] [Txt "加载转发规则失败"]
     else match fws_data <$> data q with
          | None | Some [] =>
              El "Card" [] [El "CardContent" [] [El "Typography" [] [Txt "暂无转发规则"]]]
          | Some l => Frag (map forward_group l)
          end].
End forward_rules.

(** The rules tab: the index of the selected panel, its only state. *)
Inductive rules_action :=
| SetTab (v : Z)
| InAddress (a : AddressRules.action).

Fixpoint map_node {A B} (f : A → B) (n : node A) : node B :=
  match n with
  | Txt s => Txt s
  | El t ps cs =>
      El t (map (λ kv, (fst kv,
              match snd kv with
              | PStr s => PStr s | PNum n => PNum n | PF64 x => PF64 x | PBool b => PBool b
              | PSome n => PSome (map_node f n) | PUndef => PUndef
              | PClick a => PClick (f a) | PInput g => PInput (λ s, f (g s))
              | PChange g => PChange (λ z, f (g z))
              end)) ps) (map (map_node f) cs)
  end.

Definition RulesTab `{Host} (stringify : json → string) (tab : Z) (st : AddressRules.state)
    (addresses : query_result AddressesResponse) (fws : query_result ForwardsResponse)
  : node rules_action :=
  El "Box" []
    [El "Typography" [] [Txt "规则管理"];
     El "Card" [] [El "CardContent" []
       [El "Tabs" [("value", PNum tab); ("onChange", PChange SetTab)]
          [El "Tab" [("label", PStr "地址规则")] []; El "Tab" [("label", PStr "转发规则")] []];
        RulesTabPanel tab 0 (map_node InAddress (AddressRules.view st addresses));
        RulesTabPanel tab 1 (ForwardRulesTab stringify fws)]]].
