(* ===== verification/WebQueryLog.v ===== *)
(** * The query-log tab (webui/src/app/dashboard/page.tsx, lines 1500-1669) *)

From S2P Require Import Prelude Float64 Jsx WebApi WebUtils WebOverview WebUpstream.

Module QueryLogTab.

Record state := {
  domain : string;
  client : string;
  qtype : string;
  autoRefresh : bool;
}.

Definition init : state :=
  {| domain := ""; client := ""; qtype := ""; autoRefresh := true |}.

Inductive action :=
| SetDomain (s : string)
| SetClient (s : string)
| SetQtype (s : string)
| ToggleAutoRefresh
| Refetch.

Definition step (st : state) (a : action) : state :=
  match a with
  | SetDomain s => {| domain := s; client := client st; qtype := qtype st;
                      autoRefresh := autoRefresh st |}
  | SetClient s => {| domain := domain st; client := s; qtype := qtype st;
                      autoRefresh := autoRefresh st |}
  | SetQtype s => {| domain := domain st; client := client st; qtype := s;
                     autoRefresh := autoRefresh st |}
  | ToggleAutoRefresh => {| domain := domain st; client := client st; qtype := qtype st;
                            autoRefresh := negb (autoRefresh st) |}
  | Refetch => st
  end.

(** [x || undefined] *)
Definition or_undefined (s : string) : option string :=
  if bool_decide (s = "") then None else Some s.

Definition params (st : state) : QueryLogParams :=
  {| p_limit := Some 100%Z; p_offset := None;
     p_domain := or_undefined (domain st); p_client := or_undefined (client st);
     p_qtype := or_undefined (qtype st) |}.

Definition query (st : state) : hook := HQueryLog (params st) (autoRefresh st).

Definition qtype_options : list string :=
  [""; "A"; "AAAA"; "CNAME"; "MX"; "TXT"; "PTR"; "HTTPS"; "SRV"].

Section view.
Context `{Host}.

Definition filters (st : state) : node action :=
  El "Paper" [] [El "Grid" []
    [El "Grid" [] [El "TextField" [("label", PStr "域名过滤"); ("value", PStr (domain st));
                                   ("onChange", PInput SetDomain)] []];
     El "Grid" [] [El "TextField" [("label", PStr "客户端过滤"); ("value", PStr (client st));
                                   ("onChange", PInput SetClient)] []];
     El "Grid" [] [El "FormControl" []
       [El "InputLabel" [] [Txt "类型"];
        El "Select" [("value", PStr (qtype st)); ("onChange", PInput SetQtype)]
          (map (λ t, El "MenuItem" [("value", PStr t)]
                       [Txt (if bool_decide (t = "") then "全部" else t)]) qtype_options)]];
     El "Grid" [] [El "Box" []
       [El "Tooltip" [("title", PStr (if autoRefresh st then "暂停自动刷新" else "开启自动刷新"))]
          [El "IconButton" [("color", PStr (if autoRefresh st then "primary" else "default"));
                            ("onClick", PClick ToggleAutoRefresh)]
             [if autoRefresh st then El "PauseIcon" [] [] else El "PlayArrowIcon" [] []]];
        El "Tooltip" [("title", PStr "立即刷新")]
          [El "IconButton" [("onClick", PClick Refetch)] [El "RefreshIcon" [] []]]]]]].

Definition log_row (e : QueryLogEntry) (idx : Z) : node action :=
  let success := bool_decide (ql_result e = "success") in
  El "TableRow" [("key", PNum idx)]
    [El "TableCell" [] [El "Typography" [] [Txt (formatTimestamp (time e))]];
     El "TableCell" [] [El "Typography" [] [Txt (WebApi.client e)]];
     El "TableCell" [] [El "Typography" [] [Txt (WebApi.domain e)]];
     El "TableCell" [] [El "Chip" [("label", PStr (ql_query_type e))] []];
     El "TableCell" [] [Txt (toFixed (elapsed_ms e) +:+ " ms")];
     El "TableCell" [] [El "Chip"
       [("label", PStr (if success then "成功" else "失败"));
        ("color", PStr (if success then "success" else "error"));
        ("variant", PStr (if success then "filled" else "outlined"))] []]].

Definition log_table (q : query_result QueryLogResponse) : node action :=
  if isLoading q then table_skeleton 8
  else if has_error q then El "Alert" [("severity", PStr "error")] [Txt "加载查询日志失败"]
  else match data q with
       | None => El "Card" [] [El "CardContent" [] [El "Typography" [] [Txt "暂无查询日志"]]]
       | Some d =>
           match ql_data d with
           | [] => El "Card" [] [El "CardContent" [] [El "Typography" [] [Txt "暂无查询日志"]]]
           | l => Frag
               [El "Typography" [] [Txt ("共 " +:+ show_Z (ql_total d) +:+ " 条，当前显示 " +:+
                                         show_Z (Z.of_nat (length l)) +:+ " 条")];
                El "TableContainer" [] [El "Table" []
                  [header_cells ["时间"; "客户端"; "域名"; "类型"; "耗时"; "结果"];
                   El "TableBody" [] (map_i log_row l)]]]
           end
       end.

Definition view (st : state) (q : query_result QueryLogResponse) : node action :=
  El "Box" []
    [El "Typography" [] [Txt "查询日志"];
     El "Typography" [] [Txt "展示最近 1000 条查询记录（内存缓存，服务重启后清空）。"];
     filters st;
     log_table q].
End view.
End QueryLogTab.
