(* ===== verification/WebShell.v ===== *)
(** * The dashboard's frame

    The navigation of webui/src/app/dashboard/layout.tsx, the tab switch of
    page.tsx (lines 1671-1687), the query client's options and the wrapping of
    providers.tsx, the theme of lib/theme.ts, the document of app/layout.tsx and
    the root redirect of app/page.tsx. *)

From S2P Require Import Prelude Float64 Jsx WebApi WebUtils WebOverview WebUpstream WebCacheTab WebRules WebQueryLog.

Inductive DashboardTab := TOverview | TUpstream | TCache | TRules | TQuerylog.

#[export] Instance DashboardTab_eq_dec : EqDecision DashboardTab.
Proof. solve_decision. Defined.

(** The strings of the union type. *)
Definition tab_name (t : DashboardTab) : string :=
  match t with
  | TOverview => "overview" | TUpstream => "upstream" | TCache => "cache"
  | TRules => "rules" | TQuerylog => "querylog"
  end.

Record nav_item := { label : string; nav_tab : DashboardTab }.

Definition navItems : list nav_item :=
  [{| label := "系统概览"; nav_tab := TOverview |};
   {| label := "上游服务器"; nav_tab := TUpstream |};
   {| label := "缓存管理"; nav_tab := TCache |};
   {| label := "规则管理"; nav_tab := TRules |};
   {| label := "查询日志"; nav_tab := TQuerylog |}].

Record layout_state := { currentTab : DashboardTab; mobileOpen : bool }.

Definition layout_init : layout_state := {| currentTab := TOverview; mobileOpen := false |}.

Inductive layout_action :=
| ClickItem (t : DashboardTab)         (** [setCurrentTab(item.tab); setMobileOpen(false)] *)
| ToggleDrawer
| CloseDrawer.

Definition layout_step (st : layout_state) (a : layout_action) : layout_state :=
  match a with
  | ClickItem t => {| currentTab := t; mobileOpen := false |}
  | ToggleDrawer => {| currentTab := currentTab st; mobileOpen := negb (mobileOpen st) |}
  | CloseDrawer => {| currentTab := currentTab st; mobileOpen := false |}
  end.

Definition nav_node (st : layout_state) (item : nav_item) : node layout_action :=
  let selected := bool_decide (currentTab st = nav_tab item) in
  El "ListItem" [("key", PStr (tab_name (nav_tab item)))]
    [El "ListItemButton" [("onClick", PClick (ClickItem (nav_tab item))); ("selected", PBool selected)]
       [El "ListItemIcon" [("color", PStr (if selected then "primary.main" else "inherit"))] [];
        El "ListItemText" [("primary", PStr (label item))] []]].

Definition drawer (st : layout_state) : node layout_action :=
  El "Box" []
    [El "Toolbar" [] [El "Typography" [] [Txt "SmartDNS"]];
     El "Divider" [] [];
     El "List" [] (map (nav_node st) navItems)].

Definition DashboardLayout (st : layout_state) (children : node layout_action) : node layout_action :=
  El "Provider" [("value", PStr (tab_name (currentTab st)))]
    [El "Box" []
       [El "AppBar" [] [El "Toolbar" []
          [El "IconButton" [("onClick", PClick ToggleDrawer)] [El "MenuIcon" [] []];
           El "Typography" [] [Txt "SmartDNS Dashboard"]]];
        El "Drawer" [("variant", PStr "permanent"); ("open", PBool true)] [drawer st];
        El "Drawer" [("variant", PStr "temporary"); ("open", PBool (mobileOpen st));
                     ("onClose", PClick CloseDrawer)] [drawer st];
        El "Box" [("component", PStr "main")] [children]]].

(** The states of the stateful tabs and the results of every query. *)
Record page_data := {
  pd_stats : query_result StatsResponse;
  pd_caches : query_result CachesResponse;
  pd_top_domains : query_result (list NameCount);
  pd_clients : query_result (list NameCount);
  pd_nameservers : query_result NameserversResponse;
  pd_listeners : query_result ListenersResponse;
  pd_cache_state : CacheTab.state;
  pd_cache_config : query_result CacheConfigResponse;
  pd_rules_tab : Z;
  pd_rules_state : AddressRules.state;
  pd_addresses : query_result AddressesResponse;
  pd_forwards : query_result ForwardsResponse;
  pd_log_state : QueryLogTab.state;
  pd_log : query_result QueryLogResponse;
}.

Inductive page_action :=
| PCache (a : CacheTab.action)
| PRules (a : rules_action)
| PLog (a : QueryLogTab.action).

Definition DashboardPage `{Host} (stringify : json → string) (tab : DashboardTab) (d : page_data)
  : option (node page_action) :=
  match tab with
  | TUpstream => Some (UpstreamTab (pd_nameservers d) (pd_listeners d))
  | TCache => Some (map_node PCache (CacheTab.view (pd_cache_state d) (pd_caches d) (pd_cache_config d)))
  | TRules => Some (map_node PRules (RulesTab stringify (pd_rules_tab d) (pd_rules_state d)
                                       (pd_addresses d) (pd_forwards d)))
  | TQuerylog => Some (map_node PLog (QueryLogTab.view (pd_log_state d) (pd_log d)))
  | TOverview => OverviewTab (pd_stats d) (pd_caches d) (pd_top_domains d) (pd_clients d)
  end.

(** [new QueryClient({ defaultOptions: { queries: ... } })] *)
Record query_defaults := { refetchOnWindowFocus : bool; retry : Z; staleTime : Z }.
Definition Providers : query_defaults :=
  {| refetchOnWindowFocus := false; retry := 1; staleTime := 3000 |}.

(** [theme] of lib/theme.ts: the palette and the overrides of two components. *)
Definition theme : json :=
  let no_image := JObj [("styleOverrides", JObj [("root", JObj [("backgroundImage", JStr "none")])])] in
  JObj
    [ ("palette", JObj
         [("mode", JStr "dark");
          ("primary", JObj [("main", JStr "#1976d2"); ("light", JStr "#42a5f5"); ("dark", JStr "#1565c0")]);
          ("secondary", JObj [("main", JStr "#9c27b0")]);
          ("background", JObj [("default", JStr "#0a0e17"); ("paper", JStr "#111827")])]);
      ("typography", JObj [("fontFamily", JStr font_family)]);
      ("components", JObj [("MuiCard", no_image); ("MuiPaper", no_image)]) ].

(** What [Providers] renders around its children; the client is the one of the
    first render. *)
Definition Providers_view {A} (children : node A) : node A :=
  El "QueryClientProvider" [] [El "ThemeProvider" [] [El "CssBaseline" [] []; children]].

(** [metadata] and [RootLayout] of app/layout.tsx *)
Definition metadata : json :=
  JObj [("title", JStr "SmartDNS Dashboard"); ("description", JStr "SmartDNS Dashboard - DNS Server Management")].
Definition RootLayout {A} (children : node A) : node A :=
  El "html" [("lang", PStr "zh-CN")] [El "body" [] [Providers_view children]].

(** [redirect('/dashboard')] *)
Definition Home : string := "/dashboard".

(** ** Properties *)

Definition selected_items (st : layout_state) : list nav_item :=
  filter (λ i, nav_tab i = currentTab st) navItems.

(** Navigation: after clicking an entry of the drawer the page shows that
    entry's tab, the drawer is closed, and exactly that one entry is selected,
    from any state of the layout. *)
Theorem navigation_selects_one (st : layout_state) (item : nav_item)
    (Hitem : item ∈ navItems) :
  let st' := layout_step st (ClickItem (nav_tab item)) in
  currentTab st' = nav_tab item ∧ mobileOpen st' = false ∧ selected_items st' = [item].
Proof.
  split_and!; [done..|]. unfold selected_items. simpl. unfold navItems in *.
  repeat (apply elem_of_cons in Hitem as [->|Hitem]; [reflexivity|]).
  by apply elem_of_nil in Hitem.
Qed.

(** The document shows what the page shows, nothing added. *)
Lemma document_texts {A} (children : node A) : texts (RootLayout children) = texts children.
Proof. cbn. by rewrite !app_nil_r. Qed.

Lemma navigation_selects_one_witness :
  selected_items (layout_step layout_init (ClickItem TCache))
    = [{| label := "缓存管理"; nav_tab := TCache |}].
Proof.
  apply (navigation_selects_one layout_init {| label := "缓存管理"; nav_tab := TCache |}).
  unfold navItems. do 2 right. left.
Defined.
