(* ===== verification/Dns.v ===== *)
(** * DNS data of the server

    The part of hickory's [Message], [Record] and [Query] the middlewares read,
    [DnsResponse] (src/dns.rs, module [response]), [TtlClip] (src/libdns/mod.rs),
    [LookupError] (src/dns_error.rs) and the TTL clamping of src/dns_mw_addr.rs.

    A name is represented by its canonical lower-case spelling, names being
    equal up to case.  An [Instant] is a number of nanoseconds. *)

From S2P Require Import Prelude.

(** ** Time *)

Definition secs (n : Z) : Z := n * 1000000000.
Definition millis (n : Z) : Z := n * 1000000.
(** [Duration::as_secs] *)
Definition as_secs (d : Z) : Z := d `div` 1000000000.

Lemma as_secs_secs n : as_secs (secs n) = n.
Proof. unfold as_secs, secs. by rewrite Z.div_mul. Qed.

Lemma as_secs_le d n : (d ≤ secs n)%Z → (as_secs d ≤ n)%Z.
Proof. unfold as_secs, secs. intros. apply Z.div_le_upper_bound; lia. Qed.

(** ** Record types, records and queries *)

Inductive RecordType := RT_A | RT_AAAA | RT_CNAME | RT_SOA | RT_Other (code : Z).

#[export] Instance RecordType_eq_dec : EqDecision RecordType.
Proof. solve_decision. Defined.

(** [RecordType::is_ip_addr] *)
Definition is_ip_addr (t : RecordType) : bool :=
  match t with RT_A | RT_AAAA => true | _ => false end.

(** The textual form of a record type, [RecordType]'s [Display] of hickory. *)
Class Hickory := { rtype_to_string : RecordType → string }.

(** Record data: IPv4 and IPv6 addresses as 32- and 128-bit numbers; of a SOA
    record the code reads the [minimum] field. *)
Inductive RData :=
| RD_A (addr : Z)
| RD_AAAA (addr : Z)
| RD_CNAME (target : string)
| RD_SOA (minimum : Z)
| RD_Other (code : Z) (data : string).

#[export] Instance RData_eq_dec : EqDecision RData.
Proof. solve_decision. Defined.

Record Record_ := { r_name : string; r_class : Z; r_ttl : Z; r_data : RData }.

#[export] Instance Record_eq_dec : EqDecision Record_.
Proof. solve_decision. Defined.

Definition record_type (r : Record_) : RecordType :=
  match r_data r with
  | RD_A _ => RT_A | RD_AAAA _ => RT_AAAA | RD_CNAME _ => RT_CNAME
  | RD_SOA _ => RT_SOA | RD_Other c _ => RT_Other c
  end.

(** [IpAddr], and hickory's [RData::ip_addr]. *)
Inductive IpAddr := IPv4 (a : Z) | IPv6 (a : Z).

#[export] Instance IpAddr_eq_dec : EqDecision IpAddr.
Proof. solve_decision. Defined.
#[export] Instance IpAddr_countable : Countable IpAddr.
Proof.
  refine (inj_countable' (λ a, match a with IPv4 x => inl x | IPv6 x => inr x end)
    (λ s, match s with inl x => IPv4 x | inr x => IPv6 x end) _).
  by intros [].
Defined.

Definition rdata_ip (d : RData) : option IpAddr :=
  match d with RD_A a => Some (IPv4 a) | RD_AAAA a => Some (IPv6 a) | _ => None end.

(** [From<IpAddr> for RData] *)
Definition rdata_of_ip (a : IpAddr) : RData :=
  match a with IPv4 x => RD_A x | IPv6 x => RD_AAAA x end.

Definition with_data (r : Record_) (d : RData) : Record_ :=
  {| r_name := r_name r; r_class := r_class r; r_ttl := r_ttl r; r_data := d |}.

Definition with_ttl (r : Record_) (ttl : Z) : Record_ :=
  {| r_name := r_name r; r_class := r_class r; r_ttl := ttl; r_data := r_data r |}.
Definition with_name (r : Record_) (n : string) : Record_ :=
  {| r_name := n; r_class := r_class r; r_ttl := r_ttl r; r_data := r_data r |}.

Record Query := { q_name : string; q_type : RecordType; q_class : Z }.

#[export] Instance Query_eq_dec : EqDecision Query.
Proof. solve_decision. Defined.

(** [TtlClip for Record] *)
Definition set_max_ttl (max_ttl : Z) (r : Record_) : Record_ :=
  if (max_ttl <? r_ttl r)%Z then with_ttl r max_ttl else r.
Definition set_min_ttl (min_ttl : Z) (r : Record_) : Record_ :=
  if (r_ttl r <? min_ttl)%Z then with_ttl r min_ttl else r.

(** [clamp_ttl_bounds]: the lower bound first, then the upper one. *)
Definition clamp_ttl_bounds (min max : option Z) (records : list Record_) : list Record_ :=
  map (λ r, from_option set_max_ttl id max (from_option set_min_ttl id min r)) records.

(** ** Responses *)

Inductive ResponseCode := NoError | FormErr | ServFail | NXDomain | NotImp | Refused | OtherCode (n : Z).

#[export] Instance ResponseCode_eq_dec : EqDecision ResponseCode.
Proof. solve_decision. Defined.

Record DnsResponse := {
  queries : list Query;
  response_code : ResponseCode;
  answers : list Record_;
  authorities : list Record_;
  valid_until : Z;
  name_server_group : option string;
  from_cache : bool;
}.

Definition MAX_TTL : Z := 86400.

Definition new_with_deadline (query : Query) (records : list Record_) (deadline : Z) : DnsResponse :=
  {| queries := [query]; response_code := NoError; answers := records; authorities := [];
     valid_until := deadline; name_server_group := None; from_cache := false |}.

Definition new_with_max_ttl (now : Z) (query : Query) (records : list Record_) : DnsResponse :=
  new_with_deadline query records (now + secs MAX_TTL).

Definition with_name_server_group (r : DnsResponse) (g : string) : DnsResponse :=
  {| queries := queries r; response_code := response_code r; answers := answers r;
     authorities := authorities r; valid_until := valid_until r;
     name_server_group := Some g; from_cache := from_cache r |}.

Definition mark_from_cache (r : DnsResponse) : DnsResponse :=
  {| queries := queries r; response_code := response_code r; answers := answers r;
     authorities := authorities r; valid_until := valid_until r;
     name_server_group := name_server_group r; from_cache := true |}.

Definition set_answers (r : DnsResponse) (l : list Record_) : DnsResponse :=
  {| queries := queries r; response_code := response_code r; answers := l;
     authorities := authorities r; valid_until := valid_until r;
     name_server_group := name_server_group r; from_cache := from_cache r |}.

Definition set_response_code (r : DnsResponse) (c : ResponseCode) : DnsResponse :=
  {| queries := queries r; response_code := c; answers := answers r;
     authorities := authorities r; valid_until := valid_until r;
     name_server_group := name_server_group r; from_cache := from_cache r |}.

Definition add_authority (r : DnsResponse) (x : Record_) : DnsResponse :=
  {| queries := queries r; response_code := response_code r; answers := answers r;
     authorities := authorities r ++ [x]; valid_until := valid_until r;
     name_server_group := name_server_group r; from_cache := from_cache r |}.

(** [DnsResponse::records] is the answer section. *)
Definition records (r : DnsResponse) : list Record_ := answers r.

(** [DnsResponse::ip_addrs] *)
Definition ip_addrs (r : DnsResponse) : list IpAddr := omap (λ x, rdata_ip (r_data x)) (answers r).

(** [DnsResponse::set_valid_until] and [set_valid_until_max] *)
Definition set_valid_until (now ttl : Z) (r : DnsResponse) : DnsResponse :=
  {| queries := queries r; response_code := response_code r; answers := answers r;
     authorities := authorities r; valid_until := now + secs ttl;
     name_server_group := name_server_group r; from_cache := from_cache r |}.
Definition set_valid_until_max (now : Z) (r : DnsResponse) : DnsResponse :=
  set_valid_until now MAX_TTL r.

Definition set_queries (r : DnsResponse) (l : list Query) : DnsResponse :=
  {| queries := l; response_code := response_code r; answers := answers r;
     authorities := authorities r; valid_until := valid_until r;
     name_server_group := name_server_group r; from_cache := from_cache r |}.

(** [DnsResponse::set_max_ttl] *)
Definition res_set_max_ttl (r : DnsResponse) (ttl : Z) : DnsResponse :=
  set_answers r (map (set_max_ttl ttl) (answers r)).

(** [DnsResponse::max_ttl]: the largest TTL of the answers. *)
Definition max_ttl (r : DnsResponse) : option Z :=
  match map r_ttl (answers r) with [] => None | t :: l => Some (fold_left Z.max l t) end.

(** ** Errors *)

Inductive ProtoErrorKind :=
| Busy
| Canceled
| Timeout
| NoConnections
| NoRecordsFound (code : ResponseCode) (soa : option Record_)
| IoErr (raw_os_error : option Z)
| OtherProto (msg : string).

Inductive LookupError :=
| NameExists
| LE_ResponseCode (c : ResponseCode)
| LE_Proto (k : ProtoErrorKind)
| LE_Io (msg : string).

Definition is_nx_domain (e : LookupError) : bool :=
  match e with LE_ResponseCode c => bool_decide (c = NXDomain) | _ => false end.

Definition as_soa (now : Z) (e : LookupError) (query : Query) : option DnsResponse :=
  match e with
  | LE_Proto (NoRecordsFound _ (Some record)) =>
      Some (add_authority (new_with_max_ttl now query []) record)
  | _ => None
  end.

Definition is_no_connections (e : LookupError) : bool :=
  match e with LE_Proto NoConnections => true | _ => false end.

(** The texts of hickory's errors. *)
Class ErrorText := { proto_text : ProtoErrorKind → string }.

(** [PartialEq for LookupError] *)
Definition error_eq `{ErrorText} (a b : LookupError) : bool :=
  match a, b with
  | LE_ResponseCode l, LE_ResponseCode r => bool_decide (l = r)
  | LE_Proto l, LE_Proto r => bool_decide (proto_text l = proto_text r)
  | LE_Io l, LE_Io r => bool_decide (l = r)
  | NameExists, NameExists => true
  | _, _ => false
  end.

(** [SOA::default_soa] and [RData::default_soa]; the minimum of the record. *)
Definition default_soa : RData := RD_SOA 86400.

Definition no_records_found (query : Query) (ttl : Z) : LookupError :=
  LE_Proto (NoRecordsFound ServFail
    (Some {| r_name := q_name query; r_class := 1; r_ttl := ttl; r_data := default_soa |})).

(** ** Lemmas *)

Lemma set_max_ttl_le t r : (r_ttl (set_max_ttl t r) ≤ t)%Z.
Proof. unfold set_max_ttl. case_if; zify_bool; simpl; lia. Qed.

Lemma set_max_ttl_le_orig t r : (r_ttl (set_max_ttl t r) ≤ r_ttl r)%Z.
Proof. unfold set_max_ttl. case_if; zify_bool; simpl; lia. Qed.

Lemma set_max_ttl_name t r : r_name (set_max_ttl t r) = r_name r.
Proof. unfold set_max_ttl. by case_if. Qed.

Lemma set_max_ttl_data t r : r_data (set_max_ttl t r) = r_data r.
Proof. unfold set_max_ttl. by case_if. Qed.

#[export] Hint Resolve set_max_ttl_le set_max_ttl_le_orig : smartdns.

(** With a consistent pair of bounds every TTL ends up between them; with an
    inverted pair the upper bound wins. *)
Lemma clamp_ttl_bounds_range lo hi l r :
  r ∈ clamp_ttl_bounds (Some lo) (Some hi) l →
  (r_ttl r ≤ hi)%Z ∧ (lo ≤ hi → lo ≤ r_ttl r)%Z.
Proof.
  unfold clamp_ttl_bounds. intros (r0 & -> & _)%list_elem_of_fmap. simpl.
  unfold set_max_ttl, set_min_ttl. repeat case_if; zify_bool; simpl in *; lia.
Qed.
