(* ===== verification/AuditLog.v ===== *)
(** * The query log: the audit middleware

    [DnsAuditMiddleware::handle], [is_soa_only] and the conversion to
    [QueryLogEntry] (src/dns_mw_audit.rs): the ring buffer the API reads and the
    bounded channel to the audit writer. *)

From S2P Require Import Prelude Float64 Dns.

(** ** Entries *)

Inductive LookupFrom :=
| From_None | From_Cache | From_Static | From_Zone (s : string) | From_Server (s : string).

Definition lookup_from_debug (l : LookupFrom) : string :=
  match l with
  | From_None => "None" | From_Cache => "Cache" | From_Static => "Static"
  | From_Zone s => "Zone: " +:+ s | From_Server s => "Server: " +:+ s
  end.

Record QueryLogEntry := {
  time : Z;
  client : string;
  domain : string;
  query_type : string;
  elapsed_ms : f64;
  log_result : string;
  speed_ms : option f64;
  source : string;
}.

Record DnsAuditRecord := {
  au_id : Z;
  au_client : string;
  au_query : Query;
  au_result : result DnsResponse LookupError;
  au_speed : Z;
  au_elapsed : Z;
  au_date : Z;
  au_source : LookupFrom;
}.

(** [d.as_secs_f64() * 1000.0]: the nanoseconds divided in binary64. *)
Definition as_secs_f64 (d : Z) : f64 :=
  F64.add (F64.of_Z (as_secs d))
    (F64.div (F64.of_Z (d `mod` 1000000000)) (F64.of_Z 1000000000)).
Definition to_ms (d : Z) : f64 := F64.mul (as_secs_f64 d) (F64.of_Z 1000).

Definition entry_of `{Hickory} (a : DnsAuditRecord) : QueryLogEntry :=
  {| time := au_date a;
     client := au_client a;
     domain := q_name (au_query a);
     query_type := rtype_to_string (q_type (au_query a));
     elapsed_ms := to_ms (au_elapsed a);
     log_result := if is_ok (au_result a) then "success" else "failed";
     speed_ms := if (au_speed a =? 0)%Z then None else Some (to_ms (au_speed a));
     source := lookup_from_debug (au_source a) |}.

(** ** The middleware *)

Section audit.
Context `{Hickory}.

Definition QUERY_LOG_MAX : nat := 1000.
Definition AUDIT_CHANNEL : nat := 100.

(** The ring buffer and the bounded channel to the audit writer; the channel
    is closed when no audit sink is configured. *)
Record audit_state := {
  query_log : list QueryLogEntry;
  channel : list DnsAuditRecord;
  channel_open : bool;
}.

Definition is_soa_only (r : result DnsResponse LookupError) : bool :=
  match r with
  | Err _ => false
  | Ok res =>
      existsb (λ x, bool_decide (record_type x = RT_SOA)) (records res) &&
      negb (existsb (λ x, is_ip_addr (record_type x)) (records res))
  end.

(** [q.push_back(e); if q.len() > MAX { q.pop_front() }] *)
Definition push_log (q : list QueryLogEntry) (e : QueryLogEntry) : list QueryLogEntry :=
  let q := q ++ [e] in
  if bool_decide (QUERY_LOG_MAX < length q) then tail q else q.

(** [try_send] on the bounded channel: full or closed drops the record. *)
Definition try_send (st : audit_state) (a : DnsAuditRecord) : list DnsAuditRecord :=
  if channel_open st && bool_decide (length (channel st) < AUDIT_CHANNEL)
  then channel st ++ [a] else channel st.

(** What the middleware does with the answer [res] of the rest of the chain. *)
Definition audit_handle (audit_soa : bool) (st : audit_state) (a : DnsAuditRecord)
  : audit_state * result DnsResponse LookupError :=
  if negb audit_soa && is_soa_only (au_result a) then (st, au_result a)
  else
    ({| query_log := push_log (query_log st) (entry_of a);
        channel := try_send st a;
        channel_open := channel_open st |}, au_result a).

Definition audit_new (sink : bool) : audit_state :=
  {| query_log := []; channel := []; channel_open := sink |}.

(** A run of the middleware over a sequence of audited queries, with any number
    of records taken by the writer between two of them. *)
Definition drain_channel (n : nat) (st : audit_state) : audit_state :=
  {| query_log := query_log st; channel := drop n (channel st); channel_open := channel_open st |}.

Fixpoint audit_run (audit_soa : bool) (st : audit_state) (l : list (DnsAuditRecord * nat))
  : audit_state :=
  match l with
  | [] => st
  | (a, n) :: l' => audit_run audit_soa (drain_channel n (fst (audit_handle audit_soa st a))) l'
  end.

Definition audited (audit_soa : bool) (a : DnsAuditRecord) : bool :=
  audit_soa || negb (is_soa_only (au_result a)).

(** The answer reaches the client unchanged, whatever the audit does. *)
Lemma audit_handle_transparent s st a : snd (audit_handle s st a) = au_result a.
Proof. unfold audit_handle. by case_if. Qed.

Lemma push_log_last_n l e :
  push_log (last_n QUERY_LOG_MAX l) e = last_n QUERY_LOG_MAX (l ++ [e]).
Proof. rewrite last_n_snoc by done. done. Qed.

Lemma audit_run_log s l st hist :
  query_log st = last_n QUERY_LOG_MAX hist →
  query_log (audit_run s st l) =
    last_n QUERY_LOG_MAX (hist ++ map entry_of (filter (λ a, audited s a = true) (map fst l))).
Proof.
  revert st hist. induction l as [|[a n] l IH]; intros st hist Hst; simpl.
  { by rewrite app_nil_r. }
  rewrite filter_cons. unfold audit_handle at 1.
  unfold audited at 1. destruct s; simpl.
  - rewrite (IH _ (hist ++ [entry_of a])) by (simpl; by rewrite Hst, push_log_last_n).
    simpl. by rewrite <- app_assoc.
  - destruct (is_soa_only (au_result a)); simpl.
    + by apply IH.
    + rewrite (IH _ (hist ++ [entry_of a])) by (simpl; by rewrite Hst, push_log_last_n).
      simpl. by rewrite <- app_assoc.
Qed.

(** C16. The ring buffer refines the history of queries: after any sequence of
    queries it holds exactly the last 1000 audited ones, in order, whatever the
    audit writer consumes and whether or not its channel is full or closed. *)
Theorem query_log_is_last_1000 (audit_soa sink : bool) (l : list (DnsAuditRecord * nat)) :
  query_log (audit_run audit_soa (audit_new sink) l) =
  last_n 1000 (map entry_of (filter (λ a, audited audit_soa a = true) (map fst l))).
Proof. by rewrite (audit_run_log _ _ _ []). Qed.

Lemma audit_channel_bounded s st a :
  length (channel st) ≤ AUDIT_CHANNEL →
  length (channel (fst (audit_handle s st a))) ≤ AUDIT_CHANNEL.
Proof.
  intros Hl. unfold audit_handle. case_if; [done|]. simpl. unfold try_send.
  case_if; [|done]. apply andb_true_iff in Heqb0 as [_ Hlt%bool_decide_eq_true_1].
  rewrite length_app. simpl. lia.
Qed.
End audit.
