(* ===== verification/QueryLogApi.v ===== *)
(** * [/api/query-log] and what the dashboard shows of it

    The handler of src/api/query_log.rs, composed with the query string the
    dashboard's hook builds (webui/src/lib/api.ts) and with the filters of the
    query-log tab. *)

From S2P Require Import Prelude Float64 Jsx WebApi WebUtils WebQueryLog Dns AuditLog.

(** Rust's Unicode case mapping. *)
Class RustCase := { to_lowercase : string → string; to_uppercase : string → string }.

Record Params := {
  limit : option Z;
  offset : option Z;
  dom : option string;
  cli : option string;
  qtype : option string;
}.

Record QueryLogList := { total : Z; log_data : list AuditLog.QueryLogEntry }.

Section handler.
Context `{RustCase}.

Definition entry_matches (p : Params) (e : AuditLog.QueryLogEntry) : bool :=
  match dom p with
  | Some d => includes (to_lowercase d) (to_lowercase (AuditLog.domain e))
  | None => true
  end &&
  match cli p with
  | Some c => includes (to_lowercase c) (to_lowercase (AuditLog.client e))
  | None => true
  end &&
  match qtype p with
  | Some t => bool_decide (to_uppercase (AuditLog.query_type e) = to_uppercase t)
  | None => true
  end.

Definition query_log_handler (ring : list AuditLog.QueryLogEntry) (p : Params) : QueryLogList :=
  let entries := filter (λ e, entry_matches p e = true) (rev ring) in
  let off := default 0%Z (offset p) in
  let lim := clamp (default 100%Z (limit p)) 1 1000 in
  {| total := Z.of_nat (length entries);
     log_data := take (Z.to_nat lim) (drop (Z.to_nat off) entries) |}.
End handler.

(** ** Decoding the query string *)

(** [str::parse::<usize>] on the digits a query string carries. *)
Fixpoint dec_value (acc : N) (s : string) : option N :=
  match s with
  | EmptyString => Some acc
  | String c s' =>
      if is_digit c then dec_value (acc * 10 + (N_of_ascii c - 48)) s' else None
  end.

Definition parse_usize (s : string) : option Z :=
  if bool_decide (s = "") then None
  else n ← dec_value 0 s;
       if (Z.of_N n <=? usize_max)%Z then Some (Z.of_N n) else None.

Definition param (k : string) (kvs : list (string * string)) : option string :=
  snd <$> find (λ kv, String.eqb (fst kv) k) kvs.

(** A present but unparsable number rejects the request ([None]). *)
Definition param_usize (k : string) (kvs : list (string * string)) : option (option Z) :=
  match param k kvs with
  | None => Some None
  | Some v => n ← parse_usize v; Some (Some n)
  end.

Definition decode_params (kvs : list (string * string)) : option Params :=
  l ← param_usize "limit" kvs;
  o ← param_usize "offset" kvs;
  Some {| limit := l; offset := o; dom := param "domain" kvs;
          cli := param "client" kvs; qtype := param "qtype" kvs |}.

Lemma dec_value_pretty_go n s : dec_value 0 (pretty_N_go n s) = dec_value n s.
Proof.
  revert s. induction (N.lt_wf_0 n) as [n _ IH]. intros s.
  assert (n = 0 ∨ 0 < n)%N as [->|Hn] by lia; [by rewrite pretty_N_go_0|].
  rewrite pretty_N_go_step by done. rewrite IH by (by apply N.div_lt).
  pose proof (N.mod_lt n 10 ltac:(done)) as Hm.
  assert (E : ∀ d, (d < 10)%N → is_digit (pretty_N_char d) = true ∧
                    (N_of_ascii (pretty_N_char d) - 48)%N = d).
  { intros d Hd. destruct d as [|p]; [done|].
    do 4 (destruct p as [p|p|]; try lia; try done). }
  destruct (E (n `mod` 10)%N Hm) as [E1 E2]. cbn [dec_value]. rewrite E1, E2.
  f_equal. rewrite (N.div_mod' n 10) at 3. lia.
Qed.

Lemma parse_usize_show n : (0 ≤ n ≤ usize_max)%Z → parse_usize (show_Z n) = Some n.
Proof.
  intros Hn. unfold parse_usize.
  assert (Hd : dec_value 0 (show_Z n) = Some (Z.to_N n)).
  { destruct n as [|p|p]; [done| |lia].
    change (dec_value 0 (pretty_N_go (N.pos p) "") = Some (N.pos p)).
    by rewrite dec_value_pretty_go. }
  assert (Hne : show_Z n ≠ "").
  { intros E. rewrite E in Hd. simpl in Hd.
    assert (n = 0%Z) as -> by (injection Hd; lia). done. }
  rewrite bool_decide_eq_false_2 by done. rewrite Hd. simpl.
  rewrite Z2N.id by lia. case_if; zify_bool; [done|lia].
Qed.

(** What the server makes of the parameters the dashboard sends: the same
    parameters, an empty filter being no filter. *)
Definition non_empty (o : option string) : option string :=
  match o with Some s => if bool_decide (s = "") then None else Some s | None => None end.

Lemma param_app k l1 l2 :
  param k (l1 ++ l2) = match param k l1 with Some v => Some v | None => param k l2 end.
Proof.
  unfold param. induction l1 as [|[k' v] l1 IH]; [done|]. simpl.
  destruct (String.eqb k' k); [done|exact IH].
Qed.

Lemma param_truthy k k' o :
  param k (set_if_truthy k' o) = if String.eqb k' k then non_empty o else None.
Proof.
  unfold set_if_truthy, non_empty, param. destruct o as [s|]; [|by case_if].
  case_bool_decide; simpl; by case_if.
Qed.

Lemma param_number k k' o :
  param k (set_if_number k' o) = if String.eqb k' k then show_Z <$> o else None.
Proof. unfold set_if_number, param. destruct o; simpl; by case_if. Qed.

Definition usize_opt (o : option Z) : Prop :=
  match o with Some n => (0 ≤ n ≤ usize_max)%Z | None => True end.

Lemma decode_params_search (p : QueryLogParams) :
  usize_opt (p_limit p) → usize_opt (p_offset p) →
  decode_params (query_log_search p) =
    Some {| limit := p_limit p; offset := p_offset p; dom := non_empty (p_domain p);
            cli := non_empty (p_client p); qtype := non_empty (p_qtype p) |}.
Proof.
  intros Hl Ho. unfold decode_params, param_usize, query_log_search.
  rewrite !param_app, !param_truthy, !param_number. simpl.
  destruct p as [[l|] [o|] d c q]; simpl in *; rewrite ?parse_usize_show by done; simpl;
    destruct (non_empty d), (non_empty c), (non_empty q); done.
Qed.

(** ** End to end *)

Section end_to_end.
Context `{RustCase}.

(** The server's decoder of query strings (axum, serde_urlencoded). *)
Variable form_parse : string → list (string * string).

(** The request of the tab, served on a ring buffer. *)
Definition serve_query_log (ring : list AuditLog.QueryLogEntry) (st : QueryLogTab.state)
  : option QueryLogList :=
  p ← decode_params (form_parse (to_query_string (query_log_search (QueryLogTab.params st))));
  Some (query_log_handler ring p).

(** The entries that pass the filters the user typed, an empty one passing all. *)
Definition shown (st : QueryLogTab.state) (e : AuditLog.QueryLogEntry) : bool :=
  (bool_decide (QueryLogTab.domain st = "") ||
   includes (to_lowercase (QueryLogTab.domain st)) (to_lowercase (AuditLog.domain e))) &&
  (bool_decide (QueryLogTab.client st = "") ||
   includes (to_lowercase (QueryLogTab.client st)) (to_lowercase (AuditLog.client e))) &&
  (bool_decide (QueryLogTab.qtype st = "") ||
   bool_decide (to_uppercase (AuditLog.query_type e) = to_uppercase (QueryLogTab.qtype st))).

Lemma entry_matches_shown st e :
  entry_matches
    {| limit := Some 100%Z; offset := None;
       dom := non_empty (QueryLogTab.or_undefined (QueryLogTab.domain st));
       cli := non_empty (QueryLogTab.or_undefined (QueryLogTab.client st));
       qtype := non_empty (QueryLogTab.or_undefined (QueryLogTab.qtype st)) |} e = shown st e.
Proof.
  unfold entry_matches, shown, QueryLogTab.or_undefined, non_empty. simpl.
  repeat (case_bool_decide; simpl; try done).
Qed.

(** C29. What the query-log page shows: for every text the user may type in the
    filters, the answer the table displays is the newest 100 of the logged
    queries that match all the filters, newest first, and the total is the
    number of all the matching ones. *)
Theorem query_log_page_correct (ring : list AuditLog.QueryLogEntry) (st : QueryLogTab.state)
    (Hform : ∀ kvs, parse_query_string (to_query_string kvs) = kvs →
                    form_parse (to_query_string kvs) = kvs) :
  let matching := filter (λ e, shown st e = true) (rev ring) in
  serve_query_log ring st =
    Some {| total := Z.of_nat (length matching); log_data := take 100 matching |}.
Proof.
  unfold serve_query_log. rewrite Hform by apply parse_to_query_string.
  rewrite decode_params_search by (simpl; unfold usize_max; lia). simpl. f_equal.
  unfold query_log_handler. simpl.
  rewrite (list_filter_iff _ (λ e, shown st e = true)); [done|].
  intros e. by rewrite entry_matches_shown.
Qed.
End end_to_end.

Definition ascii_case : RustCase := {| to_lowercase := id; to_uppercase := id |}.

Lemma query_log_page_correct_witness :
  let e d := {| AuditLog.time := 0; AuditLog.client := "10.0.0.2"; AuditLog.domain := d;
                AuditLog.query_type := "A"; AuditLog.elapsed_ms := F64.zero;
                log_result := "success"; AuditLog.speed_ms := None; AuditLog.source := "Cache" |} in
  serve_query_log (H := ascii_case) parse_query_string [e "a.example.com."; e "other.net."; e "b.example.com."]
    (QueryLogTab.step QueryLogTab.init (QueryLogTab.SetDomain "example"))
  = Some {| total := 2; log_data := [e "b.example.com."; e "a.example.com."] |}.
Proof.
  intros e.
  rewrite (query_log_page_correct (H := ascii_case) parse_query_string _ _ (λ kvs E, E)).
  vm_compute. reflexivity.
Defined.
