(* ===== verification/App.v ===== *)
(** * The server's request loop

    [process], [should_refuse_query], the request loop of [serve] and the
    counters and the history of [AppState] (src/app.rs).

    The loop task, the tasks it spawns and the futures inside them interleave
    freely: a run is a sequence of events, each an iteration of the loop, the
    completion of one future or the end of one task.  The loop is the only
    writer of [active_queries] and of the two request totals, so that an
    iteration is one event; the futures only add to the other counters.  A future
    may panic, which ends its task. *)

From S2P Require Import Prelude Float64 Dns.

(** ** Messages and [process] *)

Inductive MessageType := MT_Query | MT_Response.
Inductive OpCode := Op_Query | Op_Status | Op_Notify | Op_Update | Op_Unknown (n : Z).

Record Header := {
  h_id : Z;
  h_message_type : MessageType;
  h_op_code : OpCode;
  h_authoritative : bool;
  h_recursion_desired : bool;
  h_recursion_available : bool;
  h_response_code : ResponseCode;
}.

Definition set_recursion_available (h : Header) (b : bool) : Header :=
  {| h_id := h_id h; h_message_type := h_message_type h; h_op_code := h_op_code h;
     h_authoritative := h_authoritative h; h_recursion_desired := h_recursion_desired h;
     h_recursion_available := b; h_response_code := h_response_code h |}.
Definition set_authoritative (h : Header) (b : bool) : Header :=
  {| h_id := h_id h; h_message_type := h_message_type h; h_op_code := h_op_code h;
     h_authoritative := b; h_recursion_desired := h_recursion_desired h;
     h_recursion_available := h_recursion_available h; h_response_code := h_response_code h |}.
Definition header_set_code (h : Header) (c : ResponseCode) : Header :=
  {| h_id := h_id h; h_message_type := h_message_type h; h_op_code := h_op_code h;
     h_authoritative := h_authoritative h; h_recursion_desired := h_recursion_desired h;
     h_recursion_available := h_recursion_available h; h_response_code := c |}.

(** [Header::response_from_request] of hickory, with what its documentation
    promises: a response header with the request's identifier, operation code
    and recursion-desired bit and a clean response code. *)
Class HeaderOps := { response_from_request : Header → Header }.
Class HeaderLaws `{HeaderOps} := {
  response_id h : h_id (response_from_request h) = h_id h;
  response_type h : h_message_type (response_from_request h) = MT_Response;
  response_rd h : h_recursion_desired (response_from_request h) = h_recursion_desired h;
  response_clean h : h_response_code (response_from_request h) = NoError;
}.

Record Message := {
  m_header : Header;
  m_queries : list Query;
  m_answers : list Record_;
  m_authorities : list Record_;
}.

(** What [DnsRequest::try_from] makes of the bytes of a request. *)
Inductive Parsed :=
| ParsedRequest (header : Header) (query : Query)
| ParsedFormError (header : Header)
| ParsedOther.

(** [LookupError::response_code] *)
Definition error_code (e : LookupError) : option ResponseCode :=
  match e with LE_ResponseCode c => Some c | _ => None end.

(** [DnsResponse::empty] with the query added. *)
Definition empty_response (now : Z) (q : Query) : DnsResponse :=
  {| queries := [q]; response_code := NoError; answers := []; authorities := [];
     valid_until := now; name_server_group := None; from_cache := false |}.

(** [DnsResponse::into_message(Some(header))]: the header replaces the one of
    the response, its response code included. *)
Definition into_message (r : DnsResponse) (h : Header) : Message :=
  {| m_header := h; m_queries := queries r; m_answers := answers r;
     m_authorities := authorities r |}.

Definition header_only (h : Header) : Message :=
  {| m_header := h; m_queries := []; m_answers := []; m_authorities := [] |}.

Definition process `{HeaderOps} (now : Z) (fresh : Header)
    (search : Query → result DnsResponse LookupError) (message : Parsed) : Message * bool :=
  match message with
  | ParsedRequest request_header query =>
      match h_message_type request_header, h_op_code request_header with
      | MT_Query, Op_Query =>
          let rh := set_authoritative
                      (set_recursion_available (response_from_request request_header) true) false in
          match search query with
          | Ok lookup => (into_message lookup rh, from_cache lookup)
          | Err e =>
              let rh := if is_nx_domain e then header_set_code rh NXDomain else rh in
              let code := error_code e in
              let rh := match code with Some c => header_set_code rh c | None => rh end in
              match as_soa now e query with
              | Some soa => (into_message soa rh, false)
              | None =>
                  match code with
                  | Some _ => (into_message (empty_response now query) rh, false)
                  | None => (into_message (empty_response now query) (header_set_code rh ServFail), false)
                  end
              end
          end
      | MT_Query, _ => (header_only (header_set_code (response_from_request request_header) NotImp), false)
      | MT_Response, _ => (header_only (header_set_code (response_from_request request_header) Refused), false)
      end
  | ParsedFormError request_header =>
      (header_only (header_set_code (response_from_request request_header) FormErr), false)
  | ParsedOther => (header_only fresh, false)
  end.

(** The response code of the reply, for each outcome of the handlers. *)
Definition reply_code (search : Query → result DnsResponse LookupError) (message : Parsed)
  : ResponseCode :=
  match message with
  | ParsedRequest h q =>
      match h_message_type h, h_op_code h with
      | MT_Query, Op_Query =>
          match search q with
          | Ok _ => NoError
          | Err (LE_ResponseCode c) => c
          | Err (LE_Proto (NoRecordsFound _ (Some _))) => NoError
          | Err _ => ServFail
          end
      | MT_Query, _ => NotImp
      | MT_Response, _ => Refused
      end
  | ParsedFormError _ => FormErr
  | ParsedOther => NoError
  end.

Definition parsed_header (m : Parsed) : option Header :=
  match m with ParsedRequest h _ | ParsedFormError h => Some h | ParsedOther => None end.

Lemma process_reply `{HO : HeaderOps, HL : !HeaderLaws} (now : Z) (fresh : Header)
    (search : Query → result DnsResponse LookupError) (message : Parsed) (h : Header)
    (Hh : parsed_header message = Some h) :
  let reply := m_header (fst (process now fresh search message)) in
  h_id reply = h_id h ∧ h_message_type reply = MT_Response ∧
  h_recursion_desired reply = h_recursion_desired h ∧
  h_response_code reply = reply_code search message.
Proof.
  destruct message as [rh q|rh|]; simplify_eq/=; cbv zeta;
    [|simpl; by rewrite response_id, response_type, response_rd].
  destruct (h_message_type h); simpl; [|by rewrite response_id, response_type, response_rd].
  destruct (h_op_code h); simpl; try (by rewrite response_id, response_type, response_rd).
  destruct (search q) as [r|e]; simpl;
    [by rewrite response_id, response_type, response_rd, response_clean|].
  destruct e as [|c|[| | | |? []| |]|]; simpl; try case_bool_decide; simpl;
    by rewrite ?response_id, ?response_type, ?response_rd, ?response_clean.
Qed.

(** C32. Every message whose header can be read is answered: by a response that
    carries the identifier and the recursion-desired bit of the request and the
    response code of its outcome.  A lookup the handlers complete, and an error
    that carries a SOA record, are answered NOERROR whatever code they carry. *)
Theorem process_answers `{HO : HeaderOps, HL : !HeaderLaws} (now : Z) (fresh : Header)
    (search : Query → result DnsResponse LookupError) (message : Parsed) (h : Header)
    (Hh : parsed_header message = Some h) :
  let reply := m_header (fst (process now fresh search message)) in
  h_id reply = h_id h ∧ h_message_type reply = MT_Response ∧
  h_recursion_desired reply = h_recursion_desired h ∧
  h_response_code reply = reply_code search message.
Proof. by apply process_reply. Qed.

Definition plain_headers : HeaderOps := {| response_from_request h :=
  {| h_id := h_id h; h_message_type := MT_Response; h_op_code := h_op_code h;
     h_authoritative := false; h_recursion_desired := h_recursion_desired h;
     h_recursion_available := false; h_response_code := NoError |} |}.

Lemma plain_headers_laws : @HeaderLaws plain_headers.
Proof. by split. Qed.

Lemma process_answers_witness :
  let h := {| h_id := 4242; h_message_type := MT_Query; h_op_code := Op_Query;
              h_authoritative := false; h_recursion_desired := true;
              h_recursion_available := false; h_response_code := NoError |} in
  let q := {| q_name := "gone.example."; q_type := RT_A; q_class := 1 |} in
  h_id (m_header (fst (process (H := plain_headers) 0 h
    (λ _, Err (LE_ResponseCode NXDomain)) (ParsedRequest h q)))) = 4242%Z.
Proof.
  intros h q.
  apply (process_answers (HO := plain_headers) (HL := plain_headers_laws) 0 h
           (λ _, Err (LE_ResponseCode NXDomain)) (ParsedRequest h q) h eq_refl).
Defined.

(** ** The counters of [AppState] *)

Record StatsSnapshot := { snap_timestamp : Z; snap_total : Z; snap_hits : Z }.

Record AppState := {
  active_queries : Z;
  total_queries : Z;
  total_query_time_ns : Z;
  cache_hit_queries : Z;
  cache_hit_query_time_ns : Z;
  cache_miss_queries : Z;
  cache_miss_query_time_ns : Z;
  bg_total_queries : Z;
  bg_total_query_time_ns : Z;
  stats_history : list StatsSnapshot;
}.

Definition app_new : AppState :=
  {| active_queries := 0; total_queries := 0; total_query_time_ns := 0;
     cache_hit_queries := 0; cache_hit_query_time_ns := 0;
     cache_miss_queries := 0; cache_miss_query_time_ns := 0;
     bg_total_queries := 0; bg_total_query_time_ns := 0; stats_history := [] |}.

(** [time_ns as f64 / n as f64 / 1_000_000.0], 0 before the first query. *)
Definition average_ms (time_ns n : Z) : f64 :=
  if (n =? 0)%Z then F64.zero
  else F64.div (F64.div (F64.of_Z time_ns) (F64.of_Z n)) (F64.of_Z 1000000).

Definition avg_query_time_ms (a : AppState) : f64 :=
  average_ms (total_query_time_ns a) (total_queries a).
Definition cache_hit_avg_query_time_ms (a : AppState) : f64 :=
  average_ms (cache_hit_query_time_ns a) (cache_hit_queries a).
Definition cache_miss_avg_query_time_ms (a : AppState) : f64 :=
  average_ms (cache_miss_query_time_ns a) (cache_miss_queries a).
Definition bg_avg_query_time_ms (a : AppState) : f64 :=
  average_ms (bg_total_query_time_ns a) (bg_total_queries a).

Definition HISTORY_MAX : nat := 120.

Definition push_snapshot (h : list StatsSnapshot) (s : StatsSnapshot) : list StatsSnapshot :=
  let h := h ++ [s] in
  if bool_decide (HISTORY_MAX < length h) then tail h else h.

Definition set_history (a : AppState) (h : list StatsSnapshot) : AppState :=
  {| active_queries := active_queries a; total_queries := total_queries a;
     total_query_time_ns := total_query_time_ns a;
     cache_hit_queries := cache_hit_queries a;
     cache_hit_query_time_ns := cache_hit_query_time_ns a;
     cache_miss_queries := cache_miss_queries a;
     cache_miss_query_time_ns := cache_miss_query_time_ns a;
     bg_total_queries := bg_total_queries a;
     bg_total_query_time_ns := bg_total_query_time_ns a; stats_history := h |}.

(** [now] is the Unix time in seconds. *)
Definition add_stats_snapshot (now query_hits : Z) (a : AppState) : AppState :=
  set_history a (push_snapshot (stats_history a)
    {| snap_timestamp := now; snap_total := total_queries a; snap_hits := query_hits |}).

(** The updates of the atomics, which wrap around. *)
Definition received (n foreground : Z) (a : AppState) : AppState :=
  {| active_queries := u64 (active_queries a + n);
     total_queries := u64 (total_queries a + foreground);
     total_query_time_ns := total_query_time_ns a;
     cache_hit_queries := cache_hit_queries a;
     cache_hit_query_time_ns := cache_hit_query_time_ns a;
     cache_miss_queries := cache_miss_queries a;
     cache_miss_query_time_ns := cache_miss_query_time_ns a;
     bg_total_queries := u64 (bg_total_queries a + (n - foreground));
     bg_total_query_time_ns := bg_total_query_time_ns a; stats_history := stats_history a |}.

Definition set_active (a : AppState) (n : Z) : AppState :=
  {| active_queries := n; total_queries := total_queries a;
     total_query_time_ns := total_query_time_ns a;
     cache_hit_queries := cache_hit_queries a;
     cache_hit_query_time_ns := cache_hit_query_time_ns a;
     cache_miss_queries := cache_miss_queries a;
     cache_miss_query_time_ns := cache_miss_query_time_ns a;
     bg_total_queries := bg_total_queries a;
     bg_total_query_time_ns := bg_total_query_time_ns a; stats_history := stats_history a |}.

Definition answered_background (elapsed_ns : Z) (a : AppState) : AppState :=
  {| active_queries := active_queries a; total_queries := total_queries a;
     total_query_time_ns := total_query_time_ns a;
     cache_hit_queries := cache_hit_queries a;
     cache_hit_query_time_ns := cache_hit_query_time_ns a;
     cache_miss_queries := cache_miss_queries a;
     cache_miss_query_time_ns := cache_miss_query_time_ns a;
     bg_total_queries := bg_total_queries a;
     bg_total_query_time_ns := u64 (bg_total_query_time_ns a + u64 elapsed_ns);
     stats_history := stats_history a |}.

Definition answered_foreground (hit : bool) (elapsed_ns : Z) (a : AppState) : AppState :=
  let e := u64 elapsed_ns in
  {| active_queries := active_queries a; total_queries := total_queries a;
     total_query_time_ns := u64 (total_query_time_ns a + e);
     cache_hit_queries := if hit then u64 (cache_hit_queries a + 1) else cache_hit_queries a;
     cache_hit_query_time_ns :=
       if hit then u64 (cache_hit_query_time_ns a + e) else cache_hit_query_time_ns a;
     cache_miss_queries := if hit then cache_miss_queries a else u64 (cache_miss_queries a + 1);
     cache_miss_query_time_ns :=
       if hit then cache_miss_query_time_ns a else u64 (cache_miss_query_time_ns a + e);
     bg_total_queries := bg_total_queries a;
     bg_total_query_time_ns := bg_total_query_time_ns a; stats_history := stats_history a |}.

(** ** The request loop *)

(** A request with the sender of its one-shot channel, named by [rid]. *)
Record request := { rid : nat; is_background : bool; message : Parsed }.

(** What the caller receives: the reply of [process] (and whether it counted as
    a cache hit), a REFUSED reply, or an error because the sender was dropped, by
    the loop or by a task that panicked. *)
Inductive outcome :=
| Answered (reply : Message) (hit : bool)
| RefusedByLimit
| SenderDropped
| TaskPanicked.

(** A spawned task: how many futures it was given, and those still pending. *)
Record task := { t_background : bool; t_count : Z; t_pending : list request }.

(** [finished] is what the join set holds for tasks that have ended: the count a
    task returned, or [None] for a [JoinError].  Nothing reads [lost]: it sums the
    counts of the tasks that panicked. *)
Record server := {
  app : AppState;
  bg_batch : list request;
  running : list task;
  finished : list (option Z);
  background_concurrency : nat;
  foreground_concurrency : nat;
  lost : Z;
  outcomes : list (request * outcome);
}.

Definition server_init : server :=
  {| app := app_new; bg_batch := []; running := []; finished := [];
     background_concurrency := 4; foreground_concurrency := 64; lost := 0; outcomes := [] |}.

Definition BATCH_SIZE : nat := 256.

Definition should_refuse_query (max_query_limit : Z) (background : bool) (active : Z) : bool :=
  (0 <? max_query_limit)%Z && negb background && (max_query_limit <? active)%Z.

(** The locals of the [while let Some(..) = requests.pop()] loop. *)
Record dispatch := {
  d_active : Z;
  d_bg : list request;
  d_batch : list request;
  d_out : list (request * outcome);
}.

Definition admit_one (max_query_limit : Z) (d : dispatch) (r : request) : dispatch :=
  if should_refuse_query max_query_limit (is_background r) (d_active d) then
    {| d_active := u64 (d_active d - 1); d_bg := d_bg d; d_batch := d_batch d;
       d_out := d_out d ++ [(r, RefusedByLimit)] |}
  else if is_background r then
    {| d_active := d_active d; d_bg := d_bg d ++ [r]; d_batch := d_batch d; d_out := d_out d |}
  else
    {| d_active := d_active d; d_bg := d_bg d; d_batch := d_batch d ++ [r]; d_out := d_out d |}.

Definition spawn_background (s : server) : server :=
  match bg_batch s, background_concurrency s with
  | [], _ | _, 0 => s
  | batch, S permits =>
      {| app := app s; bg_batch := [];
         running := running s ++ [{| t_background := true; t_count := Z.of_nat (length batch); t_pending := batch |}];
         finished := finished s; background_concurrency := permits;
         foreground_concurrency := foreground_concurrency s; lost := lost s; outcomes := outcomes s |}
  end.

(** Without a permit the local [batch] is dropped at the end of the iteration,
    and with it the senders of its requests. *)
Definition spawn_foreground (batch : list request) (s : server) : server :=
  match batch, foreground_concurrency s with
  | [], _ => s
  | _, 0 =>
      {| app := app s; bg_batch := bg_batch s; running := running s; finished := finished s;
         background_concurrency := background_concurrency s; foreground_concurrency := 0;
         lost := lost s; outcomes := outcomes s ++ map (λ r, (r, SenderDropped)) batch |}
  | _, S permits =>
      {| app := app s; bg_batch := bg_batch s;
         running := running s ++ [{| t_background := false; t_count := Z.of_nat (length batch); t_pending := batch |}];
         finished := finished s; background_concurrency := background_concurrency s;
         foreground_concurrency := permits; lost := lost s; outcomes := outcomes s |}
  end.

(** What a task that has ended adds to the total of [reap_tasks]: a [JoinError]
    adds nothing. *)
Definition reaped_count (r : option Z) : Z := match r with Some count => count | None => 0%Z end.

(** [reap_tasks] and the [fetch_sub]: [n] of the tasks that have ended are seen by
    the non-blocking polls. *)
Definition reap (n : nat) (s : server) : server :=
  {| app := set_active (app s)
              (u64 (active_queries (app s) - sumZ reaped_count (take n (finished s))));
     bg_batch := bg_batch s; running := running s; finished := drop n (finished s);
     background_concurrency := background_concurrency s;
     foreground_concurrency := foreground_concurrency s; lost := lost s; outcomes := outcomes s |}.

Definition is_foreground (r : request) : bool := negb (is_background r).

Definition dispatch_requests (max_query_limit : Z) (requests : list request) (s : server)
  : dispatch :=
  fold_left (admit_one max_query_limit) (rev requests)
    {| d_active := active_queries (app s); d_bg := bg_batch s; d_batch := [];
       d_out := outcomes s |}.

Definition with_app (s : server) (a : AppState) : server :=
  {| app := a; bg_batch := bg_batch s; running := running s; finished := finished s;
     background_concurrency := background_concurrency s;
     foreground_concurrency := foreground_concurrency s; lost := lost s; outcomes := outcomes s |}.

Definition after_dispatch (s : server) (d : dispatch) : server :=
  {| app := set_active (app s) (d_active d); bg_batch := d_bg d; running := running s;
     finished := finished s; background_concurrency := background_concurrency s;
     foreground_concurrency := foreground_concurrency s; lost := lost s; outcomes := d_out d |}.

(** One iteration of the loop. *)
Definition iteration (max_query_limit : Z) (reaped : nat) (requests : list request) (s : server)
  : server :=
  if bool_decide (length requests = 0) then s else
  let n := Z.of_nat (length requests) in
  let foreground := count_if is_foreground requests in
  let s := with_app s (received n foreground (app s)) in
  let d := dispatch_requests max_query_limit requests s in
  reap reaped (spawn_foreground (d_batch d) (spawn_background (after_dispatch s d))).

(** ** Events *)

Section events.
Context `{HeaderOps}.

(** What [process] reads of its surroundings when a future completes. *)
Record completion := {
  c_now : Z;
  c_fresh : Header;
  c_search : Query → result DnsResponse LookupError;
  c_elapsed_ns : Z;
}.

Inductive event :=
| Receive (max_query_limit : Z) (reaped : nat) (requests : list request)
| Complete (t i : nat) (c : completion)
| Finish (t : nat)
| Crash (t : nat).

Definition set_running (s : server) (l : list task) : server :=
  {| app := app s; bg_batch := bg_batch s; running := l; finished := finished s;
     background_concurrency := background_concurrency s;
     foreground_concurrency := foreground_concurrency s; lost := lost s; outcomes := outcomes s |}.

(** The body of a spawned future, after [process] has returned. *)
Definition complete (tk : task) (r : request) (c : completion) (s : server) : server :=
  let '(reply, hit) := process (c_now c) (c_fresh c) (c_search c) (message r) in
  {| app := (if t_background tk then answered_background (c_elapsed_ns c)
             else answered_foreground hit (c_elapsed_ns c)) (app s);
     bg_batch := bg_batch s; running := running s; finished := finished s;
     background_concurrency := background_concurrency s;
     foreground_concurrency := foreground_concurrency s;
     lost := lost s; outcomes := outcomes s ++ [(r, Answered reply hit)] |}.

(** [drop(permit); count] *)
Definition finish (tk : task) (s : server) : server :=
  {| app := app s; bg_batch := bg_batch s; running := running s;
     finished := finished s ++ [Some (t_count tk)];
     background_concurrency := background_concurrency s + (if t_background tk then 1 else 0);
     foreground_concurrency := foreground_concurrency s + (if t_background tk then 0 else 1);
     lost := lost s; outcomes := outcomes s |}.

(** A future of the task panics while it is polled: the task ends with a
    [JoinError], its futures are dropped with their senders, and the permit is given
    back. *)
Definition crash (tk : task) (s : server) : server :=
  {| app := app s; bg_batch := bg_batch s; running := running s;
     finished := finished s ++ [None];
     background_concurrency := background_concurrency s + (if t_background tk then 1 else 0);
     foreground_concurrency := foreground_concurrency s + (if t_background tk then 0 else 1);
     lost := lost s + t_count tk;
     outcomes := outcomes s ++ map (λ r, (r, TaskPanicked)) (t_pending tk) |}.

Definition step (e : event) (s : server) : option server :=
  match e with
  | Receive limit reaped requests =>
      if bool_decide (length requests ≤ BATCH_SIZE)
      then Some (iteration limit reaped requests s) else None
  | Complete t i c =>
      tk ← running s !! t;
      r ← t_pending tk !! i;
      let tk' := {| t_background := t_background tk; t_count := t_count tk;
                    t_pending := delete i (t_pending tk) |} in
      Some (complete tk r c (set_running s (<[t := tk']> (running s))))
  | Finish t =>
      tk ← running s !! t;
      match t_pending tk with
      | [] => Some (finish tk (set_running s (delete t (running s))))
      | _ => None
      end
  | Crash t =>
      tk ← running s !! t;
      match t_pending tk with
      | [] => None
      | _ => Some (crash tk (set_running s (delete t (running s))))
      end
  end.

Fixpoint run (es : list event) (s : server) : option server :=
  match es with
  | [] => Some s
  | e :: es' => s' ← step e s; run es' s'
  end.

Definition requests_of (e : event) : list request :=
  match e with Receive _ _ l => l | _ => [] end.
Definition is_crash (e : event) : bool := match e with Crash _ => true | _ => false end.

End events.

(** ** Accounting *)

Definition is_dropped (ro : request * outcome) : bool :=
  match snd ro with SenderDropped => true | _ => false end.
Definition is_refused (ro : request * outcome) : bool :=
  match snd ro with RefusedByLimit => true | _ => false end.
Definition is_panicked (ro : request * outcome) : bool :=
  match snd ro with TaskPanicked => true | _ => false end.
Definition is_panicked_fg (ro : request * outcome) : bool := is_panicked ro && is_foreground (fst ro).
(** A foreground request answered from the cache ([true]) or not ([false]). *)
Definition is_answered_fg (hit : bool) (ro : request * outcome) : bool :=
  match snd ro with Answered _ h => is_foreground (fst ro) && Bool.eqb h hit | _ => false end.

Definition dropped (s : server) : Z := count_if is_dropped (outcomes s).
Definition in_flight (s : server) : list request := bg_batch s ++ (running s ≫= t_pending).

(** The queries the gauge [active_queries] stands for: those waiting for a
    background permit, those of running tasks and of tasks not yet reaped, and
    the dropped ones and all those of tasks that panicked, which nothing ever
    subtracts. *)
Definition occupancy (s : server) : Z :=
  Z.of_nat (length (bg_batch s)) + sumZ t_count (running s) + sumZ reaped_count (finished s) + dropped s + lost s.

(** The accounting of a server that has received [recv], of which the requests
    [loose] are still local variables of the loop. *)
Record accounted (recv loose : list request) (s : server) : Prop := {
  acc_requests : recv ≡ₚ map fst (outcomes s) ++ in_flight s ++ loose;
  acc_active : active_queries (app s) = u64 (occupancy s + Z.of_nat (length loose));
  acc_total : total_queries (app s) = u64 (count_if is_foreground recv);
  acc_bg_total : bg_total_queries (app s) = u64 (count_if is_background recv);
  acc_hits : cache_hit_queries (app s) = u64 (count_if (is_answered_fg true) (outcomes s));
  acc_misses : cache_miss_queries (app s) = u64 (count_if (is_answered_fg false) (outcomes s));
  acc_bg_batch : Forall (λ r, is_background r = true) (bg_batch s);
  acc_tasks : Forall (λ t, Forall (λ r, is_background r = t_background t) (t_pending t) ∧
                           (Z.of_nat (length (t_pending t)) ≤ t_count t)%Z) (running s);
  acc_outcomes : Forall (λ ro, is_background (fst ro) = true →
                               is_dropped ro = false ∧ is_refused ro = false) (outcomes s);
  acc_bg_permits :
    (Z.of_nat (background_concurrency s) + count_if t_background (running s) = 4)%Z;
  acc_fg_permits :
    (Z.of_nat (foreground_concurrency s) + count_if (λ t, negb (t_background t)) (running s) = 64)%Z;
  acc_finished : Forall (λ r, 0 ≤ reaped_count r)%Z (finished s);
  acc_lost : (count_if is_panicked (outcomes s) ≤ lost s)%Z;
}.

(** Equality of two values of the gauge. *)
Ltac occupancy_lia :=
  f_equal; unfold occupancy, dropped; simpl;
  repeat rewrite ?length_app, ?length_cons, ?length_nil, ?sumZ_app, ?sumZ_cons, ?count_if_app, ?count_if_cons; simpl;
  repeat rewrite ?length_app, ?length_cons; try lia.

Lemma accounted_init : accounted [] [] server_init.
Proof. by split. Qed.

Lemma accounted_received recv s l :
  accounted recv [] s →
  accounted (l ++ recv) l
    (with_app s (received (Z.of_nat (length l)) (count_if is_foreground l) (app s))).
Proof.
  intros [P A T B H M]. split; simpl; try done.
  - rewrite P, !app_nil_r. rewrite (Permutation_app_comm l). by rewrite app_assoc.
  - rewrite A, u64_add_l. f_equal. unfold occupancy, dropped. simpl. lia.
  - rewrite T, u64_add_l, count_if_app. f_equal. lia.
  - rewrite B, u64_add_l, count_if_app. f_equal.
    pose proof (count_if_split is_background l) as E. unfold is_foreground at 1.
    change (λ a, negb (is_background a)) with is_foreground in E.
    change (count_if (λ r, negb (is_background r)) l) with (count_if is_foreground l). lia.
Qed.

(** One turn of the dispatch loop: the request leaves the loose ones. *)
Lemma accounted_admit recv lim s d r todo :
  accounted recv (r :: todo ++ d_batch d) (after_dispatch s d) →
  accounted recv (todo ++ d_batch (admit_one lim d r)) (after_dispatch s (admit_one lim d r)).
Proof.
  intros [P A T B H M G K O]. unfold admit_one, should_refuse_query.
  unfold occupancy, dropped, in_flight in *. simpl in *.
  destruct (is_background r) eqn:Hr; simpl; [rewrite andb_false_r; simpl|case_if]; simpl.
  - split; simpl; try done.
    + rewrite P. unfold in_flight. simpl. by solve_Permutation.
    + rewrite A. occupancy_lia.
    + apply Forall_app; auto.
  - split; simpl; try done.
    + rewrite P. unfold in_flight. simpl. rewrite map_app. simpl. by solve_Permutation.
    + rewrite A, u64_sub_l. occupancy_lia.
    + by rewrite count_if_app, Z.add_0_r.
    + by rewrite count_if_app, Z.add_0_r.
    + apply Forall_app; split; [done|]. apply Forall_singleton. simpl. congruence.
    + by rewrite count_if_app, Z.add_0_r.
  - split; simpl; try done.
    + rewrite P. unfold in_flight. simpl. by solve_Permutation.
    + rewrite A. occupancy_lia.
Qed.

Lemma accounted_admit_all recv lim s l : ∀ d,
  accounted recv (l ++ d_batch d) (after_dispatch s d) →
  accounted recv (d_batch (fold_left (admit_one lim) l d))
    (after_dispatch s (fold_left (admit_one lim) l d)).
Proof.
  induction l as [|r l IH]; intros d Hd; [done|]. simpl.
  apply IH. by apply accounted_admit.
Qed.

Lemma admit_all_foreground lim l : ∀ d,
  Forall (λ r, is_background r = false) (d_batch d) →
  Forall (λ r, is_background r = false) (d_batch (fold_left (admit_one lim) l d)).
Proof.
  induction l as [|r l IH]; intros d Hd; [done|]. simpl. apply IH.
  unfold admit_one. case_if; [done|]. destruct (is_background r) eqn:?; [done|].
  simpl. apply Forall_app. auto.
Qed.

Lemma accounted_spawn_background recv loose s :
  accounted recv loose s → accounted recv loose (spawn_background s).
Proof.
  intros [P A T B H M G K O Q F N L]. unfold spawn_background.
  destruct (bg_batch s) as [|r0 l0] eqn:Eb; [by split; rewrite ?Eb|].
  destruct (background_concurrency s) as [|n] eqn:En; [by split; rewrite ?Eb, ?En|].
  split; simpl; try done.
  - rewrite P. unfold in_flight. simpl. rewrite Eb, bind_app. simpl. rewrite app_nil_r.
    by solve_Permutation.
  - rewrite A. unfold occupancy, dropped. rewrite Eb. occupancy_lia.
  - apply Forall_app; split; [done|]. apply Forall_singleton. simpl. split; [done|lia].
  - rewrite count_if_app, count_if_cons. simpl. change (count_if t_background []) with 0%Z. lia.
  - rewrite count_if_app, count_if_cons. simpl. lia.
Qed.

Lemma accounted_spawn_foreground recv batch s :
  Forall (λ r, is_background r = false) batch →
  accounted recv batch s → accounted recv [] (spawn_foreground batch s).
Proof.
  intros Hfg [P A T B H M G K O Q F N L]. unfold spawn_foreground.
  destruct batch as [|r0 l0] eqn:Eb; [by split|]. rewrite <- Eb in *. clear Eb r0 l0.
  destruct (foreground_concurrency s) as [|n] eqn:En.
  - assert (Hc : ∀ p : request * outcome → bool, (∀ r, p (r, SenderDropped) = false) →
        count_if p (outcomes s ++ map (λ r, (r, SenderDropped)) batch) = count_if p (outcomes s)).
    { intros p Hp. rewrite count_if_app, (count_if_0 _ (map _ _)); [lia|].
      apply Forall_forall. intros ro (r & -> & _)%list_elem_of_fmap. apply Hp. }
    split; simpl; try done.
    + rewrite P, map_app, map_map. simpl. rewrite map_id, app_nil_r. unfold in_flight; simpl.
      by solve_Permutation.
    + rewrite A. unfold occupancy, dropped. simpl.
      rewrite count_if_app, (count_if_all _ (map _ batch)), length_map; [f_equal; lia|].
      apply Forall_forall. by intros ro (r & -> & _)%list_elem_of_fmap.
    + by rewrite Hc.
    + by rewrite Hc.
    + apply Forall_app; split; [done|]. apply Forall_map. eapply Forall_impl; [exact Hfg|].
      simpl. congruence.
    + by rewrite Hc.
  - split; simpl; try done.
    + rewrite P. unfold in_flight. simpl. rewrite bind_app. simpl. rewrite !app_nil_r.
      by solve_Permutation.
    + rewrite A. unfold occupancy, dropped. occupancy_lia.
    + apply Forall_app; split; [done|]. apply Forall_singleton. simpl. split; [done|lia].
    + rewrite count_if_app, count_if_cons. simpl. change (count_if t_background []) with 0%Z. lia.
    + rewrite count_if_app, count_if_cons. simpl. lia.
Qed.

Lemma accounted_reap recv n s : accounted recv [] s → accounted recv [] (reap n s).
Proof.
  intros [P A T B H M G K O Q F N L]. split; simpl; try done.
  - rewrite A, u64_sub_l. unfold occupancy, dropped. simpl.
    rewrite <- (take_drop n (finished s)) at 1. rewrite sumZ_app. f_equal. lia.
  - by apply Forall_drop.
Qed.

Lemma accounted_iteration recv lim n l s :
  accounted recv [] s → accounted (l ++ recv) [] (iteration lim n l s).
Proof.
  intros Hs. unfold iteration. case_bool_decide as Hl.
  { apply nil_length_inv in Hl as ->. done. }
  apply accounted_reap, accounted_spawn_foreground.
  { apply admit_all_foreground. constructor. }
  apply accounted_spawn_background. unfold dispatch_requests.
  apply accounted_admit_all. rewrite app_nil_r.
  destruct (accounted_received _ _ l Hs) as [P A T B H M G K O Q F N L].
  split; try done.
  - by rewrite <- (Permutation_rev l).
  - by rewrite length_rev.
Qed.

Lemma bind_insert_delete (l : list task) t tk i r :
  l !! t = Some tk → t_pending tk !! i = Some r →
  l ≫= t_pending ≡ₚ
  r :: (<[t := {| t_background := t_background tk; t_count := t_count tk;
                  t_pending := delete i (t_pending tk) |}]> l ≫= t_pending).
Proof.
  intros Ht Hr. rewrite (insert_take_drop l t) by (by eapply lookup_lt_Some).
  rewrite <- (take_drop_middle l t tk Ht) at 1. rewrite !bind_app, !bind_cons. simpl.
  rewrite (delete_Permutation (t_pending tk) i r Hr) at 1.
  by solve_Permutation.
Qed.

Lemma accounted_complete `{HeaderOps} recv s t tk i r c :
  running s !! t = Some tk → t_pending tk !! i = Some r →
  accounted recv [] s →
  accounted recv [] (complete tk r c (set_running s
    (<[t := {| t_background := t_background tk; t_count := t_count tk;
               t_pending := delete i (t_pending tk) |}]> (running s)))).
Proof.
  intros Ht Hr [P A T B Hh M G K O Q F N L].
  assert (Htk := proj1 (Forall_lookup _ _) K t tk Ht). destruct Htk as [Hkind Hlen].
  assert (Hrk := proj1 (Forall_lookup _ _) Hkind i r Hr). simpl in Hrk.
  set (tk' := {| t_background := t_background tk; t_count := t_count tk;
                 t_pending := delete i (t_pending tk) |}).
  assert (Hcount : ∀ p : task → Z, p tk' = p tk → sumZ p (<[t:=tk']> (running s)) = sumZ p (running s)).
  { intros p Hp. rewrite (insert_take_drop (running s) t) by (by eapply lookup_lt_Some).
    rewrite <- (take_drop_middle _ _ _ Ht) at 3. rewrite !sumZ_app, !sumZ_cons. lia. }
  unfold complete. destruct (process _ _ _ _) as [reply hit].
  assert (Hans : ∀ b, is_answered_fg b (r, Answered reply hit) =
                      negb (t_background tk) && Bool.eqb hit b).
  { intros b. unfold is_answered_fg, is_foreground. cbn [fst snd]. by rewrite Hrk. }
  split; simpl; try (destruct (t_background tk); done).
  - rewrite P. unfold in_flight. simpl. rewrite map_app. simpl.
    rewrite (bind_insert_delete _ _ _ _ _ Ht Hr). by solve_Permutation.
  - replace (active_queries _) with (active_queries (app s)) by (by destruct (t_background tk)).
    rewrite A. unfold occupancy, dropped. simpl.
    rewrite Hcount, count_if_app, count_if_cons by done. f_equal.
    change (count_if is_dropped []) with 0%Z. simpl. lia.
  - rewrite count_if_app, count_if_cons. change (count_if _ []) with 0%Z. rewrite Hans.
    destruct (t_background tk), hit; simpl;
      rewrite ?Hh, ?u64_add_l; f_equal; lia.
  - rewrite count_if_app, count_if_cons. change (count_if _ []) with 0%Z. rewrite Hans.
    destruct (t_background tk), hit; simpl;
      rewrite ?M, ?u64_add_l; f_equal; lia.
  - apply Forall_insert; [done|]. simpl. split; [by apply Forall_delete|].
    pose proof (length_delete _ i (ex_intro _ r Hr)). lia.
  - apply Forall_app; split; [done|]. by apply Forall_singleton.
  - unfold count_if in *. by rewrite Hcount.
  - unfold count_if in *. by rewrite Hcount.
  - rewrite count_if_app, count_if_cons. change (count_if _ []) with 0%Z. simpl. lia.
Qed.

Lemma accounted_finish recv s t tk :
  running s !! t = Some tk → t_pending tk = [] →
  accounted recv [] s → accounted recv [] (finish tk (set_running s (delete t (running s)))).
Proof.
  intros Ht Hp [P A T B Hh M G K O Q F N L].
  pose proof (delete_Permutation _ _ _ Ht) as D.
  destruct (proj1 (Forall_lookup _ _) K t tk Ht) as [_ Hlen]. rewrite Hp in Hlen. simpl in Hlen.
  split; simpl; try done.
  - rewrite P. unfold in_flight. simpl. rewrite D at 1. simpl. by rewrite Hp.
  - rewrite A. unfold occupancy, dropped. simpl. rewrite D at 1.
    rewrite sumZ_cons, sumZ_app, sumZ_cons. change (sumZ reaped_count []) with 0%Z. simpl. f_equal. lia.
  - by apply Forall_delete.
  - rewrite D in Q at 1. rewrite count_if_cons in Q. destruct (t_background tk); simpl in *; lia.
  - rewrite D in F at 1. rewrite count_if_cons in F. destruct (t_background tk); simpl in *; lia.
  - apply Forall_app; split; [done|]. by apply Forall_singleton.
Qed.

Lemma accounted_crash recv s t tk :
  running s !! t = Some tk → accounted recv [] s → accounted recv [] (crash tk (set_running s (delete t (running s)))).
Proof.
  intros Ht [P A T B Hh M G K O Q F N L].
  pose proof (delete_Permutation _ _ _ Ht) as D.
  destruct (proj1 (Forall_lookup _ _) K t tk Ht) as [Hkind Hlen].
  assert (Hc : ∀ p : request * outcome → bool, (∀ r, p (r, TaskPanicked) = false) →
      count_if p (outcomes s ++ map (λ r, (r, TaskPanicked)) (t_pending tk)) = count_if p (outcomes s)).
  { intros p Hp. rewrite count_if_app, (count_if_0 _ (map _ _)); [lia|].
    apply Forall_forall. intros ro (r & -> & _)%list_elem_of_fmap. apply Hp. }
  split; simpl; try done.
  - rewrite P, map_app, map_map. simpl. rewrite map_id, !app_nil_r. unfold in_flight. simpl. rewrite D at 1. simpl.
    by solve_Permutation.
  - rewrite A. unfold occupancy, dropped. simpl. rewrite D at 1. rewrite Hc by done.
    rewrite sumZ_cons, sumZ_app, sumZ_cons. change (sumZ reaped_count []) with 0%Z. simpl. f_equal. lia.
  - by rewrite Hc.
  - by rewrite Hc.
  - by apply Forall_delete.
  - apply Forall_app; split; [done|]. apply Forall_map, Forall_true. done.
  - rewrite D in Q at 1. rewrite count_if_cons in Q. destruct (t_background tk); simpl in *; lia.
  - rewrite D in F at 1. rewrite count_if_cons in F. destruct (t_background tk); simpl in *; lia.
  - apply Forall_app; split; [done|]. by apply Forall_singleton.
  - rewrite count_if_app, (count_if_all _ (map _ _)), length_map; [lia|].
    apply Forall_forall. by intros ro (r & -> & _)%list_elem_of_fmap.
Qed.

Lemma accounted_perm recv recv' loose s :
  recv ≡ₚ recv' → accounted recv loose s → accounted recv' loose s.
Proof.
  intros E [P A T B Hh M G K O Q F N L]. split; try done.
  - by rewrite <- E.
  - by rewrite T, E.
  - by rewrite B, E.
Qed.

Lemma count_if_pos {A} (p : A → bool) l x : x ∈ l → p x = true → (0 < count_if p l)%Z.
Proof.
  intros (l1 & l2 & ->)%list_elem_of_split Hx. rewrite count_if_app, count_if_cons, Hx. cbn [Z.b2z].
  pose proof (count_if_nonneg p l1). pose proof (count_if_nonneg p l2). lia.
Qed.

Lemma spawn_background_outcomes s : outcomes (spawn_background s) = outcomes s.
Proof. unfold spawn_background. by repeat case_match. Qed.

Lemma spawn_background_lost s : lost (spawn_background s) = lost s.
Proof. unfold spawn_background. by repeat case_match. Qed.
Lemma spawn_foreground_lost b s : lost (spawn_foreground b s) = lost s.
Proof. unfold spawn_foreground. by repeat case_match. Qed.
Lemma spawn_foreground_panicked b s :
  count_if is_panicked (outcomes (spawn_foreground b s)) = count_if is_panicked (outcomes s).
Proof.
  unfold spawn_foreground. destruct b as [|r b]; [done|]. destruct (foreground_concurrency s); [|done]. cbn [outcomes].
  rewrite count_if_app, (count_if_0 _ (map _ _)); [lia|]. by apply Forall_map, Forall_true.
Qed.
Lemma admit_all_panicked lim l d :
  count_if is_panicked (d_out (fold_left (admit_one lim) l d)) = count_if is_panicked (d_out d).
Proof.
  revert d. induction l as [|r l IH]; intros d; [done|]. simpl. rewrite IH. unfold admit_one.
  case_if; [simpl; rewrite count_if_app; apply Z.add_0_r|by case_if].
Qed.

Section runs.
Context `{HeaderOps}.

Lemma accounted_step recv e s s' :
  step e s = Some s' → accounted recv [] s → accounted (requests_of e ++ recv) [] s'.
Proof.
  destruct e as [lim n l|t i c|t|t]; simpl; intros Hs Ha.
  - case_bool_decide; simplify_eq. by apply accounted_iteration.
  - destruct (running s !! t) as [tk|] eqn:Ht; simpl in *; [|done].
    destruct (t_pending tk !! i) as [r|] eqn:Hr; simplify_eq/=.
    by eapply accounted_complete.
  - destruct (running s !! t) as [tk|] eqn:Ht; simpl in *; [|done].
    destruct (t_pending tk) as [|] eqn:Hp; simplify_eq.
    by apply accounted_finish.
  - destruct (running s !! t) as [tk|] eqn:Ht; simpl in *; [|done].
    destruct (t_pending tk) as [|] eqn:Hp; simplify_eq.
    by apply accounted_crash.
Qed.

Lemma accounted_run es : ∀ recv s s',
  run es s = Some s' → accounted recv [] s → accounted ((es ≫= requests_of) ++ recv) [] s'.
Proof.
  induction es as [|e es IH]; intros recv s s' Hr Ha; simplify_eq/=; [done|].
  destruct (step e s) as [s1|] eqn:E; simplify_eq/=.
  eapply accounted_perm; [|eapply IH; [exact Hr|by eapply accounted_step]].
  by solve_Permutation.
Qed.

Lemma accounted_reachable es s :
  run es server_init = Some s → accounted (es ≫= requests_of) [] s.
Proof.
  intros Hr. rewrite <- (app_nil_r (es ≫= requests_of)).
  eapply accounted_run; [exact Hr|apply accounted_init].
Qed.

(** Nothing is lost before a task panics. *)
Lemma step_no_crash e s s' : step e s = Some s' → is_crash e = false →
  lost s = 0%Z ∧ count_if is_panicked (outcomes s) = 0%Z → lost s' = 0%Z ∧ count_if is_panicked (outcomes s') = 0%Z.
Proof.
  destruct e as [lim n l|t i c|t|t]; simpl; intros Hs Hc [Hl Hp]; [| | |done].
  - case_bool_decide; simplify_eq. unfold iteration. case_bool_decide; [done|]. simpl.
    rewrite spawn_foreground_lost, spawn_background_lost, spawn_foreground_panicked, spawn_background_outcomes. simpl.
    unfold dispatch_requests. rewrite admit_all_panicked. done.
  - destruct (running s !! t) as [tk|]; simpl in *; [|done]. destruct (t_pending tk !! i) as [r|]; simplify_eq/=.
    unfold complete. destruct (process _ _ _ _). simpl. rewrite count_if_app, Hp. done.
  - destruct (running s !! t) as [tk|]; simpl in *; [|done]. destruct (t_pending tk); simplify_eq/=. done.
Qed.

Lemma run_no_crash es : ∀ s s', run es s = Some s' → existsb is_crash es = false →
  lost s = 0%Z ∧ count_if is_panicked (outcomes s) = 0%Z → lost s' = 0%Z ∧ count_if is_panicked (outcomes s') = 0%Z.
Proof.
  induction es as [|e es IH]; intros s s' Hr Hc; simplify_eq/=; [done|]. apply orb_false_iff in Hc as [He Hes].
  destruct (step e s) as [s1|] eqn:E; simplify_eq/=. intros Hs. eapply IH; [exact Hr|done|by eapply step_no_crash].
Qed.
End runs.

(** Every foreground outcome is one of the five kinds. *)
Lemma outcomes_split (l : list (request * outcome)) :
  Forall (λ ro, is_background (fst ro) = true →
                is_dropped ro = false ∧ is_refused ro = false) l →
  count_if is_foreground (map fst l) =
    (count_if (is_answered_fg true) l + count_if (is_answered_fg false) l +
     count_if is_refused l + count_if is_dropped l + count_if is_panicked_fg l)%Z.
Proof.
  induction 1 as [|[r o] l Hro _ IH]; [done|]. rewrite map_cons, !count_if_cons, IH.
  unfold is_foreground, is_answered_fg, is_dropped, is_refused, is_panicked_fg, is_panicked in *. cbn [fst snd] in *.
  unfold is_foreground. destruct (is_background r); simpl in *.
  - destruct o; simpl; try lia; destruct (Hro eq_refl); done.
  - destruct o as [? []| | |]; simpl; lia.
Qed.

(** C4. Accounting of the request loop: whatever the interleaving, and whichever
    tasks panic, every request received is either settled once or still in flight,
    none twice and none lost; the total of foreground queries is the cache hits plus
    the misses plus the refused, the dropped, those of panicked tasks and the pending
    ones; the gauge [active_queries] counts what waits or runs, plus every query ever
    dropped and every query of a task that panicked; background queries are neither
    refused nor dropped, and only a panic of their task leaves them without a reply;
    at most 4 background and 64 foreground tasks run; and while no task has panicked
    no query is settled by a panic and none is added to the gauge for one. *)
Theorem serve_accounting `{HeaderOps} (es : list event) (s : server)
    (Hrun : run es server_init = Some s) :
  (es ≫= requests_of ≡ₚ map fst (outcomes s) ++ in_flight s) ∧
  total_queries (app s) =
    u64 (cache_hit_queries (app s) + cache_miss_queries (app s) +
         count_if is_refused (outcomes s) + dropped s + count_if is_panicked_fg (outcomes s) +
         count_if is_foreground (in_flight s)) ∧
  active_queries (app s) = u64 (occupancy s) ∧
  (∀ r o, (r, o) ∈ outcomes s → is_background r = true → (∃ reply hit, o = Answered reply hit) ∨ o = TaskPanicked) ∧
  (count_if t_background (running s) ≤ 4)%Z ∧
  (count_if (λ t, negb (t_background t)) (running s) ≤ 64)%Z ∧
  (existsb is_crash es = false → lost s = 0%Z ∧ ∀ r, (r, TaskPanicked) ∉ outcomes s).
Proof.
  destruct (accounted_reachable es s Hrun) as [P A T B Hh M G K O Q F N L].
  rewrite app_nil_r in P. split_and_all; [done| | |..]; try lia.
  - rewrite T, Hh, M, P, count_if_app, outcomes_split by done.
    unfold dropped.
    rewrite <- !Z.add_assoc, u64_add_both. done.
  - rewrite A. f_equal. simpl. lia.
  - intros r o Hin Hb. destruct (proj1 (Forall_forall _ _) O _ Hin Hb) as [H1 H2].
    destruct o as [reply hit| | |]; [eauto|done|done|auto].
  - intros Hc. destruct (run_no_crash es _ _ Hrun Hc) as [H1 H2]; [done|]. split; [done|]. intros r Hin.
    pose proof (count_if_pos is_panicked _ _ Hin eq_refl). lia.
Qed.

(** ** Dropped requests *)

Lemma admit_all_refuses lim l : ∀ d,
  (0 < lim)%Z → (lim + Z.of_nat (length l) ≤ d_active d ≤ u64_max)%Z →
  let d' := fold_left (admit_one lim) l d in
  (∃ more, d_out d' = d_out d ++ more) ∧
  ∀ r, r ∈ l → is_background r = false → (r, RefusedByLimit) ∈ d_out d'.
Proof.
  induction l as [|r l IH]; intros d Hlim Hact; simpl.
  { split; [exists []; by rewrite app_nil_r|]. intros r Hr. by apply not_elem_of_nil in Hr. }
  rewrite length_cons in Hact.
  assert (Hone : let d1 := admit_one lim d r in
    (lim + Z.of_nat (length l) ≤ d_active d1 ≤ u64_max)%Z ∧
    (∃ more, d_out d1 = d_out d ++ more) ∧
    (is_background r = false → (r, RefusedByLimit) ∈ d_out d1)).
  { unfold admit_one, should_refuse_query. destruct (is_background r) eqn:Hb; simpl.
    - rewrite andb_false_r. simpl. split_and_all; [lia|lia|exists []; by rewrite app_nil_r|done].
    - rewrite (proj2 (Z.ltb_lt _ _)) by lia. simpl.
      rewrite (proj2 (Z.ltb_lt lim (d_active d))) by lia. simpl.
      rewrite u64_small by (unfold in_u64; lia).
      split_and_all; [lia|lia|by eexists|set_solver]. }
  destruct Hone as (Ha & [m1 E1] & Hr).
  destruct (IH _ Hlim Ha) as [[m2 E2] Hall]; split.
  { exists (m1 ++ m2). by rewrite E2, E1, app_assoc. }
  intros r' [->|Hin]%elem_of_cons Hb; [|by apply Hall].
  rewrite E2. apply elem_of_app. left. by apply Hr.
Qed.

Lemma occupancy_ge recv loose s : accounted recv loose s → (dropped s + lost s ≤ occupancy s)%Z.
Proof.
  intros Ha. unfold occupancy.
  assert (0 ≤ sumZ t_count (running s))%Z.
  { apply sumZ_nonneg. intros t Ht.
    destruct (proj1 (Forall_forall _ _) (acc_tasks _ _ _ Ha) t Ht). lia. }
  assert (0 ≤ sumZ reaped_count (finished s))%Z; [|lia].
  apply sumZ_nonneg. intros n Hn.
  exact (proj1 (Forall_forall _ _) (acc_finished _ _ _ Ha) n Hn).
Qed.

Lemma spawn_foreground_outcomes b s ro :
  ro ∈ outcomes s → ro ∈ outcomes (spawn_foreground b s).
Proof. unfold spawn_foreground. repeat case_match; simpl; set_solver. Qed.

(** A dropped request blocks the service: once as many requests as the limit on
    concurrent queries have been dropped or were in tasks that panicked, every later
    foreground request is refused, even when nothing is running. *)
Theorem dropped_block_service `{HeaderOps} (es : list event) (s s' : server)
    (lim : Z) (n : nat) (requests : list request)
    (Hrun : run es server_init = Some s)
    (Hlim : (0 < lim ≤ dropped s + lost s)%Z)
    (Hfit : (occupancy s + Z.of_nat (length requests) ≤ u64_max)%Z)
    (Hstep : step (Receive lim n requests) s = Some s') :
  ∀ r, r ∈ requests → is_background r = false → (r, RefusedByLimit) ∈ outcomes s'.
Proof.
  pose proof (accounted_reachable es s Hrun) as Ha. pose proof (occupancy_ge _ _ _ Ha) as Hge.
  intros r Hr Hb. simpl in Hstep. case_bool_decide; simplify_eq. unfold iteration.
  case_bool_decide as Hl; [apply nil_length_inv in Hl as ->; by apply not_elem_of_nil in Hr|].
  simpl. apply spawn_foreground_outcomes. rewrite spawn_background_outcomes. simpl.
  unfold dispatch_requests. apply admit_all_refuses; [lia| |by rewrite <- (Permutation_rev requests)|done].
  simpl. rewrite (acc_active _ _ _ Ha), u64_add_l, length_rev. simpl.
  pose proof (count_if_nonneg is_dropped (outcomes s)). unfold dropped in *.
  rewrite Z.add_0_r, u64_small by (unfold in_u64; lia). lia.
Qed.

(** 64 slow queries and one more that finds no permit; then all is answered and
    reaped; then two queries of which one is answered before its task panics, and a
    last one: nothing runs, three queries still count as active, and with a limit of
    one concurrent query the next request is refused. *)
Definition demo_request (n : nat) : request :=
  {| rid := n; is_background := false; message := ParsedOther |}.
Definition demo_header : Header :=
  {| h_id := 0; h_message_type := MT_Query; h_op_code := Op_Query; h_authoritative := false;
     h_recursion_desired := true; h_recursion_available := false; h_response_code := NoError |}.
Definition demo_completion : completion :=
  {| c_now := 0; c_fresh := demo_header; c_search := λ _, Err NameExists; c_elapsed_ns := 5000000 |}.
Definition demo_events : list event :=
  map (λ n, Receive 0 0 [demo_request n]) (seq 0 65) ++
  concat (replicate 64 [Complete 0 0 demo_completion; Finish 0]) ++
  [Receive 0 64 [demo_request 65; demo_request 66]; Complete 0 0 demo_completion; Crash 0; Receive 0 1 [demo_request 67];
   Complete 0 0 demo_completion; Finish 0].
Definition demo_server : server :=
  default server_init (run (H := plain_headers) demo_events server_init).

Lemma serve_accounting_witness :
  active_queries (app demo_server) = u64 (occupancy demo_server) ∧ dropped demo_server = 1%Z ∧ lost demo_server = 2%Z.
Proof.
  split; [|split; vm_compute; reflexivity].
  apply (serve_accounting (H := plain_headers) demo_events demo_server).
  vm_compute. reflexivity.
Defined.

Lemma dropped_block_service_witness :
  let s := iteration 1 64 [demo_request 68] demo_server in
  running demo_server = [] ∧ (demo_request 68, RefusedByLimit) ∈ outcomes s.
Proof.
  split; [vm_compute; reflexivity|].
  apply (dropped_block_service (H := plain_headers) demo_events demo_server _ 1 64 [demo_request 68]);
    [vm_compute; reflexivity|vm_compute; split; [reflexivity|discriminate]
    |vm_compute; discriminate|reflexivity|left|reflexivity].
Defined.
