(* ===== verification/Stats.v ===== *)
(** * Statistics of the server, and what the overview page receives

    The handlers of src/api/stats.rs: [stats], [aggregate] and the rankings
    [top_domains], [clients] and [query_types], with the serialisation of their
    results, composed with the decoders of webui/src/lib/api.ts. *)

From S2P Require Import Prelude Float64 Jsx WebApi Dns AuditLog App.

(** ** Rankings *)

Record NameCount := { rk_name : string; rk_count : Z; rk_avg_time_ms : f64 }.

(** [b.count.cmp(&a.count).then(b.avg.partial_cmp(&a.avg).unwrap_or(Equal))] *)
Definition rank_cmp (a b : NameCount) : comparison :=
  match (rk_count b ?= rk_count a)%Z with
  | Eq => F64.partial_cmp_or_eq (rk_avg_time_ms b) (rk_avg_time_ms a)
  | c => c
  end.

Section rankings.
(** The iteration order of a [HashMap] is unspecified. *)
Variable into_iter : gmap string (Z * f64) → list (string * (Z * f64)).

(** [map.entry(key).or_insert((0, 0.0))] and the two additions.  The counts are
    bounded by the ring's 1000 entries. *)
Definition tally (classify : AuditLog.QueryLogEntry → option string)
    (m : gmap string (Z * f64)) (e : AuditLog.QueryLogEntry) : gmap string (Z * f64) :=
  match classify e with
  | Some key =>
      let '(c, t) := default (0%Z, F64.zero) (m !! key) in
      <[key := ((c + 1)%Z, F64.add t (AuditLog.elapsed_ms e))]> m
  | None => m
  end.

Definition name_count (kv : string * (Z * f64)) : NameCount :=
  let '(name, (c, total)) := kv in
  {| rk_name := name; rk_count := c;
     rk_avg_time_ms := if (0 <? c)%Z then F64.div total (F64.of_Z c) else F64.zero |}.

Definition aggregate (ring : list AuditLog.QueryLogEntry)
    (classify : AuditLog.QueryLogEntry → option string) : list NameCount :=
  sort_by rank_cmp (map name_count (into_iter (fold_left (tally classify) ring ∅))).

Definition rank_limit (limit : option Z) : nat := Z.to_nat (clamp (default 10%Z limit) 1 100).

Definition top_domains (ring : list AuditLog.QueryLogEntry) (limit : option Z) : list NameCount :=
  take (rank_limit limit) (aggregate ring (λ e, Some (AuditLog.domain e))).
Definition clients (ring : list AuditLog.QueryLogEntry) (limit : option Z) : list NameCount :=
  take (rank_limit limit) (aggregate ring (λ e, Some (AuditLog.client e))).
Definition query_types (ring : list AuditLog.QueryLogEntry) : list NameCount :=
  aggregate ring (λ e, Some (AuditLog.query_type e)).

(** The reference: the entries of one key, their number and their mean time. *)
Definition of_key (classify : AuditLog.QueryLogEntry → option string) (k : string)
    (ring : list AuditLog.QueryLogEntry) : list AuditLog.QueryLogEntry :=
  filter (λ e, classify e = Some k) ring.

Definition total_time (l : list AuditLog.QueryLogEntry) : f64 :=
  fold_left (λ t e, F64.add t (AuditLog.elapsed_ms e)) l F64.zero.

Definition summary classify (k : string) (ring : list AuditLog.QueryLogEntry) : NameCount :=
  let l := of_key classify k ring in
  {| rk_name := k; rk_count := Z.of_nat (length l);
     rk_avg_time_ms := F64.div (total_time l) (F64.of_Z (Z.of_nat (length l))) |}.

Lemma tally_lookup classify ring k :
  fold_left (tally classify) ring ∅ !! k =
    let l := of_key classify k ring in
    if bool_decide (l = []) then None else Some (Z.of_nat (length l), total_time l).
Proof.
  induction ring as [|e ring IH] using rev_ind; [done|].
  rewrite fold_left_app. simpl. unfold tally at 1.
  unfold of_key in *. rewrite filter_app, filter_cons, filter_nil.
  destruct (classify e) as [key|] eqn:E.
  2:{ rewrite IH. simpl. by rewrite app_nil_r. }
  destruct (decide (key = k)) as [->|Hne].
  - rewrite IH. rewrite decide_True by done. simpl.
    set (l := filter _ ring) in *. unfold total_time. rewrite fold_left_app, length_app. simpl.
    rewrite (bool_decide_eq_false_2 (l ++ [e] = [])) by (by destruct l).
    case_bool_decide as Hl; simpl.
    + rewrite Hl. simpl. by rewrite lookup_insert_eq.
    + rewrite lookup_insert_eq. do 2 f_equal. lia.
  - rewrite decide_False by congruence. rewrite app_nil_r.
    destruct (default _ _) as [c t]. by rewrite lookup_insert_ne.
Qed.

Hypothesis into_iter_perm : ∀ m, into_iter m ≡ₚ map_to_list m.

(** The unsorted rows: one summary per key that occurs. *)
Lemma aggregate_perm ring classify :
  ∃ keys, NoDup keys ∧ (∀ k, k ∈ keys ↔ ∃ e, e ∈ ring ∧ classify e = Some k) ∧
    aggregate ring classify ≡ₚ map (λ k, summary classify k ring) keys.
Proof.
  set (m := fold_left (tally classify) ring ∅).
  exists (map fst (map_to_list m)). split_and!.
  - apply NoDup_fst_map_to_list.
  - intros k. split.
    + intros ([k' [c t]] & -> & Hk%elem_of_map_to_list)%list_elem_of_fmap.
      simpl. unfold m in Hk. rewrite tally_lookup in Hk. simpl in Hk.
      case_bool_decide as Hl; [done|].
      destruct (of_key classify k' ring) as [|e l] eqn:E; [done|].
      assert (Hin : e ∈ of_key classify k' ring) by (rewrite E; by left).
      apply list_elem_of_filter in Hin as [? ?]. by exists e.
    + intros (e & He & Hc). apply list_elem_of_fmap.
      assert (Hin : e ∈ of_key classify k ring) by (by apply list_elem_of_filter).
      eexists (k, (_, _)). split; [done|]. apply elem_of_map_to_list. unfold m.
      rewrite tally_lookup. simpl. rewrite bool_decide_eq_false_2; [done|].
      intros E. rewrite E in Hin. by apply not_elem_of_nil in Hin.
  - unfold aggregate. fold m. rewrite sort_by_perm, into_iter_perm, map_map.
    apply Permutation_refl', map_ext_in. intros [k [c t]] Hin.
    apply list_elem_of_In, elem_of_map_to_list in Hin. unfold m in Hin.
    rewrite tally_lookup in Hin. simpl in Hin. case_bool_decide as Hl; simplify_eq.
    unfold summary. simpl. f_equal. rewrite (proj2 (Z.ltb_lt _ _)); [done|].
    destruct (of_key classify k ring); [done|simpl; lia].
Qed.

Lemma rank_cmp_antisym a b : rank_cmp a b = Gt → rank_cmp b a ≠ Gt.
Proof.
  unfold rank_cmp. rewrite (Z.compare_antisym (rk_count b) (rk_count a)).
  destruct (rk_count b ?= rk_count a)%Z; simpl; try done.
  unfold F64.partial_cmp_or_eq. rewrite (F64.cmp_flip (rk_avg_time_ms a)).
  by destruct (F64.cmp _ _) as [[]|].
Qed.

Lemma rank_cmp_count a b : rank_cmp a b ≠ Gt → (rk_count b ≤ rk_count a)%Z.
Proof. unfold rank_cmp. destruct (Z.compare_spec (rk_count b) (rk_count a)); [lia|lia|done]. Qed.

Lemma aggregate_sorted ring classify :
  Sorted (λ a b, rank_cmp a b ≠ Gt) (aggregate ring classify).
Proof. apply sort_by_sorted; [done|]. apply rank_cmp_antisym. Qed.

Lemma aggregate_count_sorted ring classify :
  StronglySorted (λ a b, rk_count b ≤ rk_count a)%Z (aggregate ring classify).
Proof.
  apply Sorted_StronglySorted; [intros a b c; lia|]. apply sort_by_sorted.
  - apply rank_cmp_count.
  - intros a b Hgt. apply rank_cmp_count. by apply rank_cmp_antisym.
Qed.

(** What a ranking of the first [n] rows shows. *)
Record ranking_of (classify : AuditLog.QueryLogEntry → option string)
    (ring : list AuditLog.QueryLogEntry) (n : nat) (v : list NameCount) : Prop := {
  rank_length : length v ≤ n;
  rank_names : NoDup (map rk_name v);
  rank_rows : ∀ r, r ∈ v → r = summary classify (rk_name r) ring ∧ (0 < rk_count r)%Z;
  rank_sorted : Sorted (λ a b, rank_cmp a b ≠ Gt) v;
  rank_rest : ∀ e k, e ∈ ring → classify e = Some k → k ∉ map rk_name v →
    length v = n ∧ ∀ r, r ∈ v → (rk_count (summary classify k ring) ≤ rk_count r)%Z;
}.

Lemma aggregate_rows ring classify r :
  r ∈ aggregate ring classify → r = summary classify (rk_name r) ring ∧ (0 < rk_count r)%Z.
Proof.
  destruct (aggregate_perm ring classify) as (keys & _ & Hkeys & ->).
  intros (k & -> & Hk)%list_elem_of_fmap. split; [done|]. simpl.
  apply Hkeys in Hk as (e & He & Hc).
  assert (Hin : e ∈ of_key classify k ring) by (by apply list_elem_of_filter).
  destruct (of_key classify k ring); [by apply not_elem_of_nil in Hin|simpl; lia].
Qed.

Lemma aggregate_names ring classify : NoDup (map rk_name (aggregate ring classify)).
Proof.
  destruct (aggregate_perm ring classify) as (keys & Hnd & _ & ->).
  rewrite map_map. simpl. by rewrite map_id.
Qed.

Lemma aggregate_complete ring classify e k :
  e ∈ ring → classify e = Some k → summary classify k ring ∈ aggregate ring classify.
Proof.
  intros He Hc. destruct (aggregate_perm ring classify) as (keys & _ & Hkeys & ->).
  apply list_elem_of_fmap. exists k. split; [done|]. apply Hkeys. eauto.
Qed.

Lemma take_ranking ring classify n :
  ranking_of classify ring n (take n (aggregate ring classify)).
Proof.
  set (l := aggregate ring classify).
  assert (Hsub : ∀ r, r ∈ take n l → r ∈ l).
  { intros r Hr. rewrite <- (take_drop n l). apply elem_of_app. by left. }
  split.
  - rewrite length_take. lia.
  - pose proof (aggregate_names ring classify) as Hnd. fold l in Hnd.
    rewrite <- (take_drop n l), map_app in Hnd. by apply NoDup_app in Hnd as [? _].
  - intros r Hr. by apply aggregate_rows, Hsub.
  - pose proof (aggregate_sorted ring classify) as Hs. fold l in Hs.
    by apply sorted_take.
  - intros e k He Hc Hout. pose proof (aggregate_complete ring classify e k He Hc) as Hin.
    fold l in Hin. rewrite <- (take_drop n l) in Hin. apply elem_of_app in Hin as [Hin|Hin].
    { exfalso. apply Hout, list_elem_of_fmap. by exists (summary classify k ring). }
    assert (n < length l).
    { destruct (decide (n < length l)); [done|]. rewrite drop_ge in Hin by lia.
      by apply not_elem_of_nil in Hin. }
    split; [rewrite length_take; lia|]. intros r Hr.
    pose proof (aggregate_count_sorted ring classify) as Hs. fold l in Hs.
    rewrite <- (take_drop n l) in Hs. 
    exact (StronglySorted_app_1_elem_of _ _ _ _ _ Hs Hr Hin).
Qed.

(** Every entry is counted once. *)
Lemma sum_over_keys (ring : list AuditLog.QueryLogEntry) (f : AuditLog.QueryLogEntry → string) keys :
  NoDup keys → (∀ e, e ∈ ring → f e ∈ keys) →
  sumZ (λ k, Z.of_nat (length (of_key (λ e, Some (f e)) k ring))) keys = Z.of_nat (length ring).
Proof.
  intros Hnd. induction ring as [|e ring IH]; intros Hin.
  { change (sumZ (λ _ : string, 0%Z) keys = 0%Z). rewrite sumZ_const. lia. }
  assert (Hone : sumZ (λ k, Z.b2z (bool_decide (f e = k))) keys = 1%Z).
  { assert (Hk : f e ∈ keys) by (apply Hin; by left). clear IH Hin.
    induction Hnd as [|k keys Hk' Hnd IH]; [by apply not_elem_of_nil in Hk|].
    rewrite sumZ_cons. apply elem_of_cons in Hk as [E|Hk].
    - rewrite bool_decide_eq_true_2 by done. rewrite (sumZ_ext _ (λ _, 0%Z)), sumZ_const; [simpl; lia|].
      intros k'' Hk''. rewrite bool_decide_eq_false_2; [done|]. congruence.
    - rewrite IH by done. rewrite bool_decide_eq_false_2; [done|]. congruence. }
  rewrite (sumZ_ext _ (λ k, Z.b2z (bool_decide (f e = k)) +
             Z.of_nat (length (of_key (λ e, Some (f e)) k ring)))%Z).
  { rewrite sumZ_add, Hone, IH by (intros; apply Hin; by right). simpl length. lia. }
  intros k _. unfold of_key. rewrite filter_cons. case_bool_decide.
  - rewrite decide_True by congruence. simpl. lia.
  - rewrite decide_False by congruence. simpl. lia.
Qed.

Lemma aggregate_total ring (f : AuditLog.QueryLogEntry → string) :
  sumZ rk_count (aggregate ring (λ e, Some (f e))) = Z.of_nat (length ring).
Proof.
  destruct (aggregate_perm ring (λ e, Some (f e))) as (keys & Hnd & Hkeys & ->).
  rewrite sumZ_map. simpl. apply sum_over_keys; [done|].
  intros e He. apply Hkeys. eauto.
Qed.

(** C30. The rankings of the overview page: for any order in which the hash map is
    enumerated, [/api/stats/top-domains] and [/api/stats/clients] are rankings
    of the query log, cut at the limit (between 1 and 100): distinct names, each
    with the exact number and mean time of its entries, most frequent first and
    slower first among equals, and a name that is left out is not more frequent
    than any that is shown.  The query types add up to the whole log. *)
Theorem rankings_correct (ring : list AuditLog.QueryLogEntry) (limit : option Z) :
  ranking_of (λ e, Some (AuditLog.domain e)) ring (rank_limit limit) (top_domains ring limit) ∧
  ranking_of (λ e, Some (AuditLog.client e)) ring (rank_limit limit) (clients ring limit) ∧
  1 ≤ rank_limit limit ≤ 100 ∧
  sumZ rk_count (query_types ring) = Z.of_nat (length ring).
Proof.
  split_and!; try apply take_ranking.
  1-2: pose proof (clamp_range (default 10%Z limit) 1 100); unfold rank_limit; lia.
  apply aggregate_total.
Qed.
End rankings.

(** Enumerations of a map in key order and in the reverse order are both
    admissible: the rankings do not depend on which one is taken. *)
Lemma rankings_correct_witness :
  let e c d := {| AuditLog.time := 0; AuditLog.client := c; AuditLog.domain := d;
                  AuditLog.query_type := "A"; AuditLog.elapsed_ms := F64.of_Z 2;
                  log_result := "success"; AuditLog.speed_ms := None; AuditLog.source := "Cache" |} in
  sumZ rk_count (query_types (λ m, rev (map_to_list m)) [e "c1" "a."; e "c2" "b."; e "c1" "b."]) = 3%Z.
Proof.
  intros e.
  apply (rankings_correct (λ m, rev (map_to_list m)) (λ m, symmetry (Permutation_rev (map_to_list m)))
           [e "c1" "a."; e "c2" "b."; e "c1" "b."] (Some 1%Z)).
Defined.

(** ** [/api/stats] *)

Record DnsStats := {
  st_uptime_secs : Z;
  st_active_queries : Z;
  st_cache_size : Z;
  st_cache_hits : Z;
  st_cache_query_hits : Z;
  st_total_queries : Z;
  st_bg_total_queries : Z;
  st_cache_hit_rate : f64;
  st_avg_query_time_ms : f64;
  st_cache_hit_avg_query_time_ms : f64;
  st_cache_miss_avg_query_time_ms : f64;
  st_cache_hit_queries : Z;
  st_cache_miss_queries : Z;
  st_bg_avg_query_time_ms : f64;
  st_version : string;
  st_history : list App.StatsSnapshot;
}.

(** [(hits as f64 / total as f64 * 100.0).min(100.0)] *)
Definition hit_rate (query_hits total : Z) : f64 :=
  if (0 <? total)%Z
  then F64.min (F64.mul (F64.div (F64.of_Z query_hits) (F64.of_Z total)) (F64.of_Z 100)) (F64.of_Z 100)
  else F64.zero.

(** [cache] is the number of entries and of hits of the cache, when there is one;
    [now] is the Unix time in seconds. *)
Definition stats (BUILD_VERSION : string) (now uptime : Z) (cache : option (Z * Z)) (a : AppState)
  : AppState * DnsStats :=
  let '(cache_size, cache_hits, cache_query_hits) :=
    match cache with Some (size, hits) => (size, hits, hits) | None => (0, 0, 0)%Z end in
  let a' := add_stats_snapshot now cache_query_hits a in
  (a', {| st_uptime_secs := as_secs uptime;
          st_active_queries := App.active_queries a;
          st_cache_size := cache_size;
          st_cache_hits := cache_hits;
          st_cache_query_hits := cache_query_hits;
          st_total_queries := App.total_queries a;
          st_bg_total_queries := App.bg_total_queries a;
          st_cache_hit_rate := hit_rate cache_query_hits (App.total_queries a);
          st_avg_query_time_ms := App.avg_query_time_ms a;
          st_cache_hit_avg_query_time_ms := App.cache_hit_avg_query_time_ms a;
          st_cache_miss_avg_query_time_ms := App.cache_miss_avg_query_time_ms a;
          st_cache_hit_queries := App.cache_hit_queries a;
          st_cache_miss_queries := App.cache_miss_queries a;
          st_bg_avg_query_time_ms := App.bg_avg_query_time_ms a;
          st_version := BUILD_VERSION;
          st_history := stats_history a' |}).

(** serde_json writes a number that is not finite as [null]. *)
Definition json_f64 (x : f64) : json := if F64.is_finite x then JFlt x else JNull.

Definition serialize_StatsSnapshot (s : App.StatsSnapshot) : json :=
  JObj [("timestamp", JInt (snap_timestamp s)); ("total_queries", JInt (snap_total s));
        ("cache_hits", JInt (snap_hits s))].

Definition serialize_DnsStats (d : DnsStats) : json :=
  JObj [("uptime_secs", JInt (st_uptime_secs d));
        ("active_queries", JInt (st_active_queries d));
        ("cache_size", JInt (st_cache_size d));
        ("cache_hits", JInt (st_cache_hits d));
        ("cache_query_hits", JInt (st_cache_query_hits d));
        ("total_queries", JInt (st_total_queries d));
        ("bg_total_queries", JInt (st_bg_total_queries d));
        ("cache_hit_rate", json_f64 (st_cache_hit_rate d));
        ("avg_query_time_ms", json_f64 (st_avg_query_time_ms d));
        ("cache_hit_avg_query_time_ms", json_f64 (st_cache_hit_avg_query_time_ms d));
        ("cache_miss_avg_query_time_ms", json_f64 (st_cache_miss_avg_query_time_ms d));
        ("cache_hit_queries", JInt (st_cache_hit_queries d));
        ("cache_miss_queries", JInt (st_cache_miss_queries d));
        ("bg_avg_query_time_ms", json_f64 (st_bg_avg_query_time_ms d));
        ("version", JStr (st_version d));
        ("history", JArr (map serialize_StatsSnapshot (st_history d)))].

Definition snapshot_view (s : App.StatsSnapshot) : WebApi.StatsSnapshot :=
  {| timestamp := snap_timestamp s; snap_total_queries := snap_total s;
     snap_cache_hits := snap_hits s |}.

Lemma decode_history l :
  mapM decode_StatsSnapshot (map serialize_StatsSnapshot l) = Some (map snapshot_view l).
Proof. induction l as [|s l IH]; [done|]. simpl. by rewrite IH. Qed.

Lemma push_snapshot_last_n hist s :
  push_snapshot (last_n HISTORY_MAX hist) s = last_n HISTORY_MAX (hist ++ [s]).
Proof. rewrite last_n_snoc by done. done. Qed.

Definition all_finite (d : DnsStats) : bool :=
  F64.is_finite (st_cache_hit_rate d) && F64.is_finite (st_avg_query_time_ms d) &&
  F64.is_finite (st_cache_hit_avg_query_time_ms d) &&
  F64.is_finite (st_cache_miss_avg_query_time_ms d) && F64.is_finite (st_bg_avg_query_time_ms d).

Lemma decode_DnsStats d :
  all_finite d = true →
  decode_StatsResponse (serialize_DnsStats d) = Some
    {| WebApi.uptime_secs := st_uptime_secs d; WebApi.active_queries := st_active_queries d;
       WebApi.cache_size := st_cache_size d; WebApi.cache_hits := st_cache_hits d;
       WebApi.cache_query_hits := st_cache_query_hits d; WebApi.total_queries := st_total_queries d;
       WebApi.bg_total_queries := st_bg_total_queries d; WebApi.cache_hit_rate := st_cache_hit_rate d;
       WebApi.avg_query_time_ms := st_avg_query_time_ms d;
       WebApi.cache_hit_avg_query_time_ms := st_cache_hit_avg_query_time_ms d;
       WebApi.cache_miss_avg_query_time_ms := st_cache_miss_avg_query_time_ms d;
       WebApi.cache_hit_queries := st_cache_hit_queries d; WebApi.cache_miss_queries := st_cache_miss_queries d;
       WebApi.bg_avg_query_time_ms := st_bg_avg_query_time_ms d; WebApi.stats_version := st_version d;
       WebApi.history := map snapshot_view (st_history d) |}.
Proof.
  unfold all_finite. intros Hf. repeat apply andb_true_iff in Hf as [Hf ?].
  unfold decode_StatsResponse, serialize_DnsStats, field, json_f64. simpl.
  rewrite H, H0, H1, H2, Hf. simpl. by rewrite decode_history.
Qed.

(** The overview page's statistics: as long as the averages are finite
    numbers, the document [/api/stats] returns has the shape the dashboard
    declares and carries the server's counters unchanged; the hit rate is a number
    not above 100; the history has grown by one snapshot of the current totals
    and holds the last 120 of all that were taken. *)
Theorem stats_reported (v : string) (now uptime : Z) (cache : option (Z * Z)) (a : AppState)
    (taken : list App.StatsSnapshot)
    (Hfin : all_finite (snd (stats v now uptime cache a)) = true)
    (Hhist : stats_history a = last_n 120 taken) :
  let '(a', d) := stats v now uptime cache a in
  let query_hits := from_option snd 0%Z cache in
  let taken' := taken ++ [{| snap_timestamp := now; snap_total := App.total_queries a;
                             snap_hits := query_hits |}] in
  stats_history a' = last_n 120 taken' ∧
  ∃ r, decode_StatsResponse (serialize_DnsStats d) = Some r ∧
    WebApi.total_queries r = App.total_queries a ∧
    WebApi.active_queries r = App.active_queries a ∧
    WebApi.cache_hit_queries r = App.cache_hit_queries a ∧
    WebApi.cache_miss_queries r = App.cache_miss_queries a ∧
    cache_query_hits r = query_hits ∧
    history r = map snapshot_view (last_n 120 taken') ∧
    F64.is_nan (cache_hit_rate r) = false ∧
    F64.cmp (cache_hit_rate r) (F64.of_Z 100) ≠ Some Gt.
Proof.
  assert (Hrate : ∀ h t, F64.is_nan (hit_rate h t) = false ∧
                         F64.cmp (hit_rate h t) (F64.of_Z 100) ≠ Some Gt).
  { intros h t. unfold hit_rate. case_if; [|done].
    split; [by apply F64.min_not_nan|by apply F64.min_not_gt]. }
  assert (Hh : ∀ h, stats_history (add_stats_snapshot now h a) = last_n 120 (taken ++
      [{| snap_timestamp := now; snap_total := App.total_queries a; snap_hits := h |}])).
  { intros h. simpl. rewrite Hhist. apply push_snapshot_last_n. }
  destruct (stats v now uptime cache a) as [a' d] eqn:E.
  destruct cache as [[size hits]|]; injection E as <- <-; (split; [apply Hh|]);
    (eexists; split; [apply decode_DnsStats, Hfin|]); simpl;
    repeat (split; [done|]); (split; [by rewrite <- Hh|]); apply Hrate.
Qed.

Lemma stats_reported_witness :
  let a := answered_foreground true 3000000 (answered_foreground false 9000000 (received 2 2 app_new)) in
  ∃ r, decode_StatsResponse (serialize_DnsStats (snd (stats "1.0" 1700000000 (secs 60) (Some (7, 1)%Z) a)))
       = Some r ∧ WebApi.total_queries r = 2%Z.
Proof.
  intros a.
  destruct (stats_reported "1.0" 1700000000 (secs 60) (Some (7, 1)%Z) a []
              ltac:(vm_compute; reflexivity) ltac:(vm_compute; reflexivity))
    as (_ & r & Hr & Ht & _).
  exists r. split; [exact Hr|exact Ht].
Defined.
