(* ===== verification/Lru.v ===== *)
(** * The interface of the LRU map

    The [lru] crate is not part of the repository.  [LruOps] names the
    operations the cache uses and [LruLaws] what their documentation promises,
    in terms of [iter], which lists the entries from the most to the least
    recently used.  Everything about the cache is proved against this interface;
    [ListLru] shows that it can be implemented. *)

From S2P Require Import Prelude.

Class LruOps (K V : Type) := {
  lru : Type;
  lru_new : nat → lru;
  cap : lru → nat;
  iter : lru → list (K * V);
  (** [get_mut]: the value and what assigning through the reference yields. *)
  get_mut : K → lru → option (V * (V → lru));
  (** [push]: the entry that was replaced or evicted. *)
  push : K → V → lru → option (K * V) * lru;
  pop_lru : lru → option ((K * V) * lru);
  clear : lru → lru;
}.

Section spec.
Context {K V : Type} `{EqDecision K}.

Definition assoc (k : K) (l : list (K * V)) : option V :=
  snd <$> find (λ kv, bool_decide (fst kv = k)) l.
Definition without (k : K) (l : list (K * V)) : list (K * V) :=
  filter (λ kv, fst kv ≠ k) l.

Class LruLaws `{!LruOps K V} : Prop := {
  new_iter n : iter (lru_new n) = [];
  new_cap n : cap (lru_new n) = n;
  get_mut_none k l : assoc k (iter l) = None → get_mut k l = None;
  get_mut_some k l v : assoc k (iter l) = Some v →
    ∃ set, get_mut k l = Some (v, set) ∧
      ∀ v', iter (set v') = (k, v') :: without k (iter l) ∧ cap (set v') = cap l;
  push_old k v l v0 : assoc k (iter l) = Some v0 →
    fst (push k v l) = Some (k, v0) ∧
    iter (snd (push k v l)) = (k, v) :: without k (iter l);
  push_room k v l : assoc k (iter l) = None → length (iter l) < cap l →
    fst (push k v l) = None ∧ iter (snd (push k v l)) = (k, v) :: iter l;
  push_full k v l rest kv : assoc k (iter l) = None → cap l ≤ length (iter l) →
    iter l = rest ++ [kv] →
    fst (push k v l) = Some kv ∧ iter (snd (push k v l)) = (k, v) :: rest;
  push_cap k v l : cap (snd (push k v l)) = cap l;
  pop_lru_none l : iter l = [] → pop_lru l = None;
  pop_lru_some l rest kv : iter l = rest ++ [kv] →
    ∃ l', pop_lru l = Some (kv, l') ∧ iter l' = rest ∧ cap l' = cap l;
  clear_iter l : iter (clear l) = [];
  clear_cap l : cap (clear l) = cap l;
}.

Lemma assoc_cons k k' v l :
  assoc k ((k', v) :: l) = if bool_decide (k' = k) then Some v else assoc k l.
Proof. unfold assoc. simpl. by case_bool_decide. Qed.

Lemma assoc_None k l : assoc k l = None ↔ k ∉ map fst l.
Proof.
  induction l as [|[k' v] l IH]; [split; [by intros _ ?%not_elem_of_nil|done]|].
  rewrite assoc_cons. simpl. rewrite not_elem_of_cons. case_bool_decide; naive_solver.
Qed.

Lemma assoc_Some k l v :
  NoDup (map fst l) → assoc k l = Some v ↔ (k, v) ∈ l.
Proof.
  induction l as [|[k' v'] l IH]; intros Hnd.
  { split; [done|]. by intros ?%not_elem_of_nil. }
  simpl in Hnd. apply NoDup_cons in Hnd as [Hk Hnd]. rewrite assoc_cons, elem_of_cons.
  case_bool_decide as E.
  - subst k'. split; [intros; left; congruence|].
    intros [?|Hin]; [congruence|]. exfalso. apply Hk. apply list_elem_of_fmap. by exists (k, v).
  - rewrite IH by done. split; [by right|]. intros [?|?]; [congruence|done].
Qed.

Lemma without_cons k k0 v l :
  without k ((k0, v) :: l) = if bool_decide (k0 = k) then without k l else (k0, v) :: without k l.
Proof.
  unfold without. rewrite filter_cons. simpl. case_bool_decide.
  - by rewrite decide_False by naive_solver.
  - by rewrite decide_True.
Qed.

Lemma assoc_without k k' l :
  assoc k (without k' l) = if bool_decide (k = k') then None else assoc k l.
Proof.
  induction l as [|[k0 v] l IH]; [by case_bool_decide|]. rewrite without_cons, assoc_cons.
  repeat case_bool_decide; rewrite ?assoc_cons, ?IH; repeat case_bool_decide; congruence.
Qed.

Lemma without_elem k l kv : kv ∈ without k l ↔ kv ∈ l ∧ fst kv ≠ k.
Proof. unfold without. rewrite list_elem_of_filter. naive_solver. Qed.

Lemma without_not_in k l : k ∉ map fst (without k l).
Proof. by intros ([k1 v1] & -> & [? ?]%without_elem)%list_elem_of_fmap. Qed.

Lemma without_keys k l : NoDup (map fst l) → NoDup (map fst (without k l)).
Proof.
  induction l as [|[k0 v] l IH]; simpl; intros Hnd; [constructor|].
  apply NoDup_cons in Hnd as [Hk Hnd]. rewrite without_cons.
  case_bool_decide; [by apply IH|]. simpl. apply NoDup_cons. split; [|by apply IH].
  intros ([k1 v1] & -> & [Hin _]%without_elem)%list_elem_of_fmap.
  apply Hk, list_elem_of_fmap. by exists (k1, v1).
Qed.

Lemma without_id k l : k ∉ map fst l → without k l = l.
Proof.
  induction l as [|[k0 v] l IH]; [done|]. simpl. intros Hk.
  apply not_elem_of_cons in Hk as [? ?]. rewrite without_cons.
  rewrite bool_decide_eq_false_2 by done. by rewrite IH.
Qed.

(** Removing a key takes away exactly its entry. *)
Lemma without_perm k v l :
  NoDup (map fst l) → assoc k l = Some v → l ≡ₚ (k, v) :: without k l.
Proof.
  induction l as [|[k0 v0] l IH]; [done|]. simpl. intros Hnd.
  apply NoDup_cons in Hnd as [Hk Hnd]. rewrite assoc_cons, without_cons.
  case_bool_decide as E; intros Ha; simplify_eq.
  - by rewrite without_id.
  - rewrite (IH Hnd Ha) at 1. apply Permutation_swap.
Qed.
End spec.

(** ** Well-formed maps: distinct keys, at most as many as the capacity *)

Section wf.
Context {K V : Type} `{EqDecision K} `{LruLaws K V}.
Implicit Types l : lru.

Record lru_wf l : Prop := {
  wf_nodup : NoDup (map fst (iter l));
  wf_length : length (iter l) ≤ cap l;
  wf_cap : 1 ≤ cap l;
}.

Lemma lru_new_wf n : 1 ≤ n → lru_wf (lru_new n).
Proof. intros. split; rewrite ?new_iter, ?new_cap; simpl; [constructor|lia|done]. Qed.

Lemma lru_set_wf l k v0 set v' :
  lru_wf l → get_mut k l = Some (v0, set) → lru_wf (set v').
Proof.
  intros [Hnd Hlen Hcap] Hg. destruct (assoc k (iter l)) as [v|] eqn:E.
  2:{ by rewrite get_mut_none in Hg. }
  destruct (get_mut_some k l v E) as (set' & Hg' & Hset). rewrite Hg' in Hg. simplify_eq.
  destruct (Hset v') as [Hi Hc]. split; rewrite ?Hi, ?Hc; simpl; [|..|done].
  - apply NoDup_cons. split; [apply without_not_in|by apply without_keys].
  - rewrite (without_perm k v0 (iter l) Hnd E) in Hlen. done.
Qed.

(** A [push] replaces, adds, or evicts the least recently used entry. *)
Lemma push_cases k v l :
  lru_wf l →
  (∃ v0, assoc k (iter l) = Some v0 ∧ fst (push k v l) = Some (k, v0) ∧
         iter (snd (push k v l)) = (k, v) :: without k (iter l)) ∨
  (assoc k (iter l) = None ∧ fst (push k v l) = None ∧
   iter (snd (push k v l)) = (k, v) :: iter l ∧ length (iter l) < cap l) ∨
  (assoc k (iter l) = None ∧ ∃ rest kv, iter l = rest ++ [kv] ∧
   fst (push k v l) = Some kv ∧ iter (snd (push k v l)) = (k, v) :: rest).
Proof.
  intros [Hnd Hlen Hcap]. destruct (assoc k (iter l)) as [v0|] eqn:E.
  { left. exists v0. split; [done|]. by apply push_old. }
  right. destruct (decide (length (iter l) < cap l)) as [Hlt|Hge].
  { left. destruct (push_room k v l E Hlt). done. }
  right. split; [done|].
  destruct (exists_last (l := iter l)) as (rest & kv & Hl).
  { intros E'. rewrite E' in Hge. simpl in Hge. lia. }
  exists rest, kv. split; [done|]. apply push_full; [done|lia|done].
Qed.

Lemma push_wf k v l : lru_wf l → lru_wf (snd (push k v l)).
Proof.
  intros Hwf. pose proof Hwf as [Hnd Hlen Hcap].
  split; rewrite ?push_cap; [| |done];
  destruct (push_cases k v l Hwf) as [(v0 & E & _ & ->)|[(E & _ & -> & Hlt)|(E & rest & kv & Hl & _ & ->)]];
  simpl.
  - apply NoDup_cons. split; [apply without_not_in|by apply without_keys].
  - apply NoDup_cons. split; [by apply assoc_None|done].
  - apply assoc_None in E. rewrite Hl, map_app in *. apply NoDup_app in Hnd as (Hnd & _).
    apply NoDup_cons. split; [set_solver|done].
  - rewrite (without_perm k v0 (iter l) Hnd E) in Hlen. done.
  - lia.
  - rewrite Hl, length_app in Hlen. simpl in Hlen. lia.
Qed.

Lemma pop_lru_wf l kv l' : lru_wf l → pop_lru l = Some (kv, l') → lru_wf l'.
Proof.
  intros [Hnd Hlen Hcap] Hp. destruct (iter l) as [|x xs] eqn:E using rev_ind.
  { by rewrite pop_lru_none in Hp. }
  destruct (pop_lru_some l xs x E) as (l1 & Hp' & Hi & Hc). rewrite Hp' in Hp. simplify_eq.
  rewrite map_app in Hnd. apply NoDup_app in Hnd as (Hnd & _).
  rewrite length_app in Hlen. split; rewrite ?Hi, ?Hc; [done|simpl in *; lia|done].
Qed.

Lemma clear_wf l : lru_wf l → lru_wf (clear l).
Proof. intros [? ? ?]. split; rewrite ?clear_iter, ?clear_cap; simpl; [constructor|lia|done]. Qed.
End wf.

(** ** A list implementation *)

Module ListLru.
Section list_lru.
Context {K V : Type} `{EqDecision K}.

Definition state : Type := nat * list (K * V).

Definition l_get_mut (k : K) (s : state) : option (V * (V → state)) :=
  v ← assoc k (snd s); Some (v, λ v', (fst s, (k, v') :: without k (snd s))).

Definition l_push (k : K) (v : V) (s : state) : option (K * V) * state :=
  match assoc k (snd s) with
  | Some v0 => (Some (k, v0), (fst s, (k, v) :: without k (snd s)))
  | None =>
      if length (snd s) <? fst s then (None, (fst s, (k, v) :: snd s))
      else (last (snd s), (fst s, (k, v) :: removelast (snd s)))
  end.

Definition l_pop (s : state) : option ((K * V) * state) :=
  kv ← last (snd s); Some (kv, (fst s, removelast (snd s))).

Definition list_lru : LruOps K V :=
  {| lru := state; lru_new := λ n, (n, []); cap := fst; iter := snd;
     get_mut := l_get_mut; push := l_push; pop_lru := l_pop; clear := λ s, (fst s, []) |}.

Lemma list_lru_laws : @LruLaws K V _ list_lru.
Proof.
  split; simpl; try done.
  - intros k l E. unfold l_get_mut. by rewrite E.
  - intros k l v E. unfold l_get_mut. rewrite E. eexists. by split.
  - intros k v l v0 E. unfold l_push. by rewrite E.
  - intros k v l E Hlt. unfold l_push. rewrite E. by rewrite (proj2 (Nat.ltb_lt _ _) Hlt).
  - intros k v l rest kv E Hge Hl. unfold l_push. rewrite E.
    rewrite (proj2 (Nat.ltb_ge _ _) Hge), Hl, last_snoc, removelast_last. done.
  - intros k v l. unfold l_push. by repeat case_match.
  - intros l E. unfold l_pop. by rewrite E.
  - intros l rest kv Hl. unfold l_pop. rewrite Hl, last_snoc. simpl.
    eexists. by rewrite removelast_last.
Qed.
End list_lru.
End ListLru.
