(* ===== verification/DnsCache.v ===== *)
(** * The DNS cache

    [DnsCache] and [DnsCacheEntry] (src/dns_mw_cache.rs): sixteen shards, each an
    LRU map behind its own lock, a heap of expiry times that drives the
    prefetching, and an estimate of the bytes in use.

    Every operation locks one structure at a time and is a function on the state
    of the cache; [now] is the monotonic clock in nanoseconds, [wall] the local
    time that goes into the statistics of an entry. *)

From S2P Require Import Prelude Dns Lru.

(** ** Entries *)

Record DnsCacheEntry := {
  data : DnsResponse;
  e_valid_until : Z;
  is_in_prefetching : bool;
  prefetch_failure_time : option Z;
  hits : Z;
  last_access : Z;
}.

Definition entry_new (wall : Z) (d : DnsResponse) (valid_until : Z) : DnsCacheEntry :=
  {| data := d; e_valid_until := valid_until; is_in_prefetching := false;
     prefetch_failure_time := None; hits := 0; last_access := wall |}.

(** [DnsCacheStats::hit] *)
Definition hit (wall : Z) (e : DnsCacheEntry) : DnsCacheEntry :=
  {| data := data e; e_valid_until := e_valid_until e; is_in_prefetching := is_in_prefetching e;
     prefetch_failure_time := prefetch_failure_time e; hits := u64 (hits e + 1);
     last_access := wall |}.

(** [entry.data = ..; entry.valid_until = ..] *)
Definition assign (d : DnsResponse) (valid_until : Z) (e : DnsCacheEntry) : DnsCacheEntry :=
  {| data := d; e_valid_until := valid_until; is_in_prefetching := is_in_prefetching e;
     prefetch_failure_time := prefetch_failure_time e; hits := hits e;
     last_access := last_access e |}.

Definition set_prefetching (e : DnsCacheEntry) : DnsCacheEntry :=
  {| data := data e; e_valid_until := e_valid_until e; is_in_prefetching := true;
     prefetch_failure_time := prefetch_failure_time e; hits := hits e;
     last_access := last_access e |}.

Definition is_current (now : Z) (e : DnsCacheEntry) : bool := (now <=? e_valid_until e)%Z.

(** [saturating_duration_since] *)
Definition ttl (now : Z) (e : DnsCacheEntry) : Z := Z.max 0 (e_valid_until e - now).

Definition should_retry_prefetch (now base_interval : Z) (e : DnsCacheEntry) : bool :=
  negb (is_in_prefetching e) ||
  match prefetch_failure_time e with
  | Some t => (t + base_interval * 2 <=? now)%Z
  | None => false
  end.

(** What the cache takes from its platform: the hash of a query, the sizes of
    the structures and hickory's default query. *)
Class Layout := {
  hash_of : Query → Z;
  size_of_Query : nat;
  size_of_DnsCacheEntry : nat;
  size_of_Record : nat;
  default_query : Query;
}.

Definition name_len (n : string) : Z := Z.of_nat (String.length n).

Definition entry_size `{Layout} (q : Query) (e : DnsCacheEntry) : Z :=
  (Z.of_nat size_of_Query + Z.of_nat size_of_DnsCacheEntry + name_len (q_name q) +
   sumZ (λ r, Z.of_nat size_of_Record + name_len (r_name r) + 128)
     (records (data e)))%Z.

(** The shard of a query, the same for every operation. *)
Definition shard_index_of `{Layout} (q : Query) (n : nat) : nat :=
  Z.to_nat (hash_of q `mod` Z.of_nat n).

Definition CACHE_SHARD_COUNT : nat := 16.

Inductive CacheStatus := Valid | Expired.

Record CachedQueryRecord := {
  cr_name : string;
  cr_hits : Z;
  cr_last_access : Z;
  cr_query_type : RecordType;
  cr_query_class : Z;
  cr_records : list Record_;
}.

Section cache.
Context `{Layout} `{!LruOps Query DnsCacheEntry}.

Record DnsCache := {
  shards : list lru;
  prefetch_heap : list (Z * Query);
  serve_expired : bool;
  expired_ttl : Z;
  expired_reply_ttl : Z;
  query_hits : Z;
  max_bytes : Z;
  total_bytes : Z;
}.

Definition set_shards (c : DnsCache) (l : list lru) : DnsCache :=
  {| shards := l; prefetch_heap := prefetch_heap c; serve_expired := serve_expired c;
     expired_ttl := expired_ttl c; expired_reply_ttl := expired_reply_ttl c;
     query_hits := query_hits c; max_bytes := max_bytes c; total_bytes := total_bytes c |}.
Definition set_heap (c : DnsCache) (h : list (Z * Query)) : DnsCache :=
  {| shards := shards c; prefetch_heap := h; serve_expired := serve_expired c;
     expired_ttl := expired_ttl c; expired_reply_ttl := expired_reply_ttl c;
     query_hits := query_hits c; max_bytes := max_bytes c; total_bytes := total_bytes c |}.
Definition set_bytes (c : DnsCache) (n : Z) : DnsCache :=
  {| shards := shards c; prefetch_heap := prefetch_heap c; serve_expired := serve_expired c;
     expired_ttl := expired_ttl c; expired_reply_ttl := expired_reply_ttl c;
     query_hits := query_hits c; max_bytes := max_bytes c; total_bytes := n |}.
(** [query_hits.fetch_add(1)] *)
Definition count_hit (c : DnsCache) : DnsCache :=
  {| shards := shards c; prefetch_heap := prefetch_heap c; serve_expired := serve_expired c;
     expired_ttl := expired_ttl c; expired_reply_ttl := expired_reply_ttl c;
     query_hits := u64 (query_hits c + 1); max_bytes := max_bytes c;
     total_bytes := total_bytes c |}.

(** ** Creation *)

Definition shard_count (cache_size : nat) : nat :=
  if CACHE_SHARD_COUNT <=? cache_size then CACHE_SHARD_COUNT else 1.

Definition shard_capacities (cache_size : nat) : list nat :=
  let n := shard_count cache_size in
  let per_shard := Nat.max (cache_size / n) 1 in
  let remainder := cache_size - per_shard * n in
  map (λ i, per_shard + (if i <? remainder then 1 else 0)) (seq 0 n).

Definition cache_new (cache_size : nat) (serve_expired : bool) (expired_ttl expired_reply_ttl max_bytes : Z)
  : DnsCache :=
  {| shards := map lru_new (shard_capacities cache_size);
     prefetch_heap := []; serve_expired := serve_expired; expired_ttl := expired_ttl;
     expired_reply_ttl := expired_reply_ttl; query_hits := 0; max_bytes := max_bytes;
     total_bytes := 0 |}.

(** ** Bytes and eviction *)

Definition used_bytes (c : DnsCache) : Z := total_bytes c.

(** [fetch_add] or [fetch_sub], which wrap around. *)
Definition add_bytes (delta : Z) (c : DnsCache) : DnsCache :=
  if (delta =? 0)%Z then c else set_bytes c (u64 (total_bytes c + delta)).

Definition set_shard (i : nat) (l : lru) (c : DnsCache) : DnsCache :=
  set_shards c (<[i := l]> (shards c)).

Definition entry_count (c : DnsCache) : nat :=
  sum_list (map (λ l, length (iter l)) (shards c)).

(** One turn of the [while]: the [for] over the shards, and whether it evicted. *)
Fixpoint evict_pass (idxs : list nat) (c : DnsCache) : DnsCache * bool :=
  match idxs with
  | [] => (c, false)
  | i :: idxs' =>
      match shards c !! i ≫= pop_lru with
      | Some ((q, e), l') =>
          let c := add_bytes (- entry_size q e) (set_shard i l' c) in
          if (used_bytes c <=? max_bytes c)%Z then (c, true)
          else (fst (evict_pass idxs' c), true)
      | None => evict_pass idxs' c
      end
  end.

Fixpoint enforce_loop (fuel : nat) (c : DnsCache) : DnsCache :=
  if (used_bytes c <=? max_bytes c)%Z then c
  else
    let '(c', evicted) := evict_pass (seq 0 (length (shards c))) c in
    if evicted then match fuel with S f => enforce_loop f c' | 0 => c' end else c'.

(** Every turn evicts an entry or is the last: the number of entries is fuel
    enough. *)
Definition enforce_memory_budget (c : DnsCache) : DnsCache :=
  if (max_bytes c =? 0)%Z then c else enforce_loop (entry_count c) c.

(** ** Insertion *)

(** The locked block that [insert] and [insert_negative] share: refresh the entry
    of the query, or push a new one and account for the evicted one. *)
Definition store (wall : Z) (query : Query) (resp : DnsResponse) (valid_until : Z) (c : DnsCache)
  : DnsCache :=
  let idx := shard_index_of query (length (shards c)) in
  let new_entry := entry_new wall resp valid_until in
  let new_size := entry_size query new_entry in
  match shards c !! idx with
  | None => c
  | Some shard =>
      match get_mut query shard with
      | Some (entry, set) =>
          let old_size := entry_size query entry in
          add_bytes (new_size - old_size)
            (set_shard idx (set (hit wall (assign resp valid_until entry))) c)
      | None =>
          let '(evicted, shard') := push query new_entry shard in
          let c := set_shard idx shard' c in
          let c := match evicted with
                   | Some (eq, ee) => add_bytes (- entry_size eq ee) c
                   | None => c
                   end in
          add_bytes new_size c
      end
  end.

Definition heap_push (k : Z * Query) (c : DnsCache) : DnsCache :=
  set_heap c (prefetch_heap c ++ [k]).

(** The minimum of the TTLs, starting from ten minutes. *)
Definition min_ttl (ttls : list Z) : Z := fold_left (λ m t, Z.min m (secs t)) ttls (secs 600).

Definition insert (now wall : Z) (query : Query) (records_and_ttl : list (Record_ * Z))
    (name_server_group : string) (c : DnsCache) : DnsResponse * DnsCache :=
  let records := map fst records_and_ttl in
  let valid_until := (now + min_ttl (map snd records_and_ttl))%Z in
  let lookup := with_name_server_group (new_with_deadline query records valid_until) name_server_group in
  (lookup, heap_push (valid_until, query) (enforce_memory_budget (store wall query lookup valid_until c))).

Definition insert_negative (now wall : Z) (query : Query) (resp : DnsResponse) (ttl : Z)
    (name_server_group : string) (c : DnsCache) : DnsCache :=
  let valid_until := (now + ttl)%Z in
  let resp := with_name_server_group resp name_server_group in
  let resp := res_set_max_ttl resp (u32 (as_secs ttl)) in
  enforce_memory_budget (store wall query resp valid_until c).

(** The query a record answers. *)
Definition query_of (r : Record_) : Query :=
  {| q_name := r_name r; q_type := record_type r; q_class := r_class r |}.

(** [map.iter_mut().find(..)]: append to the group of the query, or open one. *)
Fixpoint group_push (q : Query) (v : Record_ * Z) (m : list (Query * list (Record_ * Z)))
  : list (Query * list (Record_ * Z)) :=
  match m with
  | [] => [(q, [v])]
  | (q', vs) :: m' =>
      if bool_decide (q' = q) then (q', vs ++ [v]) :: m' else (q', vs) :: group_push q v m'
  end.

Definition group_records (rs : list Record_) : list (Query * list (Record_ * Z)) :=
  fold_left (λ m r, group_push (query_of r) (r, r_ttl r) m) rs [].

Definition insert_groups (now wall : Z) (original : Query) (group : string)
    (gs : list (Query * list (Record_ * Z))) (st : option DnsResponse * DnsCache)
  : option DnsResponse * DnsCache :=
  fold_left (λ st g,
    let '(inserted, c) := insert now wall (fst g) (snd g) group (snd st) in
    (if bool_decide (original = fst g) then Some inserted else fst st, c)) gs st.

Definition insert_records (now wall : Z) (original : Query) (rs : list Record_) (group : string)
    (c : DnsCache) : option DnsResponse * DnsCache :=
  let is_cname_query := existsb (λ r, negb (bool_decide (original = query_of r))) rs in
  let gs := group_records rs in
  let st := if is_cname_query
            then let '(l, c) := insert now wall original (concat (map snd gs)) group c in (Some l, c)
            else (None, c) in
  insert_groups now wall original group gs st.

(** ** Lookup *)

(** Records found at the end of a CNAME chain get the name that was asked. *)
Definition rename_answers (query : Query) (res : DnsResponse) : DnsResponse :=
  let has_cname := existsb (λ r, bool_decide (record_type r = RT_CNAME)) (answers res) in
  let all_ip := negb (bool_decide (answers res = [])) &&
                forallb (λ r, is_ip_addr (record_type r)) (answers res) in
  if negb has_cname && all_ip &&
     existsb (λ r, negb (bool_decide (r_name r = q_name query))) (answers res)
  then set_answers res (map (λ r, with_name r (q_name query)) (answers res))
  else res.

Definition get (now wall : Z) (query : Query) (c : DnsCache)
  : option (DnsResponse * CacheStatus) * DnsCache :=
  let idx := shard_index_of query (length (shards c)) in
  match shards c !! idx with
  | None => (None, c)
  | Some shard =>
      match get_mut query shard with
      | None => (None, c)
      | Some (value, set) =>
          let value := hit wall value in
          let res := rename_answers query (data value) in
          let found :=
            if is_current now value
            then (res_set_max_ttl res (u32 (as_secs (ttl now value))), Valid)
            else (res_set_max_ttl res (u32 (expired_reply_ttl c)), Expired) in
          (Some found, set_shard idx (set value) c)
      end
  end.

(** ** Prefetching *)

(** The top of the heap: an earliest key, and the heap without it.  Among keys
    with the same instant the heap may hold any on top. *)
Fixpoint heap_pop (h : list (Z * Query)) : option ((Z * Query) * list (Z * Query)) :=
  match h with
  | [] => None
  | k :: h' =>
      match heap_pop h' with
      | None => Some (k, [])
      | Some (m, rest) => if (fst k <=? fst m)%Z then Some (k, h') else Some (m, k :: rest)
      end
  end.

Definition prefetch_threshold (now : Z) (seconds_ahead : option Z) (c : DnsCache) : Z :=
  ((if (0 <? expired_ttl c)%Z
    then if (0 <=? now - secs (expired_ttl c))%Z then now - secs (expired_ttl c) else now
    else now) + secs (default 5 seconds_ahead))%Z.

Record scan := {
  sc_cache : DnsCache;
  sc_expired : list (Query * Z * option string);
  sc_requeue : list (Z * Query);
}.

(** What becomes of a due key: skipped, put back, or handed out. *)
Definition scan_key (threshold base_interval : Z) (query : Query) (s : scan) : scan :=
  let c := sc_cache s in
  let idx := shard_index_of query (length (shards c)) in
  match shards c !! idx ≫= get_mut query with
  | None => s
  | Some (entry, set) =>
      let c_seen := set_shard idx (set entry) c in
      if negb (should_retry_prefetch threshold base_interval entry) then
        {| sc_cache := c_seen; sc_expired := sc_expired s; sc_requeue := sc_requeue s |}
      else if negb (is_ip_addr (q_type query)) then
        {| sc_cache := c_seen; sc_expired := sc_expired s; sc_requeue := sc_requeue s |}
      else if is_current threshold entry then
        {| sc_cache := c_seen; sc_expired := sc_expired s;
           sc_requeue := sc_requeue s ++ [(e_valid_until entry, query)] |}
      else
        {| sc_cache := set_shard idx (set (set_prefetching entry)) c;
           sc_expired := sc_expired s ++ [(query, hits entry, name_server_group (data entry))];
           sc_requeue := sc_requeue s |}
  end.

(** The loop: every turn takes one key off the heap, so that the size of the heap
    is fuel enough. *)
Fixpoint scan_heap (fuel : nat) (threshold base_interval : Z) (max_count : nat) (s : scan) : scan :=
  match fuel with
  | 0 => s
  | S f =>
      match heap_pop (prefetch_heap (sc_cache s)) with
      | None => s
      | Some ((exp, query), h) =>
          let c := set_heap (sc_cache s) h in
          if (threshold <? exp)%Z || (max_count <=? length (sc_expired s)) then
            {| sc_cache := c; sc_expired := sc_expired s; sc_requeue := sc_requeue s ++ [(exp, query)] |}
          else
            scan_heap f threshold base_interval max_count
              (scan_key threshold base_interval query
                 {| sc_cache := c; sc_expired := sc_expired s; sc_requeue := sc_requeue s |})
      end
  end.

Definition next_check (threshold : Z) (h : list (Z * Query)) : Z :=
  match heap_pop h with
  | Some ((exp, _), _) =>
      if (threshold <? exp)%Z then Z.min (exp - threshold) (secs MAX_TTL) else secs MAX_TTL
  | None => secs MAX_TTL
  end.

Definition by_hits_desc (a b : Query * Z * option string) : comparison :=
  (snd (fst b) ?= snd (fst a))%Z.

Definition get_expired (now : Z) (seconds_ahead : option Z) (base_interval : Z) (max_count : nat)
    (c : DnsCache) : (list (Query * option string) * Z) * DnsCache :=
  let threshold := prefetch_threshold now seconds_ahead c in
  let s := scan_heap (length (prefetch_heap c)) threshold base_interval max_count
             {| sc_cache := c; sc_expired := []; sc_requeue := [] |} in
  let c := set_heap (sc_cache s) (prefetch_heap (sc_cache s) ++ sc_requeue s) in
  let expired := sort_by by_hits_desc (sc_expired s) in
  ((map (λ x, (fst (fst x), snd x)) expired, next_check threshold (prefetch_heap c)), c).

(** ** Snapshots, loading and clearing *)

Definition snapshot_entries (c : DnsCache) : list DnsCacheEntry :=
  concat (map (λ l, map snd (iter l)) (shards c)).

Definition cached_record (kv : Query * DnsCacheEntry) : CachedQueryRecord :=
  {| cr_name := q_name (fst kv); cr_hits := hits (snd kv); cr_last_access := last_access (snd kv);
     cr_query_type := q_type (fst kv); cr_query_class := q_class (fst kv);
     cr_records := records (data (snd kv)) |}.

Definition cached_records (c : DnsCache) : list CachedQueryRecord :=
  concat (map (λ l, map cached_record (iter l)) (shards c)).

(** One entry read back from the cache file, under the query of its message. *)
Definition load_entry (c : DnsCache) (entry : DnsCacheEntry) : DnsCache :=
  let query := default default_query (head (queries (data entry))) in
  let idx := shard_index_of query (length (shards c)) in
  match shards c !! idx with
  | None => c
  | Some shard =>
      let '(evicted, shard') := push query entry shard in
      let c := set_shard idx shard' c in
      let c := match evicted with
               | Some (eq, ee) => add_bytes (- entry_size eq ee) c
               | None => c
               end in
      heap_push (e_valid_until entry, query) (add_bytes (entry_size query entry) c)
  end.

(** The entry that reading the file makes of a message, its remaining life and its
    number of hits. *)
Definition read_entry (wall : Z) (x : DnsResponse * Z * Z) : DnsCacheEntry :=
  let '(d, valid_until, h) := x in
  {| data := d; e_valid_until := valid_until; is_in_prefetching := false;
     prefetch_failure_time := None; hits := h; last_access := wall |}.

Definition load_entries (wall : Z) (l : list (DnsResponse * Z * Z)) (c : DnsCache) : DnsCache :=
  enforce_memory_budget (fold_left load_entry (map (read_entry wall) l) c).

Definition cache_clear (c : DnsCache) : DnsCache :=
  set_bytes (set_heap (set_shards c (map clear (shards c))) []) 0.

(** ** Histories *)

Inductive cache_op :=
| OpInsert (now wall : Z) (query : Query) (rs : list (Record_ * Z)) (group : string)
| OpInsertNegative (now wall : Z) (query : Query) (resp : DnsResponse) (ttl : Z) (group : string)
| OpInsertRecords (now wall : Z) (query : Query) (rs : list Record_) (group : string)
| OpGet (now wall : Z) (query : Query)
| OpCountHit
| OpGetExpired (now : Z) (seconds_ahead : option Z) (base_interval : Z) (max_count : nat)
| OpLoad (wall : Z) (l : list (DnsResponse * Z * Z))
| OpClear.

Definition apply_op (c : DnsCache) (o : cache_op) : DnsCache :=
  match o with
  | OpInsert now wall q rs g => snd (insert now wall q rs g c)
  | OpInsertNegative now wall q r t g => insert_negative now wall q r t g c
  | OpInsertRecords now wall q rs g => snd (insert_records now wall q rs g c)
  | OpGet now wall q => snd (get now wall q c)
  | OpCountHit => count_hit c
  | OpGetExpired now a b n => snd (get_expired now a b n c)
  | OpLoad wall l => load_entries wall l c
  | OpClear => cache_clear c
  end.

Definition run_ops (ops : list cache_op) (c : DnsCache) : DnsCache := fold_left apply_op ops c.

End cache.
