(* ===== verification/CacheFile.v ===== *)
(** * The cache file

    The binary format of a cache entry ([BinEncodable] and [BinDecodable] of
    [DnsCacheEntry]) and [serialize_many] and [deserialize_many]
    (src/dns_mw_cache.rs).  The encoding of the DNS message itself is hickory's:
    an argument, with the law that a decoder reads back what was emitted and
    leaves the rest. *)

From S2P Require Import Prelude Dns Lru DnsCache.

(** The parts of a response that are in its message. *)
Record Message := {
  m_queries : list Query;
  m_code : ResponseCode;
  m_answers : list Record_;
  m_authorities : list Record_;
}.

#[export] Instance Message_eq_dec : EqDecision Message.
Proof. solve_decision. Defined.

Definition message_of (r : DnsResponse) : Message :=
  {| m_queries := queries r; m_code := response_code r; m_answers := answers r;
     m_authorities := authorities r |}.

Class MessageCodec := {
  emit_message : Message → option (list Z);
  read_message : list Z → option (Message * list Z);
  (** [String::from_utf8] on bytes *)
  from_utf8 : list Z → option string;
  to_utf8 : string → list Z;
}.

Class MessageCodecLaws `{MessageCodec} : Prop := {
  read_emitted m bs rest : emit_message m = Some bs → read_message (bs ++ rest) = Some (m, rest);
  utf8_roundtrip s : from_utf8 (to_utf8 s) = Some s;
}.

(** Big-endian integers. *)
Definition be16 (n : Z) : list Z := [(n / 256) `mod` 256; n `mod` 256]%Z.
Definition be32 (n : Z) : list Z :=
  [(n / 16777216) `mod` 256; (n / 65536) `mod` 256; (n / 256) `mod` 256; n `mod` 256]%Z.

Definition read_u16 (bs : list Z) : option (Z * list Z) :=
  match bs with a :: b :: rest => Some (a * 256 + b, rest)%Z | _ => None end.
Definition read_u32 (bs : list Z) : option (Z * list Z) :=
  match bs with
  | a :: b :: c :: d :: rest => Some (a * 16777216 + b * 65536 + c * 256 + d, rest)%Z
  | _ => None
  end.
(** [decoder.read_u8()?.verify(|v| *v == tag)] *)
Definition read_tag (tag : Z) (bs : list Z) : option (list Z) :=
  match bs with b :: rest => if (b =? tag)%Z then Some rest else None | [] => None end.
(** [read_slice]: fails when there are fewer bytes. *)
Definition read_slice (n : nat) (bs : list Z) : option (list Z * list Z) :=
  if n <=? length bs then Some (take n bs, drop n bs) else None.

Section file.
Context `{MessageCodec}.

(** [emit]: the message, the remaining life in seconds, the group and the hits,
    each after its tag. *)
Definition emit (now : Z) (e : DnsCacheEntry) : option (list Z) :=
  m ← emit_message (message_of (data e));
  let ttl := if (now <? e_valid_until e)%Z then (e_valid_until e - now)%Z else 0%Z in
  let group := match name_server_group (data e) with
               | Some g => be16 (wrap 16 (Z.of_nat (length (to_utf8 g)))) ++ to_utf8 g
               | None => be16 0
               end in
  Some ([1%Z] ++ m ++ [2%Z] ++ be32 (u32 (as_secs ttl)) ++ [3%Z] ++ group ++
        [4%Z] ++ be32 (u32 (hits e))).

Definition response_of (m : Message) (valid_until : Z) (group : option string) : DnsResponse :=
  {| queries := m_queries m; response_code := m_code m; answers := m_answers m;
     authorities := m_authorities m; valid_until := valid_until; name_server_group := group;
     from_cache := false |}.

Definition read (now wall : Z) (bs : list Z) : option (DnsCacheEntry * list Z) :=
  bs ← read_tag 1 bs;
  '(m, bs) ← read_message bs;
  bs ← read_tag 2 bs;
  '(ttl_secs, bs) ← read_u32 bs;
  let valid_until := (now + secs ttl_secs)%Z in
  bs ← read_tag 3 bs;
  '(name_len, bs) ← read_u16 bs;
  '(group, bs) ← (if (0 <? name_len)%Z
                  then '(name, bs) ← read_slice (Z.to_nat name_len) bs; Some (from_utf8 name, bs)
                  else Some (None, bs));
  bs ← read_tag 4 bs;
  '(h, bs) ← read_u32 bs;
  Some ({| data := response_of m valid_until group; e_valid_until := valid_until;
           is_in_prefetching := false; prefetch_failure_time := None; hits := h;
           last_access := wall |}, bs).

(** An entry that cannot be encoded is left out. *)
Definition serialize_many (now : Z) (es : list DnsCacheEntry) : list Z :=
  concat (omap (emit now) es).

(** Every entry read takes at least a byte: the length of the data is fuel enough. *)
Fixpoint deserialize_loop (fuel : nat) (now wall : Z) (bs : list Z) : option (list DnsCacheEntry) :=
  match bs, fuel with
  | [], _ => Some []
  | _, 0 => None
  | _, S f =>
      '(e, rest) ← read now wall bs;
      es ← deserialize_loop f now wall rest;
      Some (e :: es)
  end.

Definition deserialize_many (now wall : Z) (bs : list Z) : option (list DnsCacheEntry) :=
  deserialize_loop (length bs) now wall bs.

(** ** Round trip *)

Lemma be32_read n rest : (0 ≤ n < 2 ^ 32)%Z → read_u32 (be32 n ++ rest) = Some (n, rest).
Proof.
  intros Hn. unfold be32. cbn [app read_u32]. f_equal. f_equal.
  assert (E : (n / 65536 = n / 256 / 256 ∧ n / 16777216 = n / 256 / 256 / 256)%Z).
  { rewrite !Z.div_div by lia. done. }
  destruct E as [-> ->]. Z.div_mod_to_equations. lia.
Qed.

Lemma be16_read n rest : (0 ≤ n < 2 ^ 16)%Z → read_u16 (be16 n ++ rest) = Some (n, rest).
Proof.
  intros Hn. unfold be16. cbn [app read_u16]. f_equal. f_equal. Z.div_mod_to_equations. lia.
Qed.

(** What comes back of an entry: its message and group, its life rounded down to
    seconds and restarted at the time of the load, its hits. *)
Definition restored (now now' wall : Z) (e : DnsCacheEntry) : DnsCacheEntry :=
  let valid_until := (now' + secs (as_secs (Z.max 0 (e_valid_until e - now))))%Z in
  {| data := response_of (message_of (data e)) valid_until (name_server_group (data e));
     e_valid_until := valid_until; is_in_prefetching := false; prefetch_failure_time := None;
     hits := hits e; last_access := wall |}.

(** An entry the format can hold: an encodable message, a group name of 1 to 65535
    bytes, a life and a number of hits of 32 bits. *)
Definition storable (now : Z) (e : DnsCacheEntry) : Prop :=
  is_Some (emit_message (message_of (data e))) ∧
  (∀ g, name_server_group (data e) = Some g → 1 ≤ length (to_utf8 g) ∧
        (Z.of_nat (length (to_utf8 g)) < 2 ^ 16)%Z) ∧
  (as_secs (Z.max 0 (e_valid_until e - now)) < 2 ^ 32)%Z ∧ (0 ≤ hits e < 2 ^ 32)%Z.

Context `{ML : !MessageCodecLaws}.

Lemma read_emit now now' wall e rest :
  storable now e →
  ∃ bs, emit now e = Some bs ∧ read now' wall (bs ++ rest) = Some (restored now now' wall e, rest) ∧
        bs ≠ [].
Proof.
  intros ([m Hm] & Hg & Ht & Hh). unfold emit. rewrite Hm. cbn [mbind option_bind].
  set (t := if (now <? e_valid_until e)%Z then _ else _).
  assert (Et : t = Z.max 0 (e_valid_until e - now)) by (unfold t; case_if; zify_bool; lia).
  assert (Ht0 : (0 ≤ as_secs t)%Z) by (rewrite Et; apply Z.div_pos; lia).
  eexists. split; [done|]. split; [|done].
  unfold read. rewrite <- !app_assoc. cbn [app read_tag]. cbn -[read_message be32 be16].
  rewrite (read_emitted _ _ _ Hm). cbn -[read_u32 be32 be16].
  rewrite be32_read by (unfold u32; rewrite wrap_small; rewrite ?Et in *; lia). cbn -[read_u16 be32 be16].
  assert (Eu : u32 (as_secs t) = as_secs (Z.max 0 (e_valid_until e - now))).
  { rewrite Et. apply wrap_small. rewrite Et in Ht0. lia. }
  assert (Ehits : u32 (hits e) = hits e) by (by apply wrap_small).
  destruct (name_server_group (data e)) as [g|] eqn:Eg.
  - destruct (Hg g eq_refl) as [Hl1 Hl2].
    rewrite <- !app_assoc.
    rewrite be16_read by (rewrite wrap_small; lia). rewrite wrap_small by lia.
    cbn -[read_slice read_u32 be32]. rewrite (proj2 (Z.ltb_lt 0 _)) by lia.
    unfold read_slice. rewrite Nat2Z.id, length_app, (proj2 (Nat.leb_le _ _)) by lia.
    rewrite take_app_length, drop_app_length. cbn -[read_u32 be32]. rewrite utf8_roundtrip.
    rewrite be32_read by (rewrite Ehits; lia). cbn. rewrite Ehits, Eu. unfold restored. by rewrite Eg.
  - rewrite <- ?app_assoc. rewrite be16_read by lia. cbn -[read_u32 be32].
    rewrite be32_read by (rewrite Ehits; lia). cbn. rewrite Ehits, Eu. unfold restored. by rewrite Eg.
Qed.

(** C26. The cache file round trip: the entries of a cache are read back from its
    file, in order and none lost, with the same message, group and hits; what is
    left of their life, in whole seconds, starts again at the time of the load. *)
Theorem cache_file_roundtrip (now now' wall : Z) (es : list DnsCacheEntry)
    (Hes : Forall (storable now) es) :
  deserialize_many now' wall (serialize_many now es) = Some (map (restored now now' wall) es).
Proof.
  assert (Hgen : ∀ fuel, length (serialize_many now es) ≤ fuel →
    deserialize_loop fuel now' wall (serialize_many now es) = Some (map (restored now now' wall) es)).
  2:{ by apply Hgen. }
  induction Hes as [|e es He _ IH]; intros fuel Hf; [by destruct fuel|].
  destruct (read_emit now now' wall e (serialize_many now es) He) as (bs & Hb & Hr & Hne).
  assert (E : serialize_many now (e :: es) = bs ++ serialize_many now es).
  { unfold serialize_many. simpl. by rewrite Hb. }
  rewrite E in *. rewrite length_app in Hf. destruct bs as [|b bs]; [done|].
  destruct fuel as [|fuel]; [simpl in Hf; lia|]. cbn [app deserialize_loop]. cbn [app] in Hr.
  rewrite Hr. cbn [mbind option_bind]. rewrite IH by (simpl in Hf; lia). done.
Qed.
End file.

(** ** A concrete file: a codec for a single message *)

Fixpoint string_codes (s : string) : list Z :=
  match s with EmptyString => [] | String c s' => Z.of_N (N_of_ascii c) :: string_codes s' end.
Fixpoint codes_string (l : list Z) : string :=
  match l with [] => EmptyString | n :: l' => String (ascii_of_N (Z.to_N n)) (codes_string l') end.

Lemma codes_roundtrip s : codes_string (string_codes s) = s.
Proof. induction s as [|c s IH]; [done|]. simpl. by rewrite N2Z.id, ascii_N_embedding, IH. Qed.

Definition demo_message : Message :=
  {| m_queries := [{| q_name := "a."; q_type := RT_A; q_class := 1 |}]; m_code := NoError;
     m_answers := [{| r_name := "a."; r_class := 1; r_ttl := 60; r_data := RD_A 167772161 |}];
     m_authorities := [] |}.

Definition demo_codec : MessageCodec :=
  {| emit_message := λ m, if bool_decide (m = demo_message) then Some [7%Z] else None;
     read_message := λ bs, match bs with
                           | b :: rest => if (b =? 7)%Z then Some (demo_message, rest) else None
                           | [] => None
                           end;
     from_utf8 := λ l, Some (codes_string l); to_utf8 := string_codes |}.

Lemma demo_codec_laws : @MessageCodecLaws demo_codec.
Proof.
  split; simpl.
  - intros m bs rest. case_bool_decide; [|done]. intros [= <-]. by subst m.
  - intros s. by rewrite codes_roundtrip.
Qed.

Definition demo_entry : DnsCacheEntry :=
  {| data := response_of demo_message 0 (Some "default"); e_valid_until := secs 60;
     is_in_prefetching := true; prefetch_failure_time := None; hits := 3; last_access := 0 |}.

Lemma cache_file_roundtrip_witness :
  deserialize_many (H := demo_codec) (secs 1000) 0
    (serialize_many (H := demo_codec) (secs 10) [demo_entry; demo_entry]) =
  Some (map (restored (secs 10) (secs 1000) 0) [demo_entry; demo_entry]).
Proof.
  assert (Hs : storable (H := demo_codec) (secs 10) demo_entry).
  { split; [vm_compute; eexists; reflexivity|]. split; [|vm_compute; repeat split; discriminate].
    intros g [= <-]. split; [vm_compute; lia|vm_compute; reflexivity]. }
  apply (cache_file_roundtrip (H := demo_codec) (ML := demo_codec_laws)).
  exact (Forall_cons_2 _ _ _ Hs (Forall_cons_2 _ _ _ Hs (Forall_nil_2 _))).
Defined.
