(* ===== verification/CacheInv.v ===== *)
(** * The invariant of the cache

    Every operation of [DnsCache] keeps the shards well formed and within their
    capacities, every entry in the shard of its query, and [total_bytes] equal to
    the estimated sizes of the entries. *)

From S2P Require Import Prelude Dns Lru DnsCache.

Section inv.
Context `{LY : Layout} `{LO : !LruOps Query DnsCacheEntry}.
Context `{LL : !LruLaws (K := Query) (V := DnsCacheEntry)}.
Implicit Types c : DnsCache.

Definition shard_bytes (l : lru) : Z := sumZ (λ kv, entry_size (fst kv) (snd kv)) (iter l).
Definition content_bytes c : Z := sumZ shard_bytes (shards c).

(** An entry that belongs in shard [i] of [n], with no recorded failure. *)
Definition entry_ok (n i : nat) (kv : Query * DnsCacheEntry) : Prop :=
  shard_index_of (fst kv) n = i ∧ prefetch_failure_time (snd kv) = None.

Record cache_inv (caps : list nat) c : Prop := {
  inv_shards : Forall lru_wf (shards c);
  inv_caps : map cap (shards c) = caps;
  inv_entries : ∀ i l, shards c !! i = Some l → Forall (entry_ok (length (shards c)) i) (iter l);
  inv_bytes : total_bytes c = u64 (content_bytes c);
}.

Lemma content_bytes_insert c i l l' :
  shards c !! i = Some l →
  content_bytes (set_shard i l' c) = (content_bytes c - shard_bytes l + shard_bytes l')%Z.
Proof.
  intros Hl. unfold content_bytes. simpl.
  rewrite (insert_take_drop (shards c) i) by (by eapply lookup_lt_Some).
  rewrite <- (take_drop_middle _ _ _ Hl) at 3. rewrite !sumZ_app, !sumZ_cons. lia.
Qed.

(** Replacing one shard. *)
Lemma inv_replace caps c c' i l l' :
  cache_inv caps c → shards c !! i = Some l → lru_wf l' → cap l' = cap l →
  Forall (entry_ok (length (shards c)) i) (iter l') →
  shards c' = <[i := l']> (shards c) →
  total_bytes c' = u64 (content_bytes c - shard_bytes l + shard_bytes l') →
  cache_inv caps c'.
Proof.
  intros [Hs Hc He Hb] Hl Hwf Hcap Hok Hsh Hby.
  assert (Hlt : i < length (shards c)) by (by eapply lookup_lt_Some).
  split.
  - rewrite Hsh. by apply Forall_insert.
  - rewrite Hsh, <- Hc. rewrite list_fmap_insert, Hcap.
    apply list_insert_id. by rewrite list_lookup_fmap, Hl.
  - intros j lj. rewrite Hsh, length_insert. destruct (decide (i = j)) as [<-|Hne].
    + rewrite list_lookup_insert_eq by done. by intros [= <-].
    + rewrite list_lookup_insert_ne by done. apply He.
  - rewrite Hby. f_equal. rewrite <- (content_bytes_insert c i l l' Hl).
    unfold content_bytes. simpl. by rewrite Hsh.
Qed.

Lemma add_bytes_total d c n :
  total_bytes c = u64 n → total_bytes (add_bytes d c) = u64 (n + d).
Proof.
  intros E. unfold add_bytes. case_if; zify_bool; simpl.
  - subst d. by rewrite Z.add_0_r.
  - by rewrite E, u64_add_l.
Qed.

Lemma add_bytes_shards d c : shards (add_bytes d c) = shards c.
Proof. unfold add_bytes. by case_if. Qed.

Lemma inv_other caps c c' :
  cache_inv caps c → shards c' = shards c → total_bytes c' = total_bytes c → cache_inv caps c'.
Proof.
  intros [Hs Hc He Hb] E1 E2. split; rewrite ?E1, ?E2; try done.
  rewrite Hb. unfold content_bytes. by rewrite E1.
Qed.

Lemma inv_heap caps c h : cache_inv caps c → cache_inv caps (set_heap c h).
Proof. intros Hi. by apply (inv_other caps c). Qed.

(** The shard of a query exists. *)
Lemma shard_of caps c q :
  cache_inv caps c → caps ≠ [] →
  ∃ l, shards c !! shard_index_of q (length (shards c)) = Some l ∧ lru_wf l ∧
       Forall (entry_ok (length (shards c)) (shard_index_of q (length (shards c)))) (iter l).
Proof.
  intros Hi Hne. assert (Hlen : length (shards c) ≠ 0).
  { intros E. apply nil_length_inv in E. pose proof (inv_caps _ _ Hi) as Ec. rewrite E in Ec.
    by destruct caps. }
  destruct (lookup_lt_is_Some_2 (shards c) (shard_index_of q (length (shards c)))) as [l Hl].
  { unfold shard_index_of. pose proof (Z.mod_pos_bound (hash_of q) (Z.of_nat (length (shards c)))).
    lia. }
  exists l. split_and!; [done| |by apply (inv_entries _ _ Hi)].
  exact (proj1 (Forall_lookup _ _) (inv_shards _ _ Hi) _ _ Hl).
Qed.

Lemma entry_ok_without n i q l :
  Forall (entry_ok n i) l → Forall (entry_ok n i) (without q l).
Proof. rewrite !Forall_forall. intros Hl kv [Hkv _]%without_elem. by apply Hl. Qed.

Lemma shard_bytes_split l q e :
  lru_wf l → assoc q (iter l) = Some e →
  shard_bytes l = (entry_size q e + sumZ (λ kv, entry_size (fst kv) (snd kv)) (without q (iter l)))%Z.
Proof.
  intros Hwf E. unfold shard_bytes.
  rewrite (sumZ_Permutation _ _ _ (without_perm q e (iter l) (wf_nodup _ Hwf) E)). done.
Qed.

(** Writing through [get_mut]. *)
Lemma inv_set caps c q l e set e' d :
  cache_inv caps c →
  shards c !! shard_index_of q (length (shards c)) = Some l → get_mut q l = Some (e, set) →
  prefetch_failure_time e' = prefetch_failure_time e →
  d = (entry_size q e' - entry_size q e)%Z →
  cache_inv caps (add_bytes d (set_shard (shard_index_of q (length (shards c))) (set e') c)).
Proof.
  intros Hi Hl Hg Hf ->. set (i := shard_index_of q (length (shards c))) in *.
  pose proof (proj1 (Forall_lookup _ _) (inv_shards _ _ Hi) _ _ Hl) as Hwf. simpl in Hwf.
  pose proof (inv_entries _ _ Hi _ _ Hl) as Hok.
  destruct (assoc q (iter l)) as [v|] eqn:E; [|by rewrite get_mut_none in Hg].
  destruct (get_mut_some q l v E) as (set' & Hg' & Hset). rewrite Hg' in Hg. simplify_eq.
  destruct (Hset e') as [Hit Hcap].
  assert (Hin : entry_ok (length (shards c)) i (q, e)).
  { refine (proj1 (Forall_forall _ _) Hok (q, e) _). apply assoc_Some; [apply Hwf|done]. }
  eapply (inv_replace _ _ _ i l (set e') Hi Hl); [by eapply lru_set_wf|done|..].
  - rewrite Hit. constructor; [|by apply entry_ok_without]. destruct Hin as [H1 H2].
    split; simpl in *; [done|by rewrite Hf].
  - by rewrite add_bytes_shards.
  - erewrite add_bytes_total; [|apply (inv_bytes _ _ Hi)]. f_equal.
    rewrite (shard_bytes_split l q e Hwf E).
    unfold shard_bytes. rewrite Hit, sumZ_cons. simpl. lia.
Qed.

(** Pushing an entry and subtracting what it displaced. *)
Lemma inv_push caps c q e l :
  cache_inv caps c →
  shards c !! shard_index_of q (length (shards c)) = Some l →
  prefetch_failure_time e = None →
  let '(evicted, l') := push q e l in
  let c1 := set_shard (shard_index_of q (length (shards c))) l' c in
  let c2 := match evicted with Some (eq, ee) => add_bytes (- entry_size eq ee) c1 | None => c1 end in
  cache_inv caps (add_bytes (entry_size q e) c2).
Proof.
  intros Hi Hl Hf. set (i := shard_index_of q (length (shards c))) in *.
  pose proof (proj1 (Forall_lookup _ _) (inv_shards _ _ Hi) _ _ Hl) as Hwf. simpl in Hwf.
  pose proof (inv_entries _ _ Hi _ _ Hl) as Hok.
  pose proof (push_wf q e l Hwf) as Hwf'. pose proof (push_cap q e l) as Hcap.
  pose proof (push_cases q e l Hwf) as Hcases.
  destruct (push q e l) as [evicted l'] eqn:E. simpl in *.
  set (c1 := set_shard i l' c).
  assert (Hb1 : total_bytes c1 = u64 (content_bytes c)) by (exact (inv_bytes _ _ Hi)).
  assert (Hgo : ∀ d c2, total_bytes c2 = u64 (content_bytes c + d) → shards c2 = shards c1 →
     Forall (entry_ok (length (shards c)) i) (iter l') →
     (shard_bytes l' = shard_bytes l + d + entry_size q e)%Z →
     cache_inv caps (add_bytes (entry_size q e) c2)).
  { intros d c2 Hb2 Hs2 Hok' Hsb. eapply (inv_replace _ _ _ i l l' Hi Hl); [done..| |].
    - by rewrite add_bytes_shards, Hs2.
    - erewrite add_bytes_total; [|exact Hb2]. f_equal. lia. }
  assert (Hnew : entry_ok (length (shards c)) i (q, e)) by done.
  destruct Hcases as [(v0 & Ea & -> & Hit)|[(Ea & -> & Hit & _)|(Ea & rest & kv & El & -> & Hit)]];
    rewrite ?Hit in *.
  - apply (Hgo (- entry_size q v0)%Z); [by apply add_bytes_total|by rewrite add_bytes_shards|..].
    + constructor; [done|by apply entry_ok_without].
    + rewrite (shard_bytes_split l q v0 Hwf Ea). unfold shard_bytes.
      rewrite Hit, sumZ_cons. simpl. lia.
  - apply (Hgo 0%Z); [by rewrite Z.add_0_r|done|by constructor|].
    unfold shard_bytes. rewrite Hit, sumZ_cons. simpl. lia.
  - destruct kv as [kq ke]. rewrite El in Hok. apply Forall_app in Hok as [Hok _].
    apply (Hgo (- entry_size kq ke)%Z); [by apply add_bytes_total|by rewrite add_bytes_shards|..].
    + by constructor.
    + unfold shard_bytes. rewrite Hit, El, sumZ_app, !sumZ_cons. change (sumZ _ []) with 0%Z. simpl. lia.
Qed.

Lemma inv_store caps c wall q resp vu :
  cache_inv caps c → cache_inv caps (store wall q resp vu c).
Proof.
  intros Hi. unfold store.
  destruct (shards c !! shard_index_of q (length (shards c))) as [l|] eqn:Hl; [|done].
  destruct (get_mut q l) as [[e set]|] eqn:Hg.
  - by eapply inv_set.
  - pose proof (inv_push caps c q (entry_new wall resp vu) l Hi Hl eq_refl) as Hp.
    by destruct (push q (entry_new wall resp vu) l).
Qed.

Lemma inv_pop caps c i l q e l' :
  cache_inv caps c → shards c !! i = Some l → pop_lru l = Some ((q, e), l') →
  cache_inv caps (add_bytes (- entry_size q e) (set_shard i l' c)) ∧
  ∃ rest, iter l = rest ++ [(q, e)] ∧ iter l' = rest.
Proof.
  intros Hi Hl Hp.
  pose proof (proj1 (Forall_lookup _ _) (inv_shards _ _ Hi) _ _ Hl) as Hwf. simpl in Hwf.
  pose proof (inv_entries _ _ Hi _ _ Hl) as Hok.
  destruct (exists_last (l := iter l)) as (rest & kv & El).
  { intros E. by rewrite pop_lru_none in Hp. }
  destruct (pop_lru_some l rest kv El) as (l1 & Hp' & Hit & Hcap). rewrite Hp' in Hp. injection Hp as -> ->.
  split; [|by eauto]. rewrite El in Hok. apply Forall_app in Hok as [Hok _].
  eapply (inv_replace _ _ _ i l l' Hi Hl); [by eapply pop_lru_wf|done|by rewrite Hit|..].
  - by rewrite add_bytes_shards.
  - erewrite add_bytes_total; [|apply (inv_bytes _ _ Hi)]. f_equal. unfold shard_bytes.
    rewrite El, Hit, sumZ_app, sumZ_cons. change (sumZ _ []) with 0%Z. simpl. lia.
Qed.

Lemma entry_count_insert c i l l' :
  shards c !! i = Some l →
  entry_count (set_shard i l' c) + length (iter l) = entry_count c + length (iter l').
Proof.
  intros Hl. unfold entry_count. simpl.
  rewrite (insert_take_drop (shards c) i) by (by eapply lookup_lt_Some).
  rewrite <- (take_drop_middle _ _ _ Hl) at 3.
  rewrite !map_app, !map_cons, !sum_list_app. simpl. lia.
Qed.

(** A turn of the eviction loop keeps the invariant; when it evicts it makes the
    cache smaller, and when it does not the cache is empty. *)
Lemma evict_pass_spec caps idxs : ∀ c c' b,
  cache_inv caps c → evict_pass idxs c = (c', b) →
  cache_inv caps c' ∧ max_bytes c' = max_bytes c ∧ length (shards c') = length (shards c) ∧
  (if b then entry_count c' < entry_count c
   else c' = c ∧ ∀ i l, i ∈ idxs → shards c !! i = Some l → iter l = []).
Proof.
  induction idxs as [|i idxs IH]; intros c c' b Hi; simpl.
  { intros [= <- <-]. split_and!; try done. intros i l Hin. by apply not_elem_of_nil in Hin. }
  destruct (shards c !! i ≫= pop_lru) as [[[q e] l']|] eqn:Hp.
  - apply bind_Some in Hp as (l & Hl & Hp).
    destruct (inv_pop _ _ _ _ _ _ _ Hi Hl Hp) as [Hi1 (rest & El & Er)].
    set (c1 := add_bytes (- entry_size q e) (set_shard i l' c)) in *.
    assert (Hm : max_bytes c1 = max_bytes c) by (unfold c1, add_bytes; by case_if).
    assert (Hlen : length (shards c1) = length (shards c)).
    { unfold c1. rewrite add_bytes_shards. simpl. by rewrite length_insert. }
    assert (Hn : entry_count c1 < entry_count c).
    { pose proof (entry_count_insert c i l l' Hl) as E. rewrite El, Er, length_app in E. simpl in E.
      unfold c1, entry_count in *. rewrite add_bytes_shards. simpl in *. lia. }
    case_if; [intros [= <- <-]; by split_and!|].
    destruct (evict_pass idxs c1) as [c2 b2] eqn:E2. intros [= <- <-]. simpl.
    destruct (IH _ _ _ Hi1 E2) as (Hi2 & Hm2 & Hl2 & Hb2).
    split_and!; [done|congruence|congruence|]. destruct b2; [lia|]. destruct Hb2 as [-> _]. lia.
  - intros E. destruct (IH _ _ _ Hi E) as (Hi2 & Hm2 & Hl2 & Hb2). split_and!; try done.
    destruct b; [done|]. destruct Hb2 as [-> Hall]. split; [done|].
    intros j l [->|Hin]%elem_of_cons Hl; [|by eauto].
    rewrite Hl in Hp. simpl in Hp. destruct (iter l) as [|kv rest] eqn:El using rev_ind; [done|].
    destruct (pop_lru_some l rest kv El) as (l1 & Hp' & _). congruence.
Qed.

Lemma entry_count_0 c : (∀ i l, shards c !! i = Some l → iter l = []) → entry_count c = 0.
Proof.
  unfold entry_count. intros Hall.
  assert (Hf : Forall (λ l, iter l = []) (shards c)) by (apply Forall_lookup; eauto).
  induction Hf as [|l ls Hl _ IH]; [done|]. simpl. rewrite Hl. simpl. apply IH.
  intros i l' Hi. exact (Hall (S i) l' Hi).
Qed.

(** The loop of [enforce_memory_budget] ends within the budget or with an empty
    cache. *)
Lemma enforce_loop_spec caps fuel : ∀ c,
  cache_inv caps c → entry_count c ≤ fuel →
  let c' := enforce_loop fuel c in
  cache_inv caps c' ∧ max_bytes c' = max_bytes c ∧
  ((used_bytes c' ≤ max_bytes c)%Z ∨ entry_count c' = 0).
Proof.
  induction fuel as [|fuel IH]; intros c Hi Hf; simpl;
    (case_if; zify_bool; [split_and!; [done|done|by left]|]);
    destruct (evict_pass (seq 0 (length (shards c))) c) as [c1 b] eqn:E;
    destruct (evict_pass_spec _ _ _ _ _ Hi E) as (Hi1 & Hm & Hl & Hb).
  1: destruct b; [lia|].
  2: destruct b; [destruct (IH c1 Hi1 ltac:(lia)) as (? & ? & Hor); rewrite Hm in *; by split_and!|].
  all: destruct Hb as [-> Hall]; split_and!; [done..|]; right; apply entry_count_0;
    intros i l Hil; apply (Hall i l); [|done]; apply elem_of_seq;
    apply lookup_lt_Some in Hil; lia.
Qed.

Lemma enforce_spec caps c :
  cache_inv caps c →
  let c' := enforce_memory_budget c in
  cache_inv caps c' ∧
  (max_bytes c = 0%Z ∨ (used_bytes c' ≤ max_bytes c)%Z ∨ entry_count c' = 0).
Proof.
  intros Hi. unfold enforce_memory_budget. case_if; zify_bool; [by auto|].
  destruct (enforce_loop_spec caps (entry_count c) c Hi) as (? & ? & ?); [done|by auto].
Qed.

Lemma inv_enforce caps c : cache_inv caps c → cache_inv caps (enforce_memory_budget c).
Proof. intros Hi. by apply enforce_spec. Qed.

Lemma inv_insert caps c now wall q rs g :
  cache_inv caps c → cache_inv caps (snd (insert now wall q rs g c)).
Proof.
  intros Hi. simpl. by apply inv_heap, inv_enforce, inv_store.
Qed.

Lemma inv_insert_groups caps now wall q g gs : ∀ st,
  cache_inv caps (snd st) → cache_inv caps (snd (insert_groups now wall q g gs st)).
Proof.
  induction gs as [|[q1 rs] gs IH]; intros st Hi; [done|]. simpl.
  apply IH. simpl. by apply (inv_insert _ _ now wall q1 rs g).
Qed.

Lemma inv_insert_records caps c now wall q rs g :
  cache_inv caps c → cache_inv caps (snd (insert_records now wall q rs g c)).
Proof.
  intros Hi. unfold insert_records. apply inv_insert_groups. case_if; [|done].
  by apply (inv_insert _ _ now wall q (concat (map snd (group_records rs))) g).
Qed.

(** Writing back an entry with the same data. *)
Lemma inv_touch caps c q l e set e' :
  cache_inv caps c →
  shards c !! shard_index_of q (length (shards c)) = Some l → get_mut q l = Some (e, set) →
  prefetch_failure_time e' = prefetch_failure_time e → data e' = data e →
  cache_inv caps (set_shard (shard_index_of q (length (shards c))) (set e') c).
Proof.
  intros Hi Hl Hg Hf Hd. eapply (inv_set _ _ _ _ _ _ _ 0%Z Hi Hl Hg Hf).
  unfold entry_size. rewrite Hd. lia.
Qed.

Lemma inv_get caps c now wall q : cache_inv caps c → cache_inv caps (snd (get now wall q c)).
Proof.
  intros Hi. unfold get.
  destruct (shards c !! shard_index_of q (length (shards c))) as [l|] eqn:Hl; [|done].
  destruct (get_mut q l) as [[e set]|] eqn:Hg; [|done]. simpl. by eapply inv_touch.
Qed.

Lemma inv_scan_key caps th b q s :
  cache_inv caps (sc_cache s) → cache_inv caps (sc_cache (scan_key th b q s)).
Proof.
  intros Hi. unfold scan_key.
  destruct (_ ≫= _) as [[e set]|] eqn:E; [|done]. apply bind_Some in E as (l & Hl & Hg).
  repeat case_if; simpl; by eapply inv_touch.
Qed.

Lemma inv_scan_heap caps fuel th b n : ∀ s,
  cache_inv caps (sc_cache s) → cache_inv caps (sc_cache (scan_heap fuel th b n s)).
Proof.
  induction fuel as [|fuel IH]; intros s Hi; [done|]. simpl.
  destruct (heap_pop _) as [[[exp q] h]|]; [|done].
  assert (Hi' : cache_inv caps (set_heap (sc_cache s) h)) by (by apply inv_heap).
  case_if; [done|]. apply IH. by apply inv_scan_key.
Qed.

Lemma inv_get_expired caps c now a b n :
  cache_inv caps c → cache_inv caps (snd (get_expired now a b n c)).
Proof. intros Hi. simpl. by apply inv_heap, inv_scan_heap. Qed.

Lemma inv_load_entry caps c e :
  cache_inv caps c → prefetch_failure_time e = None → cache_inv caps (load_entry c e).
Proof.
  intros Hi Hf. unfold load_entry. set (q := default default_query _).
  destruct (shards c !! shard_index_of q (length (shards c))) as [l|] eqn:Hl; [|done].
  pose proof (inv_push caps c q e l Hi Hl Hf) as Hp. destruct (push q e l) as [ev l'].
  by apply inv_heap.
Qed.

Lemma inv_load caps c wall l : cache_inv caps c → cache_inv caps (load_entries wall l c).
Proof.
  intros Hi. apply inv_enforce. revert c Hi. induction l as [|[[d vu] h] l IH]; intros c Hi; [done|].
  simpl. by apply IH, inv_load_entry.
Qed.

Lemma inv_clear caps c : cache_inv caps c → cache_inv caps (cache_clear c).
Proof.
  intros [Hs Hc He Hb]. split; simpl.
  - apply Forall_map. eapply Forall_impl; [exact Hs|]. intros l. apply clear_wf.
  - rewrite <- Hc, map_map. apply map_ext. apply clear_cap.
  - intros i l. rewrite list_lookup_fmap. intros (l0 & _ & ->)%fmap_Some.
    rewrite clear_iter. constructor.
  - unfold content_bytes. simpl. rewrite sumZ_map. rewrite (sumZ_ext _ (λ _, 0%Z)), sumZ_const; [done|].
    intros l _. unfold shard_bytes. by rewrite clear_iter.
Qed.

Lemma inv_step caps c o : cache_inv caps c → cache_inv caps (apply_op c o).
Proof.
  intros Hi. destruct o; simpl.
  - by apply (inv_insert _ _ now wall query rs group).
  - by apply inv_enforce, inv_store.
  - by apply inv_insert_records.
  - by apply inv_get.
  - by apply (inv_other caps c).
  - by apply (inv_get_expired _ _ now seconds_ahead base_interval max_count).
  - by apply inv_load.
  - by apply inv_clear.
Qed.

Lemma inv_run caps ops : ∀ c, cache_inv caps c → cache_inv caps (run_ops ops c).
Proof. induction ops as [|o ops IH]; intros c Hi; [done|]. simpl. by apply IH, inv_step. Qed.

(** ** Creation *)

Lemma shard_capacities_pos n : Forall (λ k, 1 ≤ k) (shard_capacities n).
Proof. unfold shard_capacities. apply Forall_map, Forall_forall. intros i _. case_if; lia. Qed.

Lemma shard_capacities_ne n : shard_capacities n ≠ [].
Proof. unfold shard_capacities, shard_count. by case_if. Qed.

Lemma inv_new n b t rt mb : cache_inv (shard_capacities n) (cache_new n b t rt mb).
Proof.
  split; simpl.
  - apply Forall_map. eapply Forall_impl; [apply shard_capacities_pos|]. intros k. apply lru_new_wf.
  - rewrite map_map. transitivity (map (λ k, k) (shard_capacities n)); [|by rewrite map_id].
    apply map_ext. apply new_cap.
  - intros i l. rewrite list_lookup_fmap. intros (k & _ & ->)%fmap_Some. rewrite new_iter. constructor.
  - unfold content_bytes. simpl. rewrite sumZ_map. rewrite (sumZ_ext _ (λ _, 0%Z)), sumZ_const; [done|].
    intros k _. unfold shard_bytes. by rewrite new_iter.
Qed.

Lemma sum_with_remainder k m r : ∀ a,
  sum_list (map (λ i, k + (if i <? a + r then 1 else 0)) (seq a m)) = k * m + Nat.min r m.
Proof.
  revert r. induction m as [|m IH]; intros r a; simpl; [lia|].
  destruct (a <? a + r) eqn:E.
  - apply Nat.ltb_lt in E. replace (a + r) with (S a + (r - 1)) by lia. rewrite IH. lia.
  - apply Nat.ltb_ge in E. assert (r = 0) as -> by lia.
    specialize (IH 0 (S a)). rewrite (map_ext_in _ (λ i, k + (if i <? S a + 0 then 1 else 0))).
    + rewrite IH. lia.
    + intros i Hi%in_seq. rewrite !(proj2 (Nat.ltb_ge _ _)); lia.
Qed.

(** The capacities share out the configured size exactly. *)
Lemma shard_capacities_sum n : sum_list (shard_capacities n) = Nat.max n 1.
Proof.
  unfold shard_capacities. cbv zeta.
  pose proof (sum_with_remainder (Nat.max (n / shard_count n) 1) (shard_count n)
    (n - Nat.max (n / shard_count n) 1 * shard_count n) 0) as E0. simpl in E0. rewrite E0. clear E0.
  unfold shard_count. destruct (CACHE_SHARD_COUNT <=? n) eqn:E.
  - apply Nat.leb_le in E. unfold CACHE_SHARD_COUNT in *.
    pose proof (Nat.div_mod n 16 ltac:(lia)). pose proof (Nat.mod_upper_bound n 16 ltac:(lia)).
    assert (1 ≤ n / 16) by (apply Nat.div_le_lower_bound; lia). lia.
  - rewrite Nat.div_1_r. lia.
Qed.

Lemma entry_count_le caps c : cache_inv caps c → entry_count c ≤ sum_list caps.
Proof.
  intros [Hs <- _ _]. unfold entry_count. induction Hs as [|l ls [_ Hl _] _ IH]; [done|].
  simpl in *. lia.
Qed.
End inv.
