(* ===== verification/CacheProps.v ===== *)
(** * Properties of the DNS cache

    What a user of [DnsCache] sees, in terms of the lookup of a query: the bounds
    of the cache, the round trip of an insertion and a later [get], and which
    entries [get_expired] hands to the prefetcher. *)

From S2P Require Import Prelude Dns Lru DnsCache CacheInv.

Section lookup.
Context `{LY : Layout} `{LO : !LruOps Query DnsCacheEntry}.
Context `{LL : !LruLaws (K := Query) (V := DnsCacheEntry)}.
Implicit Types c : DnsCache.

(** The entry of a query, without touching the recency order. *)
Definition cache_lookup (q : Query) (c : DnsCache) : option DnsCacheEntry :=
  shards c !! shard_index_of q (length (shards c)) ≫= λ l, assoc q (iter l).

(** What [get] answers for an entry. *)
Definition found (now : Z) (reply_ttl : Z) (q : Query) (e : DnsCacheEntry) : DnsResponse * CacheStatus :=
  let res := rename_answers q (data e) in
  if is_current now e then (res_set_max_ttl res (u32 (as_secs (ttl now e))), Valid)
  else (res_set_max_ttl res (u32 reply_ttl), Expired).

Lemma get_found c now wall q :
  fst (get now wall q c) = found now (expired_reply_ttl c) q <$> cache_lookup q c.
Proof.
  unfold get, cache_lookup.
  destruct (shards c !! shard_index_of q (length (shards c))) as [l|]; [|done]. simpl.
  destruct (assoc q (iter l)) as [e|] eqn:E.
  - destruct (get_mut_some q l e E) as (set & -> & _). done.
  - by rewrite get_mut_none.
Qed.

Lemma touch_lookup c q l e set e' q' :
  shards c !! shard_index_of q (length (shards c)) = Some l → get_mut q l = Some (e, set) →
  cache_lookup q' (set_shard (shard_index_of q (length (shards c))) (set e') c) =
    if bool_decide (q' = q) then Some e' else cache_lookup q' c.
Proof.
  intros Hl Hg. destruct (assoc q (iter l)) as [v|] eqn:E; [|by rewrite get_mut_none in Hg].
  destruct (get_mut_some q l v E) as (set' & Hg' & Hset). rewrite Hg' in Hg. simplify_eq.
  unfold cache_lookup. simpl. rewrite length_insert.
  destruct (decide (shard_index_of q (length (shards c)) = shard_index_of q' (length (shards c)))) as [Ei|Ei].
  - rewrite <- Ei, list_lookup_insert_eq, Hl by (by eapply lookup_lt_Some). simpl.
    rewrite (proj1 (Hset e')), assoc_cons, assoc_without.
    repeat case_bool_decide; try done; congruence.
  - rewrite list_lookup_insert_ne by done. rewrite bool_decide_eq_false_2; [done|]. by intros ->.
Qed.

Lemma lookup_get_mut c q e :
  cache_lookup q c = Some e →
  ∃ l set, shards c !! shard_index_of q (length (shards c)) = Some l ∧ get_mut q l = Some (e, set).
Proof.
  intros (l & Hl & E)%bind_Some. destruct (get_mut_some q l e E) as (set & Hg & _). eauto.
Qed.

Lemma lookup_none c q :
  cache_lookup q c = None →
  shards c !! shard_index_of q (length (shards c)) ≫= get_mut q = None.
Proof.
  unfold cache_lookup. destruct (shards c !! _) as [l|]; [|done]. simpl. apply get_mut_none.
Qed.

Lemma lookup_add_bytes d c q : cache_lookup q (add_bytes d c) = cache_lookup q c.
Proof. unfold cache_lookup. by rewrite add_bytes_shards. Qed.

(** The entry a [store] leaves behind: fresh statistics when the query was not
    cached, the old flags when it was. *)
Lemma store_lookup caps c wall q resp vu :
  cache_inv caps c → caps ≠ [] →
  ∃ e, cache_lookup q (store wall q resp vu c) = Some e ∧ data e = resp ∧ e_valid_until e = vu ∧
    match cache_lookup q c with
    | Some e0 => is_in_prefetching e = is_in_prefetching e0
    | None => is_in_prefetching e = false
    end.
Proof.
  intros Hi Hne. destruct (shard_of caps c q Hi Hne) as (l & Hl & Hwf & _).
  unfold store. rewrite Hl. destruct (assoc q (iter l)) as [e0|] eqn:E.
  - destruct (get_mut_some q l e0 E) as (set & Hg & _). rewrite Hg, lookup_add_bytes.
    rewrite (touch_lookup c q l e0 set _ q Hl Hg), bool_decide_eq_true_2 by done.
    eexists. split_and!; [done..|]. unfold cache_lookup. rewrite Hl. simpl. by rewrite E.
  - rewrite get_mut_none by done.
    exists (entry_new wall resp vu).
    pose proof (push_cases q (entry_new wall resp vu) l Hwf) as Hp.
    destruct (push q (entry_new wall resp vu) l) as [ev l'] eqn:Ep. simpl in Hp.
    assert (Ha : assoc q (iter l') = Some (entry_new wall resp vu)).
    { destruct Hp as [(? & ? & ? & ->)|[(? & ? & -> & _)|(? & ? & ? & ? & ? & ->)]];
        by rewrite assoc_cons, bool_decide_eq_true_2. }
    assert (Hs : ∀ c', shards c' = <[shard_index_of q (length (shards c)) := l']> (shards c) →
                       cache_lookup q c' = Some (entry_new wall resp vu)).
    { intros c' Es. unfold cache_lookup. rewrite Es, length_insert.
      rewrite list_lookup_insert_eq by (by eapply lookup_lt_Some). simpl. exact Ha. }
    split_and!; [|done|done|].
    + rewrite lookup_add_bytes. apply Hs. destruct ev as [[? ?]|]; by rewrite ?add_bytes_shards.
    + unfold cache_lookup. rewrite Hl. simpl. by rewrite E.
Qed.

Lemma store_fields wall q resp vu c :
  max_bytes (store wall q resp vu c) = max_bytes c ∧
  expired_reply_ttl (store wall q resp vu c) = expired_reply_ttl c.
Proof. unfold store, add_bytes. repeat case_match; done. Qed.

Lemma enforce_unlimited c : max_bytes c = 0%Z → enforce_memory_budget c = c.
Proof. intros E. unfold enforce_memory_budget. by rewrite E. Qed.

Lemma insert_lookup caps c now wall q rs g :
  cache_inv caps c → caps ≠ [] → max_bytes c = 0%Z →
  ∃ e, cache_lookup q (snd (insert now wall q rs g c)) = Some e ∧
       data e = fst (insert now wall q rs g c) ∧
       e_valid_until e = (now + min_ttl (map snd rs))%Z ∧
       match cache_lookup q c with
       | Some e0 => is_in_prefetching e = is_in_prefetching e0
       | None => is_in_prefetching e = false
       end.
Proof.
  intros Hi Hne Hmb. unfold insert. cbn [fst snd].
  rewrite enforce_unlimited by (by rewrite (proj1 (store_fields _ _ _ _ _))).
  destruct (store_lookup caps c wall q
    (with_name_server_group (new_with_deadline q (map fst rs) (now + min_ttl (map snd rs))) g)
    (now + min_ttl (map snd rs)) Hi Hne) as (e & He & ? & ? & ?).
  by exists e.
Qed.

Lemma min_ttl_bounds l acc :
  (fold_left (λ m t, Z.min m (secs t)) l acc ≤ acc)%Z ∧
  (∀ t, t ∈ l → fold_left (λ m t, Z.min m (secs t)) l acc ≤ secs t)%Z.
Proof.
  revert acc. induction l as [|t l IH]; intros acc; simpl.
  { split; [lia|]. intros t Ht. by apply not_elem_of_nil in Ht. }
  destruct (IH (acc `min` secs t)%Z) as [H1 H2]. split; [lia|].
  intros t' [->|Ht]%elem_of_cons; [lia|by apply H2].
Qed.

(** ** The configuration never changes, and only hits are counted *)

Definition config c : bool * Z * Z * Z :=
  (serve_expired c, expired_ttl c, expired_reply_ttl c, max_bytes c).
Definition static c : (bool * Z * Z * Z) * Z := (config c, query_hits c).

Lemma static_add_bytes d c : static (add_bytes d c) = static c.
Proof. unfold add_bytes. by case_if. Qed.

Lemma static_evict_pass idxs : ∀ c, static (fst (evict_pass idxs c)) = static c.
Proof.
  induction idxs as [|i idxs IH]; intros c; [done|]. simpl.
  destruct (_ ≫= _) as [[[q e] l']|]; [|apply IH].
  case_if; cbn [fst]; [|rewrite IH]; by rewrite static_add_bytes.
Qed.

Lemma static_enforce c : static (enforce_memory_budget c) = static c.
Proof.
  unfold enforce_memory_budget. case_if; [done|]. generalize (entry_count c). intros fuel.
  revert c Heqb. induction fuel as [|fuel IH]; intros c Hc; simpl; (case_if; [done|]);
    pose proof (static_evict_pass (seq 0 (length (shards c))) c) as E;
    destruct (evict_pass _ c) as [c1 []]; simpl in *; try done.
  rewrite IH; [done|]. injection E as _ _ _ E _. by rewrite E.
Qed.

Lemma static_store wall q resp vu c : static (store wall q resp vu c) = static c.
Proof. unfold store. repeat case_match; rewrite ?static_add_bytes; done. Qed.

Lemma static_insert now wall q rs g c : static (snd (insert now wall q rs g c)) = static c.
Proof.
  simpl. transitivity (static (enforce_memory_budget (store wall q
    (with_name_server_group (new_with_deadline q (map fst rs) (now + min_ttl (map snd rs))) g)
    (now + min_ttl (map snd rs)) c))); [done|]. by rewrite static_enforce, static_store.
Qed.

Lemma static_insert_records now wall q rs g c :
  static (snd (insert_records now wall q rs g c)) = static c.
Proof.
  assert (Hg : ∀ gs st, static (snd (insert_groups now wall q g gs st)) = static (snd st)).
  { induction gs as [|[q1 l] gs IH]; intros st; [done|]. cbn [insert_groups fold_left fst snd].
    change (fold_left _ gs ?x) with (insert_groups now wall q g gs x). rewrite IH. cbn [snd].
    apply (static_insert now wall q1 l g). }
  unfold insert_records. rewrite Hg. case_if; [|done].
  apply (static_insert now wall q (concat (map snd (group_records rs))) g).
Qed.

Lemma static_scan fuel th b n : ∀ s, static (sc_cache (scan_heap fuel th b n s)) = static (sc_cache s).
Proof.
  induction fuel as [|fuel IH]; intros s; [done|]. simpl.
  destruct (heap_pop _) as [[[exp q] h]|]; [|done]. case_if; [done|]. rewrite IH.
  unfold scan_key. by repeat case_match.
Qed.

Lemma static_insert_negative now wall q r t g c :
  static (insert_negative now wall q r t g c) = static c.
Proof. unfold insert_negative. by rewrite static_enforce, static_store. Qed.

Lemma static_get now wall q c : static (snd (get now wall q c)) = static c.
Proof. unfold get. repeat case_match; done. Qed.

Lemma config_run ops : ∀ c, config (run_ops ops c) = config c.
Proof.
  induction ops as [|o ops IH]; intros c; [done|].
  change (config (run_ops ops (apply_op c o)) = config c). rewrite IH. clear IH.
  destruct o as [now wall q rs g|now wall q r t g|now wall q rs g|now wall q| |now a b n|wall l|];
    cbn [apply_op]; try done.
  - exact (f_equal fst (static_insert now wall q rs g c)).
  - exact (f_equal fst (static_insert_negative now wall q r t g c)).
  - exact (f_equal fst (static_insert_records now wall q rs g c)).
  - unfold get. repeat case_match; done.
  - exact (f_equal fst (static_scan (length (prefetch_heap c)) (prefetch_threshold now a c) b n
      {| sc_cache := c; sc_expired := []; sc_requeue := [] |})).
  - unfold load_entries. rewrite (f_equal fst (static_enforce _) : config _ = config _). revert c. induction l as [|x l IHl]; intros c; [done|].
    simpl. rewrite IHl. unfold load_entry.
    destruct (shards c !! _); [|done]. destruct (push _ _ _) as [[[? ?]|] ?];
      unfold heap_push; cbn -[add_bytes]; unfold add_bytes; repeat case_if; done.
Qed.

(** ** Bounds *)

Definition keys c : list Query := concat (map (λ l, map fst (iter l)) (shards c)).

Lemma keys_nodup caps c : cache_inv caps c → NoDup (keys c).
Proof.
  intros [Hs _ He _].
  assert (Hgen : ∀ (ls : list lru) k, Forall lru_wf ls →
    (∀ i l, ls !! i = Some l → Forall (entry_ok (length (shards c)) (k + i)) (iter l)) →
    NoDup (concat (map (λ l, map fst (iter l)) ls)) ∧
    ∀ q, q ∈ concat (map (λ l, map fst (iter l)) ls) → k ≤ shard_index_of q (length (shards c))).
  { induction ls as [|l ls IH]; intros k Hwf Hok; simpl.
    { split; [constructor|]. intros q Hq. by apply not_elem_of_nil in Hq. }
    inversion Hwf as [|? ? Hl Hls]; subst.
    destruct (IH (S k) Hls) as [Hnd Hge].
    { intros i l' Hi. replace (S k + i) with (k + S i) by lia. by apply (Hok (S i)). }
    assert (Hk : ∀ q, q ∈ map fst (iter l) → shard_index_of q (length (shards c)) = k).
    { intros q ([q' e] & -> & Hin)%list_elem_of_fmap.
      destruct (proj1 (Forall_forall _ _) (Hok 0 l eq_refl) _ Hin) as [E _]. simpl in *. lia. }
    split.
    - apply NoDup_app. split_and!; [apply Hl| |done]. intros q Hq Hq'.
      pose proof (Hk q Hq). pose proof (Hge q Hq'). lia.
    - intros q [Hq|Hq]%elem_of_app; [rewrite (Hk q Hq); lia|]. pose proof (Hge q Hq). lia. }
  exact (proj1 (Hgen (shards c) 0 Hs He)).
Qed.

(** C1. Whatever is inserted, looked up, loaded, prefetched or cleared, and in
    whatever order, the cache holds at most the configured number of entries
    (at least one), no query twice, every entry in the shard of its query, and
    [total_bytes] is the sum of the estimated sizes of the entries. *)
Theorem cache_bounded (size : nat) (stale : bool) (ttl reply_ttl budget : Z) (ops : list cache_op) :
  let c := run_ops ops (cache_new size stale ttl reply_ttl budget) in
  entry_count c ≤ Nat.max size 1 ∧ NoDup (keys c) ∧
  (∀ i l q e, shards c !! i = Some l → (q, e) ∈ iter l → i = shard_index_of q (length (shards c))) ∧
  used_bytes c = u64 (content_bytes c).
Proof.
  pose proof (inv_run _ ops _ (inv_new size stale ttl reply_ttl budget)) as Hi.
  set (c := run_ops ops _) in *. split_and!.
  - rewrite <- shard_capacities_sum. by apply entry_count_le.
  - by eapply keys_nodup.
  - intros i l q e Hl Hin. symmetry.
    apply (proj1 (Forall_forall _ _) (inv_entries _ _ Hi i l Hl) _ Hin).
  - apply (inv_bytes _ _ Hi).
Qed.

Lemma empty_bytes c : entry_count c = 0 → content_bytes c = 0%Z.
Proof.
  unfold entry_count, content_bytes. induction (shards c) as [|l ls IH]; [done|]. intros E. simpl in E.
  rewrite sumZ_cons, IH by lia. unfold shard_bytes.
  destruct (iter l); [done|simpl in E; lia].
Qed.

(** C21. The memory budget: with a budget configured, every insertion, positive or
    negative, returns (the eviction loop ends) with the accounted bytes within
    the budget, and so with the entries within it as long as their total size is
    a machine integer. *)
Theorem budget_enforced (size : nat) (stale : bool) (ttl reply_ttl budget : Z) (ops : list cache_op)
    (o : cache_op) (Hbudget : (0 < budget)%Z)
    (Ho : match o with OpInsert _ _ _ _ _ | OpInsertNegative _ _ _ _ _ _ | OpLoad _ _ => true
          | _ => false end = true) :
  let c := apply_op (run_ops ops (cache_new size stale ttl reply_ttl budget)) o in
  (used_bytes c ≤ budget)%Z ∧
  ((content_bytes c ≤ u64_max)%Z → (content_bytes c ≤ budget)%Z).
Proof.
  pose proof (inv_run _ ops _ (inv_new size stale ttl reply_ttl budget)) as Hi.
  pose proof (config_run ops (cache_new size stale ttl reply_ttl budget)) as Hcfg.
  set (c0 := run_ops ops _) in *.
  assert (Hgo : ∀ c1, cache_inv (shard_capacities size) c1 → max_bytes c1 = budget →
    let c2 := enforce_memory_budget c1 in
    (used_bytes c2 ≤ budget)%Z ∧ ((content_bytes c2 ≤ u64_max)%Z → (content_bytes c2 ≤ budget)%Z)).
  { intros c1 Hi1 Hm. destruct (enforce_spec _ _ Hi1) as [Hi2 Hor]. simpl. rewrite Hm in Hor.
    assert (Hu : (used_bytes (enforce_memory_budget c1) ≤ budget)%Z).
    { destruct Hor as [?|[?|He]]; [lia|done|]. unfold used_bytes. rewrite (inv_bytes _ _ Hi2).
      rewrite empty_bytes by done. change (u64 0) with 0%Z. lia. }
    split; [done|]. intros Hmax. unfold used_bytes in Hu. rewrite (inv_bytes _ _ Hi2) in Hu.
    destruct (decide (0 ≤ content_bytes (enforce_memory_budget c1))%Z); [|lia].
    rewrite u64_small in Hu; [done|]. by split. }
  assert (Hm0 : max_bytes c0 = budget) by (by injection Hcfg).
  destruct o as [now wall q rs g|now wall q r t g| | | | |wall l|]; try done; cbn [apply_op].
  - apply (Hgo _ (inv_store _ _ wall q _ _ Hi)). by rewrite (proj1 (store_fields _ _ _ _ _)).
  - apply (Hgo _ (inv_store _ _ wall q _ _ Hi)). by rewrite (proj1 (store_fields _ _ _ _ _)).
  - apply Hgo.
    + clear -Hi LL. revert Hi. generalize c0. induction l as [|[[d vu] h] l IH]; intros c Hi; [done|].
      simpl. by apply IH, inv_load_entry.
    + pose proof (config_run [OpLoad wall l] c0) as E. cbn [run_ops fold_left apply_op] in E.
      unfold load_entries in E.
      rewrite (f_equal fst (static_enforce _) : config _ = config _) in E. injection E as _ _ _ E. congruence.
Qed.

(** ** Insertion and lookup *)

Lemma u32_id n : (0 ≤ n < 4294967296)%Z → u32 n = n.
Proof. intros. by apply wrap_small. Qed.

(** C2. Round trip of an insertion, where no memory budget is set: until the
    smallest of the inserted TTLs (at most ten minutes) has passed, a lookup of
    the query finds the inserted records, in order, each with a TTL no larger than
    the one it came with nor than what remains of the entry; the answer belongs to
    the server group that was asked. *)
Theorem insert_then_get (size : nat) (stale : bool) (ettl reply_ttl : Z) (ops : list cache_op)
    (now now' wall wall' : Z) (q : Query) (rs : list Record_) (g : string)
    (Hrs : Forall (λ r, query_of r = q ∧ 0 ≤ r_ttl r)%Z rs)
    (Htime : (now ≤ now' ≤ now + min_ttl (map r_ttl rs))%Z) :
  let c := run_ops ops (cache_new size stale ettl reply_ttl 0) in
  let c' := snd (insert now wall q (map (λ r, (r, r_ttl r)) rs) g c) in
  let left := as_secs (now + min_ttl (map r_ttl rs) - now') in
  (0 ≤ left ≤ 600)%Z ∧
  ∃ res, fst (get now' wall' q c') = Some (res, Valid) ∧
    answers res = map (set_max_ttl left) rs ∧
    Forall2 (λ r r', r_ttl r' = Z.min (r_ttl r) left ∧ r_data r' = r_data r ∧ r_name r' = q_name q)
      rs (answers res) ∧
    name_server_group res = Some g.
Proof.
  pose proof (inv_run _ ops _ (inv_new size stale ettl reply_ttl 0)) as Hi.
  pose proof (config_run ops (cache_new size stale ettl reply_ttl 0)) as Hcfg.
  set (c := run_ops ops _) in *. cbv zeta.
  set (life := min_ttl (map r_ttl rs)) in *.
  assert (Hlife : (life ≤ secs 600)%Z) by (exact (proj1 (min_ttl_bounds _ _))).
  set (left := as_secs (now + life - now')).
  assert (Hleft : (0 ≤ left ≤ 600)%Z).
  { unfold left. split; [apply Z.div_pos; lia|]. apply as_secs_le. lia. }
  split; [done|].
  destruct (insert_lookup _ c now wall q (map (λ r, (r, r_ttl r)) rs) g Hi (shard_capacities_ne size))
    as (e & He & Hd & Hv & _); [by injection Hcfg|].
  rewrite get_found, He. simpl.
  assert (Em : map snd (map (λ r, (r, r_ttl r)) rs) = map r_ttl rs) by (by rewrite map_map).
  assert (Ef : map fst (map (λ r, (r, r_ttl r)) rs) = rs) by (by rewrite map_map, map_id).
  unfold insert in Hd. cbn [fst] in Hd. rewrite Em, Ef in *. fold life in Hd, Hv.
  assert (Hren : rename_answers q (data e) = data e).
  { rewrite Hd. unfold rename_answers. cbn [answers new_with_deadline with_name_server_group].
    assert (Hex : existsb (λ r, negb (bool_decide (r_name r = q_name q))) rs = false).
    { apply not_true_iff_false. intros (r & Hr%list_elem_of_In & Hn)%existsb_exists.
      destruct (proj1 (Forall_forall _ _) Hrs r Hr) as [<- _]. by rewrite bool_decide_eq_true_2 in Hn. }
    by rewrite Hex, andb_false_r. }
  unfold found. rewrite Hren.
  unfold is_current. rewrite (proj2 (Z.leb_le _ _)) by (rewrite Hv; lia).
  assert (Et : u32 (as_secs (ttl now' e)) = left).
  { unfold ttl. rewrite Hv, Z.max_r by lia. unfold left in *. apply u32_id. lia. }
  rewrite Et. eexists. split; [done|]. cbn [answers res_set_max_ttl set_answers]. rewrite Hd.
  cbn [answers new_with_deadline with_name_server_group name_server_group res_set_max_ttl set_answers].
  split_and!; [done| |done].
  clearbody left. clear -Hrs Hleft. induction Hrs as [|r rs [Hq Hr] _ IH]; [constructor|]. simpl. constructor; [|done].
  unfold set_max_ttl. case_if; zify_bool; simpl; rewrite <- Hq; split_and!; simpl; try done; lia.
Qed.

(** ** Prefetching *)

Definition handed_out (l : list (Query * Z * option string)) : list Query := map (λ x, fst (fst x)) l.

Record scan_ok (c0 : DnsCache) (threshold : Z) (max_count : nat) (s : scan) : Prop := {
  ok_entries : ∀ q e, cache_lookup q (sc_cache s) = Some e ↔
    ∃ e0, cache_lookup q c0 = Some e0 ∧
      e = if bool_decide (q ∈ handed_out (sc_expired s)) then set_prefetching e0 else e0;
  ok_nodup : NoDup (handed_out (sc_expired s));
  ok_expired : ∀ q h g, (q, h, g) ∈ sc_expired s → ∃ e0, cache_lookup q c0 = Some e0 ∧
    is_in_prefetching e0 = false ∧ is_ip_addr (q_type q) = true ∧
    (e_valid_until e0 < threshold)%Z ∧ g = name_server_group (data e0) ∧ h = hits e0;
  ok_length : length (sc_expired s) ≤ max_count;
}.

Lemma scan_key_ok c0 th b n q s :
  (∀ q e, cache_lookup q c0 = Some e → prefetch_failure_time e = None) →
  length (sc_expired s) < n → scan_ok c0 th n s → scan_ok c0 th n (scan_key th b q s).
Proof.
  intros Hf0 Hlt [He Hnd Hex Hlen]. unfold scan_key.
  destruct (cache_lookup q (sc_cache s)) as [e|] eqn:Eq.
  2:{ rewrite lookup_none by done. by split. }
  destruct (lookup_get_mut _ _ _ Eq) as (l & set & Hl & Hg). rewrite Hl. simpl. rewrite Hg.
  assert (Hseen : ∀ req, scan_ok c0 th n {| sc_cache := set_shard
      (shard_index_of q (length (shards (sc_cache s)))) (set e) (sc_cache s);
      sc_expired := sc_expired s; sc_requeue := req |}).
  { intros req. split; simpl; try done. intros q' e'.
    rewrite (touch_lookup _ _ _ _ _ _ q' Hl Hg).
    destruct (decide (q' = q)) as [->|E]; [|rewrite (bool_decide_eq_false_2 (q' = q)) by done; apply He].
    rewrite (bool_decide_eq_true_2 (q = q)) by done. rewrite <- Eq. apply He. }
  destruct (proj1 (He q e) Eq) as (e0 & E0 & Ee).
  case_if; [apply Hseen|]. case_if; [apply Hseen|]. case_if; [apply Hseen|].
  apply negb_false_iff in Heqb0, Heqb1. unfold is_current in Heqb2. zify_bool.
  assert (Hnew : q ∉ handed_out (sc_expired s) ∧ is_in_prefetching e0 = false ∧ e = e0).
  { unfold should_retry_prefetch in Heqb0. case_bool_decide; subst e; simpl in Heqb0.
    - by rewrite (Hf0 q e0 E0) in Heqb0.
    - rewrite (Hf0 q e0 E0), orb_false_r in Heqb0. by apply negb_true_iff in Heqb0. }
  destruct Hnew as (Hnin & Hflag & ->).
  assert (Hho : handed_out (sc_expired s ++ [(q, hits e0, name_server_group (data e0))]) =
                handed_out (sc_expired s) ++ [q]) by (unfold handed_out; by rewrite map_app).
  split; simpl; rewrite ?Hho.
  - intros q' e'. rewrite (touch_lookup _ _ _ _ _ _ q' Hl Hg).
    destruct (decide (q' = q)) as [->|E].
    + rewrite (bool_decide_eq_true_2 (q = q)) by done.
      rewrite bool_decide_eq_true_2 by set_solver. split.
      * intros [= <-]. eauto.
      * intros (e1 & E1 & ->). congruence.
    + rewrite (bool_decide_eq_false_2 (q' = q)) by done. rewrite He.
      assert (Hiff : bool_decide (q' ∈ handed_out (sc_expired s) ++ [q]) =
                     bool_decide (q' ∈ handed_out (sc_expired s)))
        by (apply bool_decide_ext; set_solver).
      by rewrite Hiff.
  - apply NoDup_app. split_and!; [done|set_solver|apply NoDup_singleton].
  - intros q' h g [Hin|Hin%list_elem_of_singleton]%elem_of_app; [by apply Hex|].
    simplify_eq. exists e0. by split_and!.
  - rewrite length_app. simpl. lia.
Qed.

Lemma scan_heap_ok c0 th b n fuel : ∀ s,
  (∀ q e, cache_lookup q c0 = Some e → prefetch_failure_time e = None) →
  scan_ok c0 th n s → scan_ok c0 th n (scan_heap fuel th b n s).
Proof.
  induction fuel as [|fuel IH]; intros s Hf Hs; [done|]. simpl.
  destruct (heap_pop _) as [[[exp q] h]|]; [|done].
  assert (Hs' : ∀ req, scan_ok c0 th n {| sc_cache := set_heap (sc_cache s) h;
                 sc_expired := sc_expired s; sc_requeue := req |}) by (intros; by destruct Hs).
  destruct ((th <? exp)%Z || (n <=? length (sc_expired s))) eqn:E; [apply Hs'|].
  apply orb_false_iff in E as [_ E]. apply Nat.leb_gt in E.
  apply IH; [done|]. by apply scan_key_ok.
Qed.

Lemma inv_failure caps c q e :
  cache_inv caps c → cache_lookup q c = Some e → prefetch_failure_time e = None.
Proof.
  intros Hi (l & Hl & E)%bind_Some.
  pose proof (proj1 (Forall_lookup _ _) (inv_shards _ _ Hi) _ _ Hl) as Hwf. simpl in Hwf.
  apply assoc_Some in E; [|apply Hwf].
  exact (proj2 (proj1 (Forall_forall _ _) (inv_entries _ _ Hi _ _ Hl) _ E)).
Qed.

Lemma get_expired_scan caps c now a b n :
  cache_inv caps c →
  ∃ s, scan_ok c (prefetch_threshold now a c) n s ∧
    (∀ q g, (q, g) ∈ fst (fst (get_expired now a b n c)) ↔ ∃ h, (q, h, g) ∈ sc_expired s) ∧
    length (fst (fst (get_expired now a b n c))) = length (sc_expired s) ∧
    map fst (fst (fst (get_expired now a b n c))) ≡ₚ handed_out (sc_expired s) ∧
    ∀ q, cache_lookup q (snd (get_expired now a b n c)) = cache_lookup q (sc_cache s).
Proof.
  intros Hi. eexists. split.
  { apply (scan_heap_ok c (prefetch_threshold now a c) b n (length (prefetch_heap c))
      {| sc_cache := c; sc_expired := []; sc_requeue := [] |}); [intros ? ?; by apply (inv_failure caps)|].
    split; simpl; try constructor; try lia.
    - intros He. eexists. split; [done|]. done.
    - intros (e0 & E0 & ->). done.
    - intros q h g Hin. by apply not_elem_of_nil in Hin. }
  set (s := scan_heap _ _ _ _ _). unfold get_expired. fold s. cbn [fst snd]. split_and!.
  - intros q g. rewrite list_elem_of_fmap. split.
    + intros ([[q' h] g'] & [= -> ->] & Hin). exists h. by rewrite sort_by_perm in Hin.
    + intros (h & Hin). exists (q, h, g). split; [done|]. by rewrite sort_by_perm.
  - rewrite length_map. apply Permutation_length, sort_by_perm.
  - rewrite map_map. simpl. unfold handed_out. apply Permutation_map, sort_by_perm.
  - done.
Qed.

(** The scan for entries to prefetch: it hands out at most [max_count] queries,
    each once, and only address queries whose entry has expired (with the
    look-ahead) and is not already being prefetched, with the server group of the
    entry; it marks exactly those entries, and changes no answer. *)
Theorem get_expired_correct (size : nat) (stale : bool) (ettl reply_ttl budget : Z)
    (ops : list cache_op) (now : Z) (ahead : option Z) (interval : Z) (max_count : nat) :
  let c := run_ops ops (cache_new size stale ettl reply_ttl budget) in
  let due := fst (fst (get_expired now ahead interval max_count c)) in
  let c' := snd (get_expired now ahead interval max_count c) in
  length due ≤ max_count ∧ NoDup (map fst due) ∧
  (∀ q g, (q, g) ∈ due → ∃ e, cache_lookup q c = Some e ∧ is_in_prefetching e = false ∧
     is_ip_addr (q_type q) = true ∧ (e_valid_until e < prefetch_threshold now ahead c)%Z ∧
     g = name_server_group (data e)) ∧
  (∀ q, cache_lookup q c' =
     (λ e, if bool_decide (q ∈ map fst due) then set_prefetching e else e) <$> cache_lookup q c).
Proof.
  pose proof (inv_run _ ops _ (inv_new size stale ettl reply_ttl budget)) as Hi.
  set (c := run_ops ops _) in *. cbv zeta.
  destruct (get_expired_scan _ c now ahead interval max_count Hi)
    as (s & [He Hnd Hex Hlen] & Hin & Hl & Hp & Hlook).
  split_and!; [lia|by rewrite Hp| |].
  - intros q g (h & Hq)%Hin. destruct (Hex q h g Hq) as (e0 & ? & ? & ? & ? & ? & _). eauto 10.
  - intros q. rewrite Hlook.
    assert (Hdec : bool_decide (q ∈ map fst (fst (fst (get_expired now ahead interval max_count c)))) =
                   bool_decide (q ∈ handed_out (sc_expired s))).
    { apply bool_decide_ext. by rewrite Hp. }
    rewrite Hdec. destruct (cache_lookup q c) as [e0|] eqn:E0; simpl.
    + apply He. eauto.
    + destruct (cache_lookup q (sc_cache s)) as [e|] eqn:E1; [|done].
      apply He in E1 as (e0 & ? & _). congruence.
Qed.

(** An entry is prefetched once (with no memory budget set): after a scan
    has handed out a query, inserting the refreshed records leaves it marked as
    being prefetched, and no later scan hands it out again, however long the new
    records have expired. *)
Theorem prefetched_once (size : nat) (stale : bool) (ettl reply_ttl : Z) (ops : list cache_op)
    (now ahead interval : Z) (max_count : nat) (q : Query)
    (now1 wall1 : Z) (rs : list (Record_ * Z)) (g : string)
    (now2 ahead2 interval2 : Z) (max_count2 : nat)
    (Hdue : q ∈ map fst (fst (fst (get_expired now (Some ahead) interval max_count
              (run_ops ops (cache_new size stale ettl reply_ttl 0)))))) :
  let c := run_ops ops (cache_new size stale ettl reply_ttl 0) in
  let scanned := snd (get_expired now (Some ahead) interval max_count c) in
  let refreshed := snd (insert now1 wall1 q rs g scanned) in
  (∃ e, cache_lookup q refreshed = Some e ∧ is_in_prefetching e = true) ∧
  q ∉ map fst (fst (fst (get_expired now2 (Some ahead2) interval2 max_count2 refreshed))).
Proof.
  pose proof (inv_run _ ops _ (inv_new size stale ettl reply_ttl 0)) as Hi.
  pose proof (config_run (ops ++ [OpGetExpired now (Some ahead) interval max_count])
    (cache_new size stale ettl reply_ttl 0)) as Hcfg.
  unfold run_ops in Hcfg. rewrite fold_left_app in Hcfg. simpl fold_left in Hcfg at 1.
  fold (run_ops ops (cache_new size stale ettl reply_ttl 0)) in Hcfg.
  set (c := run_ops ops _) in *. cbv zeta.
  pose proof (inv_get_expired _ _ now (Some ahead) interval max_count Hi) as Hi1.
  set (scanned := snd (get_expired now (Some ahead) interval max_count c)) in *.
  assert (Hscan : ∃ e, cache_lookup q scanned = Some e ∧ is_in_prefetching e = true).
  { destruct (get_expired_scan _ c now (Some ahead) interval max_count Hi)
      as (s & [He _ Hex _] & _ & _ & Hp & Hlook).
    rewrite Hp in Hdue. pose proof Hdue as ([[q' h] g'] & E & Hin)%list_elem_of_fmap.
    simpl in E. subst q'. destruct (Hex q h g' Hin) as (e0 & E0 & _).
    exists (set_prefetching e0). split; [|done]. unfold scanned. rewrite Hlook. apply He.
    exists e0. split; [done|]. by rewrite bool_decide_eq_true_2. }
  destruct Hscan as (e1 & E1 & F1).
  destruct (insert_lookup _ scanned now1 wall1 q rs g Hi1 (shard_capacities_ne size))
    as (e2 & E2 & _ & _ & F2); [by injection Hcfg|]. rewrite E1, F1 in F2.
  set (refreshed := snd (insert now1 wall1 q rs g scanned)) in *.
  split; [eauto|]. intros Hin2.
  assert (Hi2 : cache_inv (shard_capacities size) refreshed) by (by apply inv_insert).
  destruct (get_expired_scan _ refreshed now2 (Some ahead2) interval2 max_count2 Hi2)
    as (s & [_ _ Hex _] & _ & _ & Hp & _).
  rewrite Hp in Hin2. apply list_elem_of_fmap in Hin2 as ([[q' h] g'] & E & Hin). simpl in E. subst q'.
  destruct (Hex q h g' Hin) as (e0 & E0 & Hflag & _). congruence.
Qed.
End lookup.

(** ** A concrete cache *)

#[local] Instance demo_layout : Layout :=
  {| hash_of := λ q, name_len (q_name q); size_of_Query := 80; size_of_DnsCacheEntry := 200;
     size_of_Record := 150;
     default_query := {| q_name := "."; q_type := RT_A; q_class := 1 |} |}.
#[local] Instance demo_lru : LruOps Query DnsCacheEntry := ListLru.list_lru.

Definition demo_query (n : string) : Query := {| q_name := n; q_type := RT_A; q_class := 1 |}.
Definition demo_record (n : string) (t : Z) : Record_ :=
  {| r_name := n; r_class := 1; r_ttl := t; r_data := RD_A 167772161 |}.
Definition demo_insert (n : string) (t : Z) : cache_op :=
  OpInsert 0 0 (demo_query n) [(demo_record n t, t)] "default".

Lemma cache_bounded_witness :
  entry_count (run_ops [demo_insert "a." 60; demo_insert "b." 60; demo_insert "cc." 60]
    (cache_new 2 true 0 5 0)) ≤ 2.
Proof.
  exact (proj1 (cache_bounded (LL := ListLru.list_lru_laws) 2 true 0 5 0
    [demo_insert "a." 60; demo_insert "b." 60; demo_insert "cc." 60])).
Defined.

Lemma budget_enforced_witness :
  (used_bytes (run_ops [demo_insert "a." 60; demo_insert "b." 60; demo_insert "cc." 60]
    (cache_new 100 true 0 5 1200)) ≤ 1200)%Z.
Proof.
  exact (proj1 (budget_enforced (LL := ListLru.list_lru_laws) 100 true 0 5 1200
    [demo_insert "a." 60; demo_insert "b." 60] (demo_insert "cc." 60) eq_refl eq_refl)).
Defined.

Lemma insert_then_get_witness :
  ∃ res, fst (get (secs 10) 0 (demo_query "a.")
    (snd (insert 0 0 (demo_query "a.") [(demo_record "a." 60, 60%Z)] "default"
      (cache_new 100 true 0 5 0)))) = Some (res, Valid) ∧
    answers res = [demo_record "a." 50].
Proof.
  destruct (insert_then_get (LL := ListLru.list_lru_laws) 100 true 0 5 [] 0 (secs 10) 0 0
    (demo_query "a.") [demo_record "a." 60] "default") as (_ & res & Hg & Ha & _).
  - apply Forall_singleton. split; [reflexivity|vm_compute; discriminate].
  - vm_compute. split; discriminate.
  - exists res. split; [exact Hg|]. rewrite Ha. reflexivity.
Defined.

Lemma get_expired_correct_witness :
  length (fst (fst (get_expired (secs 100) None 0 1
    (run_ops [demo_insert "a." 60; demo_insert "b." 60] (cache_new 100 true 0 5 0))))) ≤ 1.
Proof.
  exact (proj1 (get_expired_correct (LL := ListLru.list_lru_laws) 100 true 0 5 0
    [demo_insert "a." 60; demo_insert "b." 60] (secs 100) None 0 1)).
Defined.

Lemma prefetched_once_witness :
  let c := run_ops [demo_insert "a." 60] (cache_new 100 true 0 5 0) in
  let refreshed := snd (insert (secs 61) 0 (demo_query "a.") [(demo_record "a." 60, 60%Z)] "default"
                          (snd (get_expired (secs 60) (Some 5%Z) (millis 500) 16 c))) in
  demo_query "a." ∉ map fst (fst (fst (get_expired (secs 86400) (Some 5%Z) (millis 500) 16 refreshed))).
Proof.
  apply (prefetched_once (LL := ListLru.list_lru_laws) 100 true 0 5 [demo_insert "a." 60]
    (secs 60) 5 (millis 500) 16 (demo_query "a.")).
  vm_compute. left.
Defined.
