(* ===== verification/CacheMiddleware.v ===== *)
(** * The cache middleware

    [DnsCacheMiddleware::handle] and the negative caching it does
    ([is_negative_response], [negative_ttl], [negative_response_from_error]),
    src/dns_mw_cache.rs.  The rest of the chain is an argument: what [next.run]
    would answer, and whether it leaves [ctx.no_cache] set. *)

From S2P Require Import Prelude Dns App Lru DnsCache CacheInv CacheProps.

(** ** Negative answers *)

Definition is_negative_response (resp : DnsResponse) (query : Query) : bool :=
  match response_code resp with
  | NXDomain => true
  | NoError => negb (existsb (λ r, bool_decide (record_type r = q_type query)) (answers resp))
  | _ => false
  end.

(** The [minimum] of the first SOA record of the authority section. *)
Fixpoint soa_minimum (l : list Record_) : option Z :=
  match l with
  | [] => None
  | r :: l' => match r_data r with RD_SOA m => Some m | _ => soa_minimum l' end
  end.

Definition negative_ttl (resp : DnsResponse) : Z :=
  let ttl := match soa_minimum (authorities resp) with
             | Some m => Z.max m 60%Z
             | None => 600%Z
             end in
  secs (Z.min ttl 3600).

Definition negative_response_from_error (now : Z) (err : LookupError) (query : Query)
  : option DnsResponse :=
  if is_nx_domain err then Some (set_response_code (new_with_max_ttl now query []) NXDomain)
  else as_soa now err query.

(** ** The middleware *)

Definition ON_HIT_PREFETCH_REMAINING_TTL : Z := 600.
Definition PREFETCH_CHANNEL : nat := 256.

(** What the handler reads of the request and of its context. *)
Record mw_ctx := {
  opt_no_cache : bool;
  is_background : bool;
  no_cache : bool;
  is_dnssec : bool;
  server_group_name : string;
  no_serve_expired : bool;
  cfg_serve_expired : bool;
  cfg_serve_expired_prefetch_time : Z;
  cfg_cache_negative : bool;
  cfg_prefetch_domain : bool;
  rr_ttl_bounds : option Z * option Z;
}.

Section middleware.
Context `{LY : Layout} `{LO : !LruOps Query DnsCacheEntry}.

(** The cache, the queue to the prefetch worker when prefetching is on, and
    whether the scan loop has been woken. *)
Record mw_state := {
  cache : DnsCache;
  prefetch_queue : option (list (Query * string));
  notified : bool;
}.

Definition set_cache (st : mw_state) (c : DnsCache) : mw_state :=
  {| cache := c; prefetch_queue := prefetch_queue st; notified := notified st |}.

(** [try_send] on the bounded queue: a full one drops the task. *)
Definition try_prefetch (query : Query) (group : string) (st : mw_state) : mw_state :=
  match prefetch_queue st with
  | Some queue =>
      if length queue <? PREFETCH_CHANNEL
      then {| cache := cache st; prefetch_queue := Some (queue ++ [(query, group)]);
              notified := notified st |}
      else st
  | None => st
  end.

Definition on_hit_prefetch_remaining_ttl (ctx : mw_ctx) : Z :=
  if (cfg_serve_expired_prefetch_time ctx =? 0)%Z then ON_HIT_PREFETCH_REMAINING_TTL
  else Z.min (cfg_serve_expired_prefetch_time ctx) (2 ^ 32 - 1).

(** The branch that answers from the cache. *)
Definition answer_from_cache (ctx : mw_ctx) (query : Query) (res : DnsResponse) (st : mw_state)
  : mw_state * DnsResponse :=
  let st :=
    if negb (is_negative_response res query) &&
       (default 0 (max_ttl res) <? on_hit_prefetch_remaining_ttl ctx)%Z
    then try_prefetch query (server_group_name ctx) st else st in
  (set_cache st (count_hit (cache st)), mark_from_cache res).

(** What the handler finds: an answer to return at once, a stale answer to fall
    back to, or nothing. *)
Inductive cached :=
| Hit (res : DnsResponse)
| Stale (res : DnsResponse)
| Miss.

Definition consult (ctx : mw_ctx) (now wall : Z) (query : Query) (st : mw_state) : cached * mw_state :=
  if is_background ctx then (Miss, st)
  else
    let '(found, c) := get now wall query (cache st) in
    let st := set_cache st c in
    match found with
    | Some (res, status) =>
        if bool_decide (name_server_group res = Some (server_group_name ctx)) then
          match status with
          | Valid => (Hit res, st)
          | Expired =>
              if cfg_serve_expired ctx && negb (no_serve_expired ctx) then (Hit res, st)
              else (Stale res, st)
          end
        else (Miss, st)
    | None => (Miss, st)
    end.

(** What becomes of the answer of the rest of the chain. *)
Definition store_answer (ctx : mw_ctx) (no_cache : bool) (now wall : Z) (query : Query)
    (res : result DnsResponse LookupError) (stale : option DnsResponse) (st : mw_state)
  : mw_state * result DnsResponse LookupError :=
  match res with
  | Ok lookup =>
      if negb no_cache && cfg_cache_negative ctx && is_negative_response lookup query then
        (set_cache st (insert_negative now wall query lookup (negative_ttl lookup)
                         (server_group_name ctx) (cache st)), Ok lookup)
      else if forallb (λ r, negb (bool_decide (record_type r = q_type query))) (records lookup) then
        (st, Ok lookup)
      else if negb no_cache then
        let '(ttl_min, ttl_max) := rr_ttl_bounds ctx in
        let rs := match ttl_min, ttl_max with
                  | None, None => records lookup
                  | _, _ => clamp_ttl_bounds ttl_min ttl_max (records lookup)
                  end in
        let c := snd (insert_records now wall query rs (server_group_name ctx) (cache st)) in
        ({| cache := c; prefetch_queue := prefetch_queue st;
            notified := notified st || cfg_prefetch_domain ctx |}, Ok lookup)
      else (st, Ok lookup)
  | Err err =>
      match (if negb no_cache && cfg_cache_negative ctx
             then negative_response_from_error now err query else None) with
      | Some neg_resp =>
          (set_cache st (insert_negative now wall query neg_resp (negative_ttl neg_resp)
                           (server_group_name ctx) (cache st)), Ok neg_resp)
      | None =>
          match stale with
          | Some res => (st, Ok res)
          | None => (st, Err err)
          end
      end
  end.

(** The handler.  [next] is the outcome of the rest of the chain, with the value
    of [ctx.no_cache] it leaves; the last component says whether it was run.
    [now] and [wall] are the times of the lookup, [now'] and [wall'] those of the
    insertion. *)
Definition handle (ctx : mw_ctx) (query : Query) (now wall now' wall' : Z)
    (next : result DnsResponse LookupError * bool) (st : mw_state)
  : mw_state * result DnsResponse LookupError * bool :=
  if opt_no_cache ctx || no_cache ctx || is_dnssec ctx then (st, fst next, true)
  else
    match consult ctx now wall query st with
    | (Hit res, st) =>
        let '(st, res) := answer_from_cache ctx query res st in (st, Ok res, false)
    | (Stale res, st) =>
        let '(st, r) := store_answer ctx (snd next) now' wall' query (fst next) (Some res) st in
        (st, r, true)
    | (Miss, st) =>
        let '(st, r) := store_answer ctx (snd next) now' wall' query (fst next) None st in
        (st, r, true)
    end.

(** ** Lemmas *)

Lemma negative_ttl_range resp : (secs 60 ≤ negative_ttl resp ≤ secs 3600)%Z.
Proof. unfold negative_ttl, secs. destruct (soa_minimum _); lia. Qed.

Lemma rename_answers_group q r : name_server_group (rename_answers q r) = name_server_group r.
Proof. unfold rename_answers. by case_if. Qed.

Lemma rename_answers_code q r :
  response_code (rename_answers q r) = response_code r ∧
  authorities (rename_answers q r) = authorities r.
Proof. unfold rename_answers. by case_if. Qed.

Lemma found_group now t q e : name_server_group (fst (found now t q e)) = name_server_group (data e).
Proof. unfold found. case_if; simpl; apply rename_answers_group. Qed.

Lemma found_code now t q e :
  response_code (fst (found now t q e)) = response_code (data e) ∧
  authorities (fst (found now t q e)) = authorities (data e).
Proof. unfold found. case_if; simpl; apply rename_answers_code. Qed.

Lemma try_prefetch_cache q g st : cache (try_prefetch q g st) = cache st.
Proof. unfold try_prefetch. by repeat case_match. Qed.

Context `{LL : !LruLaws (K := Query) (V := DnsCacheEntry)}.

(** The entry a request may be answered from. *)
Definition same_group_entry (ctx : mw_ctx) (query : Query) (st : mw_state) : option DnsCacheEntry :=
  if is_background ctx then None
  else e ← cache_lookup query (cache st);
       if bool_decide (name_server_group (data e) = Some (server_group_name ctx)) then Some e else None.

(** Whether the entry is good enough to answer without asking upstream. *)
Definition serves (ctx : mw_ctx) (now : Z) (e : DnsCacheEntry) : bool :=
  is_current now e || (cfg_serve_expired ctx && negb (no_serve_expired ctx)).

Lemma consult_spec ctx now wall q st :
  fst (consult ctx now wall q st) =
    match same_group_entry ctx q st with
    | Some e =>
        let res := fst (found now (expired_reply_ttl (cache st)) q e) in
        if serves ctx now e then Hit res else Stale res
    | None => Miss
    end.
Proof.
  unfold consult, same_group_entry. case_if; [done|].
  pose proof (get_found (cache st) now wall q) as Hg.
  destruct (get now wall q (cache st)) as [found' c]. simpl in Hg. subst found'.
  destruct (cache_lookup q (cache st)) as [e|]; [|done]. simpl.
  destruct (found now (expired_reply_ttl (cache st)) q e) as [res status] eqn:E.
  pose proof (found_group now (expired_reply_ttl (cache st)) q e) as Hgr. rewrite E in Hgr. simpl in Hgr.
  rewrite Hgr. case_bool_decide; [|done]. unfold serves. rewrite E.
  unfold found in E. destruct (is_current now e); simplify_eq/=; [done|]. by case_if.
Qed.

Lemma consult_static ctx now wall q st :
  static (cache (snd (consult ctx now wall q st))) = static (cache st).
Proof.
  unfold consult. case_if; [done|]. pose proof (static_get now wall q (cache st)) as E.
  destruct (get now wall q (cache st)) as [[[res []]|] c]; simpl in *;
    repeat case_match; exact E.
Qed.

Lemma store_answer_static ctx nc now wall q r stale st :
  static (cache (fst (store_answer ctx nc now wall q r stale st))) = static (cache st).
Proof.
  unfold store_answer. destruct r as [lookup|err].
  - case_if; [apply static_insert_negative|]. case_if; [done|]. case_if; [|done].
    destruct (rr_ttl_bounds ctx). apply static_insert_records.
  - destruct (negb nc && cfg_cache_negative ctx);
      [destruct (negative_response_from_error now err q); [apply static_insert_negative|]|];
      by destruct stale.
Qed.

Definition skips_cache (ctx : mw_ctx) : bool := opt_no_cache ctx || no_cache ctx || is_dnssec ctx.

Lemma handle_spec (ctx : mw_ctx) (query : Query) (now wall now' wall' : Z)
    (next : result DnsResponse LookupError * bool) (st : mw_state) :
  let '(st', r, ran) := handle ctx query now wall now' wall' next st in
  match (if skips_cache ctx then None else same_group_entry ctx query st) with
  | Some e =>
      if serves ctx now e then
        ran = false ∧
        r = Ok (mark_from_cache (fst (found now (expired_reply_ttl (cache st)) query e))) ∧
        query_hits (cache st') = u64 (query_hits (cache st) + 1)
      else ran = true ∧ query_hits (cache st') = query_hits (cache st)
  | None => ran = true ∧ query_hits (cache st') = query_hits (cache st)
  end.
Proof.
  unfold handle, skips_cache. case_if; [done|].
  pose proof (consult_spec ctx now wall query st) as Hc.
  pose proof (consult_static ctx now wall query st) as Hs.
  destruct (consult ctx now wall query st) as [found' st1]. simpl in Hc, Hs. subst found'.
  assert (Hstore : ∀ stale, let '(st2, r) :=
      store_answer ctx (snd next) now' wall' query (fst next) stale st1 in
      query_hits (cache st2) = query_hits (cache st)).
  { intros stale. pose proof (store_answer_static ctx (snd next) now' wall' query (fst next) stale st1) as E.
    destruct (store_answer _ _ _ _ _ _ _ _) as [st2 r]. simpl in E. rewrite Hs in E. by injection E. }
  destruct (same_group_entry ctx query st) as [e|]; [destruct (serves ctx now e)|].
  - unfold answer_from_cache. split_and!; [done|done|]. case_if; simpl;
      rewrite ?try_prefetch_cache; by injection Hs as _ _ _ _ ->.
  - pose proof (Hstore (Some (fst (found now (expired_reply_ttl (cache st)) query e)))) as E.
    by destruct (store_answer _ _ _ _ _ _ _ _).
  - pose proof (Hstore None) as E. by destruct (store_answer _ _ _ _ _ _ _ _).
Qed.

(** C3. When the cache answers: the rest of the chain is not run exactly when the
    request may use the cache, is not a background refresh, and the cache holds
    an entry of the same server group that is current or may be served stale; the
    answer is then that entry's, marked as coming from the cache, and the hit
    counter grows by one.  In every other case the counter is left alone. *)
Theorem cache_answers (ctx : mw_ctx) (query : Query) (now wall now' wall' : Z)
    (next : result DnsResponse LookupError * bool) (st : mw_state) :
  let '(st', r, ran) := handle ctx query now wall now' wall' next st in
  match (if skips_cache ctx then None else same_group_entry ctx query st) with
  | Some e =>
      if serves ctx now e then
        ran = false ∧
        r = Ok (mark_from_cache (fst (found now (expired_reply_ttl (cache st)) query e))) ∧
        query_hits (cache st') = u64 (query_hits (cache st) + 1)
      else ran = true ∧ query_hits (cache st') = query_hits (cache st)
  | None => ran = true ∧ query_hits (cache st') = query_hits (cache st)
  end.
Proof. apply handle_spec. Qed.

(** An upstream failure that is not a cacheable negative answer is hidden
    whenever the cache holds any entry of the same server group: the request is
    answered with it, however long ago it expired and even when serving expired
    answers is turned off in the configuration or for the domain. *)
Theorem failure_falls_back_to_stale (ctx : mw_ctx) (query : Query) (now wall now' wall' : Z)
    (err : LookupError) (nc : bool) (st : mw_state) (e : DnsCacheEntry)
    (Huse : skips_cache ctx = false)
    (Herr : negative_response_from_error now' err query = None)
    (He : same_group_entry ctx query st = Some e) :
  let '(_, r, _) := handle ctx query now wall now' wall' (Err err, nc) st in
  ∃ res, r = Ok res ∧ answers res = answers (fst (found now (expired_reply_ttl (cache st)) query e)).
Proof.
  unfold handle. unfold skips_cache in Huse. rewrite Huse.
  pose proof (consult_spec ctx now wall query st) as Hc. rewrite He in Hc.
  destruct (consult ctx now wall query st) as [found' st1]. simpl in Hc. subst found'.
  destruct (serves ctx now e).
  - unfold answer_from_cache. eexists. split; done.
  - unfold store_answer. cbn [fst snd]. rewrite Herr. case_if; eexists; split; done.
Qed.

Lemma consult_inv caps ctx now wall q st :
  cache_inv caps (cache st) → cache_inv caps (cache (snd (consult ctx now wall q st))).
Proof.
  intros Hi. unfold consult. case_if; [done|]. pose proof (inv_get caps (cache st) now wall q Hi) as E.
  destruct (get now wall q (cache st)) as [[[res []]|] c]; simpl in *; repeat case_match; exact E.
Qed.

Lemma insert_negative_lookup caps c now wall q resp t g :
  cache_inv caps c → caps ≠ [] → max_bytes c = 0%Z →
  ∃ e, cache_lookup q (insert_negative now wall q resp t g c) = Some e ∧
    data e = res_set_max_ttl (with_name_server_group resp g) (u32 (as_secs t)) ∧
    e_valid_until e = (now + t)%Z.
Proof.
  intros Hi Hne Hmb. unfold insert_negative. cbv zeta.
  rewrite enforce_unlimited by (by rewrite (proj1 (store_fields _ _ _ _ _))).
  destruct (store_lookup caps c wall q (res_set_max_ttl (with_name_server_group resp g) (u32 (as_secs t)))
    (now + t) Hi Hne) as (e & He & Hd & Hv & _). eauto.
Qed.

Lemma found_length now t q e : length (answers (fst (found now t q e))) = length (answers (data e)).
Proof.
  unfold found, rename_answers. repeat case_if; simpl; by rewrite ?length_map.
Qed.

Lemma negative_remembered (size : nat) (stale : bool) (ettl rt : Z) (ops : list cache_op)
    (ctx : mw_ctx) (query : Query) (now wall now' wall' : Z) (st : mw_state)
    (err : LookupError) (neg : DnsResponse)
    (Hst : cache st = run_ops ops (cache_new size stale ettl rt 0))
    (Huse : skips_cache ctx = false) (Hbg : is_background ctx = false)
    (Hneg : cfg_cache_negative ctx = true)
    (Hmiss : cache_lookup query (cache st) = None)
    (Herr : negative_response_from_error now' err query = Some neg) :
  let '(st1, r1, ran1) := handle ctx query now wall now' wall' (Err err, false) st in
  r1 = Ok neg ∧ ran1 = true ∧
  ∀ now2 wall2 now2' wall2' next2, (now' ≤ now2 ≤ now' + negative_ttl neg)%Z →
    let '(_, r2, ran2) := handle ctx query now2 wall2 now2' wall2' next2 st1 in
    ran2 = false ∧ ∃ res, r2 = Ok res ∧ from_cache res = true ∧
      response_code res = response_code neg ∧ authorities res = authorities neg ∧
      length (answers res) = length (answers neg).
Proof.
  pose proof (inv_run _ ops _ (inv_new size stale ettl rt 0)) as Hi. rewrite <- Hst in Hi.
  pose proof (config_run ops (cache_new size stale ettl rt 0)) as Hcfg. rewrite <- Hst in Hcfg.
  pose proof (consult_spec ctx now wall query st) as Hc.
  pose proof (consult_static ctx now wall query st) as Hs.
  pose proof (consult_inv _ ctx now wall query st Hi) as Hi1.
  unfold same_group_entry in Hc. rewrite Hbg, Hmiss in Hc. simpl in Hc.
  pose proof (handle_spec ctx query) as Hans. unfold skips_cache in Huse.
  unfold handle at 1. rewrite Huse.
  destruct (consult ctx now wall query st) as [found' st1]. simpl in Hc, Hs, Hi1. subst found'.
  unfold store_answer. cbn [fst snd negb]. rewrite Hneg, Herr. cbn [andb].
  split_and!; [done|done|]. intros now2 wall2 now2' wall2' next2 Hnow.
  set (st2 := set_cache st1 _).
  specialize (Hans now2 wall2 now2' wall2' next2 st2).
  destruct (handle ctx query now2 wall2 now2' wall2' next2 st2) as [[st3 r2] ran2].
  destruct (insert_negative_lookup _ (cache st1) now' wall' query neg (negative_ttl neg)
    (server_group_name ctx) Hi1 (shard_capacities_ne size)) as (e & He & Hd & Hv).
  { pose proof (f_equal fst Hs : config _ = config _) as E. rewrite Hcfg in E. by injection E. }
  assert (Hsg : same_group_entry ctx query st2 = Some e).
  { unfold same_group_entry. rewrite Hbg. simpl. rewrite He. simpl. rewrite Hd. simpl.
    by rewrite bool_decide_eq_true_2. }
  rewrite Hsg in Hans. unfold skips_cache in Hans. rewrite Huse in Hans.
  assert (Hcur : serves ctx now2 e = true).
  { unfold serves, is_current. rewrite Hv. rewrite (proj2 (Z.leb_le _ _)) by lia. done. }
  rewrite Hcur in Hans. destruct Hans as (-> & -> & _). split; [done|]. eexists. split; [done|].
  destruct (found_code now2 (expired_reply_ttl (cache st2)) query e) as [Hcode Hauth].
  split_and!; [done| | |].
  - transitivity (response_code (data e)); [exact Hcode|by rewrite Hd].
  - transitivity (authorities (data e)); [exact Hauth|by rewrite Hd].
  - transitivity (length (answers (data e))); [apply found_length|]. rewrite Hd. simpl. by rewrite length_map.
Qed.

(** Negative answers are remembered (with no memory budget set): when the
    upstream says that the name does not exist, or that it has no record of the
    type (with a SOA record), the client gets that answer, and for as long as the
    SOA record says - at least a minute, at most an hour - the same request is
    answered from the cache, with the same response code and authority section,
    without asking upstream. *)
Theorem negative_answer_remembered (size : nat) (stale : bool) (ettl rt : Z) (ops : list cache_op)
    (ctx : mw_ctx) (query : Query) (now wall now' wall' : Z) (st : mw_state)
    (err : LookupError) (neg : DnsResponse)
    (Hst : cache st = run_ops ops (cache_new size stale ettl rt 0))
    (Huse : skips_cache ctx = false) (Hbg : is_background ctx = false)
    (Hneg : cfg_cache_negative ctx = true)
    (Hmiss : cache_lookup query (cache st) = None)
    (Herr : negative_response_from_error now' err query = Some neg) :
  let '(st1, r1, ran1) := handle ctx query now wall now' wall' (Err err, false) st in
  r1 = Ok neg ∧ ran1 = true ∧ (secs 60 ≤ negative_ttl neg ≤ secs 3600)%Z ∧
  ∀ now2 wall2 now2' wall2' next2, (now' ≤ now2 ≤ now' + negative_ttl neg)%Z →
    let '(_, r2, ran2) := handle ctx query now2 wall2 now2' wall2' next2 st1 in
    ran2 = false ∧ ∃ res, r2 = Ok res ∧ from_cache res = true ∧
      response_code res = response_code neg ∧ authorities res = authorities neg.
Proof.
  pose proof (negative_remembered size stale ettl rt ops ctx query now wall now' wall' st err neg
    Hst Huse Hbg Hneg Hmiss Herr) as Hr.
  destruct (handle ctx query now wall now' wall' (Err err, false) st) as [[st1 r1] ran1].
  destruct Hr as (-> & -> & Hr). split_and!; [done|done|apply negative_ttl_range..|].
  intros now2 wall2 now2' wall2' next2 H2. specialize (Hr now2 wall2 now2' wall2' next2 H2).
  destruct (handle ctx query now2 wall2 now2' wall2' next2 st1) as [[st2 r2] ran2]. naive_solver.
Qed.

(** A name that does not exist is reported as existing: with negative caching
    on (the default), the NXDOMAIN error becomes a response of the cache
    middleware whose code the reply to the client does not carry, so that the
    client sees NOERROR; with negative caching off it sees NXDOMAIN. *)
Theorem nxdomain_reply_code `{HO : HeaderOps, HL : !HeaderLaws} (ctx : mw_ctx) (query : Query)
    (now wall now' wall' t : Z) (fresh h : Header) (st : mw_state)
    (Hquery : h_message_type h = MT_Query ∧ h_op_code h = Op_Query)
    (Huse : skips_cache ctx = false) (Hmiss : same_group_entry ctx query st = None) :
  let search q := snd (fst (handle ctx q now wall now' wall' (Err (LE_ResponseCode NXDomain), false) st)) in
  h_response_code (m_header (fst (process t fresh search (ParsedRequest h query)))) =
    if cfg_cache_negative ctx then NoError else NXDomain.
Proof.
  intros search. destruct Hquery as [Hq Ho].
  assert (Hsearch : search query = if cfg_cache_negative ctx
    then Ok (set_response_code (new_with_max_ttl now' query []) NXDomain)
    else Err (LE_ResponseCode NXDomain)).
  { unfold search, handle. unfold skips_cache in Huse. rewrite Huse.
    pose proof (consult_spec ctx now wall query st) as Hc. rewrite Hmiss in Hc.
    destruct (consult ctx now wall query st) as [found' st1]. simpl in Hc. subst found'.
    unfold store_answer, negative_response_from_error. simpl. by case_if. }
  destruct (process_reply (HO := HO) (HL := HL) t fresh search (ParsedRequest h query) h eq_refl)
    as (_ & _ & _ & ->).
  simpl. rewrite Hq, Ho, Hsearch. by case_if.
Qed.
End middleware.

(** ** Concrete requests *)

#[local] Instance mw_layout : Layout := demo_layout.
#[local] Instance mw_lru : LruOps Query DnsCacheEntry := ListLru.list_lru.

Definition demo_ctx (stale : bool) : mw_ctx :=
  {| opt_no_cache := false; is_background := false; no_cache := false; is_dnssec := false;
     server_group_name := "default"; no_serve_expired := false; cfg_serve_expired := stale;
     cfg_serve_expired_prefetch_time := 0; cfg_cache_negative := true;
     cfg_prefetch_domain := true; rr_ttl_bounds := (None, None) |}.
Definition demo_state (ops : list cache_op) : mw_state :=
  {| cache := run_ops ops (cache_new 100 true 0 5 0); prefetch_queue := Some []; notified := false |}.

Lemma cache_answers_witness :
  let '(_, r, ran) := handle (demo_ctx true) (demo_query "a.") (secs 10) 0 (secs 10) 0
                        (Err (LE_Proto Timeout), false) (demo_state [demo_insert "a." 60]) in
  ran = false ∧ is_ok r = true.
Proof.
  pose proof (cache_answers (LL := ListLru.list_lru_laws) (demo_ctx true) (demo_query "a.") (secs 10) 0
    (secs 10) 0 (Err (LE_Proto Timeout), false) (demo_state [demo_insert "a." 60])) as Hc.
  destruct (handle _ _ _ _ _ _ _ _) as [[st' r] ran].
  vm_compute in Hc. destruct Hc as (-> & -> & _). split; reflexivity.
Defined.

(** A day after it expired, with serving expired answers turned off. *)
Lemma failure_falls_back_witness :
  let '(_, r, _) := handle (demo_ctx false) (demo_query "a.") (secs 86400) 0 (secs 86400) 0
                        (Err (LE_Proto Timeout), false) (demo_state [demo_insert "a." 60]) in
  is_ok r = true.
Proof.
  pose proof (failure_falls_back_to_stale (LY := mw_layout) (LO := mw_lru) (LL := ListLru.list_lru_laws) (demo_ctx false) (demo_query "a.")
    (secs 86400) 0 (secs 86400) 0 (LE_Proto Timeout) false (demo_state [demo_insert "a." 60])
    (default (entry_new 0 (new_with_deadline (demo_query "a.") [] 0) 0)
       (cache_lookup (LY := mw_layout) (LO := mw_lru) (demo_query "a.") (cache (demo_state [demo_insert "a." 60]))))
    eq_refl eq_refl ltac:(vm_compute; reflexivity)) as Hf.
  destruct (handle _ _ _ _ _ _ _ _) as [[st' r] ran]. destruct Hf as (res & -> & _). reflexivity.
Defined.

Lemma negative_answer_remembered_witness :
  let '(st1, r1, _) := handle (demo_ctx true) (demo_query "gone.") 0 0 0 0
                         (Err (LE_ResponseCode NXDomain), false) (demo_state []) in
  is_ok r1 = true.
Proof.
  pose proof (negative_answer_remembered (LL := ListLru.list_lru_laws) 100 true 0 5 [] (demo_ctx true)
    (demo_query "gone.") 0 0 0 0 (demo_state []) (LE_ResponseCode NXDomain) _
    eq_refl eq_refl eq_refl eq_refl eq_refl eq_refl) as Hn.
  destruct (handle _ _ _ _ _ _ _ _) as [[st1 r1] ran1]. destruct Hn as (-> & _). reflexivity.
Defined.

Lemma nxdomain_reply_code_witness :
  h_response_code (m_header (fst (process (H := plain_headers) 0 demo_header
    (λ q, snd (fst (handle (demo_ctx true) q 0 0 0 0 (Err (LE_ResponseCode NXDomain), false) (demo_state []))))
    (ParsedRequest demo_header (demo_query "gone."))))) = NoError.
Proof.
  exact (nxdomain_reply_code (HO := plain_headers) (HL := plain_headers_laws)
    (LL := ListLru.list_lru_laws) (demo_ctx true)
    (demo_query "gone.") 0 0 0 0 0 demo_header demo_header (demo_state [])
    (conj eq_refl eq_refl) eq_refl eq_refl).
Defined.
