(* ===== verification/CacheApi.v ===== *)
(** * [/api/caches] and the cache page of the dashboard

    The handlers of src/api/cache.rs ([caches], [flush]) and the payload of
    src/api/mod.rs, composed with the requests of the dashboard's hook
    (webui/src/lib/api.ts) and the pages of the cache tab
    (webui/src/app/dashboard/page.tsx). *)

From S2P Require Import Prelude Float64 Jsx WebApi WebUtils WebQueryLog WebCacheTab Dns AuditLog QueryLogApi Lru DnsCache CacheInv CacheProps.

Record DataListPayload (A : Type) := { pl_count : Z; pl_total : Z; pl_data : list A }.
Arguments pl_count {A}.
Arguments pl_total {A}.
Arguments pl_data {A}.

(** [DataListPayload::new] *)
Definition payload_of {A} (l : list A) : DataListPayload A :=
  {| pl_count := Z.of_nat (length l); pl_total := Z.of_nat (length l); pl_data := l |}.

Record CacheListParams := { cl_offset : option Z; cl_limit : option Z }.

(** The handler, on the records of the cache.  [offset + limit] wraps in release
    builds, and [drain] panics when the range ends before it starts: [None]. *)
Definition caches_page {A} (all : list A) (p : CacheListParams) : option (DataListPayload A) :=
  let total := Z.of_nat (length all) in
  let offset := default 0%Z (cl_offset p) in
  let limit := default 50%Z (cl_limit p) in
  d ← (if (offset <? total)%Z then
         let stop := Z.min (u64 (offset + limit)) total in
         if (offset <=? stop)%Z
         then Some (take (Z.to_nat (stop - offset)) (drop (Z.to_nat offset) all)) else None
       else Some []);
  Some {| pl_count := Z.of_nat (length d); pl_total := total; pl_data := d |}.

Section handlers.
Context `{LY : Layout} `{LO : !LruOps Query DnsCacheEntry}.

Definition all_records (c : option DnsCache) : list CachedQueryRecord :=
  match c with Some c => cached_records c | None => [] end.

Definition caches (c : option DnsCache) (p : CacheListParams)
  : option (DataListPayload CachedQueryRecord) :=
  caches_page (all_records c) p.

(** [flush]: 204 No Content. *)
Definition flush (c : option DnsCache) : option DnsCache * Response :=
  (cache_clear <$> c, {| status := 204; statusText := "No Content"; body := None |}).
End handlers.

(** ** The request of the cache tab *)

Definition decode_list_params (kvs : list (string * string)) : option CacheListParams :=
  o ← param_usize "offset" kvs;
  l ← param_usize "limit" kvs;
  Some {| cl_offset := o; cl_limit := l |}.

(** The query part of a path. *)
Definition query_part (path : string) : string := default "" (snd (break "?" path)).

Lemma form_encode_pretty_go n s : form_encode (pretty_N_go n s) = pretty_N_go n (form_encode s).
Proof.
  revert s. induction (N.lt_wf_0 n) as [n _ IH]. intros s.
  assert (n = 0 ∨ 0 < n)%N as [->|Hn] by lia; [by rewrite !pretty_N_go_0|].
  rewrite !(pretty_N_go_step n) by done. rewrite IH by (by apply N.div_lt).
  pose proof (N.mod_lt n 10 ltac:(done)) as Hm.
  assert (E : ∀ d t, (d < 10)%N → form_encode (String (pretty_N_char d) t) =
                                   String (pretty_N_char d) (form_encode t)).
  { intros d t Hd. destruct d as [|p]; [done|].
    do 4 (destruct p as [p|p|]; try lia; try done). }
  by rewrite E.
Qed.

Lemma form_encode_show n : (0 ≤ n)%Z → form_encode (show_Z n) = show_Z n.
Proof.
  intros Hn. destruct n as [|p|p]; [done| |lia].
  change (form_encode (pretty_N_go (N.pos p) "") = pretty_N_go (N.pos p) "").
  by rewrite form_encode_pretty_go.
Qed.

(** The template string of the hook is what [URLSearchParams] would produce. *)
Lemma useCaches_query o l :
  (0 ≤ o)%Z → (0 ≤ l)%Z →
  query_part (queryPath (useCaches o l)) =
  to_query_string [("offset", show_Z o); ("limit", show_Z l)].
Proof.
  intros Ho Hl. unfold query_part, useCaches, to_query_string.
  cbn [queryPath map join fst snd]. rewrite !form_encode_show by done.
  reflexivity.
Qed.

Section page.
(** The server's decoder of query strings (axum, serde_urlencoded). *)
Variable form_parse : string → list (string * string).

Definition serve_caches {A} (all : list A) (st : CacheTab.state) : option (DataListPayload A) :=
  p ← decode_list_params (form_parse (query_part (queryPath (options_of (CacheTab.query st)))));
  caches_page all p.

Hypothesis form_ok : ∀ kvs, parse_query_string (to_query_string kvs) = kvs →
                            form_parse (to_query_string kvs) = kvs.

Lemma serve_caches_page {A} (all : list A) st :
  (1 ≤ CacheTab.page st)%Z → (CacheTab.page st * 50 ≤ u64_max)%Z →
  let offset := (50 * (CacheTab.page st - 1))%Z in
  let d := take 50 (drop (Z.to_nat offset) all) in
  (Z.of_nat (length all) ≤ u64_max)%Z →
  serve_caches all st =
    Some {| pl_count := Z.of_nat (length d); pl_total := Z.of_nat (length all); pl_data := d |}.
Proof.
  intros Hp Hmax offset d Hlen. unfold serve_caches.
  change (options_of (CacheTab.query st)) with
    (useCaches (CacheTab.offset st) CacheTab.rowsPerPage).
  unfold CacheTab.offset, CacheTab.rowsPerPage.
  replace ((CacheTab.page st - 1) * 50)%Z with offset by (unfold offset; lia).
  rewrite useCaches_query by (unfold offset; lia).
  rewrite form_ok by apply parse_to_query_string.
  unfold decode_list_params, param_usize.
  change (param "offset" _) with (Some (show_Z offset)).
  change (param "limit" _) with (Some (show_Z 50)). cbv iota beta.
  rewrite (parse_usize_show offset), (parse_usize_show 50)
    by (unfold usize_max, u64_max, offset in *; lia).
  simpl. unfold caches_page. simpl.
  destruct (offset <? Z.of_nat (length all))%Z eqn:E; zify_bool.
  - rewrite u64_small by (unfold in_u64, offset in *; lia).
    rewrite (proj2 (Z.leb_le _ _)) by lia. simpl. unfold d. do 2 f_equal; [|];
      (destruct (Z.min_spec (offset + 50) (Z.of_nat (length all))) as [[? ->]|[? ->]];
       [by replace (Z.to_nat (offset + 50 - offset)) with 50 by lia|
        rewrite !take_ge by (rewrite length_drop; lia); done]).
  - unfold d. rewrite drop_ge by lia. done.
Qed.

Lemma concat_pages {A} (all : list A) n :
  concat (map (λ i, take 50 (drop (50 * i) all)) (seq 0 n)) = take (50 * n) all.
Proof.
  induction n as [|n IH]; [done|]. rewrite seq_S, map_app, concat_app, IH. simpl concat.
  rewrite app_nil_r. simpl (0 + n). rewrite take_take_drop. f_equal. lia.
Qed.

(** The page numbers the pagination control offers for a total. *)
Definition pages_offered (total : Z) : list Z :=
  map (λ i, Z.of_nat (S i)) (seq 0 (Z.to_nat (CacheTab.page_count total))).

(** The answer the tab gets on page [p]. *)
Definition page_answer {A} (all : list A) (p : Z) : option (DataListPayload A) :=
  serve_caches all (CacheTab.step CacheTab.init (CacheTab.SetPage p)).

Lemma page_answer_nth {A} (all : list A) i :
  (Z.of_nat (length all) ≤ 2 ^ 32)%Z → i < Z.to_nat (CacheTab.page_count (Z.of_nat (length all))) →
  let d := take 50 (drop (50 * i) all) in
  page_answer all (Z.of_nat (S i)) =
    Some {| pl_count := Z.of_nat (length d); pl_total := Z.of_nat (length all); pl_data := d |} ∧
  50 * i < length all.
Proof.
  intros Hlen Hi. pose proof (CacheTab.page_count_bounds (Z.of_nat (length all)) ltac:(lia)) as [Hb _].
  unfold CacheTab.rowsPerPage in Hb.
  assert (50 * i < length all).
  { destruct Hb as [Hb|Hb]; [lia|]. rewrite Hb in Hi. vm_compute in Hi. lia. }
  split; [|done]. unfold page_answer.
  rewrite serve_caches_page by (simpl; unfold u64_max; lia).
  cbn [CacheTab.page CacheTab.step].
  replace (Z.to_nat (50 * (Z.of_nat (S i) - 1))) with (50 * i) by lia. done.
Qed.

(** The pages of the cache tab: the answers to the pages the pagination control
    offers, one after the other, are the cached entries in order, each once; every
    page but the last is full, none is empty, and each carries the total. *)
Theorem cache_pages_cover {A} (all : list A) (Hlen : (Z.of_nat (length all) ≤ 2 ^ 32)%Z) :
  ∃ pages, mapM (page_answer all) (pages_offered (Z.of_nat (length all))) = Some pages ∧
    concat (map pl_data pages) = all ∧
    Forall (λ pg, pl_data pg ≠ [] ∧ length (pl_data pg) ≤ 50 ∧
                  pl_total pg = Z.of_nat (length all)) pages.
Proof.
  set (n := Z.to_nat (CacheTab.page_count (Z.of_nat (length all)))).
  set (pg := λ i, let d := take 50 (drop (50 * i) all) in
    {| pl_count := Z.of_nat (length d); pl_total := Z.of_nat (length all); pl_data := d |}).
  exists (map pg (seq 0 n)). split_and!.
  - unfold pages_offered. fold n. assert (Hle : n ≤ n) by lia.
    apply mapM_Some. rewrite Forall2_fmap_l. apply Forall2_fmap_r.
    apply Forall_Forall2_diag, Forall_forall. intros i Hi%elem_of_seq.
    apply page_answer_nth; [done|]. fold n. lia.
  - rewrite map_map. cbn [pl_data pg]. rewrite concat_pages. apply take_ge.
    pose proof (CacheTab.page_count_bounds (Z.of_nat (length all)) ltac:(lia)) as [_ Hb].
    unfold CacheTab.rowsPerPage in Hb. unfold n. lia.
  - apply Forall_map, Forall_forall. intros i Hi%elem_of_seq. unfold pg. cbn [pl_data pl_total].
    destruct (page_answer_nth all i Hlen ltac:(fold n; lia)) as [_ Hlt].
    split_and!; [|rewrite length_take; lia|done].
    intros E. apply (f_equal length) in E. rewrite length_take, length_drop in E. change (length (@nil A)) with 0 in E. lia.
Qed.

End page.

(** The cache tab's view of an answer. *)
Definition total_of {A} (p : DataListPayload A) : CachesResponse :=
  {| caches_count := pl_count p; caches_total := pl_total p; caches_data := [] |}.

(** A stranded page: when the cache shrinks to one page or less while the user
    is on a later one, the tab gets an empty list although entries exist, and the
    pagination control that would lead back is not shown, so that no page can be
    chosen. *)
Theorem stranded_page {A} (form_parse : string → list (string * string)) (all : list A)
    (st : CacheTab.state)
    (Hform : ∀ kvs, parse_query_string (to_query_string kvs) = kvs →
                    form_parse (to_query_string kvs) = kvs)
    (Hpage : (2 ≤ CacheTab.page st ≤ 2 ^ 32)%Z)
    (Hshrunk : length all ≤ 50) :
  ∃ answer, serve_caches form_parse all st = Some answer ∧ pl_data answer = [] ∧
    pl_total answer = Z.of_nat (length all) ∧
    ∀ p, CacheTab.enabled (success (total_of answer)) st (CacheTab.SetPage p) = false.
Proof.
  eexists. split; [apply serve_caches_page; [done|lia|unfold u64_max; lia|unfold u64_max; lia]|].
  cbn [pl_data pl_total]. rewrite drop_ge by lia. split_and!; [done|done|].
  intros p. simpl. unfold CacheTab.pagination_shown, CacheTab.rowsPerPage. simpl.
  rewrite (proj2 (Z.ltb_ge _ _)) by lia. done.
Qed.

Lemma cache_pages_cover_witness :
  ∃ pages, mapM (page_answer parse_query_string (seq 0 120)) (pages_offered 120) = Some pages ∧
           concat (map pl_data pages) = seq 0 120.
Proof.
  destruct (cache_pages_cover parse_query_string (λ kvs E, E) (seq 0 120)) as (pages & Hp & Hc & _).
  - vm_compute. discriminate.
  - exists pages. split; [exact Hp|exact Hc].
Defined.

Lemma stranded_page_witness :
  ∃ answer, serve_caches parse_query_string (seq 0 30)
      (CacheTab.step CacheTab.init (CacheTab.SetPage 2)) = Some answer ∧ pl_data answer = [].
Proof.
  destruct (stranded_page parse_query_string (seq 0 30) (CacheTab.step CacheTab.init (CacheTab.SetPage 2))
    (λ kvs E, E)) as (answer & Ha & Hd & _).
  - vm_compute. split; discriminate.
  - rewrite length_seq. lia.
  - exists answer. split; [exact Ha|exact Hd].
Defined.
