(* ===== verification/NameServer.v ===== *)
(** * Upstream servers

    [NameServer] and [NameServerGroup] (src/dns_client.rs): the lookup of one
    upstream with its retries, its statistics and its circuit breaker, and the
    lookup of a group, which asks all its servers at once.

    The network is an argument: what each attempt of a lookup would bring back,
    and how long it takes. *)

From S2P Require Import Prelude Float64 Dns.

Definition NS_QUERY_TIMEOUT : Z := secs 3.
Definition NS_LOOKUP_DEADLINE : Z := secs 8.
Definition NS_FAIL_THRESHOLD : Z := 3.
Definition NS_COOLDOWN : Z := secs 30.
Definition NS_PROBE_INTERVAL : Z := secs 5.

Definition is_busy (e : ProtoErrorKind) : bool := match e with Busy => true | _ => false end.

Definition is_negative_answer (e : ProtoErrorKind) : bool :=
  match e with
  | NoRecordsFound NoError _ | NoRecordsFound NXDomain _ => true
  | _ => false
  end.

Definition is_retryable (e : ProtoErrorKind) : bool :=
  match e with
  | Canceled => true
  | IoErr code => bool_decide (code = Some 10055%Z) || bool_decide (code = Some 105%Z)
  | _ => false
  end.

Record NameServer := {
  fail_streak : Z;
  last_failure : option Z;
  query_count : Z;
  success_count : Z;
  failure_count : Z;
  total_time_ns : Z;
}.

Definition ns_new : NameServer :=
  {| fail_streak := 0; last_failure := None; query_count := 0; success_count := 0;
     failure_count := 0; total_time_ns := 0 |}.

Definition in_cooldown (now : Z) (ns : NameServer) : bool :=
  if (fail_streak ns <? NS_FAIL_THRESHOLD)%Z then false
  else match last_failure ns with
       | Some t => (now - t <? NS_COOLDOWN)%Z
       | None => false
       end.

Definition record_success (ns : NameServer) : NameServer :=
  {| fail_streak := 0; last_failure := last_failure ns; query_count := query_count ns;
     success_count := success_count ns; failure_count := failure_count ns;
     total_time_ns := total_time_ns ns |}.

Definition record_failure (now : Z) (ns : NameServer) : NameServer :=
  {| fail_streak := u32 (fail_streak ns + 1); last_failure := Some now;
     query_count := query_count ns; success_count := success_count ns;
     failure_count := failure_count ns; total_time_ns := total_time_ns ns |}.

Definition record_success_time (took : Z) (ns : NameServer) : NameServer :=
  {| fail_streak := fail_streak ns; last_failure := last_failure ns;
     query_count := u64 (query_count ns + 1); success_count := u64 (success_count ns + 1);
     failure_count := failure_count ns; total_time_ns := u64 (total_time_ns ns + u64 took) |}.

Definition record_failure_time (took : Z) (ns : NameServer) : NameServer :=
  {| fail_streak := fail_streak ns; last_failure := last_failure ns;
     query_count := u64 (query_count ns + 1); success_count := success_count ns;
     failure_count := u64 (failure_count ns + 1); total_time_ns := u64 (total_time_ns ns + u64 took) |}.

Definition ns_avg_time_ms (ns : NameServer) : f64 :=
  if (query_count ns =? 0)%Z then F64.zero
  else F64.div (F64.div (F64.of_Z (total_time_ns ns)) (F64.of_Z (query_count ns))) (F64.of_Z 1000000).

Definition is_failing (now : Z) (ns : NameServer) : bool := in_cooldown now ns.

Definition allow_probe (ns : NameServer) : NameServer := record_success ns.

(** [None] is [Duration::MAX]. *)
Definition since_last_failure (now : Z) (ns : NameServer) : option Z :=
  (λ t, now - t)%Z <$> last_failure ns.

(** ** One upstream *)

(** What the connection would bring for one [send]: an answer or an error, and
    when; the application's timeout cuts it short. *)
Record attempt := { at_start : Z; at_took : Z; at_answer : result DnsResponse ProtoErrorKind }.

Definition timed (a : attempt) : result DnsResponse ProtoErrorKind * Z :=
  if (at_took a <=? NS_QUERY_TIMEOUT)%Z then (at_answer a, at_start a + at_took a)%Z
  else (Err Timeout, at_start a + NS_QUERY_TIMEOUT)%Z.

(** The loop: [i] counts the attempts made, [retries] those left. *)
Fixpoint lookup_loop (net : nat → attempt) (start deadline : Z) (retries i : nat) (ns : NameServer)
  : result DnsResponse LookupError * NameServer * nat :=
  let '(res, now) := timed (net i) in
  let took := (now - start)%Z in
  let sends := S i in
  match res with
  | Ok response =>
      (Ok response,
       match response_code response with
       | ServFail | Refused => record_failure_time took (record_failure now ns)
       | _ => record_success_time took (record_success ns)
       end, sends)
  | Err err =>
      if is_busy err then (Err (LE_Proto err), record_failure_time took ns, sends)
      else
        let final :=
          (Err (LE_Proto err),
           if is_negative_answer err then record_success_time took (record_success ns)
           else record_failure_time took (record_failure now ns), sends) in
        match retries with
        | S retries' =>
            if is_retryable err && (now <? deadline)%Z
            then lookup_loop net start deadline retries' sends ns
            else final
        | 0 => final
        end
  end.

Definition ns_lookup (now : Z) (net : nat → attempt) (ns : NameServer)
  : result DnsResponse LookupError * NameServer * nat :=
  if in_cooldown now ns then (Err (LE_Proto NoConnections), ns, 0)
  else lookup_loop net now (now + NS_LOOKUP_DEADLINE) 2 0 ns.

(** The waits before the retries, in milliseconds. *)
Fixpoint backoffs (retries : nat) (backoff_ms : Z) : list Z :=
  match retries with
  | 0 => []
  | S r => backoff_ms :: backoffs r (Z.min (backoff_ms * 2) 1000)
  end.

(** Two retries, after 50 and 100 milliseconds. *)
Example retry_waits : backoffs 2 50 = [50; 100]%Z.
Proof. reflexivity. Qed.

(** ** A group *)

Definition allow_probe_if_all_cooling (now : Z) (servers : list NameServer) : list NameServer :=
  if bool_decide (servers = []) || negb (forallb (is_failing now) servers) then servers
  else if existsb (λ ns, match since_last_failure now ns with
                         | Some d => (d <? NS_PROBE_INTERVAL)%Z
                         | None => false
                         end) servers then servers
  else map allow_probe servers.

(** The results as they arrive on the channel: the first answer that has records,
    otherwise the last of all. *)
Fixpoint first_useful (received total : nat) (arrivals : list (result DnsResponse LookupError))
  : result DnsResponse LookupError :=
  match arrivals with
  | [] => Err (LE_Proto NoConnections)
  | res :: rest =>
      let received := S received in
      let useful := match res with Ok l => negb (bool_decide (records l = [])) | Err _ => false end in
      if useful then res
      else if received =? total then res
      else first_useful received total rest
  end.

(** [nets] gives every server its network, [order] the arrival order of the
    results, as positions of servers. *)
Definition group_lookup (now : Z) (nets : list (nat → attempt)) (order : list nat)
    (servers : list NameServer) : result DnsResponse LookupError * list NameServer :=
  if bool_decide (servers = []) then (Err (LE_Proto NoConnections), servers)
  else
    let servers := allow_probe_if_all_cooling now servers in
    let outcomes := zip_with (ns_lookup now) nets servers in
    let arrivals := omap (λ i, (λ o, fst (fst o)) <$> outcomes !! i) order in
    (first_useful 0 (length servers) arrivals, map (λ o, snd (fst o)) outcomes).

(** ** Lemmas *)

(** An answer, positive or negative, as opposed to a failure of the server. *)
Definition good (r : result DnsResponse LookupError) : bool :=
  match r with
  | Ok l => negb (bool_decide (response_code l = ServFail) || bool_decide (response_code l = Refused))
  | Err (LE_Proto e) => is_negative_answer e
  | Err _ => false
  end.

Definition busy (r : result DnsResponse LookupError) : bool :=
  match r with Err (LE_Proto e) => is_busy e | _ => false end.

(** What one lookup that is not skipped does to its server. *)
Definition recorded (r : result DnsResponse LookupError) (took now : Z) (ns : NameServer) : NameServer :=
  if good r then record_success_time took (record_success ns)
  else if busy r then record_failure_time took ns
  else record_failure_time took (record_failure now ns).

Lemma good_not_busy r : good r = true → busy r = false.
Proof. destruct r as [l|[| |[]|]]; done. Qed.

Lemma lookup_loop_spec net start deadline retries : ∀ i ns,
  let '(r, ns', sends) := lookup_loop net start deadline retries i ns in
  i < sends ≤ i + S retries ∧
  ns' = recorded r (snd (timed (net (sends - 1))) - start) (snd (timed (net (sends - 1)))) ns.
Proof.
  assert (Hi : ∀ i, S i - 1 = i) by lia.
  induction retries as [|retries IH]; intros i ns; cbn [lookup_loop];
    destruct (timed (net i)) as [res now] eqn:Et; (destruct res as [l|e];
    [rewrite Hi, Et; split; [lia|]; cbn [snd]; unfold recorded, good;
     by destruct (response_code l)|]).
  - destruct e as [| | | |[] ?| |]; cbn [is_busy is_negative_answer]; rewrite Hi, Et; (split; [lia|done]).
  - destruct (is_busy e) eqn:Eb.
    { destruct e; try done. cbn [is_busy]. rewrite Hi, Et. split; [lia|done]. }
    destruct (is_retryable e && (now <? deadline)%Z) eqn:Er.
    + specialize (IH (S i) ns). destruct (lookup_loop _ _ _ _ _ _) as [[r ns'] sends].
      destruct IH as [IH1 IH2]. split; [lia|done].
    + rewrite Hi, Et. split; [lia|]. cbn [snd]. unfold recorded. simpl. rewrite Eb.
      by destruct (is_negative_answer e).
Qed.

Lemma ns_lookup_spec now net ns :
  let '(r, ns', sends) := ns_lookup now net ns in
  if in_cooldown now ns then r = Err (LE_Proto NoConnections) ∧ ns' = ns ∧ sends = 0
  else 1 ≤ sends ≤ 3 ∧ ∃ t, ns' = recorded r (t - now) t ns.
Proof.
  unfold ns_lookup. case_if; [done|].
  pose proof (lookup_loop_spec net now (now + NS_LOOKUP_DEADLINE) 2 0 ns) as Hs.
  destruct (lookup_loop _ _ _ _ _ _) as [[r ns'] sends]. destruct Hs as [? ->].
  split; [lia|]. by eexists.
Qed.

(** ** Properties *)

(** The totals of a server add up. *)
Definition consistent (ns : NameServer) : Prop :=
  query_count ns = u64 (success_count ns + failure_count ns).

Lemma recorded_consistent r took t ns : consistent ns → consistent (recorded r took t ns).
Proof.
  unfold consistent, recorded. intros E.
  assert (Hs : u64 (u64 (success_count ns + failure_count ns) + 1) =
               u64 (u64 (success_count ns + 1) + failure_count ns)).
  { rewrite !u64_add_l. f_equal. lia. }
  assert (Hf : u64 (u64 (success_count ns + failure_count ns) + 1) =
               u64 (success_count ns + u64 (failure_count ns + 1))).
  { rewrite u64_add_l, (Z.add_comm (success_count ns) (u64 _)), u64_add_l. f_equal. lia. }
  repeat case_if; simpl; rewrite E; done.
Qed.

Lemma recorded_counts r took t ns :
  query_count (recorded r took t ns) = u64 (query_count ns + 1) ∧
  success_count (recorded r took t ns) =
    if good r then u64 (success_count ns + 1) else success_count ns.
Proof. unfold recorded. destruct (good r); [done|]. by destruct (busy r). Qed.

(** A history of lookups of one server, each with its network. *)
Fixpoint run_lookups (l : list (Z * (nat → attempt))) (ns : NameServer)
  : list (result DnsResponse LookupError * nat) * NameServer :=
  match l with
  | [] => ([], ns)
  | (now, net) :: l' =>
      let '(r, ns', sends) := ns_lookup now net ns in
      let '(rs, ns'') := run_lookups l' ns' in
      ((r, sends) :: rs, ns'')
  end.

(** C24. Accounting of an upstream: over any history of lookups, each either is
    skipped, sending nothing and reporting that there is no connection, or sends
    at most three times; the queries counted are the lookups that were not
    skipped, and they are the successes plus the failures. *)
Theorem upstream_accounting (l : list (Z * (nat → attempt))) :
  let '(rs, ns) := run_lookups l ns_new in
  Forall (λ rn, snd rn ≤ 3 ∧ (snd rn = 0 → fst rn = Err (LE_Proto NoConnections))) rs ∧
  query_count ns = u64 (count_if (λ rn, negb (snd rn =? 0)) rs) ∧
  success_count ns = u64 (count_if (λ rn, negb (snd rn =? 0) && good (fst rn)) rs) ∧
  query_count ns = u64 (success_count ns + failure_count ns).
Proof.
  assert (Hgen : ∀ l ns, consistent ns → let '(rs, ns') := run_lookups l ns in
    Forall (λ rn, snd rn ≤ 3 ∧ (snd rn = 0 → fst rn = Err (LE_Proto NoConnections))) rs ∧
    (query_count ns = u64 (query_count ns) → success_count ns = u64 (success_count ns) →
     query_count ns' = u64 (query_count ns + count_if (λ rn, negb (snd rn =? 0)) rs) ∧
     success_count ns' = u64 (success_count ns + count_if (λ rn, negb (snd rn =? 0) && good (fst rn)) rs)) ∧
    consistent ns').
  { clear l. induction l as [|[now net] l IH]; intros ns Hc; simpl.
    { split_and!; [constructor| |done]. intros E1 E2. unfold count_if, sumZ. simpl.
      rewrite !Z.add_0_r. done. }
    pose proof (ns_lookup_spec now net ns) as Hs.
    destruct (ns_lookup now net ns) as [[r ns1] sends].
    assert (Hc1 : consistent ns1).
    { destruct (in_cooldown now ns); [by destruct Hs as (_ & -> & _)|].
      destruct Hs as (_ & t & ->). by apply recorded_consistent. }
    specialize (IH ns1 Hc1). destruct (run_lookups l ns1) as [rs ns2].
    destruct IH as (IH1 & IH2 & IH3).
    assert (Hu : ∀ a b, u64 (u64 (a + 1) + b) = u64 (a + (1 + b))%Z).
    { intros a b. rewrite u64_add_l. f_equal. lia. }
    assert (Hi : ∀ a, u64 a = u64 (u64 a)).
    { intros a. pose proof (u64_add_l a 0) as E. by rewrite !Z.add_0_r in E. }
    split_and!; [| |done].
    - constructor; [|done]. simpl. destruct (in_cooldown now ns).
      + destruct Hs as (-> & _ & ->). split; [lia|done].
      + destruct Hs as (Hs & _). split; [lia|]. intros ->. lia.
    - intros E1 E2. rewrite !count_if_cons. simpl. destruct (in_cooldown now ns).
      + destruct Hs as (-> & -> & ->). simpl. by apply IH2.
      + destruct Hs as (Hs & t & ->). rewrite (proj2 (Nat.eqb_neq sends 0)) by lia. simpl.
        destruct (recorded_counts r (t - now) t ns) as [Eq Es]. rewrite Eq, Es in IH2.
        destruct IH2 as [-> ->]; [apply Hi|destruct (good r); [apply Hi|done]|].
        rewrite Hu. split; [done|]. destruct (good r); simpl; [apply Hu|f_equal; lia]. }
  pose proof (Hgen l ns_new eq_refl) as Hl. destruct (run_lookups l ns_new) as [rs ns].
  destruct Hl as (H1 & H2 & H3). destruct (H2 eq_refl eq_refl) as [Eq Es].
  split_and!; [exact H1|exact Eq|exact Es|exact H3].
Qed.

(** A healthy server is never skipped: as long as every lookup brings an
    answer - records, an empty answer, or that the name does not exist - the
    circuit breaker stays closed, and every lookup is sent. *)
Theorem healthy_upstream_never_skipped (l : list (Z * (nat → attempt)))
    (Hgood : Forall (λ rn, snd rn = 0 ∨ good (fst rn) = true) (fst (run_lookups l ns_new))) :
  Forall (λ rn, snd rn ≠ 0) (fst (run_lookups l ns_new)).
Proof.
  assert (Hgen : ∀ l ns, fail_streak ns = 0%Z →
    Forall (λ rn, snd rn = 0 ∨ good (fst rn) = true) (fst (run_lookups l ns)) →
    Forall (λ rn, snd rn ≠ 0) (fst (run_lookups l ns))).
  { clear l Hgood. induction l as [|[now net] l IH]; intros ns Hf Hg; simpl in *; [constructor|].
    pose proof (ns_lookup_spec now net ns) as Hs.
    destruct (ns_lookup now net ns) as [[r ns1] sends].
    unfold in_cooldown in Hs. rewrite Hf in Hs. simpl in Hs. destruct Hs as (Hs & t & ->).
    destruct (run_lookups l _) as [rs ns2] eqn:E. simpl in *.
    inversion Hg as [|? ? H1 H2]; subst. simpl in *. constructor; [simpl; lia|].
    destruct H1 as [?|H1]; [lia|]. unfold recorded in E. rewrite H1 in E.
    specialize (IH (record_success_time (t - now) (record_success ns)) eq_refl). rewrite E in IH.
    by apply IH. }
  by apply Hgen.
Qed.

(** A lookup that is sent and fails, other than by a busy connection. *)
Definition fails_at (now t : Z) (net : nat → attempt) (ns : NameServer) : Prop :=
  let '(r, ns', sends) := ns_lookup now net ns in
  sends ≠ 0 ∧ good r = false ∧ busy r = false ∧ last_failure ns' = Some t.

(** C23. The circuit breaker: three failures in a row open it for thirty seconds
    after the last one, in which the server gets no query at all; then it is
    tried again. *)
Theorem breaker_trips (ns : NameServer) (now1 now2 now3 t1 t2 t3 : Z) (net1 net2 net3 : nat → attempt)
    (Hstreak : (0 ≤ fail_streak ns < 1000000)%Z)
    (H1 : fails_at now1 t1 net1 ns)
    (H2 : fails_at now2 t2 net2 (snd (fst (ns_lookup now1 net1 ns))))
    (H3 : fails_at now3 t3 net3 (snd (fst (ns_lookup now2 net2 (snd (fst (ns_lookup now1 net1 ns))))))) :
  let ns3 := snd (fst (ns_lookup now3 net3 (snd (fst (ns_lookup now2 net2
               (snd (fst (ns_lookup now1 net1 ns)))))))) in
  ∀ now net, let '(r, ns', sends) := ns_lookup now net ns3 in
    ((now - t3 < secs 30)%Z → sends = 0 ∧ r = Err (LE_Proto NoConnections) ∧ ns' = ns3) ∧
    ((secs 30 ≤ now - t3)%Z → 1 ≤ sends).
Proof.
  assert (Hone : ∀ now t net ns, (0 ≤ fail_streak ns < 2000000)%Z → fails_at now t net ns →
    let ns' := snd (fst (ns_lookup now net ns)) in
    fail_streak ns' = (fail_streak ns + 1)%Z ∧ last_failure ns' = Some t).
  { clear. intros now t net ns Hb Hf. unfold fails_at in Hf.
    pose proof (ns_lookup_spec now net ns) as Hs. destruct (ns_lookup now net ns) as [[r ns'] sends].
    destruct Hf as (H0 & Hg & Hb' & Hl). simpl. split; [|done].
    destruct (in_cooldown now ns); [by destruct Hs as (_ & _ & ->)|].
    destruct Hs as (_ & t' & ->). unfold recorded. rewrite Hg, Hb'. simpl.
    unfold u32. apply wrap_small. lia. }
  destruct (Hone now1 t1 net1 ns) as [E1 _]; [lia|done|].
  set (ns1 := snd (fst (ns_lookup now1 net1 ns))) in *.
  destruct (Hone now2 t2 net2 ns1) as [E2 _]; [lia|done|].
  set (ns2 := snd (fst (ns_lookup now2 net2 ns1))) in *.
  destruct (Hone now3 t3 net3 ns2) as [E3 L3]; [lia|done|].
  intros ns3 now net. fold ns3 in E3, L3.
  pose proof (ns_lookup_spec now net ns3) as Hs. destruct (ns_lookup now net ns3) as [[r ns'] sends].
  assert (Hc : in_cooldown now ns3 = (now - t3 <? secs 30)%Z).
  { unfold in_cooldown. rewrite (proj2 (Z.ltb_ge _ _)) by (unfold NS_FAIL_THRESHOLD; lia).
    by rewrite L3. }
  rewrite Hc in Hs. destruct (now - t3 <? secs 30)%Z eqn:E; zify_bool; split; intros; try lia.
  destruct Hs as (-> & -> & ->). done.
Qed.

Definition useful (r : result DnsResponse LookupError) : bool :=
  match r with Ok l => negb (bool_decide (records l = [])) | Err _ => false end.

Lemma first_useful_spec arrivals : ∀ received,
  arrivals ≠ [] →
  let r := first_useful received (received + length arrivals) arrivals in
  r ∈ arrivals ∧ (existsb useful arrivals = true → useful r = true).
Proof.
  induction arrivals as [|x rest IH]; intros received Hne; [done|].
  cbn [first_useful existsb]. fold (useful x). rewrite length_cons.
  destruct (useful x) eqn:Ex; [split; [by left|done]|]. cbn [orb].
  destruct rest as [|y rest].
  - rewrite (proj2 (Nat.eqb_eq _ _)) by (simpl; lia). split; [by left|done].
  - rewrite (proj2 (Nat.eqb_neq _ _)) by (rewrite length_cons; lia).
    destruct (IH (S received)) as [H1 H2]; [done|].
    replace (received + S (length (y :: rest))) with (S received + length (y :: rest)) by lia.
    split; [by right|exact H2].
Qed.

Lemma omap_permutation {A B} (g : A → option B) l1 l2 : l1 ≡ₚ l2 → omap g l1 ≡ₚ omap g l2.
Proof.
  induction 1 as [|x l1 l2 _ IH|x y l|l1 l2 l3 _ IH1 _ IH2]; simpl; [done| | |by rewrite IH1].
  - destruct (g x); by rewrite ?IH.
  - destruct (g x), (g y); try done. apply Permutation_swap.
Qed.

Lemma omap_S {B} (g : nat → option B) (ks : list nat) :
  omap g (S <$> ks) = omap (λ i, g (S i)) ks.
Proof. induction ks as [|i ks IH]; [done|]. csimpl. by rewrite IH. Qed.

Lemma omap_lookup_seq {A B} (f : A → B) (l : list A) :
  omap (λ i, f <$> l !! i) (seq 0 (length l)) = map f l.
Proof.
  induction l as [|x l IH]; [done|]. rewrite length_cons, <- cons_seq, <- fmap_S_seq. csimpl.
  by rewrite omap_S, <- IH.
Qed.

Lemma zip_with_elem {A B C} (f : A → B → C) l k c :
  c ∈ zip_with f l k → ∃ a b, c = f a b ∧ b ∈ k.
Proof.
  revert k. induction l as [|a l IH]; intros [|b k] Hc; try (by apply not_elem_of_nil in Hc).
  simpl in Hc. apply elem_of_cons in Hc as [->|Hc]; [exists a, b; split; [done|by left]|].
  destruct (IH k Hc) as (a' & b' & -> & ?). exists a', b'. split; [done|by right].
Qed.

Lemma allow_probe_length now servers : length (allow_probe_if_all_cooling now servers) = length servers.
Proof. unfold allow_probe_if_all_cooling. repeat case_if; rewrite ?length_map; done. Qed.

(** Probing closes every breaker of the group. *)
Lemma allow_probe_all now servers ns :
  servers ≠ [] → forallb (is_failing now) servers = true →
  (∀ ns d, ns ∈ servers → since_last_failure now ns = Some d → (NS_PROBE_INTERVAL ≤ d)%Z) →
  ns ∈ allow_probe_if_all_cooling now servers → in_cooldown now ns = false.
Proof.
  intros Hne Hall Hold. unfold allow_probe_if_all_cooling.
  rewrite bool_decide_eq_false_2, Hall by done. simpl.
  match goal with |- context [existsb ?p servers] => destruct (existsb p servers) eqn:E end.
  { apply existsb_exists in E as (ns0 & Hin%list_elem_of_In & Hlt).
    destruct (since_last_failure now ns0) as [d|] eqn:Ed; [|done].
    pose proof (Hold ns0 d Hin Ed). zify_bool. lia. }
  intros (ns0 & -> & _)%list_elem_of_fmap. done.
Qed.

(** C22. The lookup of a group: with the results of all its servers in any arrival
    order, the answer is one of them, and it has records as soon as one of them
    has; and a group is never locked out: when all its servers are cooling down
    and none has failed in the last five seconds, every one of them is asked. *)
Theorem group_lookup_correct (now : Z) (nets : list (nat → attempt)) (order : list nat)
    (servers : list NameServer)
    (Hnets : length nets = length servers) (Hne : servers ≠ [])
    (Horder : order ≡ₚ seq 0 (length servers)) :
  let asked := allow_probe_if_all_cooling now servers in
  let results := zip_with (ns_lookup now) nets asked in
  let r := fst (group_lookup now nets order servers) in
  (∃ o, o ∈ results ∧ r = fst (fst o)) ∧
  ((∃ o l, o ∈ results ∧ fst (fst o) = Ok l ∧ records l ≠ []) → ∃ l, r = Ok l ∧ records l ≠ []) ∧
  (forallb (is_failing now) servers = true →
   (∀ ns d, ns ∈ servers → since_last_failure now ns = Some d → (NS_PROBE_INTERVAL ≤ d)%Z) →
   ∀ o, o ∈ results → 1 ≤ snd o).
Proof.
  cbv zeta. set (asked := allow_probe_if_all_cooling now servers).
  set (results := zip_with (ns_lookup now) nets asked).
  assert (Hlen : length results = length servers).
  { unfold results, asked. rewrite length_zip_with, allow_probe_length. lia. }
  set (arrivals := omap (λ i, (λ o, fst (fst o)) <$> results !! i) order).
  assert (Hperm : arrivals ≡ₚ map (λ o, fst (fst o)) results).
  { unfold arrivals. rewrite (omap_permutation _ _ _ Horder), <- Hlen, omap_lookup_seq. done. }
  assert (Hal : length arrivals = length servers) by (by rewrite Hperm, length_map).
  assert (Hr : fst (group_lookup now nets order servers) = first_useful 0 (0 + length arrivals) arrivals).
  { unfold group_lookup. rewrite bool_decide_eq_false_2 by done. cbn [fst].
    fold asked. fold results. fold arrivals. rewrite Hal. simpl. unfold asked.
    by rewrite allow_probe_length. }
  rewrite Hr. destruct (first_useful_spec arrivals 0) as [Hin Huse].
  { intros E. rewrite E in Hal. by destruct servers. }
  split_and!.
  - remember (first_useful 0 (0 + length arrivals) arrivals) as r eqn:Er. clear Er Huse Hr.
    rewrite Hperm in Hin. apply list_elem_of_fmap in Hin as (o & -> & Ho). eauto.
  - intros (o & l & Ho & El & Hl).
    assert (Hu : useful (first_useful 0 (0 + length arrivals) arrivals) = true).
    { apply Huse, existsb_exists. exists (fst (fst o)). split.
      - apply list_elem_of_In. rewrite Hperm. apply list_elem_of_fmap. eauto.
      - rewrite El. unfold useful. by rewrite bool_decide_eq_false_2. }
    unfold useful in Hu. destruct (first_useful _ _ _) as [l'|]; [|done]. exists l'. split; [done|].
    intros E. by rewrite bool_decide_eq_true_2 in Hu.
  - intros Hfail Hold o Ho. apply zip_with_elem in Ho as (net & ns & -> & Hns).
    pose proof (ns_lookup_spec now net ns) as Hs.
    rewrite (allow_probe_all now servers ns Hne Hfail Hold Hns) in Hs.
    destruct (ns_lookup now net ns) as [[r ns'] sends]. simpl. lia.
Qed.

(** ** Concrete upstreams *)

Definition demo_response (c : ResponseCode) (rs : list Record_) : DnsResponse :=
  {| queries := []; response_code := c; answers := rs; authorities := []; valid_until := 0;
     name_server_group := None; from_cache := false |}.
Definition dead (t : Z) (_ : nat) : attempt :=
  {| at_start := t; at_took := secs 60; at_answer := Err Timeout |}.
Definition nxdomain (t : Z) (_ : nat) : attempt :=
  {| at_start := t; at_took := millis 20; at_answer := Err (NoRecordsFound NXDomain None) |}.
Definition alive (t : Z) (_ : nat) : attempt :=
  {| at_start := t; at_took := millis 20;
     at_answer := Ok (demo_response NoError
       [{| r_name := "a."; r_class := 1; r_ttl := 60; r_data := RD_A 167772161 |}]) |}.

(** Five names in a row that do not exist: all five are asked. *)
Lemma healthy_upstream_witness :
  Forall (λ rn, snd rn ≠ 0)
    (fst (run_lookups (replicate 5 (0%Z, nxdomain 0)) ns_new)).
Proof.
  apply (healthy_upstream_never_skipped (replicate 5 (0%Z, nxdomain 0))).
  vm_compute. repeat constructor; right; reflexivity.
Defined.

Lemma breaker_trips_witness :
  let ns3 := snd (run_lookups [(0%Z, dead 0); (secs 3, dead (secs 3)); (secs 6, dead (secs 6))] ns_new) in
  snd (ns_lookup (secs 30) (alive (secs 30)) ns3) = 0 ∧
  1 ≤ snd (ns_lookup (secs 40) (alive (secs 40)) ns3).
Proof.
  pose proof (breaker_trips ns_new 0 (secs 3) (secs 6) (secs 3) (secs 6) (secs 9)
    (dead 0) (dead (secs 3)) (dead (secs 6))) as Hb.
  specialize (Hb ltac:(simpl; lia) ltac:(vm_compute; repeat split; discriminate)
    ltac:(vm_compute; repeat split; discriminate) ltac:(vm_compute; repeat split; discriminate)).
  split.
  - pose proof (Hb (secs 30) (alive (secs 30))) as [Hs _]. apply Hs. vm_compute. reflexivity.
  - pose proof (Hb (secs 40) (alive (secs 40))) as [_ Hs]. apply Hs. vm_compute. discriminate.
Defined.

Lemma group_lookup_witness :
  ∃ l, fst (group_lookup 0 [dead 0; alive 0; nxdomain 0] [2; 1; 0] [ns_new; ns_new; ns_new]) = Ok l ∧
       records l ≠ [].
Proof.
  apply (group_lookup_correct 0 [dead 0; alive 0; nxdomain 0] [2; 1; 0] [ns_new; ns_new; ns_new]
    eq_refl); [discriminate|apply (Permutation_rev [2; 1; 0])|].
  eexists _, _. split; [right; left|]. split; [vm_compute; reflexivity|]. discriminate.
Defined.
