(* ===== verification/DomainMap.v ===== *)
(** * Domain names with wildcards and the maps keyed by them

    [WildcardName] (src/config/domain.rs) and [DomainMap] and [DomainSet]
    (src/collections.rs), which find the rule that applies to a name.

    Names, patterns and hashes come from libraries and are arguments: hickory's
    [Name], the [wildcard] crate's matching, and the 64-bit hash of the standard
    library that the maps use as keys.  The names of the model are in lower case,
    where hickory's case-sensitive and case-insensitive comparisons agree. *)

From S2P Require Import Prelude.

(** ** hickory's names *)

Class NameOps (Name : Type) := {
  name_eq_dec :: EqDecision Name;
  labels : Name → list string;
  is_fqdn : Name → bool;
  set_fqdn : bool → Name → Name;
  base_name : Name → Name;
  is_root : Name → bool;
  is_wildcard : Name → bool;
  zone_of : Name → Name → bool;
  eq_ignore_root_case : Name → Name → bool;
  name_cmp : Name → Name → comparison;
}.

(** A name is its labels and whether it is fully qualified. *)
Class NameLaws (Name : Type) `{!NameOps Name} := {
  name_ext a b : labels a = labels b → is_fqdn a = is_fqdn b → a = b;
  labels_set_fqdn b n : labels (set_fqdn b n) = labels n;
  is_fqdn_set_fqdn b n : is_fqdn (set_fqdn b n) = b;
  labels_base_name n : labels (base_name n) = tail (labels n);
  is_fqdn_base_name n : is_fqdn n = true → is_fqdn (base_name n) = true;
  is_root_spec n : is_root n = true ↔ labels n = [] ∧ is_fqdn n = true;
  is_wildcard_spec n : is_wildcard n = true ↔ head (labels n) = Some "*";
  zone_of_spec a b : zone_of a b = true ↔ labels a `suffix_of` labels b;
  eq_ignore_root_case_spec a b : eq_ignore_root_case a b = true ↔ labels a = labels b;
  name_cmp_eq a b : name_cmp a b = Eq → a = b;
  name_cmp_ancestor a b :
    is_fqdn a = is_fqdn b → labels a `suffix_of` labels b → labels a ≠ labels b → name_cmp a b = Lt;
  name_cmp_opp a b : name_cmp b a = CompOpp (name_cmp a b);
  name_cmp_trans a b c : name_cmp a b = Lt → name_cmp b c = Lt → name_cmp a c = Lt;
}.

(** ** Patterns of one label *)

Class Glob := { glob : string → string → bool }.

(** [Wildcard]: a pattern of the [wildcard] crate, the empty one for [*]. *)
Record Wildcard := { pattern : string }.

#[export] Instance Wildcard_eq_dec : EqDecision Wildcard.
Proof. solve_decision. Defined.

Definition wildcard_default : Wildcard := {| pattern := "" |}.

Definition wildcard_is_match `{Glob} (w : Wildcard) (input : string) : bool :=
  if bool_decide (pattern w = "") then true else glob (pattern w) input.

Definition wildcard_display (w : Wildcard) : string :=
  if bool_decide (pattern w = "") then "*" else pattern w.

(** ** Names with wildcards *)

Inductive WildcardName (Name : Type) :=
| Default (n : Name)
| Suffix (n : Name)
| Sub (w : Wildcard) (n : Name)
| Full (n : Name).
Arguments Default {Name} n.
Arguments Suffix {Name} n.
Arguments Sub {Name} w n.
Arguments Full {Name} n.

#[export] Instance WildcardName_eq_dec {Name} `{EqDecision Name} : EqDecision (WildcardName Name).
Proof. solve_decision. Defined.

(** The [DefaultHasher] of the standard library: 64 bits. *)
Class HashCode (Name : Type) := {
  hash_name : Name → Z;
  hash_wildcard : WildcardName Name → Z;
  hash_name_range n : in_u64 (hash_name n);
  hash_wildcard_range w : in_u64 (hash_wildcard w);
}.

Section wildcard_name.
Context {Name : Type} `{!NameOps Name, !Glob}.

(** [Deref] and [From<WildcardName> for Name] *)
Definition deref (w : WildcardName Name) : Name :=
  match w with Default n | Suffix n | Sub _ n | Full n => n end.

(** [DerefMut], as a function on the name. *)
Definition deref_mut (f : Name → Name) (w : WildcardName Name) : WildcardName Name :=
  match w with
  | Default n => Default (f n)
  | Suffix n => Suffix (f n)
  | Sub w n => Sub w (f n)
  | Full n => Full (f n)
  end.

Definition is_match (self : WildcardName Name) (name : Name) : bool :=
  match self with
  | Default n => zone_of n name
  | Suffix n => negb (eq_ignore_root_case n name) && zone_of n name
  | Sub w n =>
      eq_ignore_root_case n (base_name name) &&
      match head (labels name) with Some x => wildcard_is_match w x | None => true end
  | Full n => eq_ignore_root_case n name
  end.

Definition is_sub (w : WildcardName Name) : bool :=
  match w with Sub _ _ => true | _ => false end.

(** The rank of the kinds in [Ord for WildcardName]. *)
Definition kind_ord (w : WildcardName Name) : nat :=
  match w with Default _ => 3 | Suffix _ => 2 | Sub _ _ => 1 | Full _ => 0 end.

Definition wildcard_cmp (a b : WildcardName Name) : comparison :=
  match name_cmp (deref a) (deref b) with
  | Lt => Lt
  | Gt => Gt
  | Eq => kind_ord a ?= kind_ord b
  end.

(** [From<Name> for WildcardName] *)
Definition wildcard_of_name (value : Name) : WildcardName Name :=
  if is_wildcard value then Sub wildcard_default (base_name value) else Default value.
End wildcard_name.

(** ** Maps *)

Record DomainMap (Name T : Type) := {
  map_ : gmap Z T;
  wildcards : gmap Z (list (WildcardName Name));
}.
Arguments map_ {Name T}.
Arguments wildcards {Name T}.

(** [Option::or_else] *)
Definition or_else {A} (a b : option A) : option A :=
  match a with Some x => Some x | None => b end.

Section domain_map.
Context {Name : Type} `{!NameOps Name, !Glob, !HashCode Name} {T : Type}.
Implicit Types m : DomainMap Name T.

Definition dm_new : DomainMap Name T := {| map_ := ∅; wildcards := ∅ |}.
Definition dm_len m : nat := size (map_ m).
Definition dm_is_empty m : bool := bool_decide (map_ m = ∅).

(** The patterns of one parent name, in order. *)
Fixpoint find_sub m (last : Name) (ws : list (WildcardName Name)) : option T :=
  match ws with
  | [] => None
  | w :: ws' =>
      if is_match w last then or_else (map_ m !! hash_wildcard w) (find_sub m last ws')
      else find_sub m last ws'
  end.

(** One turn of the loop of [find], up to the steps to the next name. *)
Definition find_level m (lvl : nat) (last name : Name) : option T :=
  or_else (if lvl =? 0 then map_ m !! hash_wildcard (Full name) else None)
  (or_else (if lvl =? 1 then find_sub m last (default [] (wildcards m !! hash_name name)) else None)
  (or_else (if 1 <=? lvl then map_ m !! hash_wildcard (Suffix name) else None)
           (map_ m !! hash_wildcard (Default name)))).

Fixpoint find_loop (fuel : nat) m (lvl : nat) (last name : Name) : option T :=
  match fuel with
  | 0 => None
  | S fuel' =>
      or_else (find_level m lvl last name)
        (if negb (is_fqdn name) then find_loop fuel' m lvl last (set_fqdn true name)
         else if is_root name then None
         else find_loop fuel' m (S lvl) name (base_name name))
  end.

(** A turn for every label, one for the root and one for a name that is not
    fully qualified. *)
Definition find m (name : Name) : option T :=
  if bool_decide (map_ m = ∅) then None
  else
    let name := if is_wildcard name then base_name name else name in
    find_loop (length (labels name) + 2) m 0 name name.

Definition dm_contains m (domain : Name) : bool := bool_decide (is_Some (find m domain)).

Definition push_wildcard (name : WildcardName Name) (ws : gmap Z (list (WildcardName Name)))
  : gmap Z (list (WildcardName Name)) :=
  if is_sub name
  then <[hash_name (deref name) := default [] (ws !! hash_name (deref name)) ++ [name]]> ws
  else ws.

Definition dm_insert (name : WildcardName Name) (value : T) m : option T * DomainMap Name T :=
  let name := deref_mut (set_fqdn true) name in
  let k := hash_wildcard name in
  (map_ m !! k, {| map_ := <[k := value]> (map_ m); wildcards := push_wildcard name (wildcards m) |}).

Definition dm_remove (name : WildcardName Name) m : option T * DomainMap Name T :=
  let k := hash_wildcard name in
  let ws :=
    if is_sub name
    then <[hash_name (deref name) :=
             filter (λ n, n ≠ name) (default [] (wildcards m !! hash_name (deref name)))]> (wildcards m)
    else wildcards m in
  (map_ m !! k, {| map_ := delete k (map_ m); wildcards := ws |}).

(** [FromIterator]: the names as they are. *)
Definition dm_from_iter (items : list (WildcardName Name * T)) : DomainMap Name T :=
  foldl (λ m '(n, v), {| map_ := <[hash_wildcard n := v]> (map_ m);
                         wildcards := push_wildcard n (wildcards m) |}) dm_new items.

(** The map of a sequence of insertions. *)
Definition insert_all (rs : list (WildcardName Name * T)) : DomainMap Name T :=
  foldl (λ m '(w, v), snd (dm_insert w v m)) dm_new rs.
End domain_map.

(** [DomainSet] is a [DomainMap] to the unit type. *)
Section domain_set.
Context {Name : Type} `{!NameOps Name, !Glob, !HashCode Name}.

Definition DomainSet := DomainMap Name unit.
Definition ds_contains (s : DomainSet) (domain : Name) : bool := dm_contains s domain.
Definition ds_insert (domain : WildcardName Name) (s : DomainSet) : bool * DomainSet :=
  let '(old, s') := dm_insert domain tt s in (bool_decide (old = None), s').
Definition ds_remove (domain : WildcardName Name) (s : DomainSet) : bool * DomainSet :=
  let '(old, s') := dm_remove domain s in (bool_decide (is_Some old), s').
Definition ds_from_iter (items : list (WildcardName Name)) : DomainSet :=
  dm_from_iter (map (λ n, (n, tt)) items).
End domain_set.

(** ** Lemmas *)

Section facts.
Context {Name : Type} `{!NameOps Name, !NameLaws Name, !Glob, !HashCode Name} {T : Type}.
Implicit Types (m : DomainMap Name T) (rs : list (WildcardName Name * T)) (w c : WildcardName Name).

(** A rule as [insert] stores it, and the rules of a sequence of insertions. *)
Definition normal w : WildcardName Name := deref_mut (set_fqdn true) w.
Definition stored rs : list (WildcardName Name) := map (λ r, normal (fst r)) rs.

(** The last value given to a stored name. *)
Definition assigned rs c : option T :=
  foldl (λ acc '(w, v), if bool_decide (normal w = c) then Some v else acc) None rs.

(** The hashes tell the rules apart from each other and from what a lookup of
    [name] asks for. *)
Definition collision_free (ws : list (WildcardName Name)) (name : Name) : Prop :=
  (∀ w c, w ∈ ws → c ∈ ws ∨ is_sub c = false ∧ labels (deref c) `suffix_of` labels name →
     hash_wildcard w = hash_wildcard c → w = c) ∧
  (∀ w n, w ∈ ws → labels n `suffix_of` labels name →
     hash_name (deref w) = hash_name n → deref w = n).

Definition at_least_as_specific w w' : Prop :=
  length (labels (deref w')) < length (labels (deref w)) ∨
  length (labels (deref w')) = length (labels (deref w)) ∧ kind_ord w ≤ kind_ord w'.

Lemma is_match_labels w a b : labels a = labels b → is_match w a = is_match w b.
Proof.
  intros E. assert (Hz : ∀ n, zone_of n a = zone_of n b).
  { intros. apply eq_true_iff_eq. by rewrite !zone_of_spec, E. }
  assert (He : ∀ n, eq_ignore_root_case n a = eq_ignore_root_case n b).
  { intros. apply eq_true_iff_eq. by rewrite !eq_ignore_root_case_spec, E. }
  assert (Hb : ∀ n, eq_ignore_root_case n (base_name a) = eq_ignore_root_case n (base_name b)).
  { intros. apply eq_true_iff_eq. by rewrite !eq_ignore_root_case_spec, !labels_base_name, E. }
  destruct w; simpl; by rewrite ?Hz, ?He, ?Hb, ?E.
Qed.

Lemma normal_labels w : labels (deref (normal w)) = labels (deref w).
Proof. destruct w; simpl; apply labels_set_fqdn. Qed.

Lemma normal_kind w : kind_ord (normal w) = kind_ord w.
Proof. by destruct w. Qed.

Lemma normal_fqdn w : is_fqdn (deref (normal w)) = true.
Proof. destruct w; simpl; apply is_fqdn_set_fqdn. Qed.

Lemma normal_match w n : is_match (normal w) n = is_match w n.
Proof.
  apply eq_true_iff_eq. destruct w; simpl;
    rewrite ?andb_true_iff, ?negb_true_iff, <- ?not_true_iff_false,
      ?zone_of_spec, ?eq_ignore_root_case_spec, ?labels_set_fqdn; done.
Qed.

Lemma stored_fqdn rs w : w ∈ stored rs → is_fqdn (deref w) = true.
Proof. intros (r & -> & _)%list_elem_of_fmap. apply normal_fqdn. Qed.

Lemma insert_all_snoc rs w v : insert_all (rs ++ [(w, v)]) = snd (dm_insert w v (insert_all rs)).
Proof. unfold insert_all. by rewrite foldl_snoc. Qed.

Lemma assigned_snoc rs w v c :
  assigned (rs ++ [(w, v)]) c = if bool_decide (normal w = c) then Some v else assigned rs c.
Proof. unfold assigned. by rewrite foldl_snoc. Qed.

Lemma assigned_stored rs c : is_Some (assigned rs c) ↔ c ∈ stored rs.
Proof.
  induction rs as [|[w v] rs IH] using rev_ind.
  { unfold assigned, stored. simpl. split; [by intros []|by intros ?%not_elem_of_nil]. }
  rewrite assigned_snoc. unfold stored in *. rewrite map_app, elem_of_app, <- IH. simpl.
  rewrite list_elem_of_singleton. case_bool_decide; naive_solver.
Qed.

Lemma map_insert_all rs c :
  (∀ w, w ∈ stored rs → hash_wildcard w = hash_wildcard c → w = c) →
  map_ (insert_all rs) !! hash_wildcard c = assigned rs c.
Proof.
  induction rs as [|[w v] rs IH] using rev_ind; intros Hinj; [done|].
  rewrite insert_all_snoc, assigned_snoc. simpl. fold (normal w).
  unfold stored in Hinj. rewrite map_app in Hinj. simpl in Hinj. case_bool_decide as E.
  - subst. by rewrite lookup_insert_eq.
  - rewrite lookup_insert_ne; [apply IH; set_solver|]. intros Hh. apply E, Hinj; set_solver.
Qed.

Lemma wildcards_insert_all rs n :
  (∀ w, w ∈ stored rs → hash_name (deref w) = hash_name n → deref w = n) →
  default [] (wildcards (insert_all rs) !! hash_name n)
  = filter (λ w, is_sub w = true ∧ deref w = n) (stored rs).
Proof.
  induction rs as [|[w v] rs IH] using rev_ind; intros Hinj; [done|].
  rewrite insert_all_snoc. unfold stored in *. rewrite map_app, filter_app in *. simpl in *.
  fold (normal w) in *. rewrite <- IH by set_solver. unfold push_wildcard.
  destruct (is_sub (normal w)) eqn:Es.
  - destruct (decide (deref (normal w) = n)) as [E|E].
    + rewrite E, lookup_insert_eq. simpl. by rewrite filter_cons_True by done.
    + rewrite lookup_insert_ne by (intros Hh; apply E, Hinj; set_solver).
      rewrite filter_cons_False by naive_solver. by rewrite app_nil_r.
  - rewrite filter_cons_False by (rewrite Es; naive_solver). by rewrite app_nil_r.
Qed.

Lemma find_sub_spec m last ws :
  (∀ w, w ∈ ws → is_Some (map_ m !! hash_wildcard w)) →
  match find_sub m last ws with
  | Some v => ∃ w, w ∈ ws ∧ is_match w last = true ∧ map_ m !! hash_wildcard w = Some v
  | None => ∀ w, w ∈ ws → is_match w last = false
  end.
Proof.
  induction ws as [|w ws IH]; intros Hsome; simpl; [by intros ? ?%not_elem_of_nil|].
  destruct (is_match w last) eqn:Em.
  - destruct (Hsome w) as [v Hv]; [set_solver|]. rewrite Hv. simpl. exists w. set_solver.
  - specialize (IH ltac:(set_solver)). destruct (find_sub m last ws); set_solver.
Qed.

(** What a search from the name [lvl] labels up finds, for the name [orig]. *)
Definition best rs (orig : Name) (within : list string → Prop) (r : option T) : Prop :=
  match r with
  | Some v => ∃ w, assigned rs w = Some v ∧ is_match w orig = true ∧ within (labels (deref w)) ∧
      ∀ w', w' ∈ stored rs → is_match w' orig = true → within (labels (deref w')) →
        at_least_as_specific w w'
  | None => ∀ w', w' ∈ stored rs → within (labels (deref w')) → is_match w' orig = false
  end.

Section search.
Context rs (orig : Name) (Hhash : collision_free (stored rs) orig) (Hne : labels orig ≠ []).

Lemma plain_lookup c :
  is_sub c = false → labels (deref c) `suffix_of` labels orig →
  map_ (insert_all rs) !! hash_wildcard c = assigned rs c.
Proof. intros Hs Hl. apply map_insert_all. intros w Hw. apply (proj1 Hhash); auto. Qed.

Lemma drop_suffix {A} k (l : list A) : drop k l `suffix_of` l.
Proof. exists (take k l). by rewrite take_drop. Qed.

Lemma not_qualified_none c :
  is_sub c = false → labels (deref c) `suffix_of` labels orig → is_fqdn (deref c) = false →
  map_ (insert_all rs) !! hash_wildcard c = None.
Proof.
  intros Hs Hl Hf. rewrite plain_lookup by done. apply eq_None_not_Some.
  rewrite assigned_stored. intros Hin%stored_fqdn. congruence.
Qed.

(** Which kinds of rules for the name [lvl] labels up match. *)
Lemma match_at lvl name w :
  lvl ≤ length (labels orig) → labels name = drop lvl (labels orig) → deref w = name →
  is_match w orig = true →
  match w with Full _ => lvl = 0 | Sub _ _ => lvl = 1 | Suffix _ => 1 ≤ lvl | Default _ => True end.
Proof.
  intros Hl En Ew Hm. destruct w; simpl in Hm, Ew; subst n;
    rewrite ?andb_true_iff, ?negb_true_iff, <- ?not_true_iff_false,
      ?eq_ignore_root_case_spec, ?labels_base_name, ?zone_of_spec in Hm; [done|..].
  - destruct Hm as [Hm _]. destruct lvl; [|lia]. by rewrite drop_0 in En.
  - destruct Hm as [Hm _]. rewrite En in Hm. apply (f_equal length) in Hm.
    rewrite length_drop in Hm. destruct (labels orig); simpl in *; [done|]. lia.
  - rewrite En in Hm. apply (f_equal length) in Hm. rewrite length_drop in Hm.
    destruct (labels orig); simpl in *; [done|]. lia.
Qed.

Lemma matches_up lvl name :
  lvl ≤ length (labels orig) → labels name = drop lvl (labels orig) →
  is_match (Default name) orig = true ∧ (lvl = 0 → is_match (Full name) orig = true) ∧
  (1 ≤ lvl → is_match (Suffix name) orig = true).
Proof.
  intros Hl En. simpl. rewrite andb_true_iff, negb_true_iff, <- not_true_iff_false,
    !zone_of_spec, !eq_ignore_root_case_spec, En.
  split_and!; try apply drop_suffix; [by intros ->|]. intros. split; [|apply drop_suffix].
  intros E%(f_equal length). rewrite length_drop in E. lia.
Qed.

Lemma at_name name w :
  is_fqdn name = true → w ∈ stored rs → labels (deref w) = labels name → deref w = name.
Proof. intros Hf Hw E. apply name_ext; [done|]. by rewrite (stored_fqdn _ _ Hw). Qed.

(** A step of [find_level]: either the candidate is a rule and the answer, or it
    is not a rule and the search goes on. *)
Lemma best_step name c rest :
  is_fqdn name = true → labels name `suffix_of` labels orig → deref c = name → is_sub c = false →
  is_match c orig = true →
  (∀ w, w ∈ stored rs → deref w = name → is_match w orig = true → kind_ord c ≤ kind_ord w) →
  (c ∉ stored rs → best rs orig (λ l, l = labels name) rest) →
  best rs orig (λ l, l = labels name) (or_else (map_ (insert_all rs) !! hash_wildcard c) rest).
Proof.
  intros Hf Hsuf <- Hsub Hm Hmin Hrest. rewrite plain_lookup by done.
  destruct (assigned rs c) as [v|] eqn:Ea; simpl.
  - exists c. split_and!; try done. intros w' Hw' Hm' El. right. split; [by rewrite El|].
    apply Hmin; auto. by apply at_name.
  - apply Hrest. rewrite <- assigned_stored, Ea. by intros [].
Qed.

Lemma best_sub_step name last rest :
  is_fqdn name = true → labels name `suffix_of` labels orig → labels last = labels orig →
  (∀ w, w ∈ stored rs → deref w = name → is_match w orig = true → 1 ≤ kind_ord w) →
  ((∀ w, w ∈ stored rs → deref w = name → is_sub w = true → is_match w orig = false) →
   best rs orig (λ l, l = labels name) rest) →
  best rs orig (λ l, l = labels name)
    (or_else (find_sub (insert_all rs) last (default [] (wildcards (insert_all rs) !! hash_name name))) rest).
Proof.
  intros Hf Hsuf Hlast Hmin Hrest.
  rewrite wildcards_insert_all by (intros; by apply (proj2 Hhash)).
  assert (Hlk : ∀ w, w ∈ stored rs → map_ (insert_all rs) !! hash_wildcard w = assigned rs w).
  { intros w Hw. apply map_insert_all. intros w' Hw'. apply (proj1 Hhash); auto. }
  assert (Hsp := find_sub_spec (insert_all rs) last
    (filter (λ w, is_sub w = true ∧ deref w = name) (stored rs))).
  destruct (find_sub _ _ _) as [v|]; simpl.
  - destruct Hsp as (w & ((Hs & <-) & Hw)%list_elem_of_filter & Hm & Hv).
    { intros w (_ & Hw)%list_elem_of_filter. rewrite Hlk by done. by apply assigned_stored. }
    rewrite Hlk in Hv by done. rewrite (is_match_labels w last orig Hlast) in Hm.
    exists w. split_and!; try done. intros w' Hw' Hm' El. right. split; [by rewrite El|].
    destruct w; try done. apply (Hmin w'); auto. by apply at_name.
  - apply Hrest. intros w Hw Hd Hs. rewrite <- (is_match_labels w last orig Hlast). apply Hsp.
    + intros w' (_ & Hw')%list_elem_of_filter. rewrite Hlk by done. by apply assigned_stored.
    + by apply list_elem_of_filter.
Qed.

Lemma best_default name :
  is_fqdn name = true → labels name `suffix_of` labels orig → is_match (Default name) orig = true →
  (∀ w, w ∈ stored rs → deref w = name → is_match w orig = true → kind_ord w = 3) →
  best rs orig (λ l, l = labels name) (map_ (insert_all rs) !! hash_wildcard (Default name)).
Proof.
  intros Hf Hsuf Hm Hall.
  replace (map_ _ !! _) with (or_else (map_ (insert_all rs) !! hash_wildcard (Default name)) None)
    by (by destruct (_ !! _)).
  apply best_step; auto. { intros w Hw Hd Hmw. by rewrite (Hall w). }
  intros Hn w' Hw' El. destruct (is_match w' orig) eqn:Em; [|done]. exfalso. apply Hn.
  assert (Hd := at_name _ _ Hf Hw' El). specialize (Hall w' Hw' Hd Em).
  destruct w'; simpl in *; try done. by subst.
Qed.

Lemma find_level_best lvl last name :
  lvl ≤ length (labels orig) → labels name = drop lvl (labels orig) → is_fqdn name = true →
  (lvl = 1 → labels last = labels orig) →
  best rs orig (λ l, l = labels name) (find_level (insert_all rs) lvl last name).
Proof.
  intros Hl En Hf Hlast. assert (Hsuf : labels name `suffix_of` labels orig).
  { rewrite En. apply drop_suffix. }
  destruct (matches_up lvl name Hl En) as (HD & HF & HS).
  assert (Hat := λ w, match_at lvl name w Hl En). unfold find_level.
  destruct lvl as [|[|lvl]]; simpl.
  - apply best_step; auto; simpl; [lia|]. intros Hn. apply best_default; auto.
    intros w Hw Hd Hm. specialize (Hat w Hd Hm).
    destruct w; simpl in *; try lia. by subst.
  - apply best_sub_step; auto.
    { intros w Hw Hd Hm. specialize (Hat w Hd Hm). destruct w; simpl in *; lia. }
    intros Hns. apply best_step; auto; simpl.
    { intros w Hw Hd Hm. specialize (Hns w Hw Hd). specialize (Hat w Hd Hm).
      destruct w; simpl in *; try lia. rewrite Hns in Hm; done. }
    intros Hn. apply best_default; auto. intros w Hw Hd Hm.
    specialize (Hns w Hw Hd). specialize (Hat w Hd Hm).
    destruct w; simpl in *; subst; try done; [rewrite Hns in Hm; done].
  - apply best_step; auto; simpl; [apply HS; lia| |].
    { intros w Hw Hd Hm. specialize (Hat w Hd Hm). destruct w; simpl in *; lia. }
    intros Hn. apply best_default; auto. intros w Hw Hd Hm. specialize (Hat w Hd Hm).
    destruct w; simpl in *; subst; try done; lia.
Qed.

Lemma suffix_of_cons {A} (l l0 : list A) x :
  l `suffix_of` x :: l0 ↔ l = x :: l0 ∨ l `suffix_of` l0.
Proof.
  destruct l as [|y l]; [split; [right|intros _]; apply suffix_nil|].
  split; [apply suffix_cons_inv|]. intros [->|]; [done|by apply suffix_cons_r].
Qed.

Lemma best_or_else x l0 a b :
  best rs orig (λ l, l = x :: l0) a → best rs orig (λ l, l `suffix_of` l0) b →
  best rs orig (λ l, l `suffix_of` x :: l0) (or_else a b).
Proof.
  intros Ha Hb. destruct a as [v|]; simpl in *.
  - destruct Ha as (w & Hv & Hm & El & Hmin). exists w. rewrite suffix_of_cons.
    split_and!; auto. intros w' Hw' Hm' [E|E]%suffix_of_cons; [by apply Hmin|].
    left. rewrite El. simpl. apply suffix_length in E. lia.
  - destruct b as [v|]; simpl in *.
    + destruct Hb as (w & Hv & Hm & El & Hmin). exists w. rewrite suffix_of_cons.
      split_and!; auto. intros w' Hw' Hm' [E|E]%suffix_of_cons; [|by apply Hmin].
      rewrite (Ha w' Hw' E) in Hm'. done.
    + intros w' Hw' [E|E]%suffix_of_cons; auto.
Qed.

Lemma find_loop_best fuel lvl last name :
  length (labels name) < fuel → lvl ≤ length (labels orig) →
  labels name = drop lvl (labels orig) → is_fqdn name = true →
  (lvl = 1 → labels last = labels orig) →
  best rs orig (λ l, l `suffix_of` labels name) (find_loop fuel (insert_all rs) lvl last name).
Proof.
  revert lvl last name. induction fuel as [|fuel IH]; intros lvl last name Hfuel Hl En Hf Hlast; [lia|].
  simpl. rewrite Hf. simpl. assert (Hb := find_level_best lvl last name Hl En Hf Hlast).
  destruct (labels name) as [|x l0] eqn:Eln.
  - rewrite (proj2 (is_root_spec name)) by done.
    destruct (find_level _ _ _ _) as [v|]; simpl in *.
    + destruct Hb as (w & ? & ? & El & Hmin). exists w. rewrite El.
      split_and!; auto. intros w' Hw' Hm' E%suffix_nil_inv. by apply Hmin.
    + intros w' Hw' E%suffix_nil_inv. by apply Hb.
  - destruct (is_root name) eqn:Er; [apply is_root_spec in Er as [? ?]; congruence|].
    apply best_or_else; [done|].
    assert (Ebase : labels (base_name name) = drop (S lvl) (labels orig)).
    { rewrite labels_base_name, Eln, <- Nat.add_1_r, <- drop_drop, <- En. done. }
    assert (El0 : labels (base_name name) = l0) by (by rewrite labels_base_name, Eln).
    rewrite <- El0. apply IH; auto.
    + rewrite El0. simpl in Hfuel. lia.
    + apply (f_equal length) in En. rewrite length_drop in En. simpl in En. lia.
    + by apply is_fqdn_base_name.
    + intros [= ->]. by rewrite Eln, En, drop_0.
Qed.

Lemma find_best :
  is_wildcard orig = false → best rs orig (λ l, l `suffix_of` labels orig) (find (insert_all rs) orig).
Proof.
  intros Hw. unfold find. rewrite Hw. case_bool_decide as Hem.
  - intros w Hin. assert (Hlk : map_ (insert_all rs) !! hash_wildcard w = assigned rs w).
    { apply map_insert_all. intros w' Hw'. apply (proj1 Hhash); auto. }
    apply assigned_stored in Hin as [v Hv]. by rewrite Hem, Hv, lookup_empty in Hlk.
  - destruct (is_fqdn orig) eqn:Hf.
    + apply find_loop_best; rewrite ?drop_0; auto; lia.
    + replace (length (labels orig) + 2) with (S (length (labels orig) + 1)) by lia.
      cbn [find_loop]. unfold find_level. simpl. rewrite !not_qualified_none by done. simpl.
      rewrite Hf. simpl.
      assert (Hb := find_loop_best (length (labels orig) + 1) 0 orig (set_fqdn true orig)).
      rewrite labels_set_fqdn, is_fqdn_set_fqdn, drop_0 in Hb. apply Hb; auto; lia.
Qed.
End search.

(** A rule matches only names below its own. *)
Lemma match_suffix w name : labels name ≠ [] → is_match w name = true → labels (deref w) `suffix_of` labels name.
Proof.
  intros Hname. destruct w; simpl; rewrite ?andb_true_iff, ?zone_of_spec, ?eq_ignore_root_case_spec;
    [done|by intros []| |by intros ->].
  rewrite labels_base_name. intros [-> _]. destruct (labels name); [done|by apply suffix_cons_r].
Qed.

(** Later rules whose domain does not enclose a name do not change what is found
    for it. *)
Section later.
Context rs more (n : Name) (Hhash : collision_free (stored (rs ++ more)) n).
Hypothesis Hmore : ∀ w, w ∈ stored more → ¬ labels (deref w) `suffix_of` labels n.

Lemma stored_app : stored (rs ++ more) = stored rs ++ stored more.
Proof. apply map_app. Qed.

Lemma later_lookup c :
  labels (deref c) `suffix_of` labels n → c ∈ stored rs ∨ is_sub c = false →
  map_ (insert_all (rs ++ more)) !! hash_wildcard c = map_ (insert_all rs) !! hash_wildcard c.
Proof.
  intros Hl Hc. rewrite stored_app in Hhash.
  rewrite !map_insert_all by (rewrite ?stored_app; intros w Hw; apply (proj1 Hhash); set_solver).
  unfold assigned. rewrite foldl_app. fold (assigned rs c).
  clear Hhash Hc. revert Hmore. generalize (assigned rs c).
  induction more as [|[w v] l IH]; intros o Hm; [done|]. simpl. rewrite bool_decide_eq_false_2.
  - apply IH. set_solver.
  - intros <-. apply (Hm (normal w)); set_solver.
Qed.

Lemma later_wildcards name :
  labels name `suffix_of` labels n →
  default [] (wildcards (insert_all (rs ++ more)) !! hash_name name) =
  default [] (wildcards (insert_all rs) !! hash_name name).
Proof.
  intros Hl. rewrite stored_app in Hhash.
  rewrite !wildcards_insert_all by (rewrite ?stored_app; intros w Hw; apply (proj2 Hhash); set_solver).
  rewrite stored_app, filter_app. rewrite <- (app_nil_r (filter _ (stored rs))) at 2. f_equal.
  destruct (filter _ (stored more)) as [|w l] eqn:E; [done|]. exfalso.
  assert (Hin : w ∈ w :: l) by left. rewrite <- E in Hin.
  apply list_elem_of_filter in Hin as [[_ <-] Hw]. by apply (Hmore w).
Qed.

Lemma later_find_sub last ws :
  (∀ w, w ∈ ws → w ∈ stored rs ∧ labels (deref w) `suffix_of` labels n) →
  find_sub (insert_all (rs ++ more)) last ws = find_sub (insert_all rs) last ws.
Proof.
  induction ws as [|w ws IH]; intros Hws; [done|]. simpl.
  destruct (Hws w) as [Hw Hd]; [set_solver|].
  rewrite later_lookup by auto. by rewrite IH by set_solver.
Qed.

Lemma later_find_loop fuel lvl last name :
  labels name `suffix_of` labels n →
  find_loop fuel (insert_all (rs ++ more)) lvl last name = find_loop fuel (insert_all rs) lvl last name.
Proof.
  revert lvl last name. induction fuel as [|fuel IH]; intros lvl last name Hl; [done|].
  assert (Hb : labels (base_name name) `suffix_of` labels n).
  { rewrite labels_base_name. destruct (labels name); [done|]. by eapply suffix_cons_l. }
  simpl. rewrite !IH by (rewrite ?labels_set_fqdn; auto). f_equal.
  unfold find_level. rewrite later_wildcards by done.
  rewrite !later_lookup by auto. rewrite later_find_sub; [done|]. intros w.
  rewrite stored_app in Hhash. rewrite wildcards_insert_all.
  - by intros ((_ & ->) & ?)%list_elem_of_filter.
  - intros w' Hw'. apply (proj2 Hhash); set_solver.
Qed.

Lemma later_find : find (insert_all (rs ++ more)) n = find (insert_all rs) n.
Proof.
  assert (Hempty : ∀ m fuel lvl last name, map_ m = ∅ → find_loop fuel m lvl last name = None).
  { intros m fuel. induction fuel as [|fuel IH]; intros lvl last name Hm; [done|]. simpl.
    rewrite !IH by done. unfold find_level. rewrite Hm, !lookup_empty.
    assert (Hs : ∀ ws, find_sub m last ws = None).
    { intros ws. induction ws as [|w ws IHw]; simpl; [done|]. rewrite Hm, lookup_empty, IHw.
      by destruct (is_match _ _). }
    rewrite Hs. by repeat case_match. }
  unfold find. set (n' := if is_wildcard n then base_name n else n).
  assert (Hl : labels n' `suffix_of` labels n).
  { unfold n'. destruct (is_wildcard n); [|done]. rewrite labels_base_name.
    destruct (labels n); [done|]. by apply suffix_cons_r. }
  assert (He := later_find_loop (length (labels n') + 2) 0 n' n' Hl).
  repeat case_bool_decide; rewrite ?He; try done; [|by apply Hempty].
  rewrite <- He. symmetry. by apply Hempty.
Qed.
End later.
End facts.

Section find.
Context {Name : Type} `{!NameOps Name, !NameLaws Name, !Glob, !HashCode Name} {T : Type}.

(** C17. The rule that applies to a name: after any insertions a lookup finds a
    value exactly when some inserted rule matches the name; it is the last value
    given to a matching rule that is as specific as any other - the longest
    domain, and for the same domain the exact rule before the one-label pattern,
    the subdomain rule and the plain one - as long as the 64-bit hashes of the
    rules involved are distinct. *)
Theorem find_most_specific (rs : list (WildcardName Name * T)) (name : Name)
    (Hname : labels name ≠ []) (Hwild : is_wildcard name = false)
    (Hhash : collision_free (stored rs) name) :
  match find (insert_all rs) name with
  | Some v => ∃ w, (∃ u, (w, u) ∈ rs) ∧ assigned rs (normal w) = Some v ∧ is_match w name = true ∧
      ∀ w' v', (w', v') ∈ rs → is_match w' name = true → at_least_as_specific w w'
  | None => ∀ w v, (w, v) ∈ rs → is_match w name = false
  end.
Proof.
  pose proof (λ w, match_suffix w name Hname) as Hsuf.
  assert (Hb := find_best rs name Hhash Hname Hwild).
  assert (Hin : ∀ w v, (w, v) ∈ rs → normal w ∈ stored rs).
  { intros w v ?. by apply (list_elem_of_fmap_2 (λ r, normal (fst r)) rs (w, v)). }
  destruct (find _ _) as [v|]; simpl in Hb.
  - destruct Hb as (c & Hv & Hm & _ & Hmin).
    assert (Hc : c ∈ stored rs) by (apply assigned_stored; eauto).
    apply list_elem_of_fmap in Hc as ([w u] & -> & Hw).
    simpl in *. rewrite normal_match in Hm. exists w. split_and!; eauto.
    intros w' v' Hw' Hm'. specialize (Hmin (normal w') (Hin _ _ Hw')).
    rewrite normal_match, normal_labels in Hmin. specialize (Hmin Hm' (Hsuf _ Hm')).
    unfold at_least_as_specific in *. by rewrite !normal_labels, !normal_kind in Hmin.
  - intros w v Hw. destruct (is_match w name) eqn:Em; [|done]. rewrite <- Em, <- normal_match.
    apply Hb; [by eapply Hin|]. rewrite normal_labels. by apply Hsuf.
Qed.
End find.

(** ** A concrete instance: names as lists of labels *)

Module ListName.
Definition name : Type := list string * bool.

Fixpoint labels_cmp (a b : list string) : comparison :=
  match a, b with
  | [], [] => Eq
  | [], _ => Lt
  | _, [] => Gt
  | x :: a', y :: b' =>
      match (encode x ?= encode y)%positive with Eq => labels_cmp a' b' | o => o end
  end.

(** The labels are compared from the top-level domain down. *)
Definition cmp (a b : name) : comparison :=
  match snd a, snd b with
  | false, true => Lt
  | true, false => Gt
  | _, _ => labels_cmp (rev (fst a)) (rev (fst b))
  end.

#[export] Instance list_name_ops : NameOps name := {
  name_eq_dec := _;
  labels := fst;
  is_fqdn := snd;
  set_fqdn b n := (fst n, b);
  base_name n := (tail (fst n), true);
  is_root n := bool_decide (fst n = []) && snd n;
  is_wildcard n := bool_decide (head (fst n) = Some "*");
  zone_of a b := bool_decide (fst a `suffix_of` fst b);
  eq_ignore_root_case a b := bool_decide (fst a = fst b);
  name_cmp := cmp;
}.

Lemma labels_cmp_eq a b : labels_cmp a b = Eq → a = b.
Proof.
  revert b. induction a as [|x a IH]; intros [|y b]; simpl; try done.
  destruct (_ ?= _)%positive eqn:E; try done. intros ->%IH.
  apply Pos.compare_eq, (inj encode) in E. by subst.
Qed.

Lemma labels_cmp_opp a b : labels_cmp b a = CompOpp (labels_cmp a b).
Proof.
  revert b. induction a as [|x a IH]; intros [|y b]; simpl; try done.
  rewrite (Pos.compare_antisym (encode x) (encode y)), IH.
  by destruct (_ ?= _)%positive.
Qed.

Lemma labels_cmp_trans a b c : labels_cmp a b = Lt → labels_cmp b c = Lt → labels_cmp a c = Lt.
Proof.
  revert b c. induction a as [|x a IH]; intros [|y b] [|z c]; simpl; try done.
  destruct (Pos.compare_spec (encode x) (encode y)) as [E1|E1|E1],
    (Pos.compare_spec (encode y) (encode z)) as [E2|E2|E2]; intros H1 H2; try done.
  - rewrite E1, E2, Pos.compare_refl. eauto.
  - rewrite E1, (proj2 (Pos.compare_lt_iff _ _) E2). done.
  - rewrite <- E2, (proj2 (Pos.compare_lt_iff _ _) E1). done.
  - rewrite (proj2 (Pos.compare_lt_iff _ _) (Pos.lt_trans _ _ _ E1 E2)). done.
Qed.

Lemma labels_cmp_prefix a x l : labels_cmp a (a ++ x :: l) = Lt.
Proof. induction a as [|y a IH]; simpl; [done|]. by rewrite Pos.compare_refl. Qed.

#[export] Instance list_name_laws : NameLaws name.
Proof.
  split; simpl; intros.
  - destruct a, b; simpl in *; congruence.
  - done.
  - done.
  - done.
  - done.
  - rewrite andb_true_iff, bool_decide_eq_true. done.
  - by rewrite bool_decide_eq_true.
  - by rewrite bool_decide_eq_true.
  - by rewrite bool_decide_eq_true.
  - destruct a as [a fa], b as [b fb]. unfold cmp in *. simpl in *. destruct fa, fb; try done;
      apply labels_cmp_eq in H; f_equal; apply (f_equal (@rev string)) in H; by rewrite !rev_involutive in H.
  - destruct a as [a fa], b as [b fb]. unfold cmp. simpl in *. subst fb. destruct H0 as [l ->].
    destruct l as [|x l] using rev_ind; [done|]. clear IHl.
    rewrite <- app_assoc, rev_app_distr. simpl. rewrite <- app_assoc. simpl.
    destruct fa; apply labels_cmp_prefix.
  - destruct a as [a fa], b as [b fb]. unfold cmp. simpl. destruct fa, fb; auto using labels_cmp_opp.
  - destruct a as [a fa], b as [b fb], c as [c fc]. unfold cmp in *. simpl in *.
    destruct fa, fb, fc; eauto using labels_cmp_trans; done.
Qed.

#[export] Instance glob_any : Glob := { glob p s := bool_decide (p = s) }.

Definition pattern_of (w : WildcardName name) : string :=
  match w with Sub p _ => pattern p | _ => "" end.

(** A hash: the code of a value modulo a prime below [2 ^ 64]. *)
Definition hash_prime : Z := 2305843009213693951.
Definition code_of {A} `{Countable A} (x : A) : Z := Z.pos (encode x) `mod` hash_prime.
Lemma code_of_range {A} `{Countable A} (x : A) : in_u64 (code_of x).
Proof. unfold in_u64, u64_max, code_of, hash_prime. pose proof (Z.mod_pos_bound (Z.pos (encode x)) 2305843009213693951). lia. Qed.

#[export] Instance hash_codes : HashCode name := {
  hash_name n := code_of n;
  hash_wildcard w := code_of (kind_ord w, pattern_of w, deref w);
  hash_name_range n := code_of_range n;
  hash_wildcard_range w := code_of_range (kind_ord w, pattern_of w, deref w);
}.

(** Whether the hashes of some rules and of what the lookup of a name asks for are
    distinct. *)
Fixpoint suffixes (l : list string) : list (list string) :=
  l :: match l with [] => [] | _ :: l' => suffixes l' end.
Definition suffix_names (n : name) : list name := concat (map (λ l, [(l, true); (l, false)]) (suffixes (labels n))).
Definition asked_keys (n : name) : list (WildcardName name) :=
  concat (map (λ m, [Default m; Suffix m; Full m]) (suffix_names n)).
Definition apart {A} `{EqDecision A} (h : A → Z) (x y : A) : bool := negb (h x =? h y)%Z || bool_decide (x = y).
Definition collision_freeb (ws : list (WildcardName name)) (n : name) : bool :=
  forallb (λ w, forallb (apart hash_wildcard w) (ws ++ asked_keys n)) ws &&
  forallb (λ w, forallb (apart hash_name (deref w)) (suffix_names n)) ws.

Lemma suffixes_spec l k : k `suffix_of` l → k ∈ suffixes l.
Proof.
  induction l as [|x l IH]; intros [p Hp].
  - destruct p, k; try done. left.
  - destruct p as [|y p]; cbn in *; [subst; left|]. right. apply IH. exists p. congruence.
Qed.
Lemma suffix_names_spec n m : labels m `suffix_of` labels n → m ∈ suffix_names n.
Proof.
  intros Hs%suffixes_spec. unfold suffix_names. apply list_elem_of_In, in_concat.
  eexists. split; [apply in_map, list_elem_of_In, Hs|]. destruct m as [l []]; cbn; auto.
Qed.
Lemma apart_spec {A} `{EqDecision A} (h : A → Z) x y : apart h x y = true → h x = h y → x = y.
Proof. unfold apart. intros H E. rewrite E, Z.eqb_refl in H. by apply bool_decide_eq_true in H. Qed.

Lemma no_collisions ws n : collision_freeb ws n = true → collision_free ws n.
Proof.
  unfold collision_freeb. rewrite andb_true_iff, !forallb_forall. intros [H1 H2]. split.
  - intros w c Hw Hc. apply apart_spec. specialize (H1 w (proj1 (list_elem_of_In _ _) Hw)).
    rewrite forallb_forall in H1. apply H1, list_elem_of_In, elem_of_app. destruct Hc as [?|[Hs Hc]]; [by left|right].
    apply suffix_names_spec in Hc. unfold asked_keys. apply list_elem_of_In, in_concat. exists [Default (deref c); Suffix (deref c); Full (deref c)].
    split; [apply in_map_iff; exists (deref c); split; [done|by apply list_elem_of_In]|]. destruct c; cbn in *; auto; done.
  - intros w m Hw Hm. apply apart_spec. specialize (H2 w (proj1 (list_elem_of_In _ _) Hw)).
    rewrite forallb_forall in H2. apply H2, list_elem_of_In. by apply suffix_names_spec.
Qed.

Definition rules : list (WildcardName name * nat) :=
  [(Default (["example"; "com"], false), 1); (Sub wildcard_default (["example"; "com"], false), 2);
   (Suffix (["example"; "com"], false), 3); (Full (["a"; "www"; "example"; "com"], false), 4)].
Definition www : name := (["www"; "example"; "com"], true).

(** With four kinds of rules for a domain, the one-label pattern applies to a
    name directly below it. *)
Lemma find_most_specific_witness :
  find (insert_all rules) www = Some 2 ∧
  ∃ w, (∃ u, (w, u) ∈ rules) ∧ assigned rules (normal w) = Some 2 ∧
    is_match w www = true ∧
    ∀ w' v', (w', v') ∈ rules → is_match w' www = true → at_least_as_specific w w'.
Proof.
  assert (Hf : find (insert_all rules) www = Some 2) by (vm_compute; reflexivity). split; [exact Hf|].
  assert (Hne : labels www ≠ []) by (unfold www; simpl; discriminate).
  assert (Hh : collision_freeb (stored rules) www = true) by (vm_compute; reflexivity).
  pose proof (find_most_specific rules www Hne eq_refl (no_collisions _ _ Hh)) as H. rewrite Hf in H. exact H.
Defined.
End ListName.
