(* ===== verification/DomainRule.v ===== *)
(** * Domain rules

    [DomainRule] and its merging (src/config/domain_rule.rs), the rule map
    [DomainRuleMap::create] builds from a rule group, with the tree of enclosing
    rules (src/dns_rule.rs), and what a request context takes from it
    ([DnsContext::new], src/dns.rs; [find_domain_rule], src/dns_conf.rs). *)

From S2P Require Import Prelude DomainMap.

(** ** Configuration values (src/config/mod.rs) *)

(** Record data and options whose contents only other components read: hickory's
    SRV and HTTPS data and client subnets. *)
Class RuleData := { SRV : Type; HTTPS : Type; ClientSubnet : Type }.

(** IPv4 and IPv6 addresses as 32- and 128-bit numbers. *)
Inductive AddressRuleValue :=
| SOA | SOAv4 | SOAv6 | IGN | IGNv4 | IGNv6
| Addr (v4 : option (list Z)) (v6 : option (list Z)).

Inductive CNameRule (Name : Type) := CNameIgnore | CNameValue (n : Name).
Arguments CNameIgnore {Name}.
Arguments CNameValue {Name} n.

Inductive HttpsRecordRule `{RuleData} :=
| HttpsSOA | HttpsIgnore | HttpsFilter (no_ipv4_hint no_ipv6_hint : bool) | HttpsRecordData (d : HTTPS).

Inductive SpeedCheckMode := SpeedNone | Ping | Tcp (port : Z) | Http (port : Z) | Https (port : Z).
Inductive ResponseMode := FirstPing | FastestIp | FastestResponse.
Record NFTsetConfig := { family : string; table : string; nft_name : string }.
Inductive ConfigForIP (A : Type) := V4 (a : A) | V6 (a : A) | NoIP.
Arguments V4 {A} a.
Arguments V6 {A} a.
Arguments NoIP {A}.

Record DomainRule (Name : Type) `{RuleData} := {
  nameserver : option string;
  address : option AddressRuleValue;
  cname : option (CNameRule Name);
  srv : option (list SRV);
  https : option HttpsRecordRule;
  txt : option (list string);
  speed_check_mode : option (list SpeedCheckMode);
  dualstack_ip_selection : option bool;
  response_mode : option ResponseMode;
  no_cache : option bool;
  no_serve_expired : option bool;
  nftset : option (list (ConfigForIP NFTsetConfig));
  ipsets : option (list string);
  rr_ttl : option Z;
  rr_ttl_min : option Z;
  rr_ttl_max : option Z;
  subnet : option ClientSubnet;
}.
Arguments nameserver {Name H}.
Arguments address {Name H}.
Arguments cname {Name H}.
Arguments srv {Name H}.
Arguments https {Name H}.
Arguments txt {Name H}.
Arguments speed_check_mode {Name H}.
Arguments dualstack_ip_selection {Name H}.
Arguments response_mode {Name H}.
Arguments no_cache {Name H}.
Arguments no_serve_expired {Name H}.
Arguments nftset {Name H}.
Arguments ipsets {Name H}.
Arguments rr_ttl {Name H}.
Arguments rr_ttl_min {Name H}.
Arguments rr_ttl_max {Name H}.
Arguments subnet {Name H}.

Inductive Domain (Name : Type) := DName (n : WildcardName Name) | DSet (s : string).
Arguments DName {Name} n.
Arguments DSet {Name} s.

Record ConfigForDomain (Name A : Type) := { domain : Domain Name; config : A }.
Arguments domain {Name A}.
Arguments config {Name A}.

(** The hash under which equal rules are shared, of 64 bits. *)
Class HashRule (Name : Type) `{RuleData} := {
  hash_rule : DomainRule Name → Z;
  hash_rule_range r : in_u64 (hash_rule r);
}.

Section rules.
Context {Name : Type} `{!NameOps Name, !Glob, !HashCode Name, RD : RuleData}.
Abbreviation rule := (DomainRule Name).

Definition rule_default : rule := {|
  nameserver := None; address := None; cname := None; srv := None; https := None; txt := None;
  speed_check_mode := None; dualstack_ip_selection := None; response_mode := None;
  no_cache := None; no_serve_expired := None; nftset := None; ipsets := None;
  rr_ttl := None; rr_ttl_min := None; rr_ttl_max := None; subnet := None |}.

(** [AddAssign for DomainRule] *)
Definition add_assign (self rhs : rule) : rule := {|
  nameserver := or_else (nameserver rhs) (nameserver self);
  address := or_else (address rhs) (address self);
  cname := cname self;
  srv := srv self;
  https := https self;
  txt := txt self;
  speed_check_mode := or_else (speed_check_mode rhs) (speed_check_mode self);
  dualstack_ip_selection := or_else (dualstack_ip_selection rhs) (dualstack_ip_selection self);
  response_mode := response_mode self;
  no_cache := or_else (no_cache rhs) (no_cache self);
  no_serve_expired := or_else (no_serve_expired rhs) (no_serve_expired self);
  nftset := nftset self;
  ipsets := ipsets self;
  rr_ttl := or_else (rr_ttl rhs) (rr_ttl self);
  rr_ttl_min := or_else (rr_ttl_min rhs) (rr_ttl_min self);
  rr_ttl_max := or_else (rr_ttl_min rhs) (rr_ttl_max self);
  subnet := subnet self |}.

(** The assignments of [create] to single fields. *)
Definition set_address (v : AddressRuleValue) (r : rule) : rule := {|
  nameserver := nameserver r; address := Some v; cname := cname r; srv := srv r; https := https r;
  txt := txt r; speed_check_mode := speed_check_mode r;
  dualstack_ip_selection := dualstack_ip_selection r; response_mode := response_mode r;
  no_cache := no_cache r; no_serve_expired := no_serve_expired r; nftset := nftset r;
  ipsets := ipsets r; rr_ttl := rr_ttl r; rr_ttl_min := rr_ttl_min r; rr_ttl_max := rr_ttl_max r;
  subnet := subnet r |}.
Definition set_nameserver (v : string) (r : rule) : rule := {|
  nameserver := Some v; address := address r; cname := cname r; srv := srv r; https := https r;
  txt := txt r; speed_check_mode := speed_check_mode r;
  dualstack_ip_selection := dualstack_ip_selection r; response_mode := response_mode r;
  no_cache := no_cache r; no_serve_expired := no_serve_expired r; nftset := nftset r;
  ipsets := ipsets r; rr_ttl := rr_ttl r; rr_ttl_min := rr_ttl_min r; rr_ttl_max := rr_ttl_max r;
  subnet := subnet r |}.
Definition set_cname (v : CNameRule Name) (r : rule) : rule := {|
  nameserver := nameserver r; address := address r; cname := Some v; srv := srv r; https := https r;
  txt := txt r; speed_check_mode := speed_check_mode r;
  dualstack_ip_selection := dualstack_ip_selection r; response_mode := response_mode r;
  no_cache := no_cache r; no_serve_expired := no_serve_expired r; nftset := nftset r;
  ipsets := ipsets r; rr_ttl := rr_ttl r; rr_ttl_min := rr_ttl_min r; rr_ttl_max := rr_ttl_max r;
  subnet := subnet r |}.
Definition push_srv (v : SRV) (r : rule) : rule := {|
  nameserver := nameserver r; address := address r; cname := cname r;
  srv := Some (default [] (srv r) ++ [v]); https := https r;
  txt := txt r; speed_check_mode := speed_check_mode r;
  dualstack_ip_selection := dualstack_ip_selection r; response_mode := response_mode r;
  no_cache := no_cache r; no_serve_expired := no_serve_expired r; nftset := nftset r;
  ipsets := ipsets r; rr_ttl := rr_ttl r; rr_ttl_min := rr_ttl_min r; rr_ttl_max := rr_ttl_max r;
  subnet := subnet r |}.
Definition set_https (v : HttpsRecordRule) (r : rule) : rule := {|
  nameserver := nameserver r; address := address r; cname := cname r; srv := srv r; https := Some v;
  txt := txt r; speed_check_mode := speed_check_mode r;
  dualstack_ip_selection := dualstack_ip_selection r; response_mode := response_mode r;
  no_cache := no_cache r; no_serve_expired := no_serve_expired r; nftset := nftset r;
  ipsets := ipsets r; rr_ttl := rr_ttl r; rr_ttl_min := rr_ttl_min r; rr_ttl_max := rr_ttl_max r;
  subnet := subnet r |}.
Definition push_ipset (v : string) (r : rule) : rule := {|
  nameserver := nameserver r; address := address r; cname := cname r; srv := srv r; https := https r;
  txt := txt r; speed_check_mode := speed_check_mode r;
  dualstack_ip_selection := dualstack_ip_selection r; response_mode := response_mode r;
  no_cache := no_cache r; no_serve_expired := no_serve_expired r; nftset := nftset r;
  ipsets := Some (default [] (ipsets r) ++ [v]); rr_ttl := rr_ttl r; rr_ttl_min := rr_ttl_min r;
  rr_ttl_max := rr_ttl_max r; subnet := subnet r |}.
Definition push_txt (v : string) (r : rule) : rule := {|
  nameserver := nameserver r; address := address r; cname := cname r; srv := srv r; https := https r;
  txt := Some (default [] (txt r) ++ [v]); speed_check_mode := speed_check_mode r;
  dualstack_ip_selection := dualstack_ip_selection r; response_mode := response_mode r;
  no_cache := no_cache r; no_serve_expired := no_serve_expired r; nftset := nftset r;
  ipsets := ipsets r; rr_ttl := rr_ttl r; rr_ttl_min := rr_ttl_min r; rr_ttl_max := rr_ttl_max r;
  subnet := subnet r |}.
Definition set_nftset (v : list (ConfigForIP NFTsetConfig)) (r : rule) : rule := {|
  nameserver := nameserver r; address := address r; cname := cname r; srv := srv r; https := https r;
  txt := txt r; speed_check_mode := speed_check_mode r;
  dualstack_ip_selection := dualstack_ip_selection r; response_mode := response_mode r;
  no_cache := no_cache r; no_serve_expired := no_serve_expired r; nftset := Some v;
  ipsets := ipsets r; rr_ttl := rr_ttl r; rr_ttl_min := rr_ttl_min r; rr_ttl_max := rr_ttl_max r;
  subnet := subnet r |}.
End rules.

(** ** Rule groups (src/config/rule_group.rs) *)

Record RuleGroup (Name : Type) `{RuleData} := {
  forward_rules : list (ConfigForDomain Name string);
  address_rules : list (ConfigForDomain Name AddressRuleValue);
  domain_rules : list (ConfigForDomain Name (DomainRule Name));
  cnames : list (ConfigForDomain Name (CNameRule Name));
  srv_records : list (ConfigForDomain Name SRV);
  https_records : list (ConfigForDomain Name HttpsRecordRule);
  txt_records : list (ConfigForDomain Name string);
  ipset_rules : list (ConfigForDomain Name string);
}.
Arguments forward_rules {Name H}.
Arguments address_rules {Name H}.
Arguments domain_rules {Name H}.
Arguments cnames {Name H}.
Arguments srv_records {Name H}.
Arguments https_records {Name H}.
Arguments txt_records {Name H}.
Arguments ipset_rules {Name H}.

Definition merge {Name} `{RuleData} (self other : RuleGroup Name) : RuleGroup Name := {|
  forward_rules := forward_rules self ++ forward_rules other;
  address_rules := address_rules self ++ address_rules other;
  domain_rules := domain_rules self ++ domain_rules other;
  cnames := cnames self ++ cnames other;
  srv_records := srv_records self ++ srv_records other;
  https_records := https_records self ++ https_records other;
  txt_records := txt_records self ++ txt_records other;
  ipset_rules := ipset_rules self ++ ipset_rules other |}.

(** A node of the rule tree: the name, its rule and the enclosing rule.  The
    shared pointers of the code point to immutable nodes. *)
Inductive DomainRuleTreeNode (Name : Type) `{RuleData} :=
| Node (name : WildcardName Name) (rule_ : DomainRule Name) (zone_ : option (DomainRuleTreeNode Name)).
Arguments Node {Name H} name rule_ zone_.

Section tree.
Context {Name : Type} `{!NameOps Name, !Glob, !HashCode Name, RD : RuleData, !HashRule Name}.
Abbreviation rule := (DomainRule Name).
Abbreviation node := (DomainRuleTreeNode Name).
Abbreviation rules_by_name := (list (WildcardName Name * DomainRule Name)).

Definition node_name (n : node) : WildcardName Name := let 'Node w _ _ := n in w.
Definition node_rule (n : node) : rule := let 'Node _ r _ := n in r.
Definition zone (n : node) : option node := let 'Node _ _ z := n in z.

(** [DomainRuleGetter]: on a node the enclosing rule is asked next, on an optional
    node, the type of a request's rule, it is not. *)
Definition node_get {A} (f : node → option A) (n : node) : option A :=
  or_else (f n) (zone n ≫= f).
Definition rule_get {A} (f : node → option A) (n : option node) : option A := n ≫= f.

(** ** [DomainRuleMap::create] *)

(** The [HashMap] of rules by name, as an association list without duplicate
    keys: [entry(name).or_default()] and an assignment to the entry. *)
Fixpoint update (name : WildcardName Name) (f : rule → rule) (m : rules_by_name) : rules_by_name :=
  match m with
  | [] => [(name, f rule_default)]
  | (k, r) :: m' => if bool_decide (k = name) then (k, f r) :: m' else (k, r) :: update name f m'
  end.

Definition expand_domain (sets : gmap string (list (WildcardName Name))) (d : Domain Name)
  : list (WildcardName Name) :=
  match d with DName n => [n] | DSet s => default [] (sets !! s) end.

Definition apply_rules {A} (sets : gmap string (list (WildcardName Name))) (f : A → rule → rule)
    (m : rules_by_name) (rules : list (ConfigForDomain Name A)) : rules_by_name :=
  foldl (λ m r, foldl (λ m name, update name (f (config r)) m) m (expand_domain sets (domain r))) m rules.

Definition name_rule_map (sets : gmap string (list (WildcardName Name))) (g : RuleGroup Name)
    (nftsets : list (ConfigForDomain Name (list (ConfigForIP NFTsetConfig)))) : rules_by_name :=
  let m := apply_rules sets (λ v self, add_assign self v) [] (domain_rules g) in
  let m := apply_rules sets set_address m (address_rules g) in
  let m := apply_rules sets set_nameserver m (forward_rules g) in
  let m := apply_rules sets set_cname m (cnames g) in
  let m := apply_rules sets push_srv m (srv_records g) in
  let m := apply_rules sets set_https m (https_records g) in
  let m := apply_rules sets push_ipset m (ipset_rules g) in
  let m := apply_rules sets push_txt m (txt_records g) in
  apply_rules sets set_nftset m nftsets.

(** Equal rules share one allocation, found by their hash. *)
Definition intern (v : rule) (rule_map : gmap Z rule) : rule * gmap Z rule :=
  match rule_map !! hash_rule v with
  | Some r => (r, rule_map)
  | None => (v, <[hash_rule v := v]> rule_map)
  end.

Definition add_node (st : gmap Z rule * DomainMap Name node) (item : WildcardName Name * rule)
  : gmap Z rule * DomainMap Name node :=
  let '(rule_map, rules) := st in
  let '(name, v) := item in
  let '(rule_, rule_map) := intern v rule_map in
  let zone_ := find rules (base_name (deref name)) in
  (rule_map, snd (dm_insert name (Node name rule_ zone_) rules)).

(** [order] is the enumeration of the hash map; the sort is stable. *)
Definition rule_items (order : rules_by_name → rules_by_name) (m : rules_by_name) : rules_by_name :=
  sort_by (λ a b, wildcard_cmp (fst a) (fst b)) (order m).

Definition create (order : rules_by_name → rules_by_name) (rule_map : gmap Z rule)
    (sets : gmap string (list (WildcardName Name))) (g : RuleGroup Name)
    (nftsets : list (ConfigForDomain Name (list (ConfigForIP NFTsetConfig))))
  : gmap Z rule * DomainMap Name node :=
  foldl add_node (rule_map, dm_new) (rule_items order (name_rule_map sets g nftsets)).

(** The maps of all rule groups, which share the allocations of their rules
    ([RuntimeConfigBuilder::build], src/dns_conf.rs). *)
Definition add_group (order : rules_by_name → rules_by_name)
    (sets : gmap string (list (WildcardName Name)))
    (nftsets : list (ConfigForDomain Name (list (ConfigForIP NFTsetConfig))))
    (st : gmap Z rule * gmap string (DomainMap Name node)) (item : string * RuleGroup Name)
  : gmap Z rule * gmap string (DomainMap Name node) :=
  let '(rule_map, groups) := st in
  let '(group_name, rule_group) := item in
  let '(rule_map, domain_rule_map) := create order rule_map sets rule_group nftsets in
  (rule_map, <[group_name := domain_rule_map]> groups).

Definition create_groups (order : rules_by_name → rules_by_name)
    (sets : gmap string (list (WildcardName Name)))
    (nftsets : list (ConfigForDomain Name (list (ConfigForIP NFTsetConfig))))
    (rule_groups : list (string * RuleGroup Name)) : gmap string (DomainMap Name node) :=
  snd (foldl (add_group order sets nftsets) (∅, ∅) rule_groups).

(** ** Lookup (src/dns_conf.rs) and the request context (src/dns.rs) *)

Definition DEFAULT_GROUP : string := "default".

Definition domain_rule_group (groups : gmap string (DomainMap Name node)) (name : string)
  : DomainMap Name node :=
  default dm_new (groups !! (if bool_decide (name = "") then DEFAULT_GROUP else name)).

Definition find_domain_rule (groups : gmap string (DomainMap Name node)) (domain : Name)
    (group : string) : option node :=
  or_else (find (domain_rule_group groups group) domain)
    (find (domain_rule_group groups DEFAULT_GROUP) domain).

(** The loop of [resolve_server_group_name] over the enclosing rules. *)
Fixpoint nearest_nameserver (n : node) : option string :=
  match n with
  | Node _ r z =>
      match nameserver r with
      | Some name => Some name
      | None => match z with Some z' => nearest_nameserver z' | None => None end
      end
  end.

Definition resolve_server_group_name (group : option string) (domain_rule : option node) : string :=
  match group with
  | Some n => n
  | None => default "default" (domain_rule ≫= nearest_nameserver)
  end.

Record rule_context := {
  domain_rule : option node;
  ctx_no_cache : bool;
  ctx_server_group_name : string;
}.

(** The parts of [DnsContext::new] that depend on the rules. *)
Definition rule_context_new (groups : gmap string (DomainMap Name node)) (name : Name)
    (group rule_group : option string) : rule_context :=
  let domain_rule := find_domain_rule groups name (default "" rule_group) in
  {| domain_rule := domain_rule;
     ctx_no_cache := default false (rule_get (λ n, no_cache (node_rule n)) domain_rule);
     ctx_server_group_name := resolve_server_group_name group domain_rule |}.
End tree.

(** ** Lemmas *)

Section facts.
Context {Name : Type} `{!NameOps Name, !NameLaws Name, !Glob, !HashCode Name, RD : RuleData, !HashRule Name}.
Abbreviation rule := (DomainRule Name).
Abbreviation node := (DomainRuleTreeNode Name).
Abbreviation rules_by_name := (list (WildcardName Name * DomainRule Name)).

Definition by_name (ns : list node) : list (WildcardName Name * node) :=
  map (λ n, (node_name n, n)) ns.

(** Induction along the enclosing rules. *)
Lemma node_zone_ind (P : node → Prop) :
  (∀ w r, P (Node w r None)) → (∀ w r z, P z → P (Node w r (Some z))) → ∀ n, P n.
Proof. intros H1 H2. fix IH 1. intros [w r [z|]]; [apply H2, IH|apply H1]. Qed.

(** What is found was inserted. *)
Lemma find_loop_value {T} fuel (m : DomainMap Name T) lvl last name v :
  find_loop fuel m lvl last name = Some v → ∃ k, map_ m !! k = Some v.
Proof.
  revert lvl last name. induction fuel as [|fuel IH]; intros lvl last name; simpl; [done|].
  assert (Hsub : ∀ ws, find_sub m last ws = Some v → ∃ k, map_ m !! k = Some v).
  { intros ws. induction ws as [|w ws IHw]; simpl; [done|]. destruct (is_match w last); [|done].
    destruct (map_ m !! hash_wildcard w) eqn:E; simpl; [|done]. intros [= <-]. eauto. }
  unfold find_level. intros Hr. unfold or_else in Hr.
  repeat (case_match; simplify_eq); eauto.
Qed.

Lemma find_value {T} (rs : list (WildcardName Name * T)) q v :
  find (insert_all rs) q = Some v → ∃ w, (w, v) ∈ rs.
Proof.
  unfold find. case_bool_decide; [done|]. intros [k Hk]%find_loop_value. revert k Hk.
  clear. induction rs as [|[w u] rs IH] using rev_ind; intros k; [done|].
  rewrite insert_all_snoc. simpl. rewrite lookup_insert_Some. intros [[_ ->]|[_ Hk]].
  - exists w. set_solver.
  - destruct (IH k Hk) as [w' ?]. exists w'. set_solver.
Qed.

(** The nodes in the order in which they are created: the zone of each is what
    the earlier ones have for its parent name. *)
Lemma create_nodes items rm :
  ∃ ns, snd (foldl add_node (rm, dm_new) items) = insert_all (by_name ns) ∧
    map node_name ns = map fst items ∧
    ∀ l1 n l2, ns = l1 ++ n :: l2 →
      zone n = find (insert_all (by_name l1)) (base_name (deref (node_name n))).
Proof.
  induction items as [|[w v] items (ns & Em & En & Hz)] using rev_ind.
  { exists []. split_and!; [done|done|]. by intros []. }
  rewrite foldl_snoc. destruct (foldl add_node _ items) as [rm' m] eqn:E. simpl in Em. subst m.
  unfold add_node. destruct (intern v rm') as [r rm2]. simpl.
  set (n := Node w r (find (insert_all (by_name ns)) (base_name (deref w)))).
  exists (ns ++ [n]). split_and!.
  - unfold by_name. rewrite map_app. simpl. by rewrite insert_all_snoc.
  - by rewrite !map_app, En.
  - intros l1 n' l2. destruct l2 as [|x l2 _] using rev_ind; intros Heq.
    + apply app_inj_tail in Heq as [-> <-]. done.
    + rewrite app_comm_cons, app_assoc in Heq. apply app_inj_tail in Heq as [-> _]. by eapply Hz.
Qed.

Definition name_le (a b : WildcardName Name) : Prop := name_cmp (deref a) (deref b) ≠ Gt.

#[export] Instance name_le_trans : Transitive name_le.
Proof.
  intros a b c. unfold name_le. intros H1 H2.
  destruct (name_cmp (deref a) (deref b)) eqn:E1; [|clear H1|done].
  - by apply name_cmp_eq in E1 as ->.
  - destruct (name_cmp (deref b) (deref c)) eqn:E2; [|clear H2|done].
    + apply name_cmp_eq in E2 as <-. by rewrite E1.
    + by rewrite (name_cmp_trans _ _ _ E1 E2).
Qed.

Lemma rule_items_sorted order (m : rules_by_name) :
  StronglySorted name_le (map fst (rule_items order m)).
Proof.
  apply Sorted_StronglySorted; [apply name_le_trans|].
  assert (Hs : Sorted (λ a b, name_le (fst a) (fst b)) (rule_items order m)).
  { apply sort_by_sorted; intros a b; unfold wildcard_cmp, name_le.
    - by destruct (name_cmp _ _).
    - rewrite (name_cmp_opp (deref (fst a))). by destruct (name_cmp _ _). }
  induction Hs as [|a l Hs IH Hhd]; simpl; constructor; [done|].
  destruct Hhd; simpl; by constructor.
Qed.

(** A rule whose domain encloses the parent of another comes before it. *)
Lemma not_after f (a b : WildcardName Name) :
  is_fqdn (deref a) = f → is_fqdn (deref b) = f → labels (deref a) ≠ [] → name_le a b →
  ¬ labels (deref b) `suffix_of` labels (base_name (deref a)).
Proof.
  intros Ha Hb Hne Hle Hs. rewrite labels_base_name in Hs.
  destruct (labels (deref a)) as [|x l] eqn:E; [done|]. simpl in Hs.
  unfold name_le in Hle. rewrite (name_cmp_opp (deref b)), name_cmp_ancestor in Hle; [done|congruence|..].
  - rewrite E. by apply suffix_cons_r.
  - rewrite E. intros Heq. rewrite Heq in Hs. apply suffix_length in Hs. simpl in Hs. lia.
Qed.

Lemma name_le_refl a : name_le a a.
Proof.
  unfold name_le. assert (E := name_cmp_opp (deref a) (deref a)). by destruct (name_cmp _ _).
Qed.

Lemma collision_free_incl (ws ws' : list (WildcardName Name)) n :
  (∀ w, w ∈ ws → w ∈ ws') → collision_free ws' n → collision_free ws n.
Proof. intros Hin [H1 H2]. split; [|naive_solver]. intros w c Hw [Hc|Hc]; eauto. Qed.

Lemma nodes_zone (ns : list node) f n :
  StronglySorted name_le (map node_name ns) →
  (∀ n, n ∈ ns → is_fqdn (deref (node_name n)) = f) →
  collision_free (stored (by_name ns)) (base_name (deref (node_name n))) →
  (∀ l1 l2, ns = l1 ++ n :: l2 →
     zone n = find (insert_all (by_name l1)) (base_name (deref (node_name n)))) →
  n ∈ ns → labels (deref (node_name n)) ≠ [] →
  zone n = find (insert_all (by_name ns)) (base_name (deref (node_name n))).
Proof.
  intros Hsort Hf Hhash Hz Hn Hne. apply list_elem_of_split in Hn as (l1 & l2 & ->).
  rewrite (Hz l1 l2) by done. unfold by_name in *. rewrite map_app in *. symmetry.
  apply later_find; [done|]. intros w (r & -> & (n' & -> & Hn')%list_elem_of_fmap)%list_elem_of_fmap.
  simpl. rewrite normal_labels. apply (not_after f); [apply Hf; set_solver..|done|].
  apply StronglySorted_app_1_r in Hsort. simpl in Hsort.
  apply elem_of_cons in Hn' as [->|Hn']; [apply name_le_refl|].
  inversion Hsort as [|? ? _ Hall]; subst. rewrite Forall_forall in Hall.
  apply Hall. by apply list_elem_of_fmap_2.
Qed.

(** *** Merging loses options *)

Definition lossy (r : rule) : Prop :=
  response_mode r = None ∧ subnet r = None ∧ rr_ttl_max r = rr_ttl_min r.

Lemma update_lossy name f (m : rules_by_name) :
  (∀ r, lossy r → lossy (f r)) → Forall (λ x, lossy (snd x)) m →
  Forall (λ x, lossy (snd x)) (update name f m).
Proof.
  intros Hf. induction 1 as [|[k r] m Hr Hm IH]; simpl.
  - repeat constructor; apply Hf; done.
  - case_bool_decide; constructor; simpl in *; auto.
Qed.

Lemma apply_rules_lossy {A} sets (f : A → rule → rule) m rules :
  (∀ a r, lossy r → lossy (f a r)) → Forall (λ x, lossy (snd x)) m →
  Forall (λ x, lossy (snd x)) (apply_rules sets f m rules).
Proof.
  intros Hf. unfold apply_rules. revert m. induction rules as [|a rules IH]; intros m Hm; [done|].
  simpl. apply IH. revert m Hm. induction (expand_domain sets (domain a)) as [|n ns IHn]; [done|].
  intros m Hm. simpl. apply IHn. by apply update_lossy; [apply Hf|].
Qed.

Lemma name_rule_map_lossy sets g nftsets :
  Forall (λ x, lossy (snd x)) (name_rule_map sets g nftsets).
Proof.
  unfold name_rule_map. repeat apply apply_rules_lossy; try done.
  intros v r (H1 & H2 & H3). split_and!; [done|done|]. simpl. by rewrite H3.
Qed.

Lemma create_lossy order rm sets g nftsets :
  (∀ m, order m ≡ₚ m) → (∀ k r, rm !! k = Some r → lossy r) →
  (∀ k r, fst (create order rm sets g nftsets) !! k = Some r → lossy r) ∧
  (∀ k n, map_ (snd (create order rm sets g nftsets)) !! k = Some n → lossy (node_rule n)).
Proof.
  intros Horder Hrm. unfold create, rule_items.
  assert (Hl : Forall (λ x, lossy (snd x))
    (sort_by (λ a b, wildcard_cmp (fst a) (fst b)) (order (name_rule_map sets g nftsets)))).
  { rewrite sort_by_perm, Horder. apply name_rule_map_lossy. }
  revert Hl. generalize (sort_by (λ a b, wildcard_cmp (fst a) (fst b)) (order (name_rule_map sets g nftsets))).
  intros items. induction items as [|[w v] items IH] using rev_ind; intros Hl; [done|].
  apply Forall_app in Hl as [Hl Hv]. apply Forall_cons_1 in Hv as [Hv _]. simpl in Hv.
  destruct (IH Hl) as [IH1 IH2]. rewrite foldl_snoc.
  destruct (foldl add_node _ items) as [rm' m]. simpl in *. unfold intern.
  destruct (rm' !! hash_rule v) as [r|] eqn:E; simpl; (split; [|intros k n]); rewrite ?lookup_insert_Some.
  - done.
  - intros [[_ <-]|[_ Hk]]; simpl; eauto.
  - intros k r. rewrite lookup_insert_Some. intros [[_ <-]|[_ Hk]]; [done|]. by eapply IH1.
  - intros [[_ <-]|[_ Hk]]; simpl; eauto.
Qed.

Lemma groups_lossy order sets nftsets groups :
  (∀ m, order m ≡ₚ m) →
  let st := foldl (add_group order sets nftsets) (∅, ∅) groups in
  (∀ k r, fst st !! k = Some r → lossy r) ∧
  (∀ name m k (n : node), snd st !! name = Some m → map_ m !! k = Some n → lossy (node_rule n)).
Proof.
  intros Horder. induction groups as [|[name g] groups IH] using rev_ind; [done|].
  rewrite foldl_snoc. simpl in *. destruct (foldl _ _ groups) as [rm gm].
  destruct IH as [IH1 IH2]. simpl in *.
  destruct (create_lossy order rm sets g nftsets Horder IH1) as [H1 H2].
  destruct (create order rm sets g nftsets) as [rm' dm]. simpl in *. split; [done|].
  intros name' m k n0. rewrite lookup_insert_Some. intros [[_ <-]|[_ ?]]; eauto.
Qed.
End facts.

Section properties.
Context {Name : Type} `{!NameOps Name, !NameLaws Name, !Glob, !HashCode Name, RD : RuleData, !HashRule Name}.
Context (order : list (WildcardName Name * DomainRule Name) → list (WildcardName Name * DomainRule Name)).
Hypothesis Horder : ∀ m, order m ≡ₚ m.

(** The tree of rules: in the rule map of a group, whatever the order of the
    hash map, the rule a lookup finds is one of the configured names, and the
    enclosing rule it points to, from which it inherits, is the one the finished
    map has for the parent of its name - as long as the configured names are all
    written alike (with or without the final dot) and the hashes are distinct. *)
Theorem zones_are_parents (rule_map : gmap Z (DomainRule Name))
    (sets : gmap string (list (WildcardName Name))) (g : RuleGroup Name)
    (nftsets : list (ConfigForDomain Name (list (ConfigForIP NFTsetConfig))))
    (dot : bool) (q : Name) (n : DomainRuleTreeNode Name)
    (Hdot : ∀ w r, (w, r) ∈ name_rule_map sets g nftsets → is_fqdn (deref w) = dot)
    (Hhash : ∀ w r, (w, r) ∈ name_rule_map sets g nftsets →
       collision_free (stored (name_rule_map sets g nftsets)) (base_name (deref w)))
    (Hfind : find (snd (create order rule_map sets g nftsets)) q = Some n)
    (Hne : labels (deref (node_name n)) ≠ []) :
  node_name n ∈ map fst (name_rule_map sets g nftsets) ∧
  zone n = find (snd (create order rule_map sets g nftsets)) (base_name (deref (node_name n))).
Proof.
  set (m := name_rule_map sets g nftsets) in *. unfold create in *. fold m in Hfind |- *.
  assert (Hperm : map fst (rule_items order m) ≡ₚ map fst m).
  { unfold rule_items. by rewrite sort_by_perm, Horder. }
  destruct (create_nodes (rule_items order m) rule_map) as (ns & Em & En & Hz).
  rewrite Em in *. destruct (find_value _ _ _ Hfind) as (w & (n' & [= -> ->] & Hn)%list_elem_of_fmap).
  assert (Hin : ∀ n, n ∈ ns → node_name n ∈ map fst m).
  { intros n0 Hn0. rewrite <- Hperm, <- En. by apply list_elem_of_fmap_2. }
  assert (Hkey : ∀ w, w ∈ map fst m → ∃ r, (w, r) ∈ m).
  { intros w0 ([w1 r] & -> & ?)%list_elem_of_fmap. by exists r. }
  split; [by apply Hin|]. apply (nodes_zone ns dot); eauto.
  - rewrite En. apply rule_items_sorted.
  - intros n0 [r Hr]%Hin%Hkey. eauto.
  - destruct (Hkey _ (Hin _ Hn)) as [r Hr]. apply (collision_free_incl _ (stored m)); [|eauto].
    intros w (x & -> & (n0 & -> & [r0 Hr0]%Hin%Hkey)%list_elem_of_fmap)%list_elem_of_fmap. simpl.
    by apply (list_elem_of_fmap_2 (λ r, normal (fst r)) m (node_name n0, r0)).
Qed.

(** Options of [domain-rules] that are lost: whatever the configuration says,
    the rule of a request never has a response mode or a client subnet, and its
    upper bound on TTLs is its lower bound. *)
Theorem rule_options_lost (sets : gmap string (list (WildcardName Name)))
    (nftsets : list (ConfigForDomain Name (list (ConfigForIP NFTsetConfig))))
    (groups : list (string * RuleGroup Name)) (q : Name) (group : string) (n : DomainRuleTreeNode Name)
    (Hfind : find_domain_rule (create_groups order sets nftsets groups) q group = Some n) :
  response_mode (node_rule n) = None ∧ subnet (node_rule n) = None ∧
  rr_ttl_max (node_rule n) = rr_ttl_min (node_rule n).
Proof.
  destruct (groups_lossy order sets nftsets groups Horder) as [_ Hg].
  assert (Hf : ∀ name, find (domain_rule_group (create_groups order sets nftsets groups) name) q = Some n →
    lossy (node_rule n)).
  { intros name. unfold domain_rule_group, create_groups, find. case_bool_decide as He; [done|].
    destruct (_ !! _) as [m|] eqn:E; [|done]. intros [k Hk]%find_loop_value. eauto. }
  change (lossy (node_rule n)). unfold find_domain_rule, or_else in Hfind.
  destruct (find _ q) eqn:E; simplify_eq; eauto.
Qed.
End properties.

(** ** A concrete configuration *)

Module Example.
Import ListName.

#[export] Instance rule_data : RuleData := { SRV := string; HTTPS := string; ClientSubnet := string }.
#[export] Instance rule_hash : HashRule name := {
  hash_rule r := code_of (nameserver r, rr_ttl_min r, bool_decide (is_Some (address r)));
  hash_rule_range r := code_of_range (nameserver r, rr_ttl_min r, bool_decide (is_Some (address r))) }.

Definition plain (l : list string) : Domain name := DName (Default (l, false)).

(** [domain-rules /a.b.www.example.com/ -rr-ttl-min 60 -rr-ttl-max 600
    -response-mode fastest-ip -subnet 192.168.0.0/16] *)
Definition deep_rule : DomainRule name := {|
  nameserver := None; address := None; cname := None; srv := None; https := None; txt := None;
  speed_check_mode := None; dualstack_ip_selection := None; response_mode := Some FastestIp;
  no_cache := None; no_serve_expired := None; nftset := None; ipsets := None;
  rr_ttl := None; rr_ttl_min := Some 60%Z; rr_ttl_max := Some 600%Z;
  subnet := Some ("192.168.0.0/16" : ClientSubnet) |}.

Definition group : RuleGroup name := {|
  forward_rules := [{| domain := plain ["www"; "example"; "com"]; config := "office" |}];
  address_rules := [{| domain := plain ["example"; "com"]; config := DomainRule.SOA |}];
  domain_rules := [{| domain := plain ["a"; "b"; "www"; "example"; "com"]; config := deep_rule |}];
  cnames := []; srv_records := []; https_records := []; txt_records := []; ipset_rules := [] |}.

Definition deepest : name := (["z"; "a"; "b"; "www"; "example"; "com"], true).
Definition rules : DomainMap name (DomainRuleTreeNode name) := snd (create id ∅ ∅ group []).
Definition found : DomainRuleTreeNode name := default (Node (Default deepest) rule_default None) (find rules deepest).

(** The rule of a deep name points to the rule of [www.example.com], which names
    the server group. *)
Lemma zones_are_parents_witness :
  find rules deepest = Some found ∧
  node_name found = Default (["a"; "b"; "www"; "example"; "com"], false) ∧
  zone found = find rules (["b"; "www"; "example"; "com"], true) ∧
  nearest_nameserver found = Some "office".
Proof.
  assert (Hf : find rules deepest = Some found) by (vm_compute; reflexivity).
  split; [exact Hf|]. split; [vm_compute; reflexivity|]. split; [|vm_compute; reflexivity].
  refine (proj2 (zones_are_parents id (λ m, reflexivity m) ∅ ∅ group [] false deepest found _ _ Hf _)).
  - assert (E : forallb (λ x, negb (is_fqdn (deref (fst x)))) (name_rule_map ∅ group []) = true)
      by (vm_compute; reflexivity).
    intros w r Hin%list_elem_of_In. apply (proj1 (forallb_forall _ _) E), negb_true_iff in Hin. done.
  - assert (E : forallb (λ x, collision_freeb (stored (name_rule_map ∅ group [])) (base_name (deref (fst x))))
      (name_rule_map ∅ group []) = true) by (vm_compute; reflexivity).
    intros w r Hin%list_elem_of_In. apply no_collisions. exact (proj1 (forallb_forall _ _) E _ Hin).
  - vm_compute. discriminate.
Defined.

(** The configured response mode, subnet and upper bound are gone. *)
Lemma rule_options_lost_witness :
  ∃ n, find_domain_rule (create_groups id ∅ [] [("default", group)]) deepest "" = Some n ∧
    rr_ttl_min (node_rule n) = Some 60%Z ∧
    response_mode (node_rule n) = None ∧ subnet (node_rule n) = None ∧
    rr_ttl_max (node_rule n) = rr_ttl_min (node_rule n).
Proof.
  exists found.
  assert (Hf : find_domain_rule (create_groups id ∅ [] [("default", group)]) deepest "" = Some found)
    by (vm_compute; reflexivity).
  split; [exact Hf|]. split; [vm_compute; reflexivity|].
  exact (rule_options_lost id (λ m, reflexivity m) ∅ [] [("default", group)] deepest "" found Hf).
Defined.
End Example.
