(* ===== verification/IpSet.v ===== *)
(** * Address sets

    [IpMap] and [IpSet] (src/infra/ipset.rs), the address sets of the filters, and
    the client rules that test whether a network contains an address
    (src/config/client_rule.rs).

    [IpNet] of the ipnet crate and [RangeInclusiveMap] of the rangemap crate are
    classes: their operations, and the laws their documentation states. *)

From S2P Require Import Prelude Dns.

(** ** Networks *)

(** [IpNet]: an address and the length of the prefix. *)
Inductive IpNet := Net4 (addr prefix_len : Z) | Net6 (addr prefix_len : Z).

#[export] Instance IpNet_eq_dec : EqDecision IpNet.
Proof. solve_decision. Defined.

(** The first and the last address of a network, and containment. *)
Class NetOps := {
  network : IpNet → Z;
  broadcast : IpNet → Z;
  net_contains_ip : IpNet → IpAddr → bool;
  net_contains_net : IpNet → IpNet → bool;
}.

(** A network contains the addresses of its family between its first and its
    last one. *)
Class NetLaws `{NetOps} := {
  net4_contains a l x :
    net_contains_ip (Net4 a l) (IPv4 x) = ((network (Net4 a l) <=? x) && (x <=? broadcast (Net4 a l)))%Z;
  net6_contains a l x :
    net_contains_ip (Net6 a l) (IPv6 x) = ((network (Net6 a l) <=? x) && (x <=? broadcast (Net6 a l)))%Z;
  net4_other a l x : net_contains_ip (Net4 a l) (IPv6 x) = false;
  net6_other a l x : net_contains_ip (Net6 a l) (IPv4 x) = false;
  net_ordered n : (network n ≤ broadcast n)%Z;
}.

(** [Ipv4Net::new] and [Ipv6Net::new] refuse a prefix longer than the address. *)
Definition ipv4net_new (addr prefix_len : Z) : option IpNet :=
  if (prefix_len <=? 32)%Z then Some (Net4 addr prefix_len) else None.
Definition ipv6net_new (addr prefix_len : Z) : option IpNet :=
  if (prefix_len <=? 128)%Z then Some (Net6 addr prefix_len) else None.

(** [Ipv6Addr::to_ipv4_mapped]: the last 32 bits of [::ffff:0:0/96]. *)
Definition to_ipv4_mapped (a : Z) : option Z :=
  if (Z.shiftr a 32 =? 65535)%Z then Some (Z.land a (Z.ones 32)) else None.

(** ** Range maps *)

Class RangeMaps := {
  RangeMap : Type → Type;
  rm_new {T} : RangeMap T;
  rm_insert {T} : Z → Z → T → RangeMap T → RangeMap T;
  rm_get {T} : RangeMap T → Z → option T;
  rm_is_empty {T} : RangeMap T → bool;
  (** [gaps(lo..=hi).next().is_none()] and [overlaps(lo..=hi)] *)
  rm_no_gap {T} : RangeMap T → Z → Z → bool;
  rm_overlaps {T} : RangeMap T → Z → Z → bool;
}.

(** The laws of the sets, the maps to the unit type. *)
Class RangeLaws `{RangeMaps} := {
  rm_get_new x : rm_get (T := unit) rm_new x = None;
  rm_get_insert lo hi (m : RangeMap unit) x : (lo ≤ hi)%Z →
    rm_get (rm_insert lo hi () m) x = if ((lo <=? x) && (x <=? hi))%Z then Some () else rm_get m x;
  rm_is_empty_new : rm_is_empty (T := unit) rm_new = true;
  rm_is_empty_insert lo hi (m : RangeMap unit) : (lo ≤ hi)%Z →
    rm_is_empty (rm_insert lo hi () m) = false;
  rm_no_gap_spec (m : RangeMap unit) lo hi : (lo ≤ hi)%Z →
    rm_no_gap m lo hi = true ↔ ∀ x, (lo ≤ x ≤ hi)%Z → rm_get m x = Some ();
  rm_overlaps_spec (m : RangeMap unit) lo hi : (lo ≤ hi)%Z →
    rm_overlaps m lo hi = true ↔ ∃ x, (lo ≤ x ≤ hi)%Z ∧ rm_get m x = Some ();
}.

(** ** [IpMap] and [IpSet] *)

Section maps.
Context `{NO : NetOps, RM : RangeMaps}.

Record IpMap (T : Type) := { v4 : RangeMap T; v6 : RangeMap T }.
Arguments v4 {T}.
Arguments v6 {T}.

Definition ipmap_default {T} : IpMap T := {| v4 := rm_new; v6 := rm_new |}.

Definition ipmap_is_empty {T} (m : IpMap T) : bool := rm_is_empty (v4 m) && rm_is_empty (v6 m).

Definition ipmap_get {T} (m : IpMap T) (other : IpAddr) : option T :=
  match other with IPv4 addr => rm_get (v4 m) addr | IPv6 addr => rm_get (v6 m) addr end.

Definition ipmap_contains {T} (m : IpMap T) (other : IpAddr) : bool :=
  bool_decide (is_Some (ipmap_get m other)).

Definition ipmap_contains_net {T} (m : IpMap T) (net : IpNet) : bool :=
  match net with
  | Net4 _ _ => rm_no_gap (v4 m) (network net) (broadcast net)
  | Net6 _ _ => rm_no_gap (v6 m) (network net) (broadcast net)
  end.

Definition ipmap_overlap_net {T} (m : IpMap T) (net : IpNet) : bool :=
  match net with
  | Net4 _ _ => rm_overlaps (v4 m) (network net) (broadcast net)
  | Net6 _ _ => rm_overlaps (v6 m) (network net) (broadcast net)
  end.

(** Insertion of a network. *)
Definition ipmap_insert {T} (net : IpNet) (value : T) (m : IpMap T) : IpMap T :=
  match net with
  | Net4 _ _ => {| v4 := rm_insert (network net) (broadcast net) value (v4 m); v6 := v6 m |}
  | Net6 _ _ => {| v4 := v4 m; v6 := rm_insert (network net) (broadcast net) value (v6 m) |}
  end.

(** [extend] and [from_iter] *)
Definition ipmap_extend {T} (m : IpMap T) (l : list (IpNet * T)) : IpMap T :=
  foldl (λ m p, ipmap_insert (fst p) (snd p) m) m l.
Definition ipmap_from_iter {T} (l : list (IpNet * T)) : IpMap T := ipmap_extend ipmap_default l.

Definition IpSet : Type := IpMap unit.
Definition ipset_new (nets : list IpNet) : IpSet := ipmap_from_iter (map (λ n, (n, ())) nets).
End maps.
Arguments IpMap {RM} T.
Arguments v4 {RM T}.
Arguments v6 {RM T}.

(** ** Client rules *)

Inductive Client := MacAddr (mac : string) | ClientNet (net : IpNet).
Record ClientRule := { client : Client; cr_group : string }.

Section client_rules.
Context `{NO : NetOps}.

Definition match_ip (r : ClientRule) (ip : IpAddr) : bool :=
  match client r with MacAddr _ => false | ClientNet ip_net => net_contains_ip ip_net ip end.
Definition match_net (r : ClientRule) (net : IpNet) : bool :=
  match client r with MacAddr _ => false | ClientNet ip_net => net_contains_net ip_net net end.
Definition match_mac (r : ClientRule) (mac : string) : bool :=
  match client r with MacAddr mac_addr => bool_decide (mac_addr = mac) | ClientNet _ => false end.
End client_rules.

(** ** Lemmas *)

Section facts.
Context `{NO : NetOps, !NetLaws, RM : RangeMaps, !RangeLaws}.

Lemma ipset_insert_get (net : IpNet) (s : IpSet) ip :
  ipmap_get (ipmap_insert net () s) ip = if net_contains_ip net ip then Some () else ipmap_get s ip.
Proof.
  destruct net as [a l|a l], ip as [x|x]; cbn [ipmap_insert ipmap_get v4 v6].
  - by rewrite net4_contains, rm_get_insert by apply net_ordered.
  - by rewrite net4_other.
  - by rewrite net6_other.
  - by rewrite net6_contains, rm_get_insert by apply net_ordered.
Qed.

(** An address set contains the addresses of its networks. *)
Lemma ipset_extend_contains (nets : list IpNet) (s : IpSet) ip :
  ipmap_contains (ipmap_extend s (map (λ n, (n, ())) nets)) ip =
  ipmap_contains s ip || existsb (λ n, net_contains_ip n ip) nets.
Proof.
  revert s. unfold ipmap_extend. induction nets as [|n nets IH]; intros s; simpl; [by rewrite orb_false_r|].
  rewrite IH. unfold ipmap_contains. rewrite ipset_insert_get.
  destruct (net_contains_ip n ip); simpl; [|done]. by rewrite orb_true_r.
Qed.

Lemma ipset_new_contains nets ip :
  ipmap_contains (ipset_new nets) ip = existsb (λ n, net_contains_ip n ip) nets.
Proof.
  unfold ipset_new, ipmap_from_iter. rewrite ipset_extend_contains.
  destruct ip; unfold ipmap_contains; simpl; by rewrite rm_get_new.
Qed.

Lemma ipset_insert_nonempty net (s : IpSet) : ipmap_is_empty (ipmap_insert net () s) = false.
Proof.
  destruct net; unfold ipmap_is_empty; simpl; rewrite rm_is_empty_insert by apply net_ordered; [done|apply andb_false_r].
Qed.

Lemma ipset_new_empty nets : ipmap_is_empty (ipset_new nets) = bool_decide (nets = []).
Proof.
  destruct nets as [|n nets _] using rev_ind.
  { unfold ipmap_is_empty. simpl. by rewrite !rm_is_empty_new. }
  rewrite bool_decide_false by (by destruct nets).
  unfold ipset_new, ipmap_from_iter, ipmap_extend. rewrite map_app. simpl. rewrite foldl_snoc. apply ipset_insert_nonempty.
Qed.
End facts.

(** ** A concrete pair of instances *)

Module Ranges.
(** The ranges inserted, the latest first. *)
Definition ranges (T : Type) : Type := list (Z * Z * T).

Definition covers {T} (r : Z * Z * T) (x : Z) : bool := ((fst (fst r) <=? x) && (x <=? snd (fst r)))%Z.

#[export] Instance maps : RangeMaps := {
  RangeMap := ranges;
  rm_new _ := [];
  rm_insert _ lo hi v m := (lo, hi, v) :: m;
  rm_get _ m x := snd <$> List.find (λ r, covers r x) m;
  rm_is_empty _ m := bool_decide (length m = 0);
  rm_no_gap _ m lo hi :=
    forallb (λ i, existsb (λ r, covers r (lo + Z.of_nat i)) m) (seq 0 (Z.to_nat (hi - lo + 1)));
  rm_overlaps _ m lo hi := existsb (λ r, (fst (fst r) <=? hi) && (lo <=? snd (fst r)))%Z
    (List.filter (λ r : Z * Z * _, (fst (fst r) <=? snd (fst r))%Z) m);
}.

Lemma find_existsb {A} (f : A → bool) l : bool_decide (is_Some (List.find f l)) = existsb f l.
Proof. induction l as [|a l IH]; simpl; [done|]. by destruct (f a). Qed.

Lemma get_unit (m : ranges ()) x : rm_get m x = Some () ↔ existsb (λ r, covers r x) m = true.
Proof.
  simpl. rewrite <- find_existsb, bool_decide_eq_true.
  destruct (List.find _ m) as [[? []]|]; simpl; naive_solver.
Qed.

#[export] Instance laws : RangeLaws.
Proof.
  split; simpl; try done.
  - intros. unfold covers at 1. simpl. by case_if.
  - intros m lo hi Hlo. rewrite forallb_forall. setoid_rewrite get_unit. split.
    + intros Hall x Hx. specialize (Hall (Z.to_nat (x - lo))).
      replace (lo + Z.of_nat (Z.to_nat (x - lo)))%Z with x in Hall by lia.
      apply Hall, in_seq. lia.
    + intros Hall i [_ Hi]%in_seq. apply Hall. lia.
  - intros m lo hi Hlo. setoid_rewrite get_unit. setoid_rewrite existsb_exists. split.
    + intros ([[l h] []] & [Hin Hlh]%filter_In & Hr). simpl in *.
      apply andb_true_iff in Hr as [H1 H2]. zify_bool.
      exists (Z.max l lo). split; [lia|]. eexists. split; [done|].
      unfold covers. simpl. apply andb_true_iff. split; apply Z.leb_le; lia.
    + intros (x & Hx & [[l h] []] & Hin & Hc). unfold covers in Hc. simpl in Hc.
      apply andb_true_iff in Hc as [H1 H2]. zify_bool. exists (l, h, ()).
      split; [apply filter_In; split; [done|]; apply Z.leb_le; simpl; lia|].
      simpl. apply andb_true_iff. split; apply Z.leb_le; lia.
Qed.

Definition width (n : IpNet) : Z := match n with Net4 _ _ => 32%Z | Net6 _ _ => 128%Z end.
Definition net_addr (n : IpNet) : Z := match n with Net4 a _ | Net6 a _ => a end.
Definition net_len (n : IpNet) : Z := match n with Net4 _ l | Net6 _ l => l end.
Definition same_family (n : IpNet) (ip : IpAddr) : option Z :=
  match n, ip with Net4 _ _, IPv4 x | Net6 _ _, IPv6 x => Some x | _, _ => None end.
Definition host_bits (n : IpNet) : Z := width n - net_len n.
Definition first (n : IpNet) : Z := Z.shiftl (Z.shiftr (net_addr n) (host_bits n)) (host_bits n).
Definition last_ (n : IpNet) : Z := first n + Z.ones (Z.max 0 (host_bits n)).

#[export] Instance nets : NetOps := {
  network := first;
  broadcast := last_;
  net_contains_ip n ip :=
    match same_family n ip with Some x => ((first n <=? x) && (x <=? last_ n))%Z | None => false end;
  net_contains_net n m :=
    match n, m with
    | Net4 _ _, Net4 _ _ | Net6 _ _, Net6 _ _ => ((first n <=? first m) && (last_ m <=? last_ n))%Z
    | _, _ => false
    end;
}.

#[export] Instance nets_laws : NetLaws.
Proof.
  split; try done. intros n. simpl. unfold last_.
  rewrite Z.ones_equiv. pose proof (Z.pow_pos_nonneg 2 (Z.max 0 (host_bits n))). lia.
Qed.
End Ranges.
