(* ===== verification/Context.v ===== *)
(** * Configuration, requests and the request context

    The options of [RuntimeConfig] the middlewares read, with their defaults
    (src/dns_conf.rs), [ServerOpts] (src/config/server_opts.rs), [IpRule]
    (src/config/mod.rs), [DnsContext] and [DnsRequest] (src/dns.rs). *)

From S2P Require Import Prelude Dns AuditLog IpSet DomainMap DomainRule.

(** ** Options of a listener or of a background request *)

Record ServerOpts := {
  so_group : option string;
  so_rule_group : option string;
  so_no_rule_addr : option bool;
  so_no_rule_nameserver : option bool;
  so_no_rule_ipset : option bool;
  so_no_speed_check : option bool;
  so_no_cache : option bool;
  so_no_rule_soa : option bool;
  so_no_dualstack_selection : option bool;
  so_force_aaaa_soa : option bool;
  so_force_https_soa : option bool;
  so_no_serve_expired : option bool;
  so_is_background : bool;
}.

Definition opts_default : ServerOpts := {|
  so_group := None; so_rule_group := None; so_no_rule_addr := None; so_no_rule_nameserver := None;
  so_no_rule_ipset := None; so_no_speed_check := None; so_no_cache := None; so_no_rule_soa := None;
  so_no_dualstack_selection := None; so_force_aaaa_soa := None; so_force_https_soa := None;
  so_no_serve_expired := None; so_is_background := false |}.

Definition no_rule_addr (o : ServerOpts) : bool := default false (so_no_rule_addr o).
Definition no_rule_nameserver (o : ServerOpts) : bool := default false (so_no_rule_nameserver o).
Definition no_speed_check (o : ServerOpts) : bool := default false (so_no_speed_check o).
Definition opts_no_cache (o : ServerOpts) : bool := default false (so_no_cache o).
Definition no_rule_soa (o : ServerOpts) : bool := default false (so_no_rule_soa o).
Definition no_dualstack_selection (o : ServerOpts) : bool := default false (so_no_dualstack_selection o).
Definition force_aaaa_soa (o : ServerOpts) : bool := default false (so_force_aaaa_soa o).
Definition force_https_soa (o : ServerOpts) : bool := default false (so_force_https_soa o).
Definition opts_no_serve_expired (o : ServerOpts) : bool := default false (so_no_serve_expired o).

Definition set_rule_group (o : ServerOpts) (g : option string) : ServerOpts := {|
  so_group := so_group o; so_rule_group := g; so_no_rule_addr := so_no_rule_addr o;
  so_no_rule_nameserver := so_no_rule_nameserver o; so_no_rule_ipset := so_no_rule_ipset o;
  so_no_speed_check := so_no_speed_check o; so_no_cache := so_no_cache o;
  so_no_rule_soa := so_no_rule_soa o; so_no_dualstack_selection := so_no_dualstack_selection o;
  so_force_aaaa_soa := so_force_aaaa_soa o; so_force_https_soa := so_force_https_soa o;
  so_no_serve_expired := so_no_serve_expired o; so_is_background := so_is_background o |}.

(** ** Filters by client *)

Record IpRule := {
  ir_net : IpNet;
  ir_blacklist : bool;
  ir_whitelist : bool;
  ir_bogus_nxdomain : bool;
  ir_ignore : bool;
}.

(** The addresses an alias stands for; [alias_ptr] is the address of the shared
    allocation. *)
Record IpAlias := { alias_ptr : Z; alias_ips : list IpAddr }.

(** ** The configuration *)

Section context.
Context {Name : Type} `{RD : RuleData, RM : RangeMaps}.
Abbreviation node := (DomainRuleTreeNode Name).

Record RuntimeConfig := {
  cf_rr_ttl : option Z;
  cf_rr_ttl_min : option Z;
  cf_rr_ttl_max : option Z;
  cf_rr_ttl_reply_max : option Z;
  cf_local_ttl : option Z;
  cf_max_reply_ip_num : option Z;
  cf_force_aaaa_soa : option bool;
  cf_force_https_soa : option bool;
  force_qtype_soa : list RecordType;
  domain_rule_group_map : gmap string (DomainMap Name node);
  rule_groups : list (string * RuleGroup Name);
  client_rules : list ClientRule;
  cf_acl_enable : option bool;
  bogus_nxdomain : IpSet;
  ignore_ip : IpSet;
  blacklist_ip : IpSet;
  whitelist_ip : IpSet;
  ip_alias : IpMap IpAlias;
  ip_rules : list IpRule;
  cf_response_mode : option ResponseMode;
  cf_speed_check_mode : option (list SpeedCheckMode);
  cf_dualstack_ip_selection : option bool;
  cf_dualstack_ip_selection_threshold : option Z;
  cf_dualstack_ip_allow_force_aaaa : option bool;
  cf_local_domain : option Name;
  cf_mdns_lookup : option bool;
  dns64_prefix : option (Z * Z);
  cf_force_no_cname : option bool;
  cf_debug_save_fail_packet : option bool;
  cf_audit_soa : option bool;
  cf_cache_size : option Z;
  cf_serve_expired : option bool;
  cf_serve_expired_prefetch_time : option Z;
  cf_cache_negative : option bool;
  cf_prefetch_domain : option bool;
  cf_server_name : option Name;
  cf_domain : option Name;
  cf_hosts_file : option string;
  cf_resolv_hostname : option bool;
  cf_expand_ptr_from_address : option bool;
  cf_local_ptr_enable : option bool;
  cf_dnsmasq_lease_file : option string;
  cf_odhcpd_lease_file : option string;
  cf_ipset_timeout_enable : option bool;
  cf_ipset_no_speed : option string;
  cf_nftset_timeout_enable : option bool;
  cf_nftset_no_speed : option (list (ConfigForIP NFTsetConfig));
}.
Implicit Types c : RuntimeConfig.

Definition cfg_rr_ttl_min c : option Z := or_else (cf_rr_ttl_min c) (cf_rr_ttl c).
Definition cfg_rr_ttl_max c : option Z := or_else (cf_rr_ttl_max c) (cf_rr_ttl c).
Definition local_ttl c : Z := default 10%Z (or_else (cf_local_ttl c) (cfg_rr_ttl_min c)).
Definition cfg_force_aaaa_soa c : bool := default false (cf_force_aaaa_soa c).
Definition cfg_force_https_soa c : bool := default false (cf_force_https_soa c).
Definition acl_enable c : bool := default false (cf_acl_enable c).
Definition cfg_response_mode c : ResponseMode := default FirstPing (cf_response_mode c).
Definition cfg_dualstack_ip_selection c : bool := default true (cf_dualstack_ip_selection c).
Definition dualstack_ip_selection_threshold c : Z := default 10%Z (cf_dualstack_ip_selection_threshold c).
Definition dualstack_ip_allow_force_aaaa c : bool := default false (cf_dualstack_ip_allow_force_aaaa c).
Definition mdns_lookup c : bool := default false (cf_mdns_lookup c).
Definition force_no_cname c : bool := default false (cf_force_no_cname c).
Definition debug_save_fail_packet c : bool := default false (cf_debug_save_fail_packet c).
Definition audit_soa c : bool := default false (cf_audit_soa c).
Definition cache_size c : Z := default 512%Z (cf_cache_size c).
Definition cfg_serve_expired c : bool := default true (cf_serve_expired c).
Definition serve_expired_prefetch_time c : Z := default 0%Z (cf_serve_expired_prefetch_time c).
Definition cfg_cache_negative c : bool := default true (cf_cache_negative c).
Definition cfg_prefetch_domain c : bool := default false (cf_prefetch_domain c).
Definition resolv_hostanme c : bool := default (bool_decide (is_Some (cf_hosts_file c))) (cf_resolv_hostname c).
Definition expand_ptr_from_address c : bool := default false (cf_expand_ptr_from_address c).
Definition local_ptr_enable c : bool := default true (cf_local_ptr_enable c).
Definition ipset_timeout_enable c : bool := default false (cf_ipset_timeout_enable c).
Definition nftset_timeout_enable c : bool := default false (cf_nftset_timeout_enable c).
(** [server_name]: the configured name, else the host's name if it is one, else the
    name of the program. *)
Definition server_name c (hostname : option Name) (program : Name) : Name :=
  default program (or_else (cf_server_name c) hostname).

(** ** Requests *)

Record Edns := { e_subnet : option ClientSubnet; e_dnssec_ok : bool }.

Record DnsRequest := {
  req_id : Z;
  req_query : Query;
  req_src : IpAddr;
  req_port : Z;
  req_protocol : string;
  req_extensions : option Edns;
}.
Implicit Types req : DnsRequest.

(** [DnsRequest::new] on a message with the one query [q]. *)
Definition request_new (id : Z) (q : Query) (ext : option Edns) (src : IpAddr) (port : Z) (protocol : string)
  : DnsRequest :=
  {| req_id := id; req_query := q; req_src := src; req_port := port; req_protocol := protocol;
     req_extensions := ext |}.

(** [Query::query(name, type)]: of the Internet class. *)
Definition query_query (name : string) (t : RecordType) : Query :=
  {| q_name := name; q_type := t; q_class := 1 |}.

Definition query_set_type (q : Query) (t : RecordType) : Query :=
  {| q_name := q_name q; q_type := t; q_class := q_class q |}.

Definition with_cname req (name : string) : DnsRequest :=
  {| req_id := req_id req; req_query := query_query name (q_type (req_query req));
     req_src := req_src req; req_port := req_port req; req_protocol := req_protocol req;
     req_extensions := req_extensions req |}.

Definition set_query_type req (t : RecordType) : DnsRequest :=
  {| req_id := req_id req; req_query := query_set_type (req_query req) t;
     req_src := req_src req; req_port := req_port req; req_protocol := req_protocol req;
     req_extensions := req_extensions req |}.

(** [From<Query> for DnsRequest] *)
Definition request_of_query (id : Z) (q : Query) : DnsRequest :=
  {| req_id := id; req_query := q; req_src := IPv4 2130706433; req_port := 53; req_protocol := "UDP";
     req_extensions := None |}.

(** ** The request context *)

Record DnsContext := {
  cfg : RuntimeConfig;
  server_opts : ServerOpts;
  ctx_domain_rule : option node;
  fastest_speed : Z;
  ctx_source : LookupFrom;
  ctx_no_cache : bool;
  server_group_name : string;
}.
Implicit Types ctx : DnsContext.

Definition set_source ctx (s : LookupFrom) : DnsContext :=
  {| cfg := cfg ctx; server_opts := server_opts ctx; ctx_domain_rule := ctx_domain_rule ctx;
     fastest_speed := fastest_speed ctx; ctx_source := s; ctx_no_cache := ctx_no_cache ctx;
     server_group_name := server_group_name ctx |}.

Definition set_no_cache ctx (b : bool) : DnsContext :=
  {| cfg := cfg ctx; server_opts := server_opts ctx; ctx_domain_rule := ctx_domain_rule ctx;
     fastest_speed := fastest_speed ctx; ctx_source := ctx_source ctx; ctx_no_cache := b;
     server_group_name := server_group_name ctx |}.

(** [DnsContext::new] *)
Definition context_new `{!NameOps Name, !Glob, !HashCode Name} (name : Name) c (o : ServerOpts) : DnsContext :=
  let rc := rule_context_new (domain_rule_group_map c) name (so_group o) (so_rule_group o) in
  {| cfg := c; server_opts := o; ctx_domain_rule := domain_rule rc; fastest_speed := 0;
     ctx_source := From_None; ctx_no_cache := DomainRule.ctx_no_cache rc;
     server_group_name := ctx_server_group_name rc |}.
End context.
Arguments RuntimeConfig Name {RD RM}.
Arguments DnsContext Name {RD RM}.

(** ** Concrete configurations, for the examples *)

Module Example.
Import ListName DomainRule.Example Ranges.

Record settings := {
  s_rr_ttl_min : option Z; s_rr_ttl_max : option Z; s_max_reply_ip_num : option Z;
  s_rules : gmap string (DomainMap name (DomainRuleTreeNode name)); s_clients : list ClientRule;
  s_acl : option bool; s_bogus : list IpNet; s_ip_rules : list IpRule; s_dns64 : option (Z * Z);
}.
Definition no_settings : settings := {|
  s_rr_ttl_min := None; s_rr_ttl_max := None; s_max_reply_ip_num := None; s_rules := ∅; s_clients := [];
  s_acl := None; s_bogus := []; s_ip_rules := []; s_dns64 := None |}.

Record local_settings := {
  s_hosts : option string; s_expand_ptr : option bool; s_local_ptr : option bool;
  s_leases : option string; s_odhcpd : option string; s_domain : option name; s_local_domain : option name;
  s_server_name : option name;
}.
Definition no_local : local_settings := {|
  s_hosts := None; s_expand_ptr := None; s_local_ptr := None; s_leases := None; s_odhcpd := None;
  s_domain := None; s_local_domain := None; s_server_name := None |}.

Definition config_with (s : settings) (l : local_settings) : RuntimeConfig name := {|
  cf_rr_ttl := None; cf_rr_ttl_min := s_rr_ttl_min s; cf_rr_ttl_max := s_rr_ttl_max s;
  cf_rr_ttl_reply_max := None; cf_local_ttl := None; cf_max_reply_ip_num := s_max_reply_ip_num s;
  cf_force_aaaa_soa := None; cf_force_https_soa := None; force_qtype_soa := [];
  domain_rule_group_map := s_rules s; rule_groups := []; client_rules := s_clients s;
  cf_acl_enable := s_acl s; bogus_nxdomain := ipset_new (s_bogus s); ignore_ip := ipset_new [];
  blacklist_ip := ipset_new []; whitelist_ip := ipset_new []; ip_alias := ipmap_default;
  ip_rules := s_ip_rules s; cf_response_mode := None; cf_speed_check_mode := None;
  cf_dualstack_ip_selection := None; cf_dualstack_ip_selection_threshold := None;
  cf_dualstack_ip_allow_force_aaaa := None; cf_local_domain := s_local_domain l; cf_mdns_lookup := None;
  dns64_prefix := s_dns64 s; cf_force_no_cname := None; cf_debug_save_fail_packet := None;
  cf_audit_soa := None; cf_cache_size := None; cf_serve_expired := None;
  cf_serve_expired_prefetch_time := None; cf_cache_negative := None; cf_prefetch_domain := None;
  cf_server_name := s_server_name l; cf_domain := s_domain l; cf_hosts_file := s_hosts l; cf_resolv_hostname := None;
  cf_expand_ptr_from_address := s_expand_ptr l; cf_local_ptr_enable := s_local_ptr l;
  cf_dnsmasq_lease_file := s_leases l; cf_odhcpd_lease_file := s_odhcpd l; cf_ipset_timeout_enable := None;
  cf_ipset_no_speed := None; cf_nftset_timeout_enable := None; cf_nftset_no_speed := None |}.
Definition config (s : settings) : RuntimeConfig name := config_with s no_local.

Definition ctx_of (c : RuntimeConfig name) (r : option (DomainRuleTreeNode name)) : DnsContext name :=
  {| cfg := c; server_opts := opts_default; ctx_domain_rule := r; fastest_speed := 0;
     ctx_source := AuditLog.From_None; ctx_no_cache := false; server_group_name := "default" |}.

(** A request of the client [192.168.1.5]. *)
Definition request (name_ : string) (t : RecordType) : DnsRequest :=
  request_new 7 (query_query name_ t) None (IPv4 3232235781) 5353 "UDP".
End Example.
