(* ===== verification/AddressMw.v ===== *)
(** * The address middleware

    [AddressMiddleware::handle], [handle_rule_addr] and [rr_ttl_bounds]
    (src/dns_mw_addr.rs): static answers from the address rules, and the number of
    addresses and the TTLs of what the rest of the chain answers. *)

From S2P Require Import Prelude Dns IpSet DomainMap DomainRule Context.

(** The type code of HTTPS records. *)
Definition RT_HTTPS : RecordType := RT_Other 65.

(** [Ipv4Addr::to_ipv6_mapped] *)
Definition to_ipv6_mapped (ip : Z) : Z := (Z.shiftl 65535 32 + ip)%Z.

Section middleware.
Context {Name : Type} `{RD : RuleData, RM : RangeMaps}.
Abbreviation node := (DomainRuleTreeNode Name).
Implicit Types ctx : DnsContext Name.

Definition rr_ttl_bounds ctx : option Z * option Z :=
  (u32 <$> or_else (rule_get (λ n, rr_ttl_min (node_rule n)) (ctx_domain_rule ctx)) (cfg_rr_ttl_min (cfg ctx)),
   u32 <$> or_else (rule_get (λ n, rr_ttl_max (node_rule n)) (ctx_domain_rule ctx)) (cfg_rr_ttl_max (cfg ctx))).

(** The loop of [handle_rule_addr] over a rule and the enclosing ones. *)
Fixpoint address_of_rules (query_type : RecordType) (no_soa : bool) (n : node) : option (list RData) :=
  match n with
  | Node _ r z =>
      let parent := match z with Some z' => address_of_rules query_type no_soa z' | None => None end in
      let soa_or_parent := if no_soa then parent else Some [default_soa] in
      match address r with
      | None => parent
      | Some (Addr v4 v6) =>
          match query_type with
          | RT_A =>
              match v4 with
              | Some v4 => Some (map (λ ip, RD_A ip) v4)
              | None => soa_or_parent
              end
          | RT_AAAA =>
              match v6 with
              | Some v6 => Some (map (λ ip, RD_AAAA ip) v6)
              | None =>
                  match v4 with
                  | Some v4 => Some (map (λ ip, RD_AAAA (to_ipv6_mapped ip)) v4)
                  | None => soa_or_parent
                  end
              end
          | _ => None
          end
      | Some DomainRule.SOA => soa_or_parent
      | Some SOAv4 => if bool_decide (query_type = RT_A) then soa_or_parent else parent
      | Some SOAv6 => if bool_decide (query_type = RT_AAAA) then soa_or_parent else parent
      | Some IGN => None
      | Some IGNv4 => if bool_decide (query_type = RT_A) then None else parent
      | Some IGNv6 => if bool_decide (query_type = RT_AAAA) then None else parent
      end
  end.

(** The types that are answered with a SOA record whatever the name. *)
Definition forced_soa (query_type : RecordType) ctx : bool :=
  bool_decide (query_type = RT_AAAA) && (force_aaaa_soa (server_opts ctx) || cfg_force_aaaa_soa (cfg ctx)) ||
  bool_decide (query_type = RT_HTTPS) && (force_https_soa (server_opts ctx) || cfg_force_https_soa (cfg ctx)) ||
  bool_decide (query_type ∈ force_qtype_soa (cfg ctx)).

Definition handle_rule_addr (query_type : RecordType) ctx : option (list RData) :=
  let no_soa := no_rule_soa (server_opts ctx) in
  if negb no_soa && forced_soa query_type ctx then Some [default_soa]
  else if no_rule_addr (server_opts ctx) || negb (is_ip_addr query_type) then None
  else ctx_domain_rule ctx ≫= address_of_rules query_type no_soa.

Definition is_address (r : Record_) : bool :=
  match r_data r with RD_A _ | RD_AAAA _ => true | _ => false end.

(** The position after the address with which the allowed number is reached. *)
Fixpoint truncate_at (max_reply_ip_num : Z) (i : nat) (records : list Record_) : option nat :=
  match records with
  | [] => None
  | r :: rs =>
      if is_address r then
        if (max_reply_ip_num - 1 =? 0)%Z then Some (i + 1)
        else truncate_at (max_reply_ip_num - 1) (S i) rs
      else truncate_at max_reply_ip_num (S i) rs
  end.

(** The [Cow] of records after the limit on addresses: the records, and whether
    they are a copy. *)
Definition limit_records (query_type : RecordType) ctx (records : list Record_) : list Record_ * bool :=
  match cf_max_reply_ip_num (cfg ctx) with
  | Some n =>
      if is_ip_addr query_type && (0 <? n)%Z then
        match truncate_at n 0 records with
        | Some t => if t <? length records then (take t records, true) else (records, false)
        | None => (records, false)
        end
      else (records, false)
  | None => (records, false)
  end.

Definition bound_ttls ctx (records : list Record_) : list Record_ * bool :=
  let '(min, max) := rr_ttl_bounds ctx in
  let reply_max := u32 <$> cf_rr_ttl_reply_max (cfg ctx) in
  if bool_decide (is_Some min) || bool_decide (is_Some max) || bool_decide (is_Some reply_max)
  then (map (from_option set_max_ttl id reply_max) (clamp_ttl_bounds min max records), true)
  else (records, false).

Definition rebuild (default_query : Query) (lookup : DnsResponse) (records : list Record_) : DnsResponse :=
  let res := new_with_deadline (default default_query (head (queries lookup))) records (valid_until lookup) in
  let res := if from_cache lookup then mark_from_cache res else res in
  match name_server_group lookup with Some g => with_name_server_group res g | None => res end.

(** The reply to a request the rules answer, at time [now]. *)
Definition static_reply ctx (query : Query) (now : Z) (rdatas : list RData) : DnsResponse :=
  let ttl := local_ttl (cfg ctx) in
  new_with_deadline query
    (map (λ d, {| r_name := q_name query; r_class := 1; r_ttl := u32 ttl; r_data := d |}) rdatas)
    (now + secs ttl).

(** The reply to a request that passes through. *)
Definition passed_reply (default_query : Query) ctx (query : Query) (lookup : DnsResponse) : DnsResponse :=
  let '(rs, cut) := limit_records (q_type query) ctx (records lookup) in
  let '(rs, bounded) := bound_ttls ctx rs in
  if cut || bounded then rebuild default_query lookup rs else lookup.

(** The answer and whether it is static; [next] is what the rest of the chain
    would answer, [now] the time of a static answer. *)
Definition handle (default_query : Query) ctx (query : Query) (now : Z)
    (next : result DnsResponse LookupError) : result DnsResponse LookupError * bool :=
  match handle_rule_addr (q_type query) ctx with
  | Some rdatas => (Ok (static_reply ctx query now rdatas), true)
  | None =>
      match next with
      | Ok lookup => (Ok (passed_reply default_query ctx query lookup), false)
      | Err err => (Err err, false)
      end
  end.
End middleware.

(** ** Lemmas *)

Section facts.
Context {Name : Type} `{RD : RuleData, RM : RangeMaps}.
Implicit Types ctx : DnsContext Name.

(** Every static answer has the type that was asked for, or is the SOA record. *)
Lemma address_of_rules_typed query_type no_soa (n : DomainRuleTreeNode Name) l :
  is_ip_addr query_type = true → address_of_rules query_type no_soa n = Some l →
  l = [default_soa] ∧ no_soa = false ∨
  Forall (λ d, match d with RD_A _ => query_type = RT_A | RD_AAAA _ => query_type = RT_AAAA
               | _ => False end) l.
Proof.
  intros Hip. revert l. induction n as [w r|w r z IH] using node_zone_ind; intros l; simpl;
    intros Hl; repeat (case_match; simplify_eq; try discriminate); auto;
    right; by apply Forall_map, Forall_true.
Qed.

(** [l] is [rs] cut right after its [n]th address, or all of [rs] if it has fewer. *)
Definition cut_after (n : Z) (rs l : list Record_) : Prop :=
  (count_if is_address rs < n)%Z ∧ l = rs ∨
  count_if is_address l = n ∧ ∃ pre r rest, rs = pre ++ r :: rest ∧ l = pre ++ [r] ∧ is_address r = true.

Lemma truncate_at_cut n i rs :
  (0 < n)%Z → ∃ k, cut_after n rs (take k rs) ∧
    (truncate_at n i rs = Some (i + k) ∨ truncate_at n i rs = None ∧ take k rs = rs).
Proof.
  revert n i. induction rs as [|r rs IH]; intros n i Hn; cbn [truncate_at].
  { exists 0. split; [left|right]; done. }
  destruct (is_address r) eqn:Er; [destruct (n - 1 =? 0)%Z eqn:E; zify_bool|].
  - exists 1. split; [|left; f_equal; lia]. right. cbn [take]. rewrite firstn_O, count_if_cons, Er. split; [cbn; lia|].
    by exists [], r, rs.
  - destruct (IH (n - 1)%Z (S i) ltac:(lia)) as (k & Hc & Ht). exists (S k). cbn [take]. split.
    + destruct Hc as [[Hc ->]|(Hc & pre & x & rest & Hrs & Ht' & Hx)]; [left|right]; rewrite count_if_cons, Er; cbn [Z.b2z].
      * split; [lia|done].
      * split; [lia|]. exists (r :: pre), x, rest. by rewrite Ht', Hrs.
    + destruct Ht as [->|[-> ->]]; [left; f_equal; lia|by right].
  - destruct (IH n (S i) Hn) as (k & Hc & Ht). exists (S k). cbn [take]. split.
    + destruct Hc as [[Hc ->]|(Hc & pre & x & rest & Hrs & Ht' & Hx)]; [left|right]; rewrite count_if_cons, Er; cbn [Z.b2z].
      * split; [lia|done].
      * split; [lia|]. exists (r :: pre), x, rest. by rewrite Ht', Hrs.
    + destruct Ht as [->|[-> ->]]; [left; f_equal; lia|by right].
Qed.

Lemma limit_records_spec query_type ctx rs :
  let l := fst (limit_records query_type ctx rs) in
  (snd (limit_records query_type ctx rs) = false → l = rs) ∧
  match cf_max_reply_ip_num (cfg ctx) with
  | Some n => if is_ip_addr query_type && (0 <? n)%Z then cut_after n rs l else l = rs
  | None => l = rs
  end.
Proof.
  unfold limit_records. destruct (cf_max_reply_ip_num (cfg ctx)) as [n|]; [|done].
  destruct (_ && _) eqn:E; [|done]. apply andb_true_iff in E as [_ Hn]. zify_bool.
  destruct (truncate_at_cut n 0 rs Hn) as (k & Hc & [->|[-> E]]); [|by rewrite E in Hc].
  cbn [Nat.add]. destruct (k <? length rs) eqn:Ek; [done|]. apply Nat.ltb_ge in Ek. by rewrite take_ge in Hc.
Qed.

Definition within (lo : option Z) (his : list (option Z)) (t : Z) : Prop :=
  (∀ h, Some h ∈ his → (t ≤ h)%Z) ∧
  (∀ l, lo = Some l → (∀ h, Some h ∈ his → (l ≤ h)%Z) → (l ≤ t)%Z).

(** The TTL of a record raised to the lower bound and then cut to the upper ones. *)
Definition raised (lo : option Z) (t : Z) : Z := match lo with Some l => Z.max l t | None => t end.
Definition capped (hi : option Z) (t : Z) : Z := match hi with Some h => Z.min h t | None => t end.
Definition bounded (lo hi top : option Z) (r : Record_) : Record_ :=
  {| r_name := r_name r; r_class := r_class r; r_ttl := capped top (capped hi (raised lo (r_ttl r))); r_data := r_data r |}.

Lemma bounded_within lo hi top r : within lo [hi; top] (r_ttl (bounded lo hi top r)).
Proof.
  unfold within, bounded, raised, capped. cbn [r_ttl]. split.
  - intros h [Hh|[Hh|[]%not_elem_of_nil]%elem_of_cons]%elem_of_cons; simplify_eq; destruct lo; try destruct hi; try destruct top; cbn; lia.
  - intros l -> Hl. assert (H1 : ∀ h, hi = Some h → (l ≤ h)%Z) by (intros h ->; apply Hl; set_solver).
    assert (H2 : ∀ h, top = Some h → (l ≤ h)%Z) by (intros h ->; apply Hl; set_solver).
    destruct hi as [h|], top as [h'|]; try specialize (H1 _ eq_refl); try specialize (H2 _ eq_refl); cbn; lia.
Qed.

Lemma bound_ttls_spec ctx rs :
  let '(lo, hi) := rr_ttl_bounds ctx in
  let l := fst (bound_ttls ctx rs) in
  l = map (bounded lo hi (u32 <$> cf_rr_ttl_reply_max (cfg ctx))) rs ∧
  (snd (bound_ttls ctx rs) = false → l = rs).
Proof.
  assert (Hmax : ∀ t r, set_max_ttl t r = {| r_name := r_name r; r_class := r_class r; r_ttl := Z.min t (r_ttl r); r_data := r_data r |}).
  { intros t [n c x d]. unfold set_max_ttl. cbn [r_ttl] in *; case_if; zify_bool; unfold with_ttl; cbn [r_name r_class r_ttl r_data]; f_equal; lia. }
  assert (Hmin : ∀ t r, set_min_ttl t r = {| r_name := r_name r; r_class := r_class r; r_ttl := Z.max t (r_ttl r); r_data := r_data r |}).
  { intros t [n c x d]. unfold set_min_ttl. cbn [r_ttl] in *; case_if; zify_bool; unfold with_ttl; cbn [r_name r_class r_ttl r_data]; f_equal; lia. }
  unfold bound_ttls. destruct (rr_ttl_bounds ctx) as [lo hi].
  generalize (u32 <$> cf_rr_ttl_reply_max (cfg ctx)). intros top.
  destruct (bool_decide (is_Some lo) || _ || _) eqn:E; cbn [fst snd]; (split; [|done]).
  - unfold clamp_ttl_bounds. rewrite map_map. apply map_ext. intros []. unfold bounded.
    destruct lo, hi, top; cbn [from_option id raised capped]; by rewrite ?Hmax, ?Hmin.
  - apply orb_false_iff in E as [[E1 E2]%orb_false_iff E3]. apply bool_decide_eq_false in E1, E2, E3.
    destruct lo, hi, top; try (exfalso; eauto; fail). rewrite <-(map_id rs) at 1. apply map_ext. by intros [].
Qed.
End facts.

Section properties.
Context {Name : Type} `{RD : RuleData, RM : RangeMaps}.
Context (default_query : Query) (ctx : DnsContext Name) (query : Query) (now : Z).

(** Static answers: when the rules answer a request, the rest of the chain has
    no part in it; the answer is for the query, lives as long as the local TTL and
    consists of addresses of the type that was asked for - or is a single SOA
    record, which happens only where SOA rules are not skipped - each under the
    name of the query with the local TTL. *)
Theorem static_answer (next : result DnsResponse LookupError)
    (Hstatic : snd (handle default_query ctx query now next) = true) :
  (∀ next', handle default_query ctx query now next' = handle default_query ctx query now next) ∧
  ∃ res, fst (handle default_query ctx query now next) = Ok res ∧
    queries res = [query] ∧ valid_until res = (now + secs (local_ttl (cfg ctx)))%Z ∧
    Forall (λ r, r_name r = q_name query ∧ r_ttl r = u32 (local_ttl (cfg ctx))) (answers res) ∧
    (map r_data (answers res) = [default_soa] ∧ no_rule_soa (server_opts ctx) = false ∨
     no_rule_addr (server_opts ctx) = false ∧ is_ip_addr (q_type query) = true ∧
     Forall (λ r, record_type r = q_type query) (answers res)).
Proof.
  unfold handle in *. destruct (handle_rule_addr (q_type query) ctx) as [l|] eqn:E.
  2:{ by destruct next. }
  split; [done|]. eexists. split; [done|]. simpl. split_and!; [done|done|..].
  { apply Forall_map, Forall_true. done. }
  rewrite map_map. simpl. unfold handle_rule_addr in E. case_match eqn:Ef.
  { simplify_eq. left. split; [done|]. by apply andb_true_iff in Ef as [?%negb_true_iff _]. }
  destruct (no_rule_addr (server_opts ctx)); simpl in E; [done|].
  destruct (is_ip_addr (q_type query)) eqn:Eip; simpl in E; [|done].
  destruct (ctx_domain_rule ctx) as [n|]; simpl in E; [|done].
  destruct (address_of_rules_typed _ _ _ _ Eip E) as [[-> ?]|Hty]; [by left|].
  right. split_and!; [done|done|]. apply Forall_map. eapply Forall_impl; [exact Hty|].
  intros []; by simpl.
Qed.

(** C25. Answers that pass through: of what the rest of the chain answers the records
    up to the configured number of addresses are returned, in order - all of them if
    there are fewer, if no positive number is configured or if it is not addresses that
    are asked for, else those up to and with the last address allowed - each with its
    TTL raised to the lower bound and then cut to the upper ones, and with origin,
    group and deadline kept; but as soon as a bound is configured the reply has no
    authority section, and so no SOA record, and its code is NOERROR. *)
Theorem passed_answer (up : DnsResponse) (Hpass : handle_rule_addr (q_type query) ctx = None) :
  let '(lo, hi) := rr_ttl_bounds ctx in
  let top := u32 <$> cf_rr_ttl_reply_max (cfg ctx) in
  ∃ res kept, handle default_query ctx query now (Ok up) = (Ok res, false) ∧
    answers res = map (bounded lo hi top) kept ∧
    match cf_max_reply_ip_num (cfg ctx) with
    | Some n => if is_ip_addr (q_type query) && (0 <? n)%Z then cut_after n (answers up) kept else kept = answers up
    | None => kept = answers up
    end ∧
    Forall (λ r, within lo [hi; top] (r_ttl r)) (answers res) ∧
    from_cache res = from_cache up ∧ name_server_group res = name_server_group up ∧
    valid_until res = valid_until up ∧
    (res = up ∨ authorities res = [] ∧ response_code res = NoError) ∧
    (is_Some lo ∨ is_Some hi ∨ is_Some top → authorities res = [] ∧ response_code res = NoError).
Proof.
  assert (Hb := bound_ttls_spec ctx). destruct (rr_ttl_bounds ctx) as [lo hi] eqn:Eb.
  unfold handle, passed_reply. rewrite Hpass.
  destruct (limit_records_spec (q_type query) ctx (records up)) as (Hsame & Hcut).
  destruct (limit_records (q_type query) ctx (records up)) as [rs cut]. cbn [fst snd] in *.
  specialize (Hb rs).
  assert (Hsnd : snd (bound_ttls ctx rs) =
    bool_decide (is_Some lo) || bool_decide (is_Some hi) ||
    bool_decide (is_Some (u32 <$> cf_rr_ttl_reply_max (cfg ctx)))).
  { unfold bound_ttls. rewrite Eb. by destruct (_ || _). }
  destruct (bound_ttls ctx rs) as [rs' bd]. cbn [fst snd] in *. destruct Hb as (Hb & Hsame').
  assert (Hans : ∀ q, answers (rebuild q up rs') = rs' ∧ from_cache (rebuild q up rs') = from_cache up ∧
    name_server_group (rebuild q up rs') = name_server_group up ∧
    valid_until (rebuild q up rs') = valid_until up ∧
    authorities (rebuild q up rs') = [] ∧ response_code (rebuild q up rs') = NoError).
  { intros q. unfold rebuild. destruct (from_cache up) eqn:?, (name_server_group up) eqn:?; done. }
  assert (Hw : Forall (λ r, within lo [hi; u32 <$> cf_rr_ttl_reply_max (cfg ctx)] (r_ttl r)) rs').
  { rewrite Hb. apply Forall_map, Forall_true. intros r. apply bounded_within. }
  eexists _, rs. split; [done|]. destruct (cut || bd) eqn:Eo.
  - destruct (Hans default_query) as (-> & -> & -> & -> & -> & ->). split_and!; auto.
  - apply orb_false_iff in Eo as [-> ->]. specialize (Hsame eq_refl). specialize (Hsame' eq_refl). unfold records in *.
    split_and!; auto; [congruence..|].
    symmetry in Hsnd. apply orb_false_iff in Hsnd as [[E1 E2]%orb_false_iff E3].
    apply bool_decide_eq_false in E1, E2, E3. naive_solver.
Qed.
End properties.

(** ** A concrete request *)

Module Example.
Import ListName DomainRule.Example Ranges Context.Example.

Definition www_query (t : RecordType) : Query :=
  {| q_name := "www.example.com"; q_type := t; q_class := 1 |}.

(** [address /example.com/1.2.3.4], found from a rule below it without an address. *)
Definition www_rule : DomainRuleTreeNode name :=
  Node (Default (["www"; "example"; "com"], false)) rule_default
    (Some (Node (Default (["example"; "com"], false)) (set_address (Addr (Some [16909060%Z]) None) rule_default) None)).

Definition config_of (min max : option Z) (ips : option Z) : RuntimeConfig name :=
  config {| s_rr_ttl_min := min; s_rr_ttl_max := max; s_max_reply_ip_num := ips; s_rules := ∅;
            s_clients := []; s_acl := None; s_bogus := []; s_ip_rules := []; s_dns64 := None |}.
Definition static_ctx : DnsContext name := ctx_of (config_of None None None) (Some www_rule).
Definition bounded_ctx : DnsContext name := ctx_of (config_of (Some 50%Z) (Some 100%Z) (Some 1%Z)) None.

Definition a_record (ttl : Z) (ip : Z) : Record_ :=
  {| r_name := "www.example.com"; r_class := 1; r_ttl := ttl; r_data := RD_A ip |}.
Definition upstream : DnsResponse :=
  {| queries := [www_query RT_A]; response_code := NXDomain;
     answers := [a_record 20 134744072; a_record 900 134743044];
     authorities := [{| r_name := "com"; r_class := 1; r_ttl := 900; r_data := RD_SOA 900 |}];
     valid_until := 0; name_server_group := Some "office"; from_cache := false |}.

(** An IPv6 query is answered with the IPv4 address of the enclosing rule. *)
Lemma static_answer_witness :
  ∃ res, fst (handle (www_query RT_A) static_ctx (www_query RT_AAAA) 0 (Ok upstream)) = Ok res ∧
    map r_data (answers res) = [RD_AAAA 281470698652420] ∧
    Forall (λ r, r_name r = "www.example.com" ∧ r_ttl r = u32 (local_ttl (cfg static_ctx))) (answers res).
Proof.
  destruct (static_answer (www_query RT_A) static_ctx (www_query RT_AAAA) 0 (Ok upstream) eq_refl)
    as (_ & res & Hres & _ & _ & Hall & _).
  exists res. split; [exact Hres|]. split; [|exact Hall].
  vm_compute in Hres. injection Hres as <-. vm_compute. reflexivity.
Defined.

(** One address, its TTL raised to the lower bound; the SOA record is gone. *)
Lemma passed_answer_witness :
  ∃ res, handle (www_query RT_A) bounded_ctx (www_query RT_A) 0 (Ok upstream) = (Ok res, false) ∧
    answers res = [a_record 50 134744072] ∧ name_server_group res = Some "office" ∧ authorities res = [].
Proof.
  destruct (passed_answer (www_query RT_A) bounded_ctx (www_query RT_A) 0 upstream eq_refl)
    as (res & kept & Hres & _ & _ & _ & _ & Hg & _ & _ & Hsoa).
  exists res. split; [exact Hres|].
  split; [vm_compute in Hres; injection Hres as <-; vm_compute; reflexivity|].
  split; [exact Hg|]. apply Hsoa. left. by eexists.
Defined.
End Example.
