(* ===== verification/Middleware.v ===== *)
(** * The middleware chain

    [Next], [MiddlewareBuilder] and [MiddlewareHost] (src/infra/middleware.rs):
    handlers registered in order, each of which may run the rest of the chain any
    number of times, with a default handler at the end.

    A handler gets the request context, which it may change, the request and the
    state of the server; the state of the world [W] stands for everything the
    handlers share (the cache, the logs, the upstream servers, the clock). *)

From S2P Require Import Prelude.

(** Reading the clock: an [Instant] and the Unix time in seconds.  Time passes
    between two readings, which is a change of the world. *)
Class Clock (W : Type) := { read_clock : W → (Z * Z) * W }.

Section chain.
Context {Ctx Req Res Err W : Type}.

(** An asynchronous handler run to completion: its result, the context and the
    world it leaves. *)
Definition handler : Type := Ctx → Req → W → result Res Err * Ctx * W.

(** [Middleware::handle]: the rest of the chain, [Next], is itself a handler. *)
Definition middleware : Type := handler → handler.

(** [Next::run]: the first middleware of the slice gets the rest, an empty slice
    runs the default handler. *)
Fixpoint run (default_ : handler) (middlewares : list middleware) : handler :=
  match middlewares with
  | [] => default_
  | current :: rest => λ ctx req w, current (run default_ rest) ctx req w
  end.

Record MiddlewareBuilder := { default_ : handler; middleware_stack : list middleware }.

Definition builder_new (d : handler) : MiddlewareBuilder :=
  {| default_ := d; middleware_stack := [] |}.

(** [with] and [with_arc] *)
Definition with_ (b : MiddlewareBuilder) (m : middleware) : MiddlewareBuilder :=
  {| default_ := default_ b; middleware_stack := middleware_stack b ++ [m] |}.

(** [MiddlewareHost::execute] *)
Definition execute (b : MiddlewareBuilder) : handler := run (default_ b) (middleware_stack b).

(** Equality of handlers on every input. *)
#[export] Instance handler_equiv : Equiv handler := λ h1 h2, ∀ ctx req w, h1 ctx req w = h2 ctx req w.
#[export] Instance handler_equivalence : Equivalence (≡@{handler}).
Proof.
  split; [by intros h ctx req w|by intros h1 h2 E ctx req w; rewrite E|].
  intros h1 h2 h3 E1 E2 ctx req w. by rewrite E1.
Qed.

(** A middleware depends only on what the rest of the chain does. *)
Definition extensional (m : middleware) : Prop := Proper ((≡) ==> (≡)) m.

(** The chain is the composition of its middlewares, outermost first. *)
Lemma run_app d ms1 ms2 : run d (ms1 ++ ms2) = run (run d ms2) ms1.
Proof. induction ms1 as [|m ms1 IH]; simpl; [done|]. by rewrite IH. Qed.

#[export] Instance run_proper ms :
  Forall extensional ms → Proper ((≡) ==> (≡)) (λ d, run d ms).
Proof.
  induction 1 as [|m ms Hm _ IH]; intros d1 d2 Hd; simpl; [done|].
  intros ctx req w. apply Hm, IH, Hd.
Qed.

(** A middleware that runs the rest of the chain once and hands on what it
    answers, with the same context and world, can be left out. *)
Definition transparent (m : middleware) : Prop := ∀ next : handler, m next ≡ next.

Lemma run_transparent d ms1 m ms2 :
  Forall extensional ms1 → transparent m → run d (ms1 ++ m :: ms2) ≡ run d (ms1 ++ ms2).
Proof.
  intros Hext Hm. rewrite !run_app. apply run_proper; [done|]. simpl. intros ctx req w. apply Hm.
Qed.

Lemma builder_stack b ms :
  execute (foldl with_ b ms) = run (default_ b) (middleware_stack b ++ ms).
Proof.
  revert b. induction ms as [|m ms IH]; intros b; simpl; [by rewrite app_nil_r|].
  rewrite IH. simpl. by rewrite <- app_assoc.
Qed.
End chain.
Arguments handler : clear implicits.
Arguments middleware : clear implicits.
Arguments MiddlewareBuilder : clear implicits.
