(* ===== verification/Search.v ===== *)
(** * The entry of the middleware chain

    [DnsMiddlewareHandler::search] and [lookup], [ipnet_from_subnet] and
    [DnsDefaultHandler] (src/dns_mw.rs): which client rule a request falls under,
    the access control list, and the context the chain runs in. *)

From S2P Require Import Prelude Dns AuditLog IpSet DomainMap DomainRule Context Middleware.

(** The fields of hickory's client-subnet option. *)
Class EcsOps `{RuleData} := {
  subnet_addr : ClientSubnet → IpAddr;
  subnet_source_prefix : ClientSubnet → Z;
}.

(** Names of queries as keys of the rule maps, and back. *)
Class NameText (Name : Type) := {
  to_name : string → Name;
  name_text : Name → string;
}.

Definition ipnet_from_subnet (addr : IpAddr) (source_prefix : Z) : option IpNet :=
  match addr with
  | IPv4 addr => ipv4net_new addr source_prefix
  | IPv6 addr =>
      match to_ipv4_mapped addr with
      | Some addr => ipv4net_new addr source_prefix
      | None => ipv6net_new addr source_prefix
      end
  end.

(** The client's address, an IPv4 address mapped into IPv6 as itself. *)
Definition unmapped (ip : IpAddr) : IpAddr :=
  match ip with
  | IPv6 addr => match to_ipv4_mapped addr with Some addr => IPv4 addr | None => ip end
  | _ => ip
  end.

Section search.
Context {Name : Type} `{!NameOps Name, !Glob, !HashCode Name, NT : !NameText Name, RD : RuleData, EO : !EcsOps}.
Context `{NO : NetOps, RM : RangeMaps} {W : Type}.
Abbreviation chain_handler := (handler (DnsContext Name) DnsRequest DnsResponse LookupError W).

Definition client_subnet (req : DnsRequest) : option IpNet :=
  req_extensions req ≫= λ e, e_subnet e ≫= λ s, ipnet_from_subnet (subnet_addr s) (subnet_source_prefix s).

(** The group of the first client rule the request matches. *)
Definition rule_group_name (c : RuntimeConfig Name) (req : DnsRequest) : option string :=
  match client_subnet req with
  | Some subnet => cr_group <$> List.find (λ s, match_net s subnet) (client_rules c)
  | None => cr_group <$> List.find (λ s, match_ip s (unmapped (req_src req))) (client_rules c)
  end.

Definition search (host : chain_handler) (c : RuntimeConfig Name) (req : DnsRequest) (o : ServerOpts) (w : W)
  : result DnsResponse LookupError * W :=
  let o := set_rule_group o (rule_group_name c req) in
  if acl_enable c && negb (bool_decide (is_Some (so_rule_group o))) && negb (so_is_background o)
  then (Err (LE_ResponseCode Refused), w)
  else
    let '(res, _, w) := host (context_new (to_name (q_name (req_query req))) c o) req w in
    (res, w).

(** [DnsMiddlewareHandler::lookup] *)
Definition lookup_name (host : chain_handler) (c : RuntimeConfig Name) (id : Z) (name : string) (t : RecordType)
  : W → result DnsResponse LookupError * W :=
  search host c (request_of_query id (query_query name t)) opts_default.

(** [DnsDefaultHandler::handle] *)
Definition default_handler : chain_handler :=
  λ ctx req w, (Err (no_records_found (req_query req) (u32 (default 0%Z (cf_rr_ttl (cfg ctx))))), ctx, w).

(** ** Properties *)

Lemma find_first {A} (f : A → bool) l x :
  List.find f l = Some x → ∃ l1 l2, l = l1 ++ x :: l2 ∧ f x = true ∧ Forall (λ y, f y = false) l1.
Proof.
  induction l as [|y l IH]; simpl; [done|]. destruct (f y) eqn:E.
  - intros [= <-]. exists [], l. auto.
  - intros (l1 & l2 & -> & Hx & Hl)%IH. exists (y :: l1), l2. auto.
Qed.

(** Whether a client rule applies to a request: to its client subnet when it
    carries a valid one, else to its source address. *)
Definition applies (req : DnsRequest) (r : ClientRule) : bool :=
  match client_subnet req with
  | Some subnet => match_net r subnet
  | None => match_ip r (unmapped (req_src req))
  end.

Lemma rule_group_name_find c req :
  rule_group_name c req = cr_group <$> List.find (applies req) (client_rules c).
Proof. unfold rule_group_name, applies. by destruct (client_subnet req). Qed.

Lemma rule_group_none c req :
  rule_group_name c req = None ↔ Forall (λ r, applies req r = false) (client_rules c).
Proof.
  rewrite rule_group_name_find. induction (client_rules c) as [|r l IH]; simpl; [by split|].
  destruct (applies req r) eqn:E; simpl; rewrite Forall_cons; [naive_solver congruence|tauto].
Qed.

(** C15. Access control: with the access control list on, a request that is not a
    background request and to which no client rule applies is refused before any
    part of the chain runs - nothing is counted, logged or asked upstream.  Every
    other request runs the chain in a context of the rule group of the first
    client rule that applies, and without a rule group when none does. *)
Theorem search_access (host : chain_handler) (c : RuntimeConfig Name) (req : DnsRequest) (o : ServerOpts) (w : W) :
  let unknown := Forall (λ r, applies req r = false) (client_rules c) in
  let run_as g := let '(res, _, w') :=
    host (context_new (to_name (q_name (req_query req))) c (set_rule_group o g)) req w in (res, w') in
  (acl_enable c = true ∧ unknown ∧ so_is_background o = false ∧
     search host c req o w = (Err (LE_ResponseCode Refused), w)) ∨
  (unknown ∧ (acl_enable c = false ∨ so_is_background o = true) ∧ search host c req o w = run_as None) ∨
  (∃ l1 r l2, client_rules c = l1 ++ r :: l2 ∧ applies req r = true ∧
     Forall (λ r, applies req r = false) l1 ∧ search host c req o w = run_as (Some (cr_group r))).
Proof.
  cbv zeta. unfold search. rewrite <- rule_group_none, rule_group_name_find.
  destruct (List.find (applies req) (client_rules c)) as [r|] eqn:E; simpl.
  - destruct (find_first _ _ _ E) as (l1 & l2 & Hl & Hr & Hl1). right. right. exists l1, r, l2.
    by rewrite andb_false_r.
  - rewrite andb_true_r. destruct (acl_enable c), (so_is_background o); simpl; auto 8.
Qed.

(** What a client can make of its subnet option: a network of its own family with
    a prefix that fits, whatever prefix it claims. *)
Lemma ipnet_from_subnet_valid addr p net :
  ipnet_from_subnet addr p = Some net →
  match net with
  | Net4 a l => l = p ∧ (p ≤ 32)%Z ∧ unmapped addr = IPv4 a
  | Net6 a l => l = p ∧ (p ≤ 128)%Z ∧ unmapped addr = IPv6 a
  end.
Proof.
  unfold ipnet_from_subnet, unmapped, ipv4net_new, ipv6net_new.
  destruct addr as [a|a]; [|destruct (to_ipv4_mapped a)]; intros; case_match; simplify_eq; zify_bool; auto.
Qed.
End search.
