(* ===== verification/RewriteMw.v ===== *)
(** * Middlewares that rewrite requests and answers

    [DnsForceNoCnameMiddleware], [DnsCNameMiddleware] (src/dns_mw_cname.rs) and
    [DnsBogusMiddleware] (src/dns_mw_bogus.rs) with the client-dependent address
    sets of src/dns_conf.rs. *)

From S2P Require Import Prelude Dns AuditLog IpSet DomainMap DomainRule Context Middleware Search.

(** ** Address sets by client (src/dns_conf.rs) *)

Section ip_rules.
Context {Name : Type} `{RD : RuleData, NO : NetOps, RM : RangeMaps}.
Implicit Types c : RuntimeConfig Name.

Definition merge_ips (global : IpSet) (extra : list IpNet) : IpSet :=
  match extra with [] => global | _ => ipmap_extend global (map (λ n, (n, ())) extra) end.

(** The ignored, the blacklisted and the whitelisted addresses for a client. *)
Definition ip_rule_sets_for c (client_ip : IpAddr) : IpSet * IpSet * IpSet :=
  match ip_rules c with
  | [] => (ignore_ip c, blacklist_ip c, whitelist_ip c)
  | rules =>
      let matching := List.filter (λ r, net_contains_ip (ir_net r) client_ip) rules in
      (merge_ips (ignore_ip c) (map ir_net (List.filter ir_ignore matching)),
       merge_ips (blacklist_ip c) (map ir_net (List.filter ir_blacklist matching)),
       merge_ips (whitelist_ip c) (map ir_net (List.filter ir_whitelist matching)))
  end.

Definition ip_rule_bogus_set_for c (client_ip : IpAddr) : IpSet :=
  ipset_new (map ir_net
    (List.filter (λ r, ir_bogus_nxdomain r && net_contains_ip (ir_net r) client_ip) (ip_rules c))).
End ip_rules.

(** ** The middlewares *)

Section middlewares.
Context {Name : Type} `{!NameOps Name, !Glob, !HashCode Name, NT : !NameText Name, RD : RuleData}.
Context `{NO : NetOps, RM : RangeMaps} {W : Type} `{CK : !Clock W}.
Abbreviation chain_handler := (handler (DnsContext Name) DnsRequest DnsResponse LookupError W).
Abbreviation chain_mw := (middleware (DnsContext Name) DnsRequest DnsResponse LookupError W).
Implicit Types ctx : DnsContext Name.
Implicit Types w : W.

Definition strip_cname_records (lookup : DnsResponse) : DnsResponse :=
  set_answers lookup (List.filter (λ r, negb (bool_decide (record_type r = RT_CNAME))) (answers lookup)).

Definition force_no_cname_mw : chain_mw := λ next ctx req w,
  match next ctx req w with
  | (Ok lookup, ctx, w) =>
      (Ok (if bool_decide (q_type (req_query req) = RT_CNAME) then lookup else strip_cname_records lookup), ctx, w)
  | (Err e, ctx, w) => (Err e, ctx, w)
  end.

(** The target of the alias rule of a request. *)
Definition cname_of ctx : option Name :=
  match ctx_domain_rule ctx with
  | Some rule =>
      node_get (λ r, match cname (node_rule r) with
                     | Some CNameIgnore => None
                     | Some (CNameValue n) => Some n
                     | None => None
                     end) rule
  | None => None
  end.

Definition cname_record ctx (req : DnsRequest) (target : Name) : Record_ :=
  {| r_name := q_name (req_query req); r_class := 1; r_ttl := u32 (local_ttl (cfg ctx));
     r_data := RD_CNAME (name_text target) |}.

(** The answer to the target under the name that was asked for. *)
Definition alias_reply (q : Query) (record : Record_) (lookup : DnsResponse) : DnsResponse :=
  set_answers (set_queries lookup [q]) (record :: answers lookup).

Definition cname_mw : chain_mw := λ next ctx req w,
  match cname_of ctx with
  | Some target =>
      let record := cname_record ctx req target in
      if bool_decide (q_type (req_query req) = RT_CNAME) then
        let '((now, _), w) := read_clock w in
        (Ok (new_with_deadline (req_query req) [record] (now + secs (local_ttl (cfg ctx)))), ctx, w)
      else
        let '(res, _, w) :=
          next (context_new target (cfg ctx) (server_opts ctx)) (with_cname req (name_text target)) w in
        match res with
        | Ok lookup => (Ok (alias_reply (req_query req) record lookup), ctx, w)
        | Err err => (Err err, ctx, w)
        end
  | None => next ctx req w
  end.

(** Whether an address is bogus, for a client. *)
Definition is_bogus (c : RuntimeConfig Name) (client_ip ip : IpAddr) : bool :=
  ipmap_contains (bogus_nxdomain c) ip ||
  match ip_rules c with
  | [] => false
  | _ => ipmap_contains (ip_rule_bogus_set_for c client_ip) ip
  end.

Definition bogus_mw : chain_mw := λ next ctx req w,
  let '(res, ctx, w) := next ctx req w in
  match res with
  | Ok lookup =>
      if is_ip_addr (q_type (req_query req)) &&
         existsb (λ r, match rdata_ip (r_data r) with
                       | Some ip => is_bogus (cfg ctx) (req_src req) ip
                       | None => false
                       end) (records lookup)
      then (Err (LE_ResponseCode NXDomain), ctx, w)
      else (res, ctx, w)
  | Err _ => (res, ctx, w)
  end.

(** ** Lemmas *)

#[export] Instance force_no_cname_extensional : Proper ((≡) ==> (≡)) force_no_cname_mw.
Proof. intros h1 h2 E ctx req w. unfold force_no_cname_mw. by rewrite (E ctx req w). Qed.

#[export] Instance cname_extensional : Proper ((≡) ==> (≡)) cname_mw.
Proof.
  intros h1 h2 E ctx req w. unfold cname_mw. destruct (cname_of ctx); [|apply E]. by rewrite (E _ _ w).
Qed.

#[export] Instance bogus_extensional : Proper ((≡) ==> (≡)) bogus_mw.
Proof. intros h1 h2 E ctx req w. unfold bogus_mw. by rewrite (E ctx req w). Qed.

(** No answer to an address query carries a bogus address. *)
Lemma bogus_mw_clean next ctx req w :
  let '(res, ctx', _) := bogus_mw next ctx req w in
  is_ip_addr (q_type (req_query req)) = true →
  match res with
  | Ok lookup => Forall (λ ip, is_bogus (cfg ctx') (req_src req) ip = false) (ip_addrs lookup)
  | Err _ => True
  end.
Proof.
  unfold bogus_mw. destruct (next ctx req w) as [[[lookup|e] ctx'] w']; [|done].
  destruct (is_ip_addr (q_type (req_query req))); [|done]. simpl.
  destruct (existsb _ _) eqn:E; [done|]. intros _.
  unfold ip_addrs. apply Forall_forall. intros ip (r & Hr & Hip)%list_elem_of_omap.
  apply not_true_iff_false. intros Hb. apply not_true_iff_false in E. apply E, existsb_exists.
  exists r. split; [by apply list_elem_of_In|]. by rewrite Hip.
Qed.

Context `{!NetLaws, !RangeLaws}.

(** Which addresses the rules for a client add: those of the networks of the
    rules whose network contains the client. *)
Lemma merge_ips_contains global extra ip :
  ipmap_contains (merge_ips global extra) ip =
  ipmap_contains global ip || existsb (λ n, net_contains_ip n ip) extra.
Proof.
  destruct extra as [|n l]; [by rewrite orb_false_r|]. apply ipset_extend_contains.
Qed.

Lemma existsb_map_filter {A B} (f : A → B) (p : A → bool) (q : B → bool) l :
  existsb q (map f (List.filter p l)) = existsb (λ a, p a && q (f a)) l.
Proof. induction l as [|a l IH]; [done|]. simpl. destruct (p a); simpl; by rewrite IH. Qed.

Lemma is_bogus_spec (c : RuntimeConfig Name) (client_ip ip : IpAddr) :
  is_bogus c client_ip ip =
  ipmap_contains (bogus_nxdomain c) ip ||
  existsb (λ r, ir_bogus_nxdomain r && net_contains_ip (ir_net r) client_ip && net_contains_ip (ir_net r) ip)
    (ip_rules c).
Proof.
  unfold is_bogus, ip_rule_bogus_set_for. destruct (ip_rules c) as [|r l] eqn:E; [done|].
  by rewrite <- E, ipset_new_contains, existsb_map_filter.
Qed.
End middlewares.
