(* ===== verification/Dns64.v ===== *)
(** * IPv6 addresses for IPv4-only names

    [Dns64Middleware] and [to_dns64] (src/dns_mw_dns64.rs).  The arithmetic of
    [to_dns64] is written at its widths, [u8] for the prefix lengths and [u128]
    for the addresses, with the wrap-around of a build without overflow checks;
    [dns64_checked] says when a build with them does not panic. *)

From S2P Require Import Prelude Dns AuditLog IpSet DomainMap DomainRule Context Middleware.

Local Open Scope Z_scope.

Definition u8 (n : Z) : Z := wrap 8 n.
Definition u128 (n : Z) : Z := wrap 128 n.

(** Shifts of a [u128] by a [u8] amount, which is taken modulo 128. *)
Definition shr128 (x s : Z) : Z := Z.shiftr x (s `mod` 128).
Definition shl128 (x s : Z) : Z := u128 (Z.shiftl x (s `mod` 128)).

Definition v4_bits : Z := 32.
Definition v6_bits : Z := 128.

(** [to_dns64]; the network is its address and its prefix length. *)
Definition to_dns64 (ipv6_net : Z * Z) (ipv4 : Z) : Z :=
  let '(addr, prefix) := ipv6_net in
  let suffix := u8 (v6_bits - prefix) in
  let v6 := shl128 (shr128 addr suffix) suffix in
  let v4 := shl128 ipv4 (u8 (suffix - v4_bits)) in
  u128 (v4 + v6).

(** No subtraction underflows, no shift is as wide as its operand and the sum
    fits. *)
Definition dns64_checked (ipv6_net : Z * Z) (ipv4 : Z) : bool :=
  let '(addr, prefix) := ipv6_net in
  let suffix := v6_bits - prefix in
  (0 <=? suffix) && (suffix <? 128) && (0 <=? suffix - v4_bits) && (suffix - v4_bits <? 128) &&
  (shl128 ipv4 (suffix - v4_bits) + shl128 (shr128 addr suffix) suffix <? 2 ^ 128).

Section middleware.
Context {Name : Type} `{RD : RuleData, RM : RangeMaps} {W : Type}.
Context (fresh_id : Z).
Abbreviation chain_mw := (middleware (DnsContext Name) DnsRequest DnsResponse LookupError W).

Definition synthesize (ipv6_net : Z * Z) (r : Record_) : Record_ :=
  match rdata_ip (r_data r) with
  | Some (IPv4 ipv4) => with_data r (RD_AAAA (to_dns64 ipv6_net ipv4))
  | _ => r
  end.

Definition set_first_type (t : RecordType) (l : list Query) : list Query :=
  match l with q :: l' => query_set_type q t :: l' | [] => [] end.

Definition dns64_mw (ipv6_net : Z * Z) : chain_mw := λ next ctx req w,
  match q_type (req_query req) with
  | RT_AAAA =>
      let '(res, ctx, w) := next ctx req w in
      match res with
      | Ok _ => (res, ctx, w)
      | Err err =>
          let req' := request_new fresh_id (query_set_type (req_query req) RT_A) (req_extensions req)
                        (req_src req) (req_port req) (req_protocol req) in
          let '(res', ctx, w) := next ctx req' w in
          match res' with
          | Err _ => (Err err, ctx, w)
          | Ok lookup =>
              (Ok (set_queries (set_answers lookup (map (synthesize ipv6_net) (answers lookup)))
                     (set_first_type RT_AAAA (queries lookup))), ctx, w)
          end
      end
  | _ => next ctx req w
  end.

#[export] Instance dns64_extensional net : Proper ((≡) ==> (≡)) (dns64_mw net).
Proof.
  intros h1 h2 E ctx req w. unfold dns64_mw. destruct (q_type (req_query req)); try apply E.
  rewrite (E ctx req w). destruct (h2 ctx req w) as [[[?|?] ctx'] w']; [done|]. by rewrite (E ctx' _ w').
Qed.
End middleware.

(** ** The address a synthesised record carries *)

(** The specification: the network's prefix, the IPv4 address behind it, zeros. *)
Definition dns64_spec (addr prefix ipv4 : Z) : Z :=
  (addr / 2 ^ (128 - prefix)) * 2 ^ (128 - prefix) + ipv4 * 2 ^ (96 - prefix).

(** The IPv4 address embedded behind a prefix. *)
Definition dns64_extract (prefix v6 : Z) : Z := (v6 / 2 ^ (96 - prefix)) mod 2 ^ 32.

Section address.
Context (addr prefix ipv4 : Z).
Context (Haddr : 0 <= addr < 2 ^ 128) (Hprefix : 1 <= prefix <= 96) (Hv4 : 0 <= ipv4 < 2 ^ 32).

Lemma pow_suffix : 2 ^ (128 - prefix) = 2 ^ 32 * 2 ^ (96 - prefix).
Proof. rewrite <- Z.pow_add_r by lia. f_equal. lia. Qed.

Lemma v4_part_range : 0 <= ipv4 * 2 ^ (96 - prefix) < 2 ^ (128 - prefix).
Proof. rewrite pow_suffix. pose proof (Z.pow_pos_nonneg 2 (96 - prefix)). nia. Qed.

Lemma prefix_part_range :
  0 <= (addr / 2 ^ (128 - prefix)) * 2 ^ (128 - prefix) <= addr.
Proof.
  pose proof (Z.pow_pos_nonneg 2 (128 - prefix)).
  pose proof (Z.div_pos addr (2 ^ (128 - prefix))).
  pose proof (Z.mul_div_le addr (2 ^ (128 - prefix))). nia.
Qed.

Lemma spec_range : 0 <= dns64_spec addr prefix ipv4 < 2 ^ 128.
Proof.
  unfold dns64_spec. pose proof v4_part_range. pose proof prefix_part_range.
  assert (E : 2 ^ 128 = 2 ^ prefix * 2 ^ (128 - prefix)) by (rewrite <- Z.pow_add_r by lia; f_equal; lia).
  assert (addr / 2 ^ (128 - prefix) < 2 ^ prefix).
  { apply Z.div_lt_upper_bound; [apply Z.pow_pos_nonneg; lia|]. rewrite Z.mul_comm. lia. }
  pose proof (Z.pow_pos_nonneg 2 (128 - prefix)). nia.
Qed.

Lemma suffix_small : u8 (v6_bits - prefix) = 128 - prefix ∧ u8 (128 - prefix - v4_bits) = 96 - prefix.
Proof. unfold u8, v6_bits, v4_bits. rewrite !wrap_small; lia. Qed.

Lemma shl128_small x s : 0 <= s < 128 -> 0 <= x * 2 ^ s < 2 ^ 128 -> shl128 x s = x * 2 ^ s.
Proof.
  intros Hs Hx. unfold shl128, u128. rewrite Z.mod_small by lia.
  rewrite Z.shiftl_mul_pow2 by lia. by apply wrap_small.
Qed.

Lemma to_dns64_eq : to_dns64 (addr, prefix) ipv4 = dns64_spec addr prefix ipv4.
Proof.
  unfold to_dns64. destruct suffix_small as [-> ->].
  pose proof v4_part_range. pose proof prefix_part_range.
  assert (2 ^ (128 - prefix) <= 2 ^ 128) by (apply Z.pow_le_mono_r; lia).
  unfold shr128. rewrite (Z.mod_small (128 - prefix)) by lia. rewrite Z.shiftr_div_pow2 by lia.
  rewrite !shl128_small by lia. unfold u128.
  replace (ipv4 * 2 ^ (96 - prefix) + addr / 2 ^ (128 - prefix) * 2 ^ (128 - prefix))
    with (dns64_spec addr prefix ipv4) by (unfold dns64_spec; lia).
  apply wrap_small, spec_range.
Qed.

Lemma spec_extract : dns64_extract prefix (dns64_spec addr prefix ipv4) = ipv4.
Proof.
  unfold dns64_extract, dns64_spec. pose proof (Z.pow_pos_nonneg 2 (96 - prefix)).
  rewrite pow_suffix at 2. rewrite Z.mul_assoc, <- Z.mul_add_distr_r, Z.div_mul by lia.
  rewrite Z.add_comm, Z.mod_add by lia. apply Z.mod_small. lia.
Qed.
End address.

(** C18. Synthesised addresses: for every network with a prefix of 1 to 96 bits the
    shifts and the sum of [to_dns64] neither overflow nor wrap, and the address is
    the one of the specification: it keeps the prefix of the network, the IPv4
    address can be read back from the 32 bits behind it, and the rest is zero. *)
Theorem dns64_address (addr prefix ipv4 : Z) (Haddr : 0 <= addr < 2 ^ 128)
    (Hprefix : 1 <= prefix <= 96) (Hv4 : 0 <= ipv4 < 2 ^ 32) :
  let v6 := to_dns64 (addr, prefix) ipv4 in
  dns64_checked (addr, prefix) ipv4 = true ∧ v6 = dns64_spec addr prefix ipv4 ∧ 0 <= v6 < 2 ^ 128 ∧
  v6 / 2 ^ (128 - prefix) = addr / 2 ^ (128 - prefix) ∧ dns64_extract prefix v6 = ipv4 ∧
  v6 mod 2 ^ (96 - prefix) = 0.
Proof.
  cbv zeta. rewrite to_dns64_eq by lia.
  assert (Hr := spec_range addr prefix ipv4 Haddr Hprefix Hv4).
  assert (Hv := v4_part_range prefix ipv4 Hprefix Hv4).
  assert (Hp := prefix_part_range addr prefix Haddr Hprefix).
  assert (0 < 2 ^ (96 - prefix)) by (apply Z.pow_pos_nonneg; lia).
  assert (0 < 2 ^ (128 - prefix)) by (apply Z.pow_pos_nonneg; lia).
  split_and!; try done.
  - unfold dns64_checked, v6_bits, v4_bits, shr128. rewrite !andb_true_iff, !Z.leb_le, !Z.ltb_lt.
    assert (2 ^ (128 - prefix) <= 2 ^ 128) by (apply Z.pow_le_mono_r; lia).
    rewrite (Z.mod_small (128 - prefix)) by lia. rewrite Z.shiftr_div_pow2 by lia.
    replace (128 - prefix - 32) with (96 - prefix) by lia.
    rewrite !shl128_small by lia. unfold dns64_spec in Hr. lia.
  - lia.
  - lia.
  - unfold dns64_spec. rewrite Z.add_comm, Z.div_add by lia. rewrite Z.div_small by lia. lia.
  - by apply spec_extract.
  - unfold dns64_spec. rewrite (pow_suffix prefix) at 2 by lia.
    rewrite Z.mul_assoc, <- Z.mul_add_distr_r. apply Z.mod_mul. lia.
Qed.

(** [64:ff9b::/96] and [192.168.0.1]. *)
Lemma dns64_address_witness :
  to_dns64 (524413980667603649783483181312245760, 96) 3232235521 = 524413980667603649783483184544481281 ∧
  dns64_extract 96 (to_dns64 (524413980667603649783483181312245760, 96) 3232235521) = 3232235521.
Proof.
  destruct (dns64_address 524413980667603649783483181312245760 96 3232235521)
    as (_ & Heq & _ & _ & Hex & _); [lia..|].
  split; [rewrite Heq; vm_compute; reflexivity|exact Hex].
Defined.

(** A prefix of more than 96 bits, or none, is accepted by the configuration, but
    leaves no room for the IPv4 address or shifts by the whole width: a build with
    overflow checks panics on the first synthesised record, and the address of one
    without them can lie outside the network. *)
Theorem dns64_long_prefix (addr prefix ipv4 : Z)
    (Hprefix : prefix = 0 ∨ 96 < prefix <= 128) : dns64_checked (addr, prefix) ipv4 = false.
Proof.
  unfold dns64_checked, v6_bits, v4_bits. apply not_true_iff_false.
  rewrite !andb_true_iff, !Z.leb_le, !Z.ltb_lt. lia.
Qed.

(** [2001:db8::/104] and [192.0.2.9]: the prefix of the result is another one. *)
Lemma dns64_long_prefix_witness :
  dns64_checked (42540766411282592856903984951653826560, 104) 3221225993 = false ∧
  to_dns64 (42540766411282592856903984951653826560, 104) 3221225993 / 2 ^ 24 ≠
    42540766411282592856903984951653826560 / 2 ^ 24.
Proof.
  split; [apply (dns64_long_prefix 42540766411282592856903984951653826560 104 3221225993); right; lia|].
  vm_compute. discriminate.
Defined.
