(* ===== verification/Ping.v ===== *)
(** * Speed checks

    [PingAddr], [PingOptions], [ping], [ping_fastest] and [do_agg]
    (src/infra/ping.rs), the destinations of a speed-check mode
    (src/config/speed_mode.rs) and the loops over the modes: [multi_mode_ping] and
    [multi_mode_ping_fastest] of src/dns_mw_ns.rs and the one of
    src/dns_mw_dualstack.rs.

    The network is a class: the outcome of each attempt, the order in which
    concurrent pings complete and which of them a timer overtakes. *)

From S2P Require Import Prelude Dns DomainRule.

Inductive PingAddr := PA_Icmp (ip : IpAddr) | PA_Tcp (ip : IpAddr) (port : Z)
| PA_Http (ip : IpAddr) (port : Z) | PA_Https (ip : IpAddr) (port : Z).

#[export] Instance PingAddr_eq_dec : EqDecision PingAddr.
Proof. solve_decision. Defined.

Definition ping_ip_addr (a : PingAddr) : IpAddr :=
  match a with PA_Icmp ip | PA_Tcp ip _ | PA_Http ip _ | PA_Https ip _ => ip end.

Inductive PingError := PE_Timeout | PE_Io (msg : string) | PE_Surge | PE_NoAddress.

Record PingOutput := { seq_ : Z; duration : Z; destination : PingAddr }.

Inductive DurationAgg := AggMin | AggMean | AggMax.
Record PingOptions := { times : nat; timeout : Z; all_success : bool; duration_agg : DurationAgg }.

Definition ping_options_default : PingOptions :=
  {| times := 1; timeout := secs 5; all_success := false; duration_agg := AggMean |}.
Definition with_timeout_secs (o : PingOptions) (t : Z) : PingOptions :=
  {| times := times o; timeout := secs t; all_success := all_success o; duration_agg := duration_agg o |}.

(** [do_agg]; the mean is a division of the duration by the count. *)
Definition do_agg (durations : list Z) (agg : DurationAgg) : option Z :=
  match durations with
  | [] => None
  | d :: ds =>
      Some match agg with
           | AggMin => fold_left Z.min ds d
           | AggMean => (sumZ id durations `div` Z.of_nat (length durations))%Z
           | AggMax => fold_left Z.max ds d
           end
  end.

(** The network: [attempt dest seq] is the outcome of the attempt number [seq], an
    error [PE_Timeout] when the timeout of the options ran out;
    [completion_order dests] lists concurrent pings in the order they complete;
    [overtaken dests] says whether the 200 ms timer of a loop over modes, or its
    deadline, fires before pinging [dests] is decided. *)
Class Network := {
  attempt : PingAddr → nat → result Z PingError;
  completion_order : list PingAddr → list PingAddr;
  overtaken : list PingAddr → bool;
}.

(** Every ping that was started completes. *)
Class NetworkLaws `{Network} := { completion_perm l : completion_order l ≡ₚ l }.

Section ping.
Context `{NW : Network}.

(** The loop over the attempts: the durations, and the last error or, when all
    must succeed, the first one. *)
Fixpoint ping_attempts (all : bool) (dest : PingAddr) (seqs : list nat) (durations : list Z)
    (last_err : option PingError) : result (list Z * option PingError) PingError :=
  match seqs with
  | [] => Ok (durations, last_err)
  | s :: seqs' =>
      match attempt dest s with
      | Ok dur => ping_attempts all dest seqs' (durations ++ [dur]) last_err
      | Err err => if all then Err err else ping_attempts all dest seqs' durations (Some err)
      end
  end.

(** [ping], and the four functions of the same shape it chooses from. *)
Definition ping (dest : PingAddr) (opts : PingOptions) : result PingOutput PingError :=
  match ping_attempts (all_success opts) dest (seq 0 (times opts)) [] None with
  | Err err => Err err
  | Ok (durations, last_err) =>
      match do_agg durations (duration_agg opts) with
      | Some v => Ok {| seq_ := 0; duration := v; destination := dest |}
      | None => match last_err with Some err => Err err | None => Err PE_NoAddress end
      end
  end.

(** [select_ok]: the first success, or the last failure. *)
Fixpoint select_ok (l : list (result PingOutput PingError)) (last_err : PingError) : result PingOutput PingError :=
  match l with
  | [] => Err last_err
  | Ok out :: _ => Ok out
  | Err err :: l' => select_ok l' err
  end.

Definition ping_fastest (dests : list PingAddr) (opts : PingOptions) : result PingOutput PingError :=
  match dests with
  | [] => Err PE_NoAddress
  | _ => select_ok (map (λ d, ping d opts) (completion_order dests)) PE_NoAddress
  end.

Definition to_ping_addr (mode : SpeedCheckMode) (ip : IpAddr) : option PingAddr :=
  match mode with
  | SpeedNone => None
  | Ping => Some (PA_Icmp ip)
  | Tcp port => Some (PA_Tcp ip port)
  | Http port => Some (PA_Http ip port)
  | Https port => Some (PA_Https ip port)
  end.

Definition to_ping_addrs (mode : SpeedCheckMode) (ips : list IpAddr) : list PingAddr :=
  omap (to_ping_addr mode) ips.

Definition ping_ops : PingOptions := with_timeout_secs ping_options_default 2.

(** ** The loops over the modes *)

(** [multi_mode_ping_fastest] of src/dns_mw_ns.rs: the fastest address of the
    first mode that answers within its 200 ms. *)
Fixpoint multi_mode_ping_fastest (ip_addrs : list IpAddr) (modes : list SpeedCheckMode) : option IpAddr :=
  match modes with
  | [] => None
  | mode :: modes' =>
      let dests := to_ping_addrs mode ip_addrs in
      if overtaken dests then multi_mode_ping_fastest ip_addrs modes'
      else match ping_fastest dests ping_ops with
           | Ok ping_out => Some (ping_ip_addr (destination ping_out))
           | Err _ => multi_mode_ping_fastest ip_addrs modes'
           end
  end.

(** [multi_mode_ping] *)
Fixpoint multi_mode_ping (ip_addr : IpAddr) (modes : list SpeedCheckMode) : result PingOutput PingError :=
  match modes with
  | [] => Err PE_Timeout
  | mode :: modes' =>
      match to_ping_addr mode ip_addr with
      | None => Err PE_NoAddress
      | Some dest =>
          if overtaken [dest] then multi_mode_ping ip_addr modes'
          else match ping dest ping_ops with
               | Ok ping_out => Ok ping_out
               | Err _ => multi_mode_ping ip_addr modes'
               end
      end
  end.

(** [multi_mode_ping_fastest] of src/dns_mw_dualstack.rs: the modes share one
    deadline, so the first that overruns it ends the loop. *)
Fixpoint ping_fastest_by_deadline (ip_addrs : list IpAddr) (modes : list SpeedCheckMode) : option (IpAddr * Z) :=
  match modes with
  | [] => None
  | mode :: modes' =>
      let dests := to_ping_addrs mode ip_addrs in
      if overtaken dests then None
      else match ping_fastest dests ping_ops with
           | Ok ping_out => Some (ping_ip_addr (destination ping_out), duration ping_out)
           | Err _ => ping_fastest_by_deadline ip_addrs modes'
           end
  end.

(** ** Lemmas *)

Lemma ping_destination dest opts out : ping dest opts = Ok out → destination out = dest.
Proof. unfold ping. intros. repeat case_match; by simplify_eq. Qed.

Lemma select_ok_in l e out : select_ok l e = Ok out → Ok out ∈ l.
Proof. revert e. induction l as [|[o|err] l IH]; intros e; simpl; [done|intros [= ->]; set_solver|]. intros ?%IH. set_solver. Qed.

Lemma to_ping_addr_ip mode ip d : to_ping_addr mode ip = Some d → ping_ip_addr d = ip.
Proof. by destruct mode; simpl; intros [= <-]. Qed.

Context `{!NetworkLaws}.

Lemma ping_fastest_dest dests opts out : ping_fastest dests opts = Ok out → destination out ∈ dests.
Proof.
  unfold ping_fastest. destruct dests as [|d ds]; [done|].
  intros (x & Hx & Hin)%select_ok_in%list_elem_of_fmap. symmetry in Hx.
  rewrite (ping_destination _ _ _ Hx). by rewrite completion_perm in Hin.
Qed.

Lemma to_ping_addrs_ip mode ips d : d ∈ to_ping_addrs mode ips → ping_ip_addr d ∈ ips.
Proof.
  unfold to_ping_addrs. intros (ip & Hip & Hd)%list_elem_of_omap. by rewrite (to_ping_addr_ip _ _ _ Hd).
Qed.

(** The addresses the speed checks select are among those they were given. *)
Lemma multi_mode_ping_fastest_in ips modes ip : multi_mode_ping_fastest ips modes = Some ip → ip ∈ ips.
Proof.
  induction modes as [|m modes IH]; simpl; [done|]. case_if; [done|].
  destruct (ping_fastest _ _) as [out|] eqn:E; [|done]. intros [= <-].
  by eapply to_ping_addrs_ip, ping_fastest_dest.
Qed.

Lemma ping_fastest_by_deadline_in ips modes ip d : ping_fastest_by_deadline ips modes = Some (ip, d) → ip ∈ ips.
Proof.
  induction modes as [|m modes IH]; simpl; [done|]. case_if; [done|].
  destruct (ping_fastest _ _) as [out|] eqn:E; [|done]. intros [= <- _].
  by eapply to_ping_addrs_ip, ping_fastest_dest.
Qed.
End ping.

Lemma multi_mode_ping_dest `{NW : Network} ip modes out :
  multi_mode_ping ip modes = Ok out → ping_ip_addr (destination out) = ip.
Proof.
  induction modes as [|m modes IH]; simpl; [done|].
  destruct (to_ping_addr m ip) as [d|] eqn:Ed; [|done]. case_if; [done|].
  destruct (ping d _) as [o|] eqn:E; [|done]. intros [= <-].
  rewrite (ping_destination _ _ _ E). by eapply to_ping_addr_ip.
Qed.
