(* ===== verification/DualStack.v ===== *)
(** * Selection between the address families

    [DnsDualStackIpSelectionMiddleware], [which_faster], [is_that_faster] and
    [decide_that_faster] (src/dns_mw_dualstack.rs).

    The handler runs the rest of the chain for both families concurrently.  The
    executor is a class: when each of the two lookups completes and with what, and which
    of the two speed checks completes first.  Which of them the handler sees first and
    how long it waits for the other one is computed from these times. *)

From S2P Require Import Prelude Dns AuditLog IpSet DomainMap DomainRule Context Middleware Ping.

Definition OTHER_FAMILY_WAIT_CAP : Z := millis 500.

(** When the two lookups complete, from a common start, and what they answer. *)
Record dual_race := {
  this_at : Z; this_res : result DnsResponse LookupError;
  that_at : Z; that_res : result DnsResponse LookupError }.

(** [future.timeout(limit)], started at [start], of a future that completes at [at_]: it
    is polled before the timer. *)
Definition timeout {A} (limit start at_ : Z) (r : A) : option A := if (at_ - start <=? limit)%Z then Some r else None.

(** The two speed checks: the networks they see, and whether the one of the other
    family completes first. *)
Record ping_race := { this_net : Network; that_net : Network; that_ping_first : bool }.

Definition is_that_faster (this_dura that_dura threshold : Z) : bool :=
  (that_dura <? this_dura)%Z && (threshold <? this_dura - that_dura)%Z.

Definition decide_that_faster (this_dura that_dura : option Z) (threshold : Z) : bool :=
  match this_dura, that_dura with
  | _, None => false
  | None, Some _ => true
  | Some this_dura, Some that_dura => is_that_faster this_dura that_dura threshold
  end.

(** Whether the answer is [Either::Right]. *)
Definition which_faster (pr : ping_race) (this that : DnsResponse) (modes : list SpeedCheckMode)
    (selection_threshold : Z) : bool :=
  let this_ping := ping_fastest_by_deadline (NW := this_net pr) (ip_addrs this) modes in
  let that_ping := ping_fastest_by_deadline (NW := that_net pr) (ip_addrs that) modes in
  if that_ping_first pr then decide_that_faster (snd <$> this_ping) (snd <$> that_ping) selection_threshold
  else false.

Section middleware.
Context {Name : Type} `{RD : RuleData, RM : RangeMaps} {W : Type}.
Abbreviation chain_handler := (handler (DnsContext Name) DnsRequest DnsResponse LookupError W).
Abbreviation chain_mw := (middleware (DnsContext Name) DnsRequest DnsResponse LookupError W).

(** The executor: runs [this], the rest of the chain on the request, and [that],
    on the request for the other family with a copy of the context, and gives the
    race, the context of this family and the world. *)
Class Executor := {
  race : chain_handler → DnsContext Name → DnsRequest → DnsRequest → W →
    dual_race * ping_race * DnsContext Name * W;
}.

(** What it answers is what the rest of the chain answers to the two requests, at
    some moment. *)
Class ExecutorLaws `{Executor} := {
  race_this (next : chain_handler) ctx req that_req w this :
    this_res (fst (fst (fst (race next ctx req that_req w)))) = this → ∃ w', fst (fst (next ctx req w')) = this;
  race_that (next : chain_handler) ctx req that_req w that :
    that_res (fst (fst (fst (race next ctx req that_req w)))) = that → ∃ w', fst (fst (next ctx that_req w')) = that;
}.

Context `{EX : Executor}.
Implicit Types ctx : DnsContext Name.

Definition default_speed_modes : list SpeedCheckMode := [Ping; Http 80; Https 443].

(** Whether selection is switched on for the name, and the speed-check modes. *)
Definition dualstack_enabled ctx : bool :=
  default (cfg_dualstack_ip_selection (cfg ctx))
    (ctx_domain_rule ctx ≫= λ n, dualstack_ip_selection (node_rule n)).
Definition dualstack_modes ctx : list SpeedCheckMode :=
  default default_speed_modes
    (or_else (rule_get (λ n, speed_check_mode (node_rule n)) (ctx_domain_rule ctx)) (cf_speed_check_mode (cfg ctx))).

Definition other_family (t : RecordType) : RecordType :=
  match t with RT_A => RT_AAAA | RT_AAAA => RT_A | t => t end.

(** The guards of the handler: whether the two families are compared at all. *)
Definition compares ctx (query_type : RecordType) : bool :=
  negb (no_dualstack_selection (server_opts ctx)) && is_ip_addr query_type &&
  (negb (bool_decide (query_type = RT_A)) || dualstack_ip_allow_force_aaaa (cfg ctx)) &&
  dualstack_enabled ctx && negb (bool_decide (length (dualstack_modes ctx) = 0)).

(** The outcome of the race; [select] polls the lookup of this family first. *)
Definition dualstack_outcome ctx (req : DnsRequest) (dr : dual_race) (pr : ping_race)
  : result DnsResponse LookupError :=
  let query_type := q_type (req_query req) in
  let prefer_that := bool_decide (query_type = RT_A) in
  let selection_threshold := millis (dualstack_ip_selection_threshold (cfg ctx)) in
  let this_no_records := Err (no_records_found (req_query req) (u32 (default 0%Z (cf_rr_ttl (cfg ctx))))) in
  let choose this that :=
    if which_faster pr this that (dualstack_modes ctx) selection_threshold &&
       (prefer_that || bool_decide (query_type = RT_AAAA))
    then this_no_records else Ok this in
  if (this_at dr <=? that_at dr)%Z then
    match this_res dr with
    | Ok this =>
        match timeout selection_threshold (this_at dr) (that_at dr) (that_res dr) with
        | Some (Ok that) => choose this that
        | _ => Ok this
        end
    | Err err => Err err
    end
  else
    match that_res dr with
    | Ok that =>
        match timeout OTHER_FAMILY_WAIT_CAP (that_at dr) (this_at dr) (this_res dr) with
        | Some (Ok this) => choose this that
        | Some (Err err) => Err err
        | None => this_no_records
        end
    | Err _ => this_res dr
    end.

Definition dualstack_mw : chain_mw := λ next ctx req w,
  let query_type := q_type (req_query req) in
  if compares ctx query_type then
    let '(dr, pr, ctx', w) := race next ctx req (set_query_type req (other_family query_type)) w in
    (dualstack_outcome ctx req dr pr, ctx', w)
  else next ctx req w.

(** ** Properties *)

(** The error that hides this family from the client. *)
Definition hidden ctx (req : DnsRequest) : result DnsResponse LookupError :=
  Err (no_records_found (req_query req) (u32 (default 0%Z (cf_rr_ttl (cfg ctx))))).

Lemma which_faster_spec pr this that modes t :
  which_faster pr this that modes t = true ↔
  that_ping_first pr = true ∧ ∃ ip d, ping_fastest_by_deadline (NW := that_net pr) (ip_addrs that) modes = Some (ip, d) ∧
    ∀ ip' d', ping_fastest_by_deadline (NW := this_net pr) (ip_addrs this) modes = Some (ip', d') →
      (d < d' ∧ t < d' - d)%Z.
Proof.
  unfold which_faster, decide_that_faster, is_that_faster. destruct (that_ping_first pr); [|naive_solver].
  destruct (ping_fastest_by_deadline (NW := that_net pr) _ _) as [[ip d]|]; simpl.
  2:{ destruct (snd <$> _); naive_solver. }
  destruct (ping_fastest_by_deadline (NW := this_net pr) _ _) as [[ip' d']|]; simpl; [|naive_solver].
  rewrite andb_true_iff, !Z.ltb_lt. naive_solver.
Qed.

(** The speed check of the other family completed first, and beat this family's by
    more than the threshold if that gave a result at all. *)
Definition beaten ctx (pr : ping_race) (this that : DnsResponse) : Prop :=
  that_ping_first pr = true ∧
  ∃ ip d, ping_fastest_by_deadline (NW := that_net pr) (ip_addrs that) (dualstack_modes ctx) = Some (ip, d) ∧
    ∀ ip' d', ping_fastest_by_deadline (NW := this_net pr) (ip_addrs this) (dualstack_modes ctx) = Some (ip', d') →
      (d < d' ∧ millis (dualstack_ip_selection_threshold (cfg ctx)) < d' - d)%Z.

(** The other family has an answer, and this one's comes more than half a second later,
    or the other one's comes before it or within the threshold after it and beats it. *)
Definition overtaken_by ctx (dr : dual_race) (pr : ping_race) : Prop :=
  ∃ that, that_res dr = Ok that ∧
    ((that_at dr + millis 500 < this_at dr)%Z ∨
     (that_at dr < this_at dr ∨ that_at dr - this_at dr ≤ millis (dualstack_ip_selection_threshold (cfg ctx)))%Z ∧
     ∃ this, this_res dr = Ok this ∧ beaten ctx pr this that).

Lemma dualstack_outcome_spec ctx req dr pr : compares ctx (q_type (req_query req)) = true →
  overtaken_by ctx dr pr ∧ dualstack_outcome ctx req dr pr = hidden ctx req ∨
  ¬ overtaken_by ctx dr pr ∧ dualstack_outcome ctx req dr pr = this_res dr.
Proof.
  intros Hc. unfold dualstack_outcome. fold (hidden ctx req). cbv zeta.
  assert (Hboth : bool_decide (q_type (req_query req) = RT_A) || bool_decide (q_type (req_query req) = RT_AAAA) = true).
  { unfold compares in Hc. rewrite !andb_true_iff in Hc. destruct Hc as ((((_ & Hip) & _) & _) & _).
    by destruct (q_type (req_query req)). }
  unfold timeout, overtaken_by, OTHER_FAMILY_WAIT_CAP.
  assert (Hb : ∀ this that, which_faster pr this that (dualstack_modes ctx) (millis (dualstack_ip_selection_threshold (cfg ctx))) = true ↔
    beaten ctx pr this that) by (intros; apply which_faster_spec).
  destruct dr as [t1 r1 t2 r2]. cbn [this_at this_res that_at that_res].
  destruct (t1 <=? t2)%Z eqn:E1; [destruct r1 as [this|e1]; [destruct (t2 - t1 <=? _)%Z eqn:E2; [destruct r2 as [that|e2]|]|]|
    destruct r2 as [that|e2]; [destruct (t1 - t2 <=? _)%Z eqn:E2; [destruct r1 as [this|e1]|]|]]; zify_bool;
    try (right; split; [|done]; intros (that' & [= <-] & [Hlt|(Hle & this' & [= <-] & _)]); unfold millis in *; lia);
    try (right; split; [|done]; intros (that' & [=] & _); fail);
    try (right; split; [|done]; intros (that' & _ & [Hlt|(Hle & this' & [=] & _)]); unfold millis in *; lia).
  - rewrite Hboth, andb_true_r. destruct (which_faster _ _ _ _ _) eqn:Ew; [left|right]; (split; [|done]).
    + exists that. split; [done|]. right. split; [by right|]. exists this. split; [done|]. by apply Hb.
    + intros (that' & [= <-] & [Hlt|(_ & this' & [= <-] & Hbeat%Hb)]); [unfold millis in *; lia|congruence].
  - rewrite Hboth, andb_true_r. destruct (which_faster _ _ _ _ _) eqn:Ew; [left|right]; (split; [|done]).
    + exists that. split; [done|]. right. split; [left; lia|]. exists this. split; [done|]. by apply Hb.
    + intros (that' & [= <-] & [Hlt|(_ & this' & [= <-] & Hbeat%Hb)]); [lia|congruence].
  - left. split; [|done]. exists that. split; [done|]. left. lia.
Qed.

(** C13. Address family selection: a request for which the families are not compared -
    selection is off, it is not for addresses, or it is for IPv4 addresses and
    IPv6 is not forced - is answered by the rest of the chain alone.  Otherwise the
    lookups of both families run, and the client is told that there are no records
    exactly when the chain has an answer for the other family and either this family's
    answer comes more than half a second after it, or the other one's comes first or
    within the selection threshold and its speed check completes first and beats this
    one's by more than the threshold; in all other cases the client gets what the chain
    answers for its family. *)
Theorem dualstack_selects `{!ExecutorLaws} (next : chain_handler) (ctx : DnsContext Name) (req : DnsRequest) (w : W) :
  let query_type := q_type (req_query req) in
  let that_req := set_query_type req (other_family query_type) in
  let res := fst (fst (dualstack_mw next ctx req w)) in
  let '(dr, pr, _, _) := race next ctx req that_req w in
  (compares ctx query_type = false → dualstack_mw next ctx req w = next ctx req w) ∧
  (compares ctx query_type = true →
    (∃ w', fst (fst (next ctx req w')) = this_res dr) ∧ (∃ w', fst (fst (next ctx that_req w')) = that_res dr) ∧
    (overtaken_by ctx dr pr ∧ res = hidden ctx req ∨ ¬ overtaken_by ctx dr pr ∧ res = this_res dr)).
Proof.
  cbv zeta. unfold dualstack_mw. set (that_req := set_query_type req _).
  pose proof (race_this next ctx req that_req w) as Hthis. pose proof (race_that next ctx req that_req w) as Hthat.
  destruct (race next ctx req that_req w) as [[[dr pr] ctx'] w1]. cbn [fst] in *. split; [by intros ->|].
  intros Hc. rewrite Hc. split_and!; [by apply Hthis|by apply Hthat|by apply dualstack_outcome_spec].
Qed.
End middleware.
Arguments Executor Name {RD RM} W.

(** ** A concrete race *)

Module Example.
Import ListName DomainRule.Example Ranges Context.Example.

(** IPv4 answers in 5 ms, IPv6 in 100 ms. *)
Definition net : Network := {|
  attempt d _ := Ok (match ping_ip_addr d with IPv4 _ => millis 5 | IPv6 _ => millis 100 end);
  completion_order l := l;
  overtaken _ := false |}.
Definition pings : ping_race := {| this_net := net; that_net := net; that_ping_first := true |}.

(** An executor that runs the two lookups one after the other. *)
#[export] Instance sequential : Executor name () := {
  race next ctx req that_req w :=
    let '(this, ctx', w) := next ctx req w in
    let '(that, _, w) := next ctx that_req w in
    ({| this_at := 0; this_res := this; that_at := 0; that_res := that |}, pings, ctx', w) }.

#[export] Instance sequential_laws : ExecutorLaws.
Proof.
  split; intros next ctx req that_req w r; simpl;
    destruct (next ctx req w) as [[this ctx'] w'] eqn:E; destruct (next ctx that_req w') as [[that ?] ?] eqn:E';
    simpl; intros <-; [exists w; by rewrite E|exists w'; by rewrite E'].
Qed.

Definition ctx : DnsContext name := ctx_of (config no_settings) None.
Definition answer_of (q : Query) (d : RData) : DnsResponse :=
  new_with_deadline q [{| r_name := q_name q; r_class := 1; r_ttl := 60; r_data := d |}] 0.
Definition both : handler (DnsContext name) DnsRequest DnsResponse LookupError () := λ ctx req w,
  (Ok (answer_of (req_query req) (match q_type (req_query req) with RT_A => RD_A 1 | _ => RD_AAAA 2 end)), ctx, w).

(** The slower IPv6 address is hidden, and only because IPv4 has an answer. *)
Lemma dualstack_selects_witness :
  fst (fst (dualstack_mw both ctx (request "a.example" RT_AAAA) ())) = hidden ctx (request "a.example" RT_AAAA) ∧
  ∃ that w', fst (fst (both ctx (request "a.example" RT_A) w')) = Ok that.
Proof.
  assert (E : fst (fst (dualstack_mw both ctx (request "a.example" RT_AAAA) ())) =
    hidden ctx (request "a.example" RT_AAAA)) by (vm_compute; reflexivity).
  split; [exact E|].
  pose proof (dualstack_selects both ctx (request "a.example" RT_AAAA) ()) as H. cbv zeta in H. cbn [race sequential both] in H.
  destruct (proj2 H eq_refl) as (_ & (w' & Hw') & [[(that & Ht & _) _]|[_ Hw]]).
  - exists that, w'. rewrite <-Ht. exact Hw'.
  - rewrite E in Hw. discriminate.
Defined.
End Example.
