(* ===== verification/Chain.v ===== *)
(** * The server's middleware chain

    [build_middleware] (src/app.rs) on the modelled middlewares: the audit, the
    address and the cache middleware of their own files as stages of the chain,
    [DnsFailPacketMiddleware] (src/dns_mw_debug.rs), the order of registration,
    and what the stages do to one another.  The refresh requests of
    [prefetch_worker] (src/dns_mw_cache.rs) enter the chain here too.

    The name-server middleware is an argument, as are the stages for zones, hosts
    files, leases and address sets, which LocalStages supplies. *)

From S2P Require Import Prelude Float64 Dns AuditLog App Lru DnsCache CacheInv CacheProps CacheMiddleware.
From S2P Require Import IpSet DomainMap DomainRule Context AddressMw Middleware Search RewriteMw Dns64.
From S2P Require Import Ping DualStack.

(** What the chain uses of hickory and of the standard library: whether a type is
    one of DNSSEC, the text of a socket address, and whether a message can be
    encoded. *)
Class ChainText `{RuleData} := {
  rtype_is_dnssec : RecordType → bool;
  socket_text : IpAddr → Z → string;
  name_for_file : string → string;
  encodes : DnsRequest → bool;
}.

(** The state the stages share: the clock and the time that will have passed at
    its next readings, the cache, the query log, the packets saved for failed
    requests, and the state of the upstream side. *)
Record World `{LY : Layout, LO : !LruOps Query DnsCacheEntry} (U : Type) := {
  w_now : Z;
  w_wall : Z;
  w_ticks : list (Z * Z);
  w_cache : mw_state;
  w_audit : audit_state;
  w_packets : list (string * Z);
  w_up : U;
}.
Arguments w_now {LY LO U}.
Arguments w_wall {LY LO U}.
Arguments w_ticks {LY LO U}.
Arguments w_cache {LY LO U}.
Arguments w_audit {LY LO U}.
Arguments w_packets {LY LO U}.
Arguments w_up {LY LO U}.

Section chain.
Context `{LY : Layout, LO : !LruOps Query DnsCacheEntry, HK : Hickory} {U : Type}.
Abbreviation W := (World U).

#[export] Instance world_clock : Clock W := { read_clock w :=
  let '(d, dw) := default (0%Z, 0%Z) (head (w_ticks w)) in
  let now := (w_now w + d)%Z in
  let wall := (w_wall w + dw)%Z in
  ((now, wall),
   {| w_now := now; w_wall := wall; w_ticks := tail (w_ticks w); w_cache := w_cache w;
      w_audit := w_audit w; w_packets := w_packets w; w_up := w_up w |}) }.

Definition world_set_cache (w : W) (st : mw_state) : W :=
  {| w_now := w_now w; w_wall := w_wall w; w_ticks := w_ticks w; w_cache := st; w_audit := w_audit w;
     w_packets := w_packets w; w_up := w_up w |}.
Definition world_set_audit (w : W) (st : audit_state) : W :=
  {| w_now := w_now w; w_wall := w_wall w; w_ticks := w_ticks w; w_cache := w_cache w; w_audit := st;
     w_packets := w_packets w; w_up := w_up w |}.
Definition world_save_packet (w : W) (p : string * Z) : W :=
  {| w_now := w_now w; w_wall := w_wall w; w_ticks := w_ticks w; w_cache := w_cache w; w_audit := w_audit w;
     w_packets := w_packets w ++ [p]; w_up := w_up w |}.

Context {Name : Type} `{!NameOps Name, !Glob, !HashCode Name, NT : !NameText Name, RD : RuleData, EO : !EcsOps}.
Context `{NO : NetOps, RM : RangeMaps, CT : !ChainText, EX : !Executor Name W}.
Context (default_query : Query) (fresh_id : Z).
Abbreviation chain_handler := (handler (DnsContext Name) DnsRequest DnsResponse LookupError W).
Abbreviation chain_mw := (middleware (DnsContext Name) DnsRequest DnsResponse LookupError W).
Implicit Types ctx : DnsContext Name.
Implicit Types c : RuntimeConfig Name.
Implicit Types w : W.

(** [DnsRequest::is_dnssec] *)
Definition is_dnssec (req : DnsRequest) : bool :=
  match req_extensions req with
  | Some e => e_dnssec_ok e
  | None => rtype_is_dnssec (q_type (req_query req))
  end.

(** ** The stages *)

Definition fail_packet_mw : chain_mw := λ next ctx req w,
  let '(res, ctx, w) := next ctx req w in
  if negb (is_ok res) && debug_save_fail_packet (cfg ctx) && encodes req then
    let '((_, stamp), w) := read_clock w in
    (res, ctx, world_save_packet w (name_for_file (q_name (req_query req)), stamp))
  else (res, ctx, w).

Definition audit_mw (soa : bool) : chain_mw := λ next ctx req w,
  let '((_, date), w) := read_clock w in
  let '((start, _), w) := read_clock w in
  let '(res, ctx, w) := next ctx req w in
  if negb soa && is_soa_only res then (res, ctx, w)
  else
    let '((stop, _), w) := read_clock w in
    let audit := {| au_id := req_id req; au_client := socket_text (req_src req) (req_port req);
      au_query := req_query req; au_result := res; au_speed := fastest_speed ctx;
      au_elapsed := stop - start; au_date := date; au_source := ctx_source ctx |} in
    let '(st, res) := audit_handle soa (w_audit w) audit in
    (res, ctx, world_set_audit w st).

Definition address_mw : chain_mw := λ next ctx req w,
  match handle_rule_addr (q_type (req_query req)) ctx with
  | Some rdatas =>
      let '((now, _), w) := read_clock w in
      (Ok (static_reply ctx (req_query req) now rdatas), set_source ctx From_Static, w)
  | None =>
      let '(res, ctx, w) := next ctx req w in
      match res with
      | Ok lookup => (Ok (passed_reply default_query ctx (req_query req) lookup), ctx, w)
      | Err err => (Err err, ctx, w)
      end
  end.

(** What the cache middleware reads of the context and of the request. *)
Definition cache_ctx ctx (req : DnsRequest) : mw_ctx := {|
  opt_no_cache := opts_no_cache (server_opts ctx);
  is_background := so_is_background (server_opts ctx);
  CacheMiddleware.no_cache := ctx_no_cache ctx;
  CacheMiddleware.is_dnssec := is_dnssec req;
  CacheMiddleware.server_group_name := server_group_name ctx;
  CacheMiddleware.no_serve_expired :=
    default false (rule_get (λ n, no_serve_expired (node_rule n)) (ctx_domain_rule ctx));
  CacheMiddleware.cfg_serve_expired := cfg_serve_expired (cfg ctx);
  cfg_serve_expired_prefetch_time := serve_expired_prefetch_time (cfg ctx);
  CacheMiddleware.cfg_cache_negative := cfg_cache_negative (cfg ctx);
  CacheMiddleware.cfg_prefetch_domain := cfg_prefetch_domain (cfg ctx);
  CacheMiddleware.rr_ttl_bounds := AddressMw.rr_ttl_bounds ctx |}.

Definition cache_mw : chain_mw := λ next ctx req w,
  if skips_cache (cache_ctx ctx req) then next ctx req w
  else
    let query := req_query req in
    let '((now, wall), w) := read_clock w in
    let '(found, st) := consult (cache_ctx ctx req) now wall query (w_cache w) in
    match found with
    | Hit res =>
        let '(st, res) := answer_from_cache (cache_ctx ctx req) query res st in
        (Ok res, set_source ctx From_Cache, world_set_cache w st)
    | _ =>
        let '(res, ctx, w) := next ctx req (world_set_cache w st) in
        let '((now, wall), w) := read_clock w in
        let '(st, res) := store_answer (cache_ctx ctx req) (ctx_no_cache ctx) now wall query res
          (match found with Stale res => Some res | _ => None end) (w_cache w) in
        (res, ctx, world_set_cache w st)
    end.

(** ** [build_middleware] *)

(** [local] are the stages between the address and the cache middleware (leases,
    zones, hosts, address sets), [ns] is the name-server middleware. *)
Definition build_middleware c (local : list chain_mw) (ns : chain_mw)
  : MiddlewareBuilder (DnsContext Name) DnsRequest DnsResponse LookupError W :=
  let b := builder_new default_handler in
  let b := if force_no_cname c then with_ b force_no_cname_mw else b in
  let b := if debug_save_fail_packet c then with_ b fail_packet_mw else b in
  let b := with_ b (audit_mw (audit_soa c)) in
  let b := if existsb (λ g, negb (bool_decide (length (cnames (snd g)) = 0))) (rule_groups c)
           then with_ b cname_mw else b in
  let b := match dns64_prefix c with Some p => with_ b (dns64_mw fresh_id p) | None => b end in
  let b := with_ b address_mw in
  let b := foldl with_ b local in
  let b := if (0 <? cache_size c)%Z then with_ b cache_mw else b in
  let b := with_ b dualstack_mw in
  let b := if negb (ipmap_is_empty (bogus_nxdomain c)) then with_ b bogus_mw else b in
  with_ b ns.

(** A lookup of the server: [DnsMiddlewareHandler::search] on the chain. *)
Definition server_search c (local : list chain_mw) (ns : chain_mw) (req : DnsRequest) (o : ServerOpts) w
  : result DnsResponse LookupError * W :=
  search (execute (build_middleware c local ns)) c req o w.

(** ** The prefetch worker *)

(** The request [prefetch_worker] sends for a task: in the background, with the
    group of the task as its rule group, from the address of a message that was
    not received, [127.0.0.1:0]. *)
Definition prefetch_opts (group : option string) : ServerOpts := {|
  so_group := None; so_rule_group := group; so_no_rule_addr := None; so_no_rule_nameserver := None;
  so_no_rule_ipset := None; so_no_speed_check := None; so_no_cache := None; so_no_rule_soa := None;
  so_no_dualstack_selection := None; so_force_aaaa_soa := None; so_force_https_soa := None;
  so_no_serve_expired := None; so_is_background := true |}.
Definition prefetch_request (query : Query) : DnsRequest :=
  request_new fresh_id query None (IPv4 2130706433) 0 "UDP".

Definition prefetch c (local : list chain_mw) (ns : chain_mw) (task : Query * string) w
  : result DnsResponse LookupError * W :=
  server_search c local ns (prefetch_request (fst task)) (prefetch_opts (Some (snd task))) w.
End chain.
