(* ===== verification/ChainProps.v ===== *)
(** * Properties of the chain

    What the stages of the chain do to one another: address rules and the cache,
    the cache and the upstream side, DNS64 and negative caching, address family
    selection and negative caching, and the refresh of cached answers. *)

From S2P Require Import Prelude Float64 Dns AuditLog App Lru DnsCache CacheInv CacheProps CacheMiddleware.
From S2P Require Import IpSet DomainMap DomainRule Context AddressMw Middleware Search RewriteMw Dns64.
From S2P Require Import Ping DualStack Chain.

Section props.
Context `{LY : Layout, LO : !LruOps Query DnsCacheEntry, HK : Hickory} {U : Type}.
Context {Name : Type} `{!NameOps Name, !Glob, !HashCode Name, NT : !NameText Name, RD : RuleData, EO : !EcsOps}.
Context `{NO : NetOps, RM : RangeMaps, CT : !ChainText, EX : !Executor Name (World U)}.
Context (default_query : Query) (fresh_id : Z).
Abbreviation W := (World U).
Abbreviation chain_handler := (handler (DnsContext Name) DnsRequest DnsResponse LookupError W).
Abbreviation chain_mw := (middleware (DnsContext Name) DnsRequest DnsResponse LookupError W).
Abbreviation build := (build_middleware default_query fresh_id).
Implicit Types ctx : DnsContext Name.
Implicit Types c : RuntimeConfig Name.
Implicit Types w : W.
Implicit Types next : chain_handler.

(** ** The order of the stages *)

Definition opt_stage (b : bool) (m : chain_mw) : list chain_mw := if b then [m] else [].

Definition has_cnames c : bool :=
  existsb (λ g, negb (bool_decide (length (cnames (snd g)) = 0))) (rule_groups c).

(** From the address middleware inwards. *)
Definition inner_stages c (local : list chain_mw) (ns : chain_mw) : list chain_mw :=
  local ++ opt_stage (0 <? cache_size c)%Z cache_mw ++ [dualstack_mw] ++
  opt_stage (negb (ipmap_is_empty (bogus_nxdomain c))) bogus_mw ++ [ns].
Definition stages c (local : list chain_mw) (ns : chain_mw) : list chain_mw :=
  opt_stage (force_no_cname c) force_no_cname_mw ++ opt_stage (debug_save_fail_packet c) fail_packet_mw ++
  [audit_mw (audit_soa c)] ++ opt_stage (has_cnames c) cname_mw ++
  match dns64_prefix c with Some p => [dns64_mw fresh_id p] | None => [] end ++
  [address_mw default_query] ++ inner_stages c local ns.

Lemma with_stack (b : MiddlewareBuilder (DnsContext Name) DnsRequest DnsResponse LookupError W) (m : chain_mw) :
  middleware_stack (with_ b m) = middleware_stack b ++ [m].
Proof. done. Qed.
Lemma foldl_with_stack (b : MiddlewareBuilder (DnsContext Name) DnsRequest DnsResponse LookupError W) ms :
  middleware_stack (foldl with_ b ms) = middleware_stack b ++ ms ∧ default_ (foldl with_ b ms) = default_ b.
Proof.
  revert b. induction ms as [|m ms IH]; intros b; simpl; [by rewrite app_nil_r|].
  destruct (IH (with_ b m)) as [-> ->]. simpl. by rewrite <- app_assoc.
Qed.

Lemma execute_stages c local ns :
  execute (build c local ns) = run default_handler (stages c local ns).
Proof.
  unfold execute, build_middleware, stages, inner_stages, opt_stage, has_cnames.
  destruct (force_no_cname c), (debug_save_fail_packet c), (existsb _ _), (dns64_prefix c),
    (0 <? cache_size c)%Z, (negb (ipmap_is_empty _)); simpl;
    rewrite ?(proj2 (foldl_with_stack _ _)), ?(proj1 (foldl_with_stack _ _)); simpl;
    by rewrite <- ?app_assoc.
Qed.

(** ** Lemmas on the stages *)

Definition same_request ctx ctx' : Prop :=
  cfg ctx' = cfg ctx ∧ server_opts ctx' = server_opts ctx ∧
  ctx_domain_rule ctx' = ctx_domain_rule ctx ∧ server_group_name ctx' = server_group_name ctx.

Lemma read_clock_keeps w :
  w_cache (snd (read_clock w)) = w_cache w ∧ w_audit (snd (read_clock w)) = w_audit w ∧
  w_packets (snd (read_clock w)) = w_packets w ∧ w_up (snd (read_clock w)) = w_up w.
Proof. simpl. by destruct (default _ _). Qed.

(** A stage that keeps the cache is the cache middleware's view of the rest of the
    chain: the stage is then [CacheMiddleware.handle] on the outcome. *)
Lemma cache_mw_handle next ctx req w :
  (∀ w, let '(_, ctx', w') := next ctx req w in same_request ctx ctx' ∧ w_cache w' = w_cache w) →
  let cc := cache_ctx ctx req in
  let q := req_query req in
  let '((now, wall), w1) := read_clock w in
  let w2 := world_set_cache w1 (snd (consult cc now wall q (w_cache w))) in
  let '(res, ctx', w3) := next ctx req (if skips_cache cc then w else w2) in
  let '((now', wall'), _) := read_clock w3 in
  let '(st, r, ran) := CacheMiddleware.handle cc q now wall now' wall' (res, ctx_no_cache ctx') (w_cache w) in
  let '(r', _, w') := cache_mw next ctx req w in
  r' = r ∧ w_cache w' = st.
Proof.
  intros Hnext. unfold cache_mw, CacheMiddleware.handle. cbv zeta.
  fold (skips_cache (cache_ctx ctx req)). unfold skips_cache at 3. unfold skips_cache.
  destruct (opt_no_cache (cache_ctx ctx req) || _ || _) eqn:Eskip.
  - destruct (read_clock w) as [[now wall] w1].
    specialize (Hnext w). destruct (next ctx req w) as [[res ctx'] w3]. destruct Hnext as [_ Hc].
    by destruct (read_clock w3) as [[? ?] ?].
  - destruct (read_clock w) as [[now wall] w1] eqn:Er.
    destruct (read_clock_keeps w) as [Hw1 _]. rewrite Er in Hw1. cbn [snd] in Hw1.
    rewrite Hw1. set (st1 := snd (consult _ _ _ _ _)).
    pose proof (Hnext (world_set_cache w1 st1)) as Hn.
    destruct (next ctx req (world_set_cache w1 st1)) as [[res ctx'] w3] eqn:En.
    destruct Hn as [(H1 & H2 & H3 & H4) Hc]. cbn [world_set_cache w_cache] in Hc.
    destruct (read_clock w3) as [[now' wall'] w4] eqn:Er3.
    destruct (read_clock_keeps w3) as [Hw4 _]. rewrite Er3, Hc in Hw4. cbn [snd] in Hw4.
    assert (Hcc : ∀ r stale, store_answer (cache_ctx ctx' req) (ctx_no_cache ctx') now' wall' (req_query req) r stale st1 =
      store_answer (cache_ctx ctx req) (ctx_no_cache ctx') now' wall' (req_query req) r stale st1).
    { intros r stale. unfold store_answer, cache_ctx, AddressMw.rr_ttl_bounds. simpl. by rewrite H1, H3, H4. }
    subst st1. destruct (consult _ _ _ _ _) as [found st] eqn:Ec. cbn [snd] in *. destruct found as [r|r|].
    + by destruct (answer_from_cache _ _ _ _).
    + rewrite En, Er3, Hw4, Hcc. by destruct (store_answer _ _ _ _ _ _ _ _).
    + rewrite En, Er3, Hw4, Hcc. by destruct (store_answer _ _ _ _ _ _ _ _).
Qed.

Lemma passed_reply_nil ctx q lookup : answers lookup = [] → answers (passed_reply default_query ctx q lookup) = [].
Proof.
  intros E. unfold passed_reply, records. rewrite E.
  assert (Hk : fst (limit_records (q_type q) ctx []) = []) by (unfold limit_records; repeat case_match; done).
  destruct (limit_records (q_type q) ctx []) as [rs cut]. cbn [fst] in Hk. subst rs. unfold bound_ttls.
  destruct (AddressMw.rr_ttl_bounds ctx) as [lo hi]. destruct (_ || _ || _), cut; simpl; try done;
    unfold rebuild; by destruct (from_cache lookup), (name_server_group lookup).
Qed.

(** Errors the cache turns into negative answers. *)
Definition negative_error (err : LookupError) : Prop :=
  is_nx_domain err = true ∨ ∃ code soa, err = LE_Proto (NoRecordsFound code (Some soa)).

Lemma negative_error_response now err q : negative_error err →
  ∃ neg, negative_response_from_error now err q = Some neg ∧ answers neg = [] ∧ queries neg = [q].
Proof.
  unfold negative_response_from_error. intros [->|(code & soa & ->)]; simpl; eexists; done.
Qed.

(** With negative caching on, what comes out of the cache stage for a negative
    error is an answer, with no records unless the cache had an entry. *)
Lemma cache_mw_negative next ctx req w err :
  skips_cache (cache_ctx ctx req) = false → cfg_cache_negative (cfg ctx) = true → negative_error err →
  (∀ w, let '(r, ctx', _) := next ctx req w in r = Err err ∧ same_request ctx ctx' ∧ ctx_no_cache ctx' = false) →
  let '(r, ctx', _) := cache_mw next ctx req w in
  same_request ctx ctx' ∧ ∃ res, r = Ok res ∧
    (fst (consult (cache_ctx ctx req) (fst (fst (read_clock w))) (snd (fst (read_clock w))) (req_query req) (w_cache w)) = Miss →
       answers res = []).
Proof.
  intros Huse Hneg Herr Hnext. unfold cache_mw. rewrite Huse. cbv zeta.
  destruct (read_clock_keeps w) as [Hw1 _].
  destruct (read_clock w) as [[now wall] w1]. cbn [fst snd] in *. rewrite Hw1.
  destruct (consult _ _ _ _ _) as [found st]. cbn [fst].
  specialize (Hnext (world_set_cache w1 st)).
  destruct (next ctx req (world_set_cache w1 st)) as [[r ctx'] w2].
  destruct Hnext as (-> & Hsame & Hnc).
  destruct (read_clock w2) as [[now' wall'] w3].
  destruct (negative_error_response now' err (req_query req) Herr) as (neg & En & Ha & _).
  destruct found as [res|res|].
  - destruct (answer_from_cache _ _ _ _) as [st' res']. split; [by repeat split|]. by exists res'.
  - unfold store_answer. rewrite Hnc. destruct Hsame as (Ec & ?). simpl. rewrite Ec, Hneg. simpl. rewrite En.
    split; [done|]. by exists neg.
  - unfold store_answer. rewrite Hnc. destruct Hsame as (Ec & ?). simpl. rewrite Ec, Hneg. simpl. rewrite En.
    split; [done|]. by exists neg.
Qed.

(** DNS64 and negative caching: with negative caching on (the default), the error
    that says a name has no IPv6 address never reaches the DNS64 stage, because
    the cache stage inside it has already turned it into an empty answer.  So the
    stage hands that answer on, asks for no IPv4 address and synthesises nothing,
    and the client of an IPv4-only name gets no address. *)
Theorem dns64_blocked (p : Z * Z) (next : chain_handler) (ctx : DnsContext Name) (req : DnsRequest)
    (w : W) (err : LookupError)
    (Hq : q_type (req_query req) = RT_AAAA) (Hstatic : handle_rule_addr RT_AAAA ctx = None)
    (Huse : skips_cache (cache_ctx ctx req) = false) (Hneg : cfg_cache_negative (cfg ctx) = true)
    (Herr : negative_error err)
    (Hnext : ∀ w, let '(r, ctx', _) := next ctx req w in
       r = Err err ∧ same_request ctx ctx' ∧ ctx_no_cache ctx' = false) :
  let h := address_mw default_query (cache_mw next) in
  dns64_mw fresh_id p h ctx req w = h ctx req w ∧
  ∃ res, fst (fst (dns64_mw fresh_id p h ctx req w)) = Ok res ∧
    (fst (consult (cache_ctx ctx req) (fst (fst (read_clock w))) (snd (fst (read_clock w))) (req_query req) (w_cache w)) = Miss →
       answers res = []).
Proof.
  intros h. pose proof (cache_mw_negative next ctx req w err Huse Hneg Herr Hnext) as Hc.
  assert (Hh : ∃ res ctx' w', h ctx req w = (Ok res, ctx', w') ∧
    (fst (consult (cache_ctx ctx req) (fst (fst (read_clock w))) (snd (fst (read_clock w))) (req_query req) (w_cache w)) = Miss →
       answers res = [])).
  { unfold h, address_mw. rewrite Hq, Hstatic.
    destruct (cache_mw next ctx req w) as [[r ctx'] w']. destruct Hc as (_ & res & -> & Hres).
    do 3 eexists. split; [done|]. intros Hm. by apply passed_reply_nil, Hres. }
  destruct Hh as (res & ctx' & w' & Hh & Hres). unfold dns64_mw. rewrite Hq, Hh. split; [done|]. by exists res.
Qed.

(** ** Static answers *)

(** No static answer is an alias. *)
Lemma static_rdata_no_cname t ctx l :
  handle_rule_addr t ctx = Some l → Forall (λ d, match d with RD_CNAME _ => False | _ => True end) l.
Proof.
  unfold handle_rule_addr. case_if; [intros [= <-]; by repeat constructor|]. case_if; [done|].
  apply orb_false_iff in Heqb0 as [_ Hip%negb_false_iff].
  destruct (ctx_domain_rule ctx) as [n|]; simpl; [|done].
  intros [[-> _]|Hty]%address_of_rules_typed; [by repeat constructor| |done].
  eapply Forall_impl; [exact Hty|]. by intros [].
Qed.

Lemma strip_static ctx q now l t :
  handle_rule_addr t ctx = Some l → strip_cname_records (static_reply ctx q now l) = static_reply ctx q now l.
Proof.
  intros Hl%static_rdata_no_cname. unfold strip_cname_records, static_reply, new_with_deadline, set_answers. simpl.
  f_equal. induction Hl as [|d l Hd _ IH]; simpl; [done|]. rewrite IH. by destruct d.
Qed.

(** What a stage outside the address middleware may do to the world. *)
Definition keeps_data w w' : Prop := w_cache w' = w_cache w ∧ w_up w' = w_up w ∧ w_packets w' = w_packets w.

#[local] Instance keeps_data_trans : Transitive keeps_data.
Proof. intros w1 w2 w3 (? & ? & ?) (? & ? & ?). repeat split; congruence. Qed.

Lemma read_clock_keeps_data w : keeps_data w (snd (read_clock w)).
Proof. destruct (read_clock_keeps w) as (? & ? & ? & ?). by repeat split. Qed.

(** The outcome of a stage that a static answer passes through. *)
Definition static_outcome ctx (req : DnsRequest) (rdatas : list RData) (log : bool) w
    (out : result DnsResponse LookupError * DnsContext Name * W) : Prop :=
  let '(res, ctx', w') := out in
  (∃ now, res = Ok (static_reply ctx (req_query req) now rdatas)) ∧
  same_request ctx ctx' ∧ ctx_source ctx' = From_Static ∧ keeps_data w w' ∧
  if log then
    if audited (audit_soa (cfg ctx)) {| au_id := 0; au_client := ""; au_query := req_query req; au_result := res;
         au_speed := 0; au_elapsed := 0; au_date := 0; au_source := From_Static |}
    then ∃ e, query_log (w_audit w') = push_log (query_log (w_audit w)) e ∧ source e = "Static" ∧
           log_result e = "success" ∧ AuditLog.domain e = q_name (req_query req)
    else w_audit w' = w_audit w
  else w_audit w' = w_audit w.

Section static.
Context (ctx : DnsContext Name) (req : DnsRequest) (rdatas : list RData).
Context (Hstatic : handle_rule_addr (q_type (req_query req)) ctx = Some rdatas).

Lemma address_mw_static next w : static_outcome ctx req rdatas false w (address_mw default_query next ctx req w).
Proof.
  unfold address_mw. rewrite Hstatic. destruct (read_clock_keeps_data w) as (H1 & H2 & H3).
  destruct (read_clock_keeps w) as (_ & H4 & _). destruct (read_clock w) as [[now wall] w'].
  split_and!; [by eexists|by repeat split|done|by repeat split|done].
Qed.

Lemma dns64_mw_static p h w :
  static_outcome ctx req rdatas false w (h ctx req w) →
  static_outcome ctx req rdatas false w (dns64_mw fresh_id p h ctx req w).
Proof.
  intros Hh. unfold dns64_mw. destruct (q_type (req_query req)); try done.
  destruct (h ctx req w) as [[res ctx'] w']. destruct Hh as ((now & ->) & Hh). split; [by eexists|done].
Qed.

Lemma cname_mw_static h w : cname_of ctx = None →
  static_outcome ctx req rdatas false w (h ctx req w) →
  static_outcome ctx req rdatas false w (cname_mw h ctx req w).
Proof. unfold cname_mw. by intros ->. Qed.

Lemma audit_mw_static h w :
  (∀ w, static_outcome ctx req rdatas false w (h ctx req w)) →
  static_outcome ctx req rdatas true w (audit_mw (audit_soa (cfg ctx)) h ctx req w).
Proof.
  intros Hh. unfold audit_mw.
  destruct (read_clock_keeps w) as (A1 & A2 & A3 & A4). destruct (read_clock w) as [[? date] w1]. cbn [snd] in *.
  destruct (read_clock_keeps w1) as (B1 & B2 & B3 & B4). destruct (read_clock w1) as [[start ?] w2]. cbn [snd] in *.
  specialize (Hh w2). destruct (h ctx req w2) as [[res ctx'] w3].
  destruct Hh as ((now & ->) & Hsame & Hsrc & (C1 & C2 & C3) & C4).
  unfold static_outcome, audited. cbn [au_result].
  destruct (negb (audit_soa (cfg ctx)) && is_soa_only _) eqn:E.
  { apply andb_true_iff in E as [E1%negb_true_iff E2]. rewrite E1, E2. split_and!; [by eexists|done|done| |].
    - by repeat split; congruence.
    - simpl. congruence. }
  destruct (read_clock_keeps w3) as (D1 & D2 & D3 & D4). destruct (read_clock w3) as [[stop ?] w4]. cbn [snd] in *.
  unfold audit_handle. cbn [au_result]. rewrite E.
  split_and!; [by eexists|done|done|by repeat split; cbn; congruence|].
  apply andb_false_iff in E.
  assert (audit_soa (cfg ctx) || negb (is_soa_only (Ok (static_reply ctx (req_query req) now rdatas))) = true) as ->.
  { destruct E as [E%negb_false_iff|E]; rewrite E; [done|apply orb_true_r]. }
  eexists. split; [cbn [world_set_audit w_audit query_log]; f_equal; congruence|]. simpl. by rewrite Hsrc.
Qed.

Lemma fail_packet_mw_static h w :
  static_outcome ctx req rdatas true w (h ctx req w) →
  static_outcome ctx req rdatas true w (fail_packet_mw h ctx req w).
Proof.
  intros Hh. unfold fail_packet_mw. destruct (h ctx req w) as [[res ctx'] w'].
  destruct Hh as ((now & ->) & Hh). split; [by eexists|done].
Qed.

Lemma force_no_cname_mw_static h w :
  static_outcome ctx req rdatas true w (h ctx req w) →
  static_outcome ctx req rdatas true w (force_no_cname_mw h ctx req w).
Proof.
  intros Hh. unfold force_no_cname_mw. destruct (h ctx req w) as [[res ctx'] w'].
  destruct Hh as ((now & ->) & Hh).
  replace (if bool_decide _ then _ else _) with (static_reply ctx (req_query req) now rdatas)
    by (case_if; [done|by erewrite strip_static]).
  split; [by eexists|done].
Qed.
End static.

(** C5. Static answers in the chain: whatever stages are configured, a request that
    the address rules answer and for whose name there is no alias rule - such a rule
    rewrites the request before the address rules see it - gets exactly the static
    reply; the cache, the upstream side and the failure dump are not touched, and
    the query log gains one successful entry for the name, with the source Static
    - or none, when the reply holds only a SOA record and such replies are not
    audited. *)
Theorem static_answer_in_chain (c : RuntimeConfig Name) (local : list chain_mw) (ns : chain_mw)
    (ctx : DnsContext Name) (req : DnsRequest) (rdatas : list RData) (w : W)
    (Hcfg : cfg ctx = c) (Hcname : cname_of ctx = None)
    (Hstatic : handle_rule_addr (q_type (req_query req)) ctx = Some rdatas) :
  static_outcome ctx req rdatas true w (execute (build c local ns) ctx req w).
Proof.
  rewrite execute_stages. unfold stages, opt_stage. subst c.
  assert (Ha : ∀ w, static_outcome ctx req rdatas false w
    (run default_handler ([address_mw default_query] ++ inner_stages (cfg ctx) local ns) ctx req w)).
  { intros w'. by apply address_mw_static. }
  assert (Hd : ∀ w, static_outcome ctx req rdatas false w
    (run default_handler (match dns64_prefix (cfg ctx) with Some p => [dns64_mw fresh_id p] | None => [] end ++
       [address_mw default_query] ++ inner_stages (cfg ctx) local ns) ctx req w)).
  { intros w'. destruct (dns64_prefix (cfg ctx)); [|apply Ha]. rewrite run_app. by apply dns64_mw_static. }
  assert (Hn : ∀ w, static_outcome ctx req rdatas false w
    (run default_handler ((if has_cnames (cfg ctx) then [cname_mw] else []) ++
      match dns64_prefix (cfg ctx) with Some p => [dns64_mw fresh_id p] | None => [] end ++
       [address_mw default_query] ++ inner_stages (cfg ctx) local ns) ctx req w)).
  { intros w'. destruct (has_cnames (cfg ctx)); [|apply Hd]. rewrite run_app. by apply cname_mw_static. }
  rewrite run_app. set (h := run default_handler _).
  assert (Hh : ∀ w, static_outcome ctx req rdatas true w (h ctx req w)).
  { intros w'. subst h. rewrite run_app. set (h' := run default_handler _).
    assert (Hh' : ∀ w, static_outcome ctx req rdatas true w (h' ctx req w)).
    { intros w''. subst h'. rewrite run_app. by apply audit_mw_static. }
    destruct (debug_save_fail_packet (cfg ctx)); [|apply Hh']. by apply fail_packet_mw_static. }
  destruct (force_no_cname (cfg ctx)); [|apply Hh]. by apply force_no_cname_mw_static.
Qed.

(** ** Address family selection and the cache *)

Context `{LL : !LruLaws (K := Query) (V := DnsCacheEntry)}.

(** The cache stage at the second of two equal requests, when it can answer from
    the state the first one left. *)
Lemma cache_mw_hit next ctx req w :
  skips_cache (cache_ctx ctx req) = false →
  let '((now, wall), _) := read_clock w in
  (∀ now' wall' out, snd (CacheMiddleware.handle (cache_ctx ctx req) (req_query req) now wall now' wall' out (w_cache w)) = false) →
  let '(r, ctx', _) := cache_mw next ctx req w in
  ctx_source ctx' = From_Cache ∧
  r = snd (fst (CacheMiddleware.handle (cache_ctx ctx req) (req_query req) now wall 0 0 (Err NameExists, false) (w_cache w))).
Proof.
  intros Huse. destruct (read_clock w) as [[now wall] w1] eqn:Er. intros Hran. unfold cache_mw. rewrite Huse. cbv zeta.
  destruct (read_clock_keeps w) as [Hw1 _]. rewrite Er in *. cbn [snd] in Hw1. rewrite Hw1.
  unfold CacheMiddleware.handle in *. unfold skips_cache in Huse. rewrite Huse in *.
  destruct (consult _ _ _ _ _) as [[res|res|] st].
  - by destruct (answer_from_cache _ _ _ _).
  - specialize (Hran 0%Z 0%Z (Err NameExists, false)). by destruct (store_answer _ _ _ _ _ _ _ _).
  - specialize (Hran 0%Z 0%Z (Err NameExists, false)). by destruct (store_answer _ _ _ _ _ _ _ _).
Qed.

(** When the cache has nothing, the answer is stored at the time of the reading
    that follows the rest of the chain. *)
Lemma cache_mw_miss_clock next ctx req w :
  skips_cache (cache_ctx ctx req) = false → so_is_background (server_opts ctx) = false →
  cache_lookup (req_query req) (cache (w_cache w)) = None →
  let w1 := snd (read_clock w) in
  let st := snd (consult (cache_ctx ctx req) (fst (fst (read_clock w))) (snd (fst (read_clock w)))
                   (req_query req) (w_cache w)) in
  w_now (snd (cache_mw next ctx req w)) =
  fst (fst (read_clock (snd (next ctx req (world_set_cache w1 st))))).
Proof.
  intros Huse Hbg Hmiss. unfold cache_mw. rewrite Huse. cbv zeta.
  destruct (read_clock_keeps w) as [Hw1 _]. destruct (read_clock w) as [[now wall] w1]. cbn [fst snd] in *. rewrite Hw1.
  assert (Hc := consult_spec (cache_ctx ctx req) now wall (req_query req) (w_cache w)).
  unfold same_group_entry in Hc. simpl in Hc. rewrite Hbg, Hmiss in Hc. simpl in Hc.
  destruct (consult _ _ _ _ _) as [found st]. cbn [fst snd] in *. subst found.
  destruct (next ctx req (world_set_cache w1 st)) as [[? ?] w3]. cbn [snd].
  destruct (read_clock w3) as [[now' wall'] w4] eqn:E4.
  destruct (store_answer _ _ _ _ _ _ _ _). cbn [fst snd world_set_cache w_now].
  simpl in E4. destruct (default _ _). by simplify_eq.
Qed.

Lemma hidden_ttl now q t neg :
  negative_response_from_error now (no_records_found q t) q = Some neg → negative_ttl neg = secs 3600 ∧ answers neg = [].
Proof. intros E. vm_compute in E. by injection E as <-. Qed.

(** A hidden address family stays hidden for an hour (with no memory budget set):
    the error with which the selection stage hides a family is negatively cached,
    and its SOA record is one with a minimum of a day, so once a lookup was hidden
    every lookup of the next 3600 seconds gets an empty answer from the cache,
    whatever the speed checks would say by then. *)
Theorem hidden_for_an_hour (size : nat) (stale : bool) (ettl rt : Z) (ops : list cache_op)
    (next next2 : chain_handler) (ctx : DnsContext Name) (req : DnsRequest) (w w2 : W)
    (Hst : cache (w_cache w) = run_ops ops (cache_new size stale ettl rt 0))
    (Huse : skips_cache (cache_ctx ctx req) = false) (Hbg : so_is_background (server_opts ctx) = false)
    (Hneg : cfg_cache_negative (cfg ctx) = true)
    (Hmiss : cache_lookup (req_query req) (cache (w_cache w)) = None)
    (Hhide : ∀ w, let '(r, ctx', w') := dualstack_mw next ctx req w in
       r = hidden ctx req ∧ same_request ctx ctx' ∧ ctx_no_cache ctx' = false ∧ w_cache w' = w_cache w)
    (Hw2 : w_cache w2 = w_cache (snd (cache_mw (dualstack_mw next) ctx req w)))
    (Hnow : (w_now (snd (cache_mw (dualstack_mw next) ctx req w)) ≤ fst (fst (read_clock w2)) ≤
             w_now (snd (cache_mw (dualstack_mw next) ctx req w)) + secs 3600)%Z) :
  (∃ res, fst (fst (cache_mw (dualstack_mw next) ctx req w)) = Ok res ∧ answers res = []) ∧
  ∃ res, fst (fst (cache_mw next2 ctx req w2)) = Ok res ∧ answers res = [] ∧ from_cache res = true ∧
    ctx_source (snd (fst (cache_mw next2 ctx req w2))) = From_Cache.
Proof.
  pose proof (cache_mw_handle (dualstack_mw next) ctx req w) as Hh. cbv zeta in Hh.
  destruct (read_clock w) as [[now wall] w1] eqn:Er. rewrite Huse in Hh.
  set (st1 := snd (consult _ _ _ _ _)) in Hh.
  pose proof (Hhide (world_set_cache w1 st1)) as Hd.
  pose proof (cache_mw_miss_clock (dualstack_mw next) ctx req w Huse Hbg Hmiss) as Hlast.
  rewrite Er in Hlast. cbv zeta in Hlast. cbn [fst snd] in Hlast. fold st1 in Hlast.
  destruct (dualstack_mw next ctx req (world_set_cache w1 st1)) as [[r ctx'] w3]. cbn [snd] in Hlast.
  destruct Hd as (-> & _ & Hnc & _).
  destruct (read_clock w3) as [[now' wall'] w4]. cbn [fst] in Hlast. rewrite Hlast in Hnow. clear Hlast.
  destruct (negative_error_response now' (no_records_found (req_query req) (u32 (default 0%Z (cf_rr_ttl (cfg ctx)))))
    (req_query req) ltac:(right; by do 2 eexists)) as (neg & En & Ha & _).
  pose proof (negative_remembered size stale ettl rt ops (cache_ctx ctx req) (req_query req) now wall now' wall'
    (w_cache w) _ neg Hst Huse Hbg Hneg Hmiss En) as Hrem.
  unfold hidden in Hh. rewrite Hnc in Hh.
  destruct (CacheMiddleware.handle _ _ now wall now' wall' _ _) as [[st r] ran] eqn:Ehandle.
  assert (Hh' : fst (fst (cache_mw (dualstack_mw next) ctx req w)) = r ∧
    w_cache (snd (cache_mw (dualstack_mw next) ctx req w)) = st).
  { destruct (cache_mw (dualstack_mw next) ctx req w) as [[? ?] ?]. apply Hh.
    intros wi. specialize (Hhide wi). destruct (dualstack_mw next ctx req wi) as [[? ?] ?]. naive_solver. }
  destruct Hh' as [-> Hst2]. rewrite Hst2 in Hw2.
  destruct Hrem as (-> & _ & Hrem). split; [by exists neg|].
  pose proof (cache_mw_hit next2 ctx req w2 Huse) as Hhit.
  destruct (read_clock w2) as [[now2 wall2] w5]. cbn [fst] in Hnow. rewrite Hw2 in Hhit.
  destruct (hidden_ttl _ _ _ _ En) as [Httl _]. rewrite <- Httl in Hnow.
  destruct (cache_mw next2 ctx req w2) as [[r3 ctx3] w6]. cbn [fst snd].
  destruct Hhit as [Hsrc ->].
  { intros n2 wl2 out. specialize (Hrem now2 wall2 n2 wl2 out Hnow).
    destruct (CacheMiddleware.handle _ _ now2 _ _ _ _ _) as [[? ?] ?]. by destruct Hrem. }
  specialize (Hrem now2 wall2 0%Z 0%Z (Err NameExists, false) Hnow).
  destruct (CacheMiddleware.handle _ _ now2 _ _ _ _ _) as [[? r2] ?]. destruct Hrem as (_ & res & -> & Hfc & _ & _ & Hlen).
  exists res. split_and!; [done| |done|done]. rewrite Ha in Hlen. by destruct (answers res).
Qed.

(** ** Background refreshes *)

(** Refreshes run with the rules of the local client: the search replaces the rule
    group of a request by what the client rules say about its source, so the group
    a refresh task carries has no effect; where no client rule covers the address
    of the server itself, the refresh runs with the default rules, resolves its
    server group from them and stores the answer under that group. *)
Theorem refresh_uses_local_rules (c : RuntimeConfig Name) (local : list chain_mw) (ns : chain_mw) (q : Query)
    (g g' : string) (w : W) :
  prefetch default_query fresh_id c local ns (q, g) w = prefetch default_query fresh_id c local ns (q, g') w ∧
  (Forall (λ r, applies (prefetch_request fresh_id q) r = false) (client_rules c) →
   let ctx := context_new (to_name (q_name q)) c (prefetch_opts None) in
   server_group_name ctx = resolve_server_group_name None (find_domain_rule (domain_rule_group_map c) (to_name (q_name q)) "") ∧
   prefetch default_query fresh_id c local ns (q, g) w =
     let '(res, _, w') := execute (build c local ns) ctx (prefetch_request fresh_id q) w in (res, w')).
Proof.
  split; [done|]. intros Hnone%rule_group_none. split; [done|].
  unfold prefetch, server_search, search. simpl. rewrite Hnone. by rewrite andb_false_r.
Qed.
End props.

(** ** Concrete runs *)

Module Example.
Import ListName DomainRule.Example Ranges Context.Example.

#[local] Instance layout : Layout := demo_layout.
#[local] Instance lru : LruOps Query DnsCacheEntry := ListLru.list_lru.
#[local] Instance hickory : Hickory := { rtype_to_string t := match t with RT_A => "A" | _ => "AAAA" end }.
#[local] Instance ecs : EcsOps := { subnet_addr _ := IPv4 0; subnet_source_prefix _ := 0%Z }.
#[local] Instance chain_text : ChainText := {
  rtype_is_dnssec _ := false; socket_text _ _ := "192.168.1.5:5353"; name_for_file n := n; encodes _ := true }.

Fixpoint split_labels (cur s : string) : list string :=
  match s with
  | EmptyString => if bool_decide (cur = "") then [] else [cur]
  | String "." s' => cur :: split_labels "" s'
  | String ch s' => split_labels (cur +:+ String ch "") s'
  end.
#[local] Instance texts : NameText name := {
  to_name s := (split_labels "" s, true); name_text n := join "." (fst n) }.

(** The upstream side counts its lookups. *)
Abbreviation W := (World nat).
Abbreviation chain_mw := (middleware (DnsContext name) DnsRequest DnsResponse LookupError W).

#[local] Instance one_by_one : Executor name W := {
  race next ctx req that_req w :=
    let '(this, ctx', w) := next ctx req w in
    let '(that, _, w) := next ctx that_req w in
    ({| this_at := 0; this_res := this; that_at := 0; that_res := that |}, DualStack.Example.pings, ctx', w) }.

Definition asked (w : W) : W :=
  {| w_now := w_now w; w_wall := w_wall w; w_ticks := w_ticks w; w_cache := w_cache w; w_audit := w_audit w;
     w_packets := w_packets w; w_up := S (w_up w) |}.
Definition world : W :=
  {| w_now := 0; w_wall := 0; w_ticks := []; w_up := 0; w_packets := []; w_audit := audit_new true;
     w_cache := {| cache := cache_new 100 true 0 5 0; prefetch_queue := Some []; notified := false |} |}.

(** An upstream with an IPv4 address for every name and no IPv6 address. *)
Definition ipv4_only : chain_mw := λ _ ctx req w,
  let q := req_query req in
  (match q_type q with
   | RT_A => Ok (with_name_server_group (DualStack.Example.answer_of q (RD_A 3221225993)) (server_group_name ctx))
   | _ => Err (no_records_found q 60)
   end, ctx, asked w).
Definition search_ (c : RuntimeConfig name) (t : RecordType) (w : W) : result DnsResponse LookupError * W :=
  server_search (query_query "" RT_A) 1 c [] ipv4_only (request "www.example.com" t) opts_default w.

(** *** Refreshes *)

(** [client-rules 192.168.1.0/24 -group office], and the names below
    [www.example.com] resolved by the servers of the group [office]. *)
Definition office_group : RuleGroup name := {|
  forward_rules := [{| DomainRule.domain := plain ["www"; "example"; "com"]; DomainRule.config := "office" |}];
  address_rules := []; domain_rules := []; cnames := []; srv_records := []; https_records := [];
  txt_records := []; ipset_rules := [] |}.
Definition office : RuntimeConfig name := config {|
  s_rr_ttl_min := None; s_rr_ttl_max := None; s_max_reply_ip_num := None;
  s_rules := create_groups id ∅ [] [("office", office_group)];
  s_clients := [{| client := ClientNet (Net4 3232235776 24); cr_group := "office" |}];
  s_acl := None; s_bogus := []; s_ip_rules := []; s_dns64 := None |}.

(** A client of the office is answered upstream once, then from the cache; after a
    refresh of the entry the same client has to be answered upstream again. *)
Lemma refresh_uses_local_rules_witness :
  let w1 := snd (search_ office RT_A world) in
  let w2 := snd (search_ office RT_A w1) in
  let w3 := snd (prefetch (query_query "" RT_A) 1 office [] ipv4_only (query_query "www.example.com" RT_A, "office") w2) in
  let w4 := snd (search_ office RT_A w3) in
  (w_up w1, w_up w2, w_up w3, w_up w4) = (1, 1, 2, 3) ∧
  server_group_name (context_new (to_name "www.example.com") office (prefetch_opts None)) = "default".
Proof.
  split; [vm_compute; reflexivity|].
  assert (Hf : forallb (λ r, negb (applies (prefetch_request 1 (query_query "www.example.com" RT_A)) r))
    (client_rules office) = true) by (vm_compute; reflexivity).
  refine (eq_trans (proj1 (proj2 (refresh_uses_local_rules (query_query "" RT_A) 1 office [] ipv4_only
    (query_query "www.example.com" RT_A) "office" "office" world) _)) _); [|vm_compute; reflexivity].
  apply Forall_forall. intros r Hr%list_elem_of_In.
  apply negb_true_iff, (proj1 (forallb_forall _ _) Hf r Hr).
Defined.

(** *** DNS64 *)

Definition well_known : Z * Z := (524413980667603649783483181312245760, 96)%Z.
Definition plain_ctx : DnsContext name := ctx_of (config no_settings) None.
Definition aaaa : DnsRequest := request "www.example.com" RT_AAAA.
Definition upstream_ : handler (DnsContext name) DnsRequest DnsResponse LookupError W := ipv4_only default_handler.
Definition addrs (r : result DnsResponse LookupError) : list IpAddr :=
  match r with Ok res => ip_addrs res | Err _ => [] end.

(** The server has the address [64:ff9b::c000:209] for the name without a cache,
    and none with it. *)
Lemma dns64_blocked_witness :
  (∃ res, fst (fst (dns64_mw 1 well_known (address_mw (query_query "" RT_A) (cache_mw upstream_)) plain_ctx aaaa world)) = Ok res ∧
     answers res = []) ∧
  addrs (fst (fst (dns64_mw 1 well_known (address_mw (query_query "" RT_A) upstream_) plain_ctx aaaa world))) =
    [IPv6 524413980667603649783483184533471753].
Proof.
  split; [|vm_compute; reflexivity].
  destruct (dns64_blocked (CT := chain_text) (query_query "" RT_A) 1 well_known upstream_ plain_ctx aaaa world
    (no_records_found (req_query aaaa) 60)) as (_ & res & Hres & Hnil).
  1-4: vm_compute; reflexivity.
  - right. by do 2 eexists.
  - intros w. split_and!; done.
  - exists res. split; [exact Hres|]. apply Hnil. vm_compute. reflexivity.
Defined.

(** *** A static answer *)

Definition static_ctx : DnsContext name := ctx_of (config no_settings) (Some AddressMw.Example.www_rule).

Lemma static_answer_in_chain_witness :
  let '(res, ctx', w') := execute (build_middleware (query_query "" RT_A) 1 (config no_settings) [] ipv4_only)
                            static_ctx (request "www.example.com" RT_A) world in
  (∃ now, res = Ok (static_reply static_ctx (query_query "www.example.com" RT_A) now [RD_A 16909060])) ∧
  w_up w' = 0 ∧ map source (query_log (w_audit w')) = ["Static"].
Proof.
  pose proof (static_answer_in_chain (query_query "" RT_A) 1 (config no_settings) [] ipv4_only static_ctx
    (request "www.example.com" RT_A) [RD_A 16909060] world eq_refl eq_refl eq_refl) as Hs.
  assert (Hlog : map source (query_log (w_audit (snd (execute
    (build_middleware (query_query "" RT_A) 1 (config no_settings) [] ipv4_only) static_ctx
    (request "www.example.com" RT_A) world)))) = ["Static"]) by (vm_compute; reflexivity).
  destruct (execute _ _ _ _) as [[res ctx'] w']. destruct Hs as (Hr & _ & _ & (_ & Hup & _) & _).
  split; [exact Hr|]. split; [exact Hup|exact Hlog].
Defined.

(** *** A hidden family *)

(** An upstream with addresses of both families, of which IPv6 is the slower. *)
Definition both : handler (DnsContext name) DnsRequest DnsResponse LookupError W := λ ctx req w,
  (Ok (DualStack.Example.answer_of (req_query req) (match q_type (req_query req) with RT_A => RD_A 1 | _ => RD_AAAA 2 end)), ctx, w).
Definition after_hiding : W := snd (cache_mw (dualstack_mw both) plain_ctx aaaa world).

(** Half an hour later, without selection between the families. *)
Lemma hidden_for_an_hour_witness :
  let w2 := {| w_now := 0; w_wall := 0; w_ticks := [(secs 1800, 1800%Z)]; w_cache := w_cache after_hiding;
               w_audit := w_audit after_hiding; w_packets := []; w_up := 0 |} in
  ∃ res, fst (fst (cache_mw both plain_ctx aaaa w2)) = Ok res ∧ answers res = [].
Proof.
  intros w2.
  destruct (hidden_for_an_hour (CT := chain_text) (LL := ListLru.list_lru_laws) 100 true 0 5 [] both both
    plain_ctx aaaa world w2) as (_ & res & Hres & Hnil & _).
  1-5: vm_compute; reflexivity.
  - intros w. split; [vm_compute; reflexivity|]. by split_and!.
  - reflexivity.
  - split; vm_compute; discriminate.
  - by exists res.
Defined.
End Example.
