(* ===== verification/NsStrategy.v ===== *)
(** * Address lookups over the servers of a group

    [per_nameserver_lookup_ip], [lookup_ip] and its three strategies
    [lookup_ip_first_ping], [lookup_ip_fastest_ip] and [lookup_ip_fastest_response],
    [most_frequent_ip] and [handle_strategy_result] (src/dns_mw_ns.rs).

    The strategies are loops over the events of a set of concurrent futures.  A
    schedule, a list of positions, says which of the pending futures completes
    next; a loop ends when it returns or when nothing is pending. *)

From S2P Require Import Prelude Float64 Dns IpSet DomainMap DomainRule Context NameServer Ping.

(** ** Options *)

Record LookupIpOptions `{RM : RangeMaps} := {
  response_strategy : ResponseMode;
  lo_speed_check_mode : option (list SpeedCheckMode);
  lo_no_speed_check : bool;
  lo_ignore_ip : IpSet;
  lo_whitelist_ip : IpSet;
  lo_blacklist_ip : IpSet;
  lo_ip_alias : IpMap IpAlias;
  lo_record_type : RecordType;
}.

(** The options of an upstream server the filter reads. *)
Record ServerFilter := { whitelist_on : bool; blacklist_on : bool }.

(** ** One server *)

Section filter.
Context `{RM : RangeMaps}.
(** The response code of hickory's [NoRecords] made from an [AuthorityData] for a
    name that does not exist. *)
Context (authority_code : ResponseCode).
Implicit Types o : LookupIpOptions.

Definition ip_filter (sf : ServerFilter) o (ip : IpAddr) : bool :=
  if whitelist_on sf && ipmap_contains (lo_whitelist_ip o) ip then true
  else if blacklist_on sf && ipmap_contains (lo_blacklist_ip o) ip then false
  else negb (ipmap_contains (lo_ignore_ip o) ip).

(** The records an alias stands for, of the type that is asked for. *)
Definition alias_records (t : RecordType) (record : Record_) (ips : list IpAddr) : list Record_ :=
  omap (λ ip, match t, ip with
              | RT_A, IPv4 _ | RT_AAAA, IPv6 _ => Some (with_data record (rdata_of_ip ip))
              | _, _ => None
              end) ips.

(** The loop over the answers; [alias_set] holds the aliases already used. *)
Fixpoint filter_answers (sf : ServerFilter) o (alias_set : list Z) (answers : list Record_) : list Record_ :=
  match answers with
  | [] => []
  | record :: rest =>
      match rdata_ip (r_data record) with
      | Some ip =>
          if ip_filter sf o ip then
            match ipmap_get (lo_ip_alias o) ip with
            | None => record :: filter_answers sf o alias_set rest
            | Some alias =>
                if bool_decide (alias_ptr alias ∈ alias_set) then filter_answers sf o alias_set rest
                else alias_records (lo_record_type o) record (alias_ips alias) ++
                     filter_answers sf o (alias_set ++ [alias_ptr alias]) rest
            end
          else filter_answers sf o alias_set rest
      | None => filter_answers sf o alias_set rest
      end
  end.

(** Whether anything is filtered. *)
Definition filter_on (sf : ServerFilter) o : bool :=
  whitelist_on sf || blacklist_on sf || negb (ipmap_is_empty (lo_ignore_ip o)) ||
  negb (ipmap_is_empty (lo_ip_alias o)).

(** [per_nameserver_lookup_ip], on what the server's lookup brought at time [now]. *)
Definition per_nameserver_lookup_ip (now : Z) (sf : ServerFilter) o (res : result DnsResponse LookupError)
  : result DnsResponse LookupError :=
  if negb (filter_on sf o) then res
  else match res with
       | Ok lookup =>
           match filter_answers sf o [] (answers lookup) with
           | [] => Err (LE_Proto (NoRecordsFound authority_code None))
           | answers => Ok (set_valid_until_max now (set_answers lookup answers))
           end
       | Err err => Err err
       end.

(** *** What passes the filter *)

(** An address that may be returned: whitelisted, or neither blacklisted nor ignored,
    as far as the lists are on for the server. *)
Definition allowed (sf : ServerFilter) o (ip : IpAddr) : Prop :=
  whitelist_on sf = true ∧ ipmap_contains (lo_whitelist_ip o) ip = true ∨
  (blacklist_on sf = true → ipmap_contains (lo_blacklist_ip o) ip = false) ∧ ipmap_contains (lo_ignore_ip o) ip = false.

Lemma ip_filter_allowed sf o ip : ip_filter sf o ip = true ↔ allowed sf o ip.
Proof.
  unfold ip_filter, allowed. destruct (whitelist_on sf), (ipmap_contains (lo_whitelist_ip o) ip),
    (blacklist_on sf), (ipmap_contains (lo_blacklist_ip o) ip), (ipmap_contains (lo_ignore_ip o) ip); naive_solver.
Qed.
#[export] Instance allowed_dec sf o ip : Decision (allowed sf o ip).
Proof. destruct (ip_filter sf o ip) eqn:E; [left|right]; rewrite <-ip_filter_allowed, E; done. Defined.

(** The alias of the address of a record, if the address is allowed. *)
Definition alias_used sf o (r : Record_) : option IpAlias :=
  ip ← rdata_ip (r_data r); if decide (allowed sf o ip) then ipmap_get (lo_ip_alias o) ip else None.

(** What an answer's record stands for, with the records before it: itself, or where its
    address has an alias a record for each address of the alias that is of the type
    asked for, unless a record before it has the same alias. *)
Definition stands_for sf o (before : list Record_) (r : Record_) : list Record_ :=
  match rdata_ip (r_data r) with
  | Some ip =>
      if decide (allowed sf o ip) then
        match ipmap_get (lo_ip_alias o) ip with
        | None => [r]
        | Some a =>
            if decide (alias_ptr a ∈ alias_ptr <$> omap (alias_used sf o) before) then []
            else filter (λ r', record_type r' = lo_record_type o) (map (λ ip', with_data r (rdata_of_ip ip')) (alias_ips a))
        end
      else []
  | None => []
  end.

Lemma alias_records_filter t record ips :
  alias_records t record ips = filter (λ r, record_type r = t) (map (λ ip, with_data record (rdata_of_ip ip)) ips).
Proof.
  unfold alias_records. induction ips as [|ip ips IH]; [done|]. cbn [map omap list_omap]. rewrite filter_cons, IH.
  case_decide as Hd; destruct t, ip; cbn in *; by simplify_eq.
Qed.

Lemma filter_answers_spec sf o before seen l :
  (∀ p, p ∈ seen ↔ p ∈ alias_ptr <$> omap (alias_used sf o) before) →
  filter_answers sf o seen l = mjoin (imap (λ i, stands_for sf o (take (length before + i) (before ++ l))) l).
Proof.
  revert before seen. induction l as [|r l IH]; intros before seen Hseen; [done|].
  assert (Hrec : ∀ seen', (∀ p, p ∈ seen' ↔ p ∈ alias_ptr <$> omap (alias_used sf o) (before ++ [r])) →
    filter_answers sf o seen' l = mjoin (imap ((λ i, stands_for sf o (take (length before + i) (before ++ r :: l))) ∘ S) l)).
  { intros seen' Hs. rewrite (IH (before ++ [r]) seen' Hs). f_equal. apply imap_ext. intros i x _. cbn [compose].
    rewrite length_app, <-(app_assoc before [r] l). cbn [length app]. do 2 f_equal. lia. }
  cbn [filter_answers imap]. rewrite Nat.add_0_r, take_app_length.
  assert (Hskip : alias_used sf o r = None → ∀ p, p ∈ seen ↔ p ∈ alias_ptr <$> omap (alias_used sf o) (before ++ [r])).
  { intros E p. rewrite omap_app, Hseen. cbn. rewrite E, app_nil_r. done. }
  change (mjoin (stands_for sf o before r :: ?l)) with (stands_for sf o before r ++ mjoin l).
  unfold stands_for at 1. unfold alias_used in Hskip at 1.
  destruct (rdata_ip (r_data r)) as [ip|] eqn:Eip; [|by rewrite Hrec by auto]. cbn [mbind option_bind] in Hskip.
  destruct (ip_filter sf o ip) eqn:Ef.
  2:{ assert (Hd : ¬ allowed sf o ip) by (rewrite <-ip_filter_allowed, Ef; done). rewrite decide_False by done.
      rewrite decide_False in Hskip by done. rewrite Hrec by auto. done. }
  apply ip_filter_allowed in Ef. rewrite decide_True in Hskip by done. rewrite decide_True by done.
  destruct (ipmap_get (lo_ip_alias o) ip) as [alias|] eqn:Ea; [|by rewrite Hrec by auto].
  assert (Hu : omap (alias_used sf o) (before ++ [r]) = omap (alias_used sf o) before ++ [alias]).
  { rewrite omap_app. f_equal. cbn. unfold alias_used. rewrite Eip. cbn [mbind option_bind]. by rewrite decide_True, Ea. }
  case_bool_decide as Hin.
  - rewrite decide_True by (by apply Hseen). rewrite Hrec; [done|]. intros p. rewrite Hu, fmap_app, elem_of_app, Hseen.
    split; [by left|]. intros [?|E%list_elem_of_singleton]; [done|]. rewrite E. by apply Hseen.
  - rewrite decide_False by (by rewrite <-Hseen). rewrite alias_records_filter. f_equal. apply Hrec.
    intros p. by rewrite Hu, fmap_app, !elem_of_app, Hseen.
Qed.
End filter.

(** ** Loops over concurrent futures *)

Section loop.
Context {St R : Type} (iterate : nat → St → St + R) (measure : St → nat).

(** [while let Some(event) = events.next().await]: each iteration takes the next
    position of the schedule. *)
Fixpoint run_loop (fuel : nat) (sched : list nat) (st : St) : option R :=
  match fuel with
  | 0 => None
  | S fuel =>
      match iterate (default 0 (head sched)) st with
      | inr r => Some r
      | inl st' => run_loop fuel (tail sched) st'
      end
  end.

Lemma run_loop_terminates :
  (∀ i st st', iterate i st = inl st' → measure st' < measure st) →
  ∀ fuel sched st, measure st < fuel → is_Some (run_loop fuel sched st).
Proof.
  intros Hdec. induction fuel as [|fuel IH]; intros sched st Hlt; [lia|]. simpl.
  destruct (iterate _ st) as [st'|r] eqn:E; [|by eexists]. apply IH. specialize (Hdec _ _ _ E). lia.
Qed.

Lemma run_loop_inv (P : St → Prop) (Q : R → Prop) :
  (∀ i st st', P st → iterate i st = inl st' → P st') →
  (∀ i st r, P st → iterate i st = inr r → Q r) →
  ∀ fuel sched st r, P st → run_loop fuel sched st = Some r → Q r.
Proof.
  intros Hstep Hend. induction fuel as [|fuel IH]; intros sched st r HP; simpl; [done|].
  destruct (iterate _ st) as [st'|r'] eqn:E; [by eauto|]. intros [= <-]. by eapply Hend.
Qed.
End loop.

(** The completion of the future at a position, counted around. *)
Definition pick {A} (i : nat) (l : list A) : option (A * list A) :=
  let k := i mod length l in (λ e, (e, delete k l)) <$> l !! k.

Lemma pick_none {A} i (l : list A) : pick i l = None ↔ l = [].
Proof.
  unfold pick. rewrite fmap_None, lookup_ge_None. split; [|intros ->; simpl; lia].
  destruct l as [|a l]; [done|]. pose proof (Nat.mod_upper_bound i (length (a :: l))). simpl in *. lia.
Qed.

Lemma pick_perm {A} i (l : list A) e l' : pick i l = Some (e, l') → l ≡ₚ e :: l'.
Proof.
  unfold pick. destruct (l !! _) as [x|] eqn:Hx; simpl; [|done]. intros [= <- <-]. by apply delete_Permutation.
Qed.

(** ** The strategies *)

Inductive IpStrategyResult :=
| DirectResponse (r : DnsResponse)
| SelectedIp (ip : IpAddr) (ok_tasks : list DnsResponse) (err_tasks : list LookupError)
| Fallback (ok_tasks : list DnsResponse) (err_tasks : list LookupError)
| StrategyError (e : LookupError).

(** The enumeration of a hash map of counted addresses. *)
Class MapOrder := { map_order : list (IpAddr * Z) → list (IpAddr * Z) }.
Class MapOrderLaws `{MapOrder} := { map_order_perm l : map_order l ≡ₚ l }.

Section strategies.
Context `{MO : MapOrder}.
Abbreviation outcome := (result DnsResponse LookupError).

Definition count_ip (map : gmap IpAddr Z) (ip : IpAddr) : gmap IpAddr Z :=
  <[ip := (default 0 (map !! ip) + 1)%Z]> map.

(** [max_by_key]: the last of the maximal elements. *)
Definition max_by_count (best : option (IpAddr * Z)) (x : IpAddr * Z) : option (IpAddr * Z) :=
  match best with
  | None => Some x
  | Some b => if (snd b <=? snd x)%Z then Some x else Some b
  end.

Definition most_frequent_ip (ok_tasks : list DnsResponse) : option IpAddr :=
  let counts := fold_left count_ip (mjoin (ip_addrs <$> ok_tasks)) ∅ in
  fst <$> fold_left max_by_count (map_order (map_to_list counts)) None.

(** The end of both ping strategies. *)
Definition select_ip (fastest_ip : option IpAddr) (ok_tasks : list DnsResponse) (err_tasks : list LookupError)
  : IpStrategyResult :=
  match fastest_ip with
  | Some ip => SelectedIp ip ok_tasks err_tasks
  | None =>
      match most_frequent_ip ok_tasks with
      | Some ip => SelectedIp ip ok_tasks err_tasks
      | None => Fallback ok_tasks err_tasks
      end
  end.

(** *** The first ping *)

Inductive fp_event := FP_Ping (ip : option IpAddr) | FP_Query (res : outcome).
Record fp_state := { fp_events : list fp_event; fp_ok : list DnsResponse; fp_err : list LookupError }.

(** [nets] gives the network of the speed check that each answer starts. *)
Definition fp_iterate (nets : nat → Network) (modes : list SpeedCheckMode) (i : nat) (st : fp_state)
  : fp_state + IpStrategyResult :=
  match pick i (fp_events st) with
  | None => inr (select_ip None (fp_ok st) (fp_err st))
  | Some (FP_Ping ip, _) => inr (select_ip ip (fp_ok st) (fp_err st))
  | Some (FP_Query (Ok lookup), events) =>
      let ips := ip_addrs lookup in
      if length ips =? 1 then inr (DirectResponse lookup)
      else inl {| fp_events := events ++
                    [FP_Ping (multi_mode_ping_fastest (NW := nets (length (fp_ok st))) ips modes)];
                  fp_ok := fp_ok st ++ [lookup]; fp_err := fp_err st |}
  | Some (FP_Query (Err err), events) =>
      inl {| fp_events := events; fp_ok := fp_ok st; fp_err := fp_err st ++ [err] |}
  end.

Definition fp_weight (e : fp_event) : nat := match e with FP_Ping _ => 1 | FP_Query _ => 2 end.
Definition fp_measure (st : fp_state) : nat := sum_list (map fp_weight (fp_events st)).
Definition fp_start (results : list outcome) : fp_state :=
  {| fp_events := map FP_Query results; fp_ok := []; fp_err := [] |}.

Definition lookup_ip_first_ping (nets : nat → Network) (modes : list SpeedCheckMode) (sched : list nat)
    (results : list outcome) : option IpStrategyResult :=
  run_loop (fp_iterate nets modes) (S (2 * length results)) sched (fp_start results).

(** *** The fastest address *)

Inductive fi_event := FI_Ping (res : result PingOutput PingError) | FI_Query (res : outcome).
Record fi_state := {
  fi_events : list fi_event; fi_ok : list DnsResponse; fi_err : list LookupError;
  fi_stats : gmap IpAddr Z; fi_fastest : option PingOutput }.

(** [entry(ip).or_insert_with(start a ping; 0) += 1], on a [u8]; [nets] gives the
    network of the speed check of each address. *)
Definition count_and_ping (nets : IpAddr → Network) (modes : list SpeedCheckMode)
    (acc : list fi_event * gmap IpAddr Z) (ip : IpAddr) : list fi_event * gmap IpAddr Z :=
  let '(events, stats) := acc in
  match stats !! ip with
  | Some n => (events, <[ip := wrap 8 (n + 1)]> stats)
  | None => (events ++ [FI_Ping (multi_mode_ping (NW := nets ip) ip modes)], <[ip := 1%Z]> stats)
  end.

Definition faster (fastest : option PingOutput) (out : PingOutput) : option PingOutput :=
  match fastest with
  | Some t => if (duration out <? duration t)%Z then Some out else fastest
  | None => Some out
  end.

Definition fi_iterate (nets : IpAddr → Network) (modes : list SpeedCheckMode) (i : nat) (st : fi_state)
  : fi_state + IpStrategyResult :=
  match pick i (fi_events st) with
  | None => inr (select_ip ((λ f, ping_ip_addr (destination f)) <$> fi_fastest st) (fi_ok st) (fi_err st))
  | Some (FI_Ping res, events) =>
      inl {| fi_events := events; fi_ok := fi_ok st; fi_err := fi_err st; fi_stats := fi_stats st;
             fi_fastest := match res with Ok out => faster (fi_fastest st) out | Err _ => fi_fastest st end |}
  | Some (FI_Query (Ok lookup), events) =>
      let '(events, stats) := fold_left (count_and_ping nets modes) (ip_addrs lookup) (events, fi_stats st) in
      inl {| fi_events := events; fi_ok := fi_ok st ++ [lookup]; fi_err := fi_err st; fi_stats := stats;
             fi_fastest := fi_fastest st |}
  | Some (FI_Query (Err err), events) =>
      inl {| fi_events := events; fi_ok := fi_ok st; fi_err := fi_err st ++ [err]; fi_stats := fi_stats st;
             fi_fastest := fi_fastest st |}
  end.

Definition fi_weight (e : fi_event) : nat :=
  match e with FI_Query (Ok l) => S (length (ip_addrs l)) | _ => 1 end.
Definition fi_measure (st : fi_state) : nat := sum_list (map fi_weight (fi_events st)).
Definition fi_start (results : list outcome) : fi_state :=
  {| fi_events := map FI_Query results; fi_ok := []; fi_err := []; fi_stats := ∅; fi_fastest := None |}.

Definition lookup_ip_fastest_ip (nets : IpAddr → Network) (modes : list SpeedCheckMode) (sched : list nat)
    (results : list outcome) : option IpStrategyResult :=
  run_loop (fi_iterate nets modes) (S (fi_measure (fi_start results))) sched (fi_start results).

(** *** The fastest response *)

Record fr_state := { fr_events : list outcome; last_ok : option DnsResponse; last_error : option LookupError }.

Definition fr_iterate `{ErrorText} (i : nat) (st : fr_state) : fr_state + IpStrategyResult :=
  match pick i (fr_events st) with
  | None =>
      inr match last_ok st, last_error st with
          | Some ok, _ => DirectResponse ok
          | None, Some err => StrategyError err
          | None, None => StrategyError (LE_Proto NoConnections)
          end
  | Some (Ok response, events) =>
      if bool_decide (response_code response = NoError) then inr (DirectResponse response)
      else inl {| fr_events := events; last_ok := Some response; last_error := last_error st |}
  | Some (Err err, events) =>
      if negb (is_no_connections err) && match last_error st with Some e => error_eq e err | None => false end
      then inr match last_ok st with Some ok => DirectResponse ok | None => StrategyError err end
      else inl {| fr_events := events; last_ok := last_ok st; last_error := Some err |}
  end.

Definition fr_start (results : list outcome) : fr_state :=
  {| fr_events := results; last_ok := None; last_error := None |}.

Definition lookup_ip_fastest_response `{ErrorText} (sched : list nat) (results : list outcome)
  : option IpStrategyResult :=
  run_loop fr_iterate (S (length results)) sched (fr_start results).

(** *** The result of a strategy *)

(** The first response with the address, reduced to its first record for it. *)
Fixpoint pick_response (ip : IpAddr) (ok_tasks : list DnsResponse) : option DnsResponse :=
  match ok_tasks with
  | [] => None
  | res :: rest =>
      match List.find (λ r, bool_decide (rdata_ip (r_data r) = Some ip)) (answers res) with
      | Some record => Some (set_answers res [record])
      | None => pick_response ip rest
      end
  end.

(** [handle_strategy_result]; [None] is the panic of [unreachable!]. *)
Definition handle_strategy_result (r : IpStrategyResult) : option outcome :=
  match r with
  | DirectResponse response => Some (Ok response)
  | SelectedIp ip ok_tasks _ => Ok <$> pick_response ip ok_tasks
  | Fallback ok_tasks err_tasks =>
      Some match ok_tasks with
           | lookup :: _ => Ok lookup
           | [] => match err_tasks with err :: _ => Err err | [] => Err (LE_Proto NoConnections) end
           end
  | StrategyError err => Some (Err err)
  end.

(** ** [lookup_ip] *)

(** The strategy in effect and its speed-check modes. *)
Definition effective_strategy `{RM : RangeMaps} (o : LookupIpOptions) : ResponseMode * list SpeedCheckMode :=
  let strategy :=
    if lo_no_speed_check o || bool_decide (lo_speed_check_mode o = None) then FastestResponse
    else response_strategy o in
  let modes := default [] (lo_speed_check_mode o) in
  if existsb (λ m, match m with SpeedNone => true | _ => false end) modes then (FastestResponse, [])
  else (strategy, modes).

(** The networks of the speed checks: of an answer, and of an address. *)
Record ping_nets := { answer_net : nat → Network; address_net : IpAddr → Network }.

Definition run_strategy `{RM : RangeMaps, ErrorText} (o : LookupIpOptions) (pn : ping_nets) (sched : list nat)
    (results : list outcome) : option IpStrategyResult :=
  let '(strategy, modes) := effective_strategy o in
  match strategy with
  | FirstPing => lookup_ip_first_ping (answer_net pn) modes sched results
  | FastestIp => lookup_ip_fastest_ip (address_net pn) modes sched results
  | FastestResponse => lookup_ip_fastest_response sched results
  end.

(** What the servers of the group answer, each to its own lookup, after the group
    has been given a chance to probe. *)
Definition server_results `{RM : RangeMaps} (authority_code : ResponseCode) (now now' : Z) (o : LookupIpOptions)
    (servers : list (ServerFilter * NameServer)) (up : list (nat → NameServer.attempt)) : list outcome :=
  let states := allow_probe_if_all_cooling now (map snd servers) in
  zip_with (λ sf out, per_nameserver_lookup_ip authority_code now' sf o (fst (fst out)))
    (map fst servers) (zip_with (ns_lookup now) up states).

(** [None] is a panic: of the assertion on the type or of [unreachable!]. *)
Definition lookup_ip `{RM : RangeMaps, ErrorText} (authority_code : ResponseCode) (now now' : Z) (o : LookupIpOptions)
    (servers : list (ServerFilter * NameServer)) (up : list (nat → NameServer.attempt)) (pn : ping_nets) (sched : list nat)
  : option outcome :=
  if negb (is_ip_addr (lo_record_type o)) then None
  else if bool_decide (length servers = 0) then Some (Err (LE_Proto NoConnections))
  else run_strategy o pn sched (server_results authority_code now now' o servers up) ≫= handle_strategy_result.
End strategies.
