(* ===== verification/NsProps.v ===== *)
(** * Properties of the address lookups

    Termination and safety of the strategies of src/dns_mw_ns.rs under every
    schedule and every network, and what they answer. *)

From S2P Require Import Prelude Float64 Dns IpSet DomainMap DomainRule Context NameServer Ping NsStrategy.

Abbreviation outcome := (result DnsResponse LookupError).

(** All addresses of a list of answers. *)
Definition all_ips (l : list DnsResponse) : list IpAddr := mjoin (ip_addrs <$> l).

Lemma all_ips_app l1 l2 : all_ips (l1 ++ l2) = all_ips l1 ++ all_ips l2.
Proof. unfold all_ips. by rewrite fmap_app, join_app. Qed.

Lemma elem_of_all_ips ip l : ip ∈ all_ips l ↔ ∃ r, r ∈ l ∧ ip ∈ ip_addrs r.
Proof. unfold all_ips. rewrite list_elem_of_join. set_solver. Qed.

(** ** The most frequent address *)

Section frequent.
Context `{MO : MapOrder, !MapOrderLaws}.

(** How often an address occurs. *)
Definition occurrences (ip : IpAddr) (l : list IpAddr) : Z := count_if (λ x, bool_decide (x = ip)) l.

Lemma count_ip_fold l m ip :
  default 0%Z (fold_left count_ip l m !! ip) = (default 0%Z (m !! ip) + occurrences ip l)%Z ∧
  (is_Some (fold_left count_ip l m !! ip) ↔ is_Some (m !! ip) ∨ ip ∈ l).
Proof.
  revert m. induction l as [|x l IH]; intros m; cbn [fold_left]; [unfold occurrences; cbn; split; [lia|set_solver]|].
  destruct (IH (count_ip m x)) as [-> ->]. unfold count_ip, occurrences. rewrite count_if_cons.
  destruct (decide (x = ip)) as [->|Hne].
  - rewrite lookup_insert_eq. rewrite bool_decide_true by done. simpl. split; [lia|]. set_solver.
  - rewrite lookup_insert_ne by done. rewrite bool_decide_false by done. simpl. set_solver.
Qed.

Lemma max_by_count_fold l best :
  match fold_left max_by_count l best with
  | Some x => (x ∈ l ∨ best = Some x) ∧ (∀ y, y ∈ l ∨ best = Some y → (snd y ≤ snd x)%Z)
  | None => l = [] ∧ best = None
  end.
Proof.
  revert best. induction l as [|a l IH]; intros best; simpl.
  { destruct best; [|done]. split; [by right|]. intros y [?%not_elem_of_nil|[= ->]]; done. }
  specialize (IH (max_by_count best a)). destruct (fold_left _ l _) as [x|].
  - destruct IH as [Hin Hmax]. unfold max_by_count in *. destruct best as [b|].
    + destruct (snd b <=? snd a)%Z eqn:E; zify_bool.
      * split; [destruct Hin as [?|[= ->]]; set_solver|].
        pose proof (Hmax a ltac:(by right)). intros y [[->|Hy]%elem_of_cons|[= ->]]; [done|auto|lia].
      * split; [destruct Hin as [?|[= ->]]; [set_solver|by right]|].
        pose proof (Hmax b ltac:(by right)). intros y [[->|Hy]%elem_of_cons|[= ->]]; [lia|auto|done].
    + split; [destruct Hin as [?|[= ->]]; set_solver|].
      intros y [[->|Hy]%elem_of_cons|?]; [apply Hmax; by right|auto|done].
  - destruct IH as [_ Hn]. unfold max_by_count in Hn. by destruct best as [b|]; [destruct (_ <=? _)%Z|].
Qed.

(** The address that occurs most often, when there is any. *)
Lemma most_frequent_ip_spec l :
  match most_frequent_ip l with
  | Some ip => ip ∈ all_ips l ∧ ∀ ip', (occurrences ip' (all_ips l) ≤ occurrences ip (all_ips l))%Z
  | None => all_ips l = []
  end.
Proof.
  unfold most_frequent_ip. fold (all_ips l). set (m := fold_left count_ip (all_ips l) ∅).
  assert (Hm : ∀ ip, default 0%Z (m !! ip) = occurrences ip (all_ips l) ∧ (is_Some (m !! ip) ↔ ip ∈ all_ips l)).
  { intros ip. destruct (count_ip_fold (all_ips l) ∅ ip) as [E1 E2]. fold m in E1, E2.
    rewrite lookup_empty in E1, E2. split; [exact E1|]. rewrite E2. split; [intros [[? ?]|?]|]; [done|done|auto]. }
  pose proof (max_by_count_fold (map_order (map_to_list m)) None) as Hmax.
  destruct (fold_left max_by_count _ _) as [[ip n]|]; simpl.
  - destruct Hmax as [[Hin|?] Hmax]; [|done]. rewrite map_order_perm in Hin. apply elem_of_map_to_list in Hin.
    split; [by apply Hm; eexists|]. intros ip'.
    rewrite <- (proj1 (Hm ip)), <- (proj1 (Hm ip')), Hin. simpl.
    destruct (m !! ip') as [n'|] eqn:E; simpl.
    + apply (Hmax (ip', n')). left. rewrite map_order_perm. by apply elem_of_map_to_list.
    + pose proof (count_if_nonneg (λ x, bool_decide (x = ip)) (all_ips l)) as Hc.
      fold (occurrences ip (all_ips l)) in Hc. rewrite <- (proj1 (Hm ip)), Hin in Hc. done.
  - destruct Hmax as [Hnil _].
    assert (Hempty : m = ∅).
    { apply map_to_list_empty_iff, Permutation_nil. by rewrite <- Hnil, map_order_perm. }
    destruct (all_ips l) as [|ip l'] eqn:E; [done|].
    destruct (proj2 (proj2 (Hm ip)) ltac:(left)) as [x Hx]. by rewrite Hempty in Hx.
Qed.
End frequent.

(** ** What a strategy may end with *)

(** The addresses and the answers of a strategy's result come from the servers; a
    fallback without an answer means that every server failed. *)
Definition sound (results : list outcome) (r : IpStrategyResult) : Prop :=
  match r with
  | DirectResponse l => Ok l ∈ results
  | SelectedIp ip ok _ => ip ∈ all_ips ok ∧ Forall (λ l, Ok l ∈ results) ok
  | Fallback ok err => Forall (λ l, Ok l ∈ results) ok ∧ (ok = [] → results ≡ₚ map Err err)
  | StrategyError _ => False
  end.

(** How an answer relates to a server's: it is that answer, or that answer with
    only one of its addresses left. *)
Definition answer_of (res up : DnsResponse) : Prop :=
  res = up ∨ ∃ r, r ∈ answers up ∧ is_Some (rdata_ip (r_data r)) ∧ res = set_answers up [r].

Lemma elem_of_ip_addrs ip res : ip ∈ ip_addrs res ↔ ∃ r, r ∈ answers res ∧ rdata_ip (r_data r) = Some ip.
Proof. unfold ip_addrs. by rewrite list_elem_of_omap. Qed.

Lemma pick_response_spec ip ok : ip ∈ all_ips ok →
  ∃ up r, up ∈ ok ∧ r ∈ answers up ∧ rdata_ip (r_data r) = Some ip ∧ pick_response ip ok = Some (set_answers up [r]).
Proof.
  induction ok as [|res ok IH]; [by intros ?%not_elem_of_nil|]. intros Hin. simpl.
  destruct (List.find _ _) as [r|] eqn:E.
  - apply find_some in E as [Hr%list_elem_of_In Hip%bool_decide_eq_true_1].
    exists res, r. split_and!; [left|done|done|done].
  - destruct IH as (up & r & Hup & Hr); [|exists up, r; split; [by right|done]].
    change (all_ips (res :: ok)) with (ip_addrs res ++ all_ips ok) in Hin.
    apply elem_of_app in Hin as [Hin|Hin]; [|done]. apply elem_of_ip_addrs in Hin as (r & Hr & Hip).
    pose proof (find_none _ _ E r ltac:(by apply list_elem_of_In)) as Hn. by apply bool_decide_eq_false in Hn.
Qed.

(** No sound result makes [handle_strategy_result] panic, and what it returns is a
    server's answer, or an error when every server failed. *)
Lemma handle_sound results r : sound results r →
  ∃ res, handle_strategy_result r = Some res ∧
    match res with
    | Ok l => ∃ up, Ok up ∈ results ∧ answer_of l up
    | Err e => (results = [] ∧ e = LE_Proto NoConnections) ∨ (Err e ∈ results ∧ Forall (λ o, is_ok o = false) results)
    end.
Proof.
  destruct r as [l|ip ok err|ok err|e]; simpl; [|intros [Hip Hok]|intros [Hok Herr]|done].
  - intros Hl. eexists. split; [done|]. exists l. split; [done|by left].
  - destruct (pick_response_spec ip ok Hip) as (up & r & Hup & Hr & Hrip & ->). eexists. split; [done|].
    exists up. split; [by eapply Forall_forall in Hok|]. right. exists r. eauto.
  - eexists. split; [done|]. destruct ok as [|l ok].
    + specialize (Herr eq_refl). assert (Hall : Forall (λ o, is_ok o = false) results).
      { rewrite Herr. apply Forall_map, Forall_true. done. }
      destruct err as [|e err]; [left; split; [by apply Permutation_nil|done]|].
      right. split; [rewrite Herr; left|done].
    + exists l. split; [by inversion Hok|by left].
Qed.

Lemma received_ok {A} (pending ok err : list A) x : x :: pending ++ ok ++ err ≡ₚ pending ++ (ok ++ [x]) ++ err.
Proof. rewrite <- app_assoc. simpl. rewrite !app_assoc. apply Permutation_middle. Qed.
Lemma received_err {A} (pending ok err : list A) x : x :: pending ++ ok ++ err ≡ₚ pending ++ ok ++ (err ++ [x]).
Proof. rewrite !app_assoc. apply Permutation_cons_append. Qed.

(** ** The first ping *)

Section first_ping.
Context `{MO : MapOrder, !MapOrderLaws}.
Context (nets : nat → Network) {nets_laws : ∀ i, @NetworkLaws (nets i)} (modes : list SpeedCheckMode).

Definition fp_query (e : fp_event) : option outcome := match e with FP_Query r => Some r | _ => None end.

(** The results are those still pending and those received; a speed check is
    pending only for an answer, and selects one of its addresses. *)
Record fp_inv (results : list outcome) (st : fp_state) : Prop := {
  fp_all : results ≡ₚ omap fp_query (fp_events st) ++ map Ok (fp_ok st) ++ map Err (fp_err st);
  fp_pinged : ∀ ip, FP_Ping ip ∈ fp_events st → fp_ok st ≠ [] ∧ ∀ a, ip = Some a → a ∈ all_ips (fp_ok st);
}.

Lemma fp_inv_start results : fp_inv results (fp_start results).
Proof.
  split; simpl.
  - rewrite !app_nil_r. induction results as [|r l IH]; simpl; [done|]. by rewrite <- IH.
  - intros ip (r & ? & _)%list_elem_of_fmap. done.
Qed.

Lemma fp_inv_step results i st st' : fp_inv results st → fp_iterate nets modes i st = inl st' → fp_inv results st'.
Proof.
  intros [Hall Hping] Hit. unfold fp_iterate in Hit.
  destruct (pick i (fp_events st)) as [[e events]|] eqn:Ep; [|done]. apply pick_perm in Ep.
  rewrite Ep in Hall. destruct e as [ip|[lookup|err]]; simpl in Hall; [done| |].
  - destruct (_ =? 1); simplify_eq/=. split; simpl.
    + rewrite omap_app, map_app, Hall. simpl. rewrite app_nil_r. apply received_ok.
    + intros ip [Hin|[= ->]%list_elem_of_singleton]%elem_of_app; (split; [by destruct (fp_ok st)|]).
      * intros a ->. rewrite all_ips_app. apply elem_of_app. left.
        apply (proj2 (Hping (Some a) ltac:(rewrite Ep; by right))). done.
      * intros a Ha. symmetry in Ha. rewrite all_ips_app. apply elem_of_app. right.
        unfold all_ips. simpl. rewrite app_nil_r.
        by apply (multi_mode_ping_fastest_in (NW := nets (length (fp_ok st))) (ip_addrs lookup) modes).
  - simplify_eq/=. split; simpl.
    + rewrite map_app, Hall. apply received_err.
    + intros ip Hin. apply Hping. rewrite Ep. by right.
Qed.

Lemma fp_inv_end results i st r : fp_inv results st → fp_iterate nets modes i st = inr r → sound results r.
Proof.
  intros [Hall Hping] Hit. unfold fp_iterate in Hit.
  assert (Hok : Forall (λ l, Ok l ∈ results) (fp_ok st)).
  { apply Forall_forall. intros l Hl. rewrite Hall. apply elem_of_app. right. apply elem_of_app. left.
    by apply list_elem_of_fmap_2. }
  assert (Hsel : ∀ ip, (∀ a, ip = Some a → a ∈ all_ips (fp_ok st)) →
    (fp_ok st = [] → results ≡ₚ map Err (fp_err st)) → sound results (select_ip ip (fp_ok st) (fp_err st))).
  { intros ip Hip Hnil. unfold select_ip. destruct ip as [a|]; [split; auto|].
    pose proof (most_frequent_ip_spec (fp_ok st)) as Hm. destruct (most_frequent_ip (fp_ok st)); [|done].
    by split; [apply Hm|]. }
  destruct (pick i (fp_events st)) as [[e events]|] eqn:Ep.
  - apply pick_perm in Ep. destruct e as [ip|[lookup|err]]; [| |done].
    + simplify_eq. destruct (Hping ip ltac:(rewrite Ep; left)) as [Hne Hin]. apply Hsel; [done|by intros].
    + destruct (_ =? 1); simplify_eq. simpl. rewrite Hall, Ep. simpl. left.
  - apply pick_none in Ep. simplify_eq. apply Hsel; [done|]. intros Hnil. by rewrite Hall, Ep, Hnil.
Qed.

Lemma fp_decreases i st st' : fp_iterate nets modes i st = inl st' → fp_measure st' < fp_measure st.
Proof.
  unfold fp_iterate, fp_measure. destruct (pick i (fp_events st)) as [[e events]|] eqn:Ep; [|done].
  apply pick_perm in Ep. assert (E : sum_list (map fp_weight (fp_events st)) = fp_weight e + sum_list (map fp_weight events)).
  { clear -Ep. assert (Hp : map fp_weight (fp_events st) ≡ₚ map fp_weight (e :: events)) by (by rewrite Ep).
    by rewrite Hp. }
  rewrite E. destruct e as [ip|[lookup|err]]; [done| |].
  - destruct (_ =? 1); intros [= <-]. simpl. rewrite map_app, sum_list_app. simpl. lia.
  - intros [= <-]. simpl. lia.
Qed.

Lemma fp_start_measure results : fp_measure (fp_start results) = 2 * length results.
Proof. unfold fp_measure. simpl. induction results; simpl in *; lia. Qed.

Lemma first_ping_sound sched results :
  ∃ r, lookup_ip_first_ping nets modes sched results = Some r ∧ sound results r.
Proof.
  destruct (run_loop_terminates (fp_iterate nets modes) fp_measure fp_decreases (S (2 * length results)) sched
    (fp_start results)) as [r Hr]; [rewrite fp_start_measure; lia|].
  exists r. split; [exact Hr|].
  eapply (run_loop_inv (fp_iterate nets modes) (fp_inv results) (sound results)); [| |apply fp_inv_start|exact Hr].
  - intros i st st' Hi Hit. by eapply fp_inv_step.
  - intros i st r' Hi Hit. by eapply fp_inv_end.
Qed.
End first_ping.

(** ** The fastest address *)

Section fastest_ip.
Context `{MO : MapOrder, !MapOrderLaws}.
Context (nets : IpAddr → Network) (modes : list SpeedCheckMode).

Definition fi_query (e : fi_event) : option outcome := match e with FI_Query r => Some r | _ => None end.
Definition ping_of (ip : IpAddr) : result PingOutput PingError := multi_mode_ping (NW := nets ip) ip modes.

(** The addresses received are those counted, each has been sent a speed check,
    and its success is pending or was compared with the fastest. *)
Record fi_inv (results : list outcome) (st : fi_state) : Prop := {
  fi_all : results ≡ₚ omap fi_query (fi_events st) ++ map Ok (fi_ok st) ++ map Err (fi_err st);
  fi_counted : ∀ ip, is_Some (fi_stats st !! ip) ↔ ip ∈ all_ips (fi_ok st);
  fi_pinged : ∀ r, FI_Ping r ∈ fi_events st → ∃ ip, is_Some (fi_stats st !! ip) ∧ r = ping_of ip;
  fi_best : ∀ out, fi_fastest st = Some out → ∃ ip, is_Some (fi_stats st !! ip) ∧ ping_of ip = Ok out;
  fi_least : ∀ ip out, is_Some (fi_stats st !! ip) → ping_of ip = Ok out →
    FI_Ping (Ok out) ∈ fi_events st ∨ ∃ best, fi_fastest st = Some best ∧ (duration best ≤ duration out)%Z;
}.

Lemma fi_inv_start results : fi_inv results (fi_start results).
Proof.
  split; simpl.
  - rewrite !app_nil_r. induction results as [|r l IH]; simpl; [done|]. by rewrite <- IH.
  - intros ip. rewrite lookup_empty. split; [by intros []|by intros ?%not_elem_of_nil].
  - intros r (x & ? & _)%list_elem_of_fmap. done.
  - done.
  - intros ip out [x Hx]. by rewrite lookup_empty in Hx.
Qed.

(** Counting the addresses of an answer. *)
Lemma count_and_ping_fold ips events stats events' stats' :
  fold_left (count_and_ping nets modes) ips (events, stats) = (events', stats') →
  (∀ ip, is_Some (stats' !! ip) ↔ is_Some (stats !! ip) ∨ ip ∈ ips) ∧
  ∃ pings, events' = events ++ map (λ ip, FI_Ping (ping_of ip)) pings ∧ length pings ≤ length ips ∧
    (∀ ip, ip ∈ pings → is_Some (stats' !! ip)) ∧
    (∀ ip, is_Some (stats' !! ip) → is_Some (stats !! ip) ∨ ip ∈ pings).
Proof.
  revert events stats. induction ips as [|a ips IH]; intros events stats; simpl.
  { intros [= <- <-]. split; [set_solver|]. exists []. rewrite app_nil_r. split_and!; [done|done|set_solver|auto]. }
  destruct (stats !! a) as [n|] eqn:Ea.
  - intros (Hdom & pings & -> & Hlen & H1 & H2)%IH.
    assert (Hi : ∀ ip, is_Some (<[a:=wrap 8 (n + 1)]> stats !! ip) ↔ is_Some (stats !! ip)).
    { intros ip. destruct (decide (a = ip)) as [->|]; [rewrite lookup_insert_eq, Ea; split; by eexists|].
      by rewrite lookup_insert_ne. }
    split; [intros ip; rewrite Hdom, Hi; set_unfold; split; [tauto|intros [?|[->|?]]; [auto|left; by eexists|auto]]|].
    exists pings. split_and!; [done|simpl; lia|done|]. intros ip Hip. destruct (H2 ip Hip) as [?%Hi|?]; auto.
  - intros (Hdom & pings & -> & Hlen & H1 & H2)%IH.
    assert (Hi : ∀ ip, is_Some (<[a:=1%Z]> stats !! ip) ↔ is_Some (stats !! ip) ∨ ip = a).
    { intros ip. destruct (decide (a = ip)) as [->|]; [rewrite lookup_insert_eq; split; [auto|by eexists]|].
      rewrite lookup_insert_ne by done. naive_solver. }
    split; [intros ip; rewrite Hdom, Hi; set_unfold; tauto|].
    exists (a :: pings). split_and!; [simpl; by rewrite <- app_assoc|simpl; lia| |].
    + intros ip [->|Hip]%elem_of_cons; [|auto]. apply Hdom. left. apply Hi. auto.
    + intros ip Hip. destruct (H2 ip Hip) as [Hs|?]; [|right; by right].
      apply Hi in Hs as [?|Heq]; [auto|]. right. rewrite Heq. left.
Qed.

Lemma fi_inv_step results i st st' : fi_inv results st → fi_iterate nets modes i st = inl st' → fi_inv results st'.
Proof.
  intros [Hall Hcnt Hping Hbest Hleast] Hit. unfold fi_iterate in Hit.
  destruct (pick i (fi_events st)) as [[e events]|] eqn:Ep; [|done]. apply pick_perm in Ep.
  rewrite Ep in Hall. destruct e as [res|[lookup|err]]; simpl in Hall.
  - simplify_eq/=. destruct (Hping res ltac:(rewrite Ep; left)) as (ip & Hip & Hres).
    split; simpl; [done|done|intros r Hr; apply Hping; rewrite Ep; by right| |].
    + intros out Hout. destruct res as [o|]; [|by apply Hbest].
      unfold faster in Hout. repeat case_match; simplify_eq; eauto.
    + intros ip' out' Hip' Hout'. destruct (Hleast ip' out' Hip' Hout') as [Hin|(best & Eb & Hle)].
      * rewrite Ep in Hin. apply elem_of_cons in Hin as [[= <-]|Hin]; [right|by left].
        unfold faster. destruct (fi_fastest st) as [t|]; [|by eexists].
        destruct (_ <? _)%Z eqn:E; zify_bool; eexists; split; try done; lia.
      * right. rewrite Eb. destruct res as [o|]; [|by eauto]. simpl.
        destruct (_ <? _)%Z eqn:E; zify_bool; eexists; split; try done; lia.
  - destruct (fold_left _ _ _) as [events' stats'] eqn:Ef. simplify_eq/=.
    apply count_and_ping_fold in Ef as (Hdom & pings & -> & _ & Hp1 & Hp2).
    split; simpl.
    + rewrite omap_app, map_app, Hall.
      assert (Hnone : omap fi_query (map (λ ip, FI_Ping (ping_of ip)) pings) = []).
      { clear. induction pings; simpl; [done|assumption]. }
      rewrite Hnone, app_nil_r. apply received_ok.
    + intros ip. rewrite Hdom, Hcnt, all_ips_app. unfold all_ips at 3. simpl. rewrite app_nil_r. by rewrite elem_of_app.
    + intros r [Hin|(ip & [= ->] & Hip)%list_elem_of_fmap]%elem_of_app; [|by eauto].
      destruct (Hping r ltac:(rewrite Ep; by right)) as (ip & Hip & ->). exists ip. split; [|done]. apply Hdom. auto.
    + intros out (ip & Hip & Hout)%Hbest. exists ip. split; [|done]. apply Hdom. auto.
    + intros ip out Hip Hout. destruct (Hp2 ip Hip) as [Hold|Hnew].
      * destruct (Hleast ip out Hold Hout) as [Hin|?]; [|by right]. left. rewrite Ep in Hin.
        apply elem_of_cons in Hin as [?|Hin]; [done|]. apply elem_of_app. by left.
      * left. apply elem_of_app. right. apply list_elem_of_fmap. exists ip. by rewrite Hout.
  - simplify_eq/=. split; simpl; [|done| |done|].
    + rewrite map_app, Hall. apply received_err.
    + intros r Hr. apply Hping. rewrite Ep. by right.
    + intros ip out Hip Hout. destruct (Hleast ip out Hip Hout) as [Hin|?]; [|by right]. left. rewrite Ep in Hin.
      by apply elem_of_cons in Hin as [?|Hin].
Qed.

(** The address selected is the one whose speed check was fastest, or one that
    occurs most often when no speed check succeeded. *)
Definition fastest (r : IpStrategyResult) : Prop :=
  match r with
  | SelectedIp ip ok _ =>
      (∃ out, ping_of ip = Ok out ∧ ∀ ip' out', ip' ∈ all_ips ok → ping_of ip' = Ok out' → (duration out ≤ duration out')%Z) ∨
      (∀ ip', ip' ∈ all_ips ok → is_ok (ping_of ip') = false) ∧
      ∀ ip', (occurrences ip' (all_ips ok) ≤ occurrences ip (all_ips ok))%Z
  | Fallback ok _ => all_ips ok = []
  | _ => False
  end.

(** At the end every result has been received. *)
Definition complete (results : list outcome) (r : IpStrategyResult) : Prop :=
  match r with SelectedIp _ ok err | Fallback ok err => results ≡ₚ map Ok ok ++ map Err err | _ => False end.

Lemma fi_inv_end results i st r : fi_inv results st → fi_iterate nets modes i st = inr r →
  sound results r ∧ fastest r ∧ complete results r.
Proof.
  intros [Hall Hcnt Hping Hbest Hleast] Hit. unfold fi_iterate in Hit.
  destruct (pick i (fi_events st)) as [[[?|[lookup|err]] events]|] eqn:Ep; [done| |done|].
  { by destruct (fold_left _ _ _). }
  apply pick_none in Ep. rewrite Ep in *. simpl in Hall. simplify_eq.
  assert (Hok : Forall (λ l, Ok l ∈ results) (fi_ok st)).
  { apply Forall_forall. intros l Hl. rewrite Hall. apply elem_of_app. left. by apply list_elem_of_fmap_2. }
  assert (Hless : ∀ ip out, ip ∈ all_ips (fi_ok st) → ping_of ip = Ok out →
    ∃ best, fi_fastest st = Some best ∧ (duration best ≤ duration out)%Z).
  { intros ip out Hip%Hcnt Hout. by destruct (Hleast ip out Hip Hout) as [?%not_elem_of_nil|?]. }
  unfold select_ip. destruct (fi_fastest st) as [out|] eqn:Ef; simpl.
  - destruct (Hbest out eq_refl) as (ip & Hip%Hcnt & Hout).
    rewrite (multi_mode_ping_dest (NW := nets ip) ip modes out Hout).
    split_and!; [done|done| |done]. left. exists out. split; [done|]. intros ip' out' Hip' Hout'.
    by destruct (Hless ip' out' Hip' Hout') as (best & [= <-] & ?).
  - pose proof (most_frequent_ip_spec (fi_ok st)) as Hm.
    destruct (most_frequent_ip (fi_ok st)) as [ip|]; simpl.
    + destruct Hm as [Hin Hmax]. split_and!; [done|done| |done]. right. split; [|done].
      intros ip' Hip'. destruct (ping_of ip') as [out|] eqn:E; [|done].
      by destruct (Hless ip' out Hip' E) as (? & ? & _).
    + split_and!; [done| |done|done]. intros Hnil. by rewrite Hall, Hnil.
Qed.

Lemma fi_decreases i st st' : fi_iterate nets modes i st = inl st' → fi_measure st' < fi_measure st.
Proof.
  unfold fi_iterate, fi_measure. destruct (pick i (fi_events st)) as [[e events]|] eqn:Ep; [|done].
  apply pick_perm in Ep. assert (E : sum_list (map fi_weight (fi_events st)) = fi_weight e + sum_list (map fi_weight events)).
  { clear -Ep. assert (Hp : map fi_weight (fi_events st) ≡ₚ map fi_weight (e :: events)) by (by rewrite Ep).
    by rewrite Hp. }
  rewrite E. destruct e as [res|[lookup|err]].
  - intros [= <-]. simpl. lia.
  - destruct (fold_left _ _ _) as [events' stats'] eqn:Ef. intros [= <-]. simpl.
    apply count_and_ping_fold in Ef as (_ & pings & -> & Hlen & _). rewrite map_app, sum_list_app.
    assert (Hw : sum_list (map fi_weight (map (λ ip, FI_Ping (ping_of ip)) pings)) = length pings).
    { clear. induction pings as [|a l IH]; simpl; [done|]. by rewrite IH. }
    lia.
  - intros [= <-]. simpl. lia.
Qed.

Lemma fastest_ip_sound sched results :
  ∃ r, lookup_ip_fastest_ip nets modes sched results = Some r ∧ sound results r ∧ fastest r ∧ complete results r.
Proof.
  destruct (run_loop_terminates (fi_iterate nets modes) fi_measure fi_decreases
    (S (fi_measure (fi_start results))) sched (fi_start results)) as [r Hr]; [lia|].
  exists r. split; [exact Hr|].
  eapply (run_loop_inv (fi_iterate nets modes) (fi_inv results) (λ r, sound results r ∧ fastest r ∧ complete results r));
    [| |apply fi_inv_start|exact Hr].
  - intros i st st' Hi Hit. by eapply fi_inv_step.
  - intros i st r' Hi Hit. by eapply fi_inv_end.
Qed.
End fastest_ip.

(** ** The fastest response *)

Section fastest_response.
Context `{ET : ErrorText}.

(** Two servers reported the same error, one that is a statement about the name. *)
Definition agreed_error (results : list outcome) (e : LookupError) : Prop :=
  ∃ e' rest, results ≡ₚ Err e' :: Err e :: rest ∧ error_eq e' e = true ∧ is_no_connections e = false.

Definition sound_fr (results : list outcome) (r : IpStrategyResult) : Prop :=
  match r with
  | DirectResponse l => Ok l ∈ results
  | StrategyError e =>
      (results = [] ∧ e = LE_Proto NoConnections) ∨
      (Err e ∈ results ∧ Forall (λ o, is_ok o = false) results) ∨ agreed_error results e
  | _ => False
  end.

Definition fr_inv (results : list outcome) (st : fr_state) : Prop :=
  ∃ received, results ≡ₚ fr_events st ++ received ∧
    match last_ok st with
    | Some l => Ok l ∈ received
    | None => Forall (λ o, is_ok o = false) received
    end ∧
    match last_error st with
    | Some e => Err e ∈ received
    | None => Forall (λ o, is_ok o = true) received
    end.

Lemma fr_inv_step results i st st' : fr_inv results st → fr_iterate i st = inl st' → fr_inv results st'.
Proof.
  intros (received & Hall & Hok & Herr) Hit. unfold fr_iterate in Hit.
  destruct (pick i (fr_events st)) as [[e events]|] eqn:Ep; [|done]. apply pick_perm in Ep.
  rewrite Ep in Hall. exists (e :: received).
  assert (Hp : results ≡ₚ events ++ e :: received) by (rewrite Hall; apply Permutation_middle).
  destruct e as [l|err].
  - destruct (bool_decide _); simplify_eq/=. split_and!; [done|left|].
    destruct (last_error st); [by right|by constructor].
  - destruct (_ && _); simplify_eq/=. split_and!; [done| |left].
    destruct (last_ok st); [by right|by constructor].
Qed.

Lemma fr_inv_end results i st r : fr_inv results st → fr_iterate i st = inr r → sound_fr results r.
Proof.
  intros (received & Hall & Hok & Herr) Hit. unfold fr_iterate in Hit.
  assert (Hlast : ∀ l, last_ok st = Some l → Ok l ∈ results).
  { intros l El. rewrite El in Hok. rewrite Hall. apply elem_of_app. by right. }
  destruct (pick i (fr_events st)) as [[e events]|] eqn:Ep.
  - apply pick_perm in Ep. destruct e as [l|err].
    + destruct (bool_decide _); simplify_eq. simpl. rewrite Hall, Ep. left.
    + destruct (_ && _) eqn:E; simplify_eq. destruct (last_ok st) as [l|]; simpl; [by apply Hlast|].
      right. right. apply andb_true_iff in E as [Hn%negb_true_iff Heq].
      destruct (last_error st) as [e'|]; [|done].
      apply list_elem_of_split in Herr as (l1 & l2 & ->).
      exists e', (events ++ l1 ++ l2). split_and!; [|done|done].
      rewrite Hall, Ep, <- Permutation_middle. simpl. rewrite <- Permutation_middle. apply Permutation_swap.
  - apply pick_none in Ep. rewrite Ep in Hall. simpl in Hall. simplify_eq.
    destruct (last_ok st) as [l|]; [by apply Hlast|].
    destruct (last_error st) as [e|]; simpl.
    + right. left. by rewrite Hall.
    + left. split; [|done]. apply Permutation_nil. rewrite Hall. destruct received as [|o l]; [done|].
      inversion Hok; subst; inversion Herr; subst. congruence.
Qed.

Lemma fr_decreases i st st' : fr_iterate i st = inl st' → length (fr_events st') < length (fr_events st).
Proof.
  unfold fr_iterate. destruct (pick i (fr_events st)) as [[e events]|] eqn:Ep; [|done].
  apply pick_perm in Ep. rewrite Ep. destruct e as [l|err]; [destruct (bool_decide _)|destruct (_ && _)];
    intros; simplify_eq/=; lia.
Qed.

Lemma fastest_response_sound sched results :
  ∃ r, lookup_ip_fastest_response sched results = Some r ∧ sound_fr results r.
Proof.
  destruct (run_loop_terminates fr_iterate (λ st, length (fr_events st)) fr_decreases (S (length results)) sched
    (fr_start results)) as [r Hr]; [simpl; lia|].
  exists r. split; [exact Hr|].
  eapply (run_loop_inv fr_iterate (fr_inv results) (sound_fr results)); [| | |exact Hr].
  - intros i st st' Hi Hit. by eapply fr_inv_step.
  - intros i st r' Hi Hit. by eapply fr_inv_end.
  - exists []. simpl. by rewrite app_nil_r.
Qed.
End fastest_response.

(** ** [lookup_ip] *)

(** The positive answers among the results. *)
Definition oks (results : list outcome) : list DnsResponse :=
  omap (λ r, match r with Ok l => Some l | Err _ => None end) results.

Section lookup.
Context `{MO : MapOrder, !MapOrderLaws, RM : RangeMaps, ET : ErrorText}.
Context (authority_code : ResponseCode) (now now' : Z) (o : LookupIpOptions).
Context (servers : list (ServerFilter * NameServer)) (up : list (nat → NameServer.attempt)).
Context (pn : ping_nets) (sched : list nat).
Abbreviation results := (server_results authority_code now now' o servers up).

Lemma lookup_ip_sound (Hip : is_ip_addr (lo_record_type o) = true)
    (Hnets : ∀ i, @NetworkLaws (answer_net pn i)) :
  ∃ r, lookup_ip authority_code now now' o servers up pn sched = Some r ∧
    match r with
    | Ok l => ∃ u, Ok u ∈ results ∧ answer_of l u
    | Err e =>
        ((servers = [] ∨ results = []) ∧ e = LE_Proto NoConnections) ∨
        (Err e ∈ results ∧ Forall (λ x, is_ok x = false) results) ∨
        (fst (effective_strategy o) = FastestResponse ∧ agreed_error results e)
    end.
Proof.
  unfold lookup_ip. rewrite Hip. simpl. case_bool_decide as Hn.
  { apply nil_length_inv in Hn. eexists. split; [done|]. left. auto. }
  unfold run_strategy. destruct (effective_strategy o) as [strategy modes] eqn:Es.
  assert (Hsound : ∀ r, sound results r → ∃ res, handle_strategy_result r = Some res ∧
    match res with
    | Ok l => ∃ u, Ok u ∈ results ∧ answer_of l u
    | Err e => ((servers = [] ∨ results = []) ∧ e = LE_Proto NoConnections) ∨
        (Err e ∈ results ∧ Forall (λ x, is_ok x = false) results) ∨
        (strategy = FastestResponse ∧ agreed_error results e)
    end).
  { intros r (res & Hr & Hres)%handle_sound. exists res. split; [done|]. destruct res; [done|]. tauto. }
  destruct strategy.
  - destruct (first_ping_sound (answer_net pn) (nets_laws := Hnets) modes sched results) as (r & -> & Hs).
    by apply Hsound.
  - destruct (fastest_ip_sound (address_net pn) modes sched results) as (r & -> & Hs & _). by apply Hsound.
  - destruct (fastest_response_sound sched results) as (r & -> & Hs). destruct r; simpl in *; try done.
    + eexists. split; [done|]. eexists. split; [done|by left].
    + eexists. split; [done|]. simpl. tauto.
Qed.

(** C6. Address lookups always return: whatever the order in which the servers answer
    and the speed checks complete, and whatever they bring, the loop of the
    configured strategy ends and no assertion fails; in particular the address
    that a strategy selects is one of the answers.  The reply is an answer of one
    of the servers, whole or reduced to one of its addresses; an error means that
    every server failed, or - with the fastest-response strategy only - that two
    of them reported the same error. *)
Theorem lookup_ip_returns (Hip : is_ip_addr (lo_record_type o) = true)
    (Hnets : ∀ i, @NetworkLaws (answer_net pn i)) :
  ∃ r, lookup_ip authority_code now now' o servers up pn sched = Some r ∧
    match r with
    | Ok l => ∃ u, Ok u ∈ results ∧ answer_of l u
    | Err e =>
        ((servers = [] ∨ results = []) ∧ e = LE_Proto NoConnections) ∨
        (Err e ∈ results ∧ Forall (λ x, is_ok x = false) results) ∨
        (fst (effective_strategy o) = FastestResponse ∧ agreed_error results e)
    end.
Proof. by apply lookup_ip_sound. Qed.

Lemma oks_complete l ok err : l ≡ₚ map Ok ok ++ map Err err → oks l ≡ₚ ok.
Proof.
  intros Hl. unfold oks. rewrite Hl, omap_app.
  assert (H1 : ∀ l : list DnsResponse, omap (λ r : outcome, match r with Ok l => Some l | Err _ => None end) (map Ok l) = l).
  { induction l0 as [|a l0 IH]; simpl; [done|]. by f_equal. }
  assert (H2 : ∀ l : list LookupError, omap (λ r : outcome, match r with Ok l => Some l | Err _ => None end) (map Err l) = []).
  { induction l0 as [|a l0 IH]; simpl; done. }
  by rewrite H1, H2, app_nil_r.
Qed.

(** C14. The fastest-address strategy: whatever the order of events, the reply has a
    single address, the one whose speed check took least time among all addresses
    of all servers; when no speed check succeeds it is one that occurs most often
    in their answers, and only when there is no address at all is the reply a
    whole answer. *)
Theorem fastest_ip_selects (modes : list SpeedCheckMode) (l : DnsResponse)
    (Hs : effective_strategy o = (FastestIp, modes))
    (Hl : lookup_ip authority_code now now' o servers up pn sched = Some (Ok l)) :
  let ips := all_ips (oks results) in
  let speed ip := ping_of (address_net pn) modes ip in
  (ips = [] ∧ Ok l ∈ results) ∨
  ∃ ip, ip_addrs l = [ip] ∧ ip ∈ ips ∧
    ((∃ out, speed ip = Ok out ∧ ∀ ip' out', ip' ∈ ips → speed ip' = Ok out' → (duration out ≤ duration out')%Z) ∨
     (∀ ip', ip' ∈ ips → is_ok (speed ip') = false) ∧ ∀ ip', (occurrences ip' ips ≤ occurrences ip ips)%Z).
Proof.
  cbv zeta. unfold lookup_ip in Hl. destruct (is_ip_addr _); [|done]. simpl in Hl.
  case_bool_decide; [done|]. unfold run_strategy in Hl. rewrite Hs in Hl.
  destruct (fastest_ip_sound (address_net pn) modes sched results) as (r & Er & Hsound & Hfast & Hcomp).
  rewrite Er in Hl. simpl in Hl. destruct r as [|ip ok err|ok err|]; simpl in Hfast, Hcomp; try done.
  - assert (Hp : all_ips (oks results) ≡ₚ all_ips ok).
    { unfold all_ips. by rewrite (oks_complete _ _ _ Hcomp). }
    right. destruct Hsound as [Hin Hok].
    destruct (pick_response_spec ip ok Hin) as (u & rec & Hu & Hrec & Hrip & Epick).
    simpl in Hl. rewrite Epick in Hl. simplify_eq/=. exists ip. split_and!.
    + unfold ip_addrs. simpl. by rewrite Hrip.
    + by rewrite Hp.
    + unfold occurrences in *. by setoid_rewrite Hp.
  - left. assert (Hp : all_ips (oks results) ≡ₚ all_ips ok).
    { unfold all_ips. by rewrite (oks_complete _ _ _ Hcomp). }
    split; [apply Permutation_nil; by rewrite Hp, Hfast|].
    destruct ok as [|l' ok]; simplify_eq/=; [by destruct err|]. destruct Hsound as [Hok _].
    by inversion Hok.
Qed.
End lookup.

(** ** The address filters *)

(** C20. Filtered answers: with the filters of a server or of the client on, an answer
    keeps, in order, every address record whose address is allowed - whitelisted, or
    neither blacklisted nor ignored, as far as the lists are on for the server - and
    nothing else, where the first record of an alias is replaced by a record for each
    address of the alias that has the type that was asked for, with the name and the
    TTL of the record, and further records of the same alias are left out.  The rest of
    the answer is kept, but for its deadline; when nothing is left the answer is that
    there are no records.  With no filter it is the server's. *)
Theorem filtered_answer `{RM : RangeMaps} (code : ResponseCode) (now : Z) (sf : ServerFilter) (o : LookupIpOptions)
    (u : DnsResponse) :
  per_nameserver_lookup_ip code now sf o (Ok u) =
  if filter_on sf o then
    let kept := mjoin (imap (λ i, stands_for sf o (take i (answers u))) (answers u)) in
    if decide (kept = []) then Err (LE_Proto (NoRecordsFound code None))
    else Ok (set_valid_until_max now (set_answers u kept))
  else Ok u.
Proof.
  unfold per_nameserver_lookup_ip. destruct (filter_on sf o); cbn [negb]; [|done].
  rewrite (filter_answers_spec sf o [] []) by done. cbn [length app Nat.add]. cbv zeta.
  by destruct (mjoin _); [rewrite decide_True|rewrite decide_False].
Qed.

(** ** A concrete group *)

Module Example.
Import Ranges.

#[local] Instance order : MapOrder := { map_order l := l }.
#[local] Instance order_laws : MapOrderLaws.
Proof. by split. Qed.
#[local] Instance texts : ErrorText := { proto_text k := match k with Timeout => "timeout" | _ => "other" end }.

(** The address [7] answers in 5 ms, every other in 100 ms. *)
Definition net : Network := {|
  attempt d _ := Ok (if bool_decide (ping_ip_addr d = IPv4 7) then millis 5 else millis 100);
  completion_order l := l;
  overtaken _ := false |}.
Lemma net_laws : @NetworkLaws net.
Proof. by split. Qed.
Definition pings : ping_nets := {| answer_net _ := net; address_net _ := net |}.

Definition options (mode : ResponseMode) : LookupIpOptions := {|
  response_strategy := mode; lo_speed_check_mode := Some [Ping]; lo_no_speed_check := false;
  lo_ignore_ip := ipset_new []; lo_whitelist_ip := ipset_new []; lo_blacklist_ip := ipset_new [];
  lo_ip_alias := ipmap_default; lo_record_type := RT_A |}.

Definition reply (ips : list Z) : DnsResponse :=
  new_with_deadline {| q_name := "a."; q_type := RT_A; q_class := 1 |}
    (map (λ ip, {| r_name := "a."; r_class := 1; r_ttl := 60; r_data := RD_A ip |}) ips) 0.
Definition no_filter : ServerFilter := {| whitelist_on := false; blacklist_on := false |}.
Definition trio : list (ServerFilter * NameServer) := [(no_filter, ns_new); (no_filter, ns_new); (no_filter, ns_new)].
Definition ups : list (nat → NameServer.attempt) :=
  [(λ _, {| at_start := 0; at_took := 1; at_answer := Ok (reply [1; 2]) |});
   (λ _, {| at_start := 0; at_took := 1; at_answer := Err Timeout |});
   (λ _, {| at_start := 0; at_took := 1; at_answer := Ok (reply [1; 7]) |})]%Z.

(** The failure arrives first, and the speed check is over before the other
    servers answer: the lookup still has an address. *)
Lemma lookup_ip_returns_witness :
  ∃ l, lookup_ip NXDomain 0 0 (options FirstPing) trio ups pings [1; 0; 1] = Some (Ok l) ∧ ip_addrs l = [IPv4 1].
Proof.
  destruct (lookup_ip_returns NXDomain 0 0 (options FirstPing) trio ups pings [1; 0; 1] eq_refl (λ _, net_laws))
    as (r & Hr & _).
  vm_compute in Hr. injection Hr as Hr. eexists. split; [vm_compute; reflexivity|vm_compute; reflexivity].
Defined.

(** The address only one server has, because it answers faster. *)
Lemma fastest_ip_selects_witness :
  ∃ l ip, lookup_ip NXDomain 0 0 (options FastestIp) trio ups pings [1; 0; 1] = Some (Ok l) ∧ ip_addrs l = [ip] ∧ ip = IPv4 7.
Proof.
  eexists. exists (IPv4 7). assert (Hl : lookup_ip NXDomain 0 0 (options FastestIp) trio ups pings [1; 0; 1] = Some (Ok
    (reply [7%Z]))) by (vm_compute; reflexivity).
  split; [exact Hl|]. split; [|reflexivity].
  destruct (fastest_ip_selects NXDomain 0 0 (options FastestIp) trio ups pings [1; 0; 1] [Ping] _ eq_refl Hl)
    as [[Hnil _]|(ip & Hip & _)]; [vm_compute in Hnil; discriminate|].
  vm_compute in Hip. injection Hip as <-. reflexivity.
Defined.
End Example.
