(* ===== verification/Nom.v ===== *)
(** * Parsers of texts

    The combinators of the nom crate that the configuration parsers use, and the
    parsers of addresses built from them (src/config/parser/nom_recipes/ipv4.rs,
    ipv6.rs, ip.rs), with the standard library's rendering of addresses.

    A parser takes a text and gives the rest and a value, or fails; what the
    combinators do is what nom documents for its complete variants. *)

From S2P Require Import Prelude Dns.
From Stdlib Require Import Ascii.

Local Open Scope Z_scope.

Definition parser (A : Type) : Type := string → option (string * A).

(** ** Characters *)

Definition code (c : ascii) : Z := Z.of_nat (nat_of_ascii c).
Definition is_digit (c : ascii) : bool := (48 <=? code c) && (code c <=? 57).
Definition is_hex_digit (c : ascii) : bool :=
  is_digit c || ((97 <=? code c) && (code c <=? 102)) || ((65 <=? code c) && (code c <=? 70)).
(** The value of a digit, in any base up to 16. *)
Definition digit_value (c : ascii) : Z :=
  if is_digit c then code c - 48
  else if (97 <=? code c) && (code c <=? 102) then code c - 87
  else code c - 55.
(** The digit of a value, in lower case. *)
Definition digit_char (d : Z) : ascii :=
  ascii_of_nat (Z.to_nat (if d <? 10 then d + 48 else d + 87)).

Definition in_set (set : string) (c : ascii) : bool :=
  (fix go s := match s with EmptyString => false | String x s' => Ascii.eqb x c || go s' end) set.
Definition is_space (c : ascii) : bool := in_set (String "009" (String " " "")) c.

Fixpoint all_chars (p : ascii → bool) (s : string) : bool :=
  match s with EmptyString => true | String c s' => p c && all_chars p s' end.
(** A text at which a run of characters ends. *)
Definition stops (p : ascii → bool) (s : string) : bool :=
  match s with EmptyString => true | String c _ => negb (p c) end.

(** ** Combinators *)

Fixpoint span (p : ascii → bool) (s : string) : string * string :=
  match s with
  | EmptyString => ("", "")
  | String c s' => if p c then let '(a, b) := span p s' in (String c a, b) else ("", s)
  end.

(** [take_while1]: a non-empty run; [is_not], [digit1], [hex_digit1], [space1] and
    [take_till1] are instances. *)
Definition take1 (p : ascii → bool) : parser string := λ s,
  let '(a, b) := span p s in if bool_decide (a = "") then None else Some (b, a).
Definition take0 (p : ascii → bool) : parser string := λ s, let '(a, b) := span p s in Some (b, a).

Definition is_not (set : string) : parser string := take1 (λ c, negb (in_set set c)).
Definition digit1 : parser string := take1 is_digit.
Definition hex_digit1 : parser string := take1 is_hex_digit.
Definition space0 : parser string := take0 is_space.
Definition space1 : parser string := take1 is_space.

Definition char (c : ascii) : parser ascii := λ s,
  match s with String x s' => if Ascii.eqb x c then Some (s', c) else None | EmptyString => None end.

Fixpoint tag (t : string) : parser unit := λ s,
  match t, s with
  | EmptyString, _ => Some (s, ())
  | String c t', String x s' => if Ascii.eqb x c then tag t' s' else None
  | String _ _, EmptyString => None
  end.

Definition to_lower (c : ascii) : ascii :=
  if (65 <=? code c) && (code c <=? 90) then ascii_of_nat (nat_of_ascii c + 32)%nat else c.

(** [tag_no_case], for a tag in lower case. *)
Fixpoint tag_no_case (t : string) : parser unit := λ s,
  match t, s with
  | EmptyString, _ => Some (s, ())
  | String c t', String x s' => if Ascii.eqb (to_lower x) c then tag_no_case t' s' else None
  | String _ _, EmptyString => None
  end.

Section combinators.
Context {A B : Type}.

Definition pmap (f : A → B) (p : parser A) : parser B := λ s,
  '(r, a) ← p s; Some (r, f a).
Definition pbind (p : parser A) (k : A → parser B) : parser B := λ s,
  '(r, a) ← p s; k a r.
(** [map_res] *)
Definition pmap_opt (f : A → option B) (p : parser A) : parser B := λ s,
  '(r, a) ← p s; b ← f a; Some (r, b).
(** [alt] of two *)
Definition orelse (p q : parser A) : parser A := λ s,
  match p s with Some x => Some x | None => q s end.
Definition verify (f : A → bool) (p : parser A) : parser A := λ s,
  '(r, a) ← p s; if f a then Some (r, a) else None.
Definition opt (p : parser A) : parser (option A) := λ s,
  match p s with Some (r, a) => Some (r, Some a) | None => Some (s, None) end.
(** [preceded], [terminated] *)
Definition preceded (p : parser A) (q : parser B) : parser B := λ s,
  '(r, _) ← p s; q r.
Definition terminated (p : parser A) (q : parser B) : parser A := λ s,
  '(r, a) ← p s; '(r', _) ← q r; Some (r', a).
End combinators.

(** The rest of a separated list; the fuel is the length of the text. *)
Fixpoint sep_tail {A B} (fuel : nat) (sep : parser B) (p : parser A) (s : string) : string * list A :=
  match fuel with
  | O => (s, [])
  | S fuel =>
      match sep s with
      | None => (s, [])
      | Some (s1, _) =>
          match p s1 with
          | None => (s, [])
          | Some (s2, a) => let '(r, l) := sep_tail fuel sep p s2 in (r, a :: l)
          end
      end
  end.
Definition separated_list1 {A B} (sep : parser B) (p : parser A) : parser (list A) := λ s,
  '(s1, a) ← p s; let '(r, l) := sep_tail (S (String.length s)) sep p s1 in Some (r, a :: l).
Definition separated_list0 {A B} (sep : parser B) (p : parser A) : parser (list A) := λ s,
  match separated_list1 sep p s with Some x => Some x | None => Some (s, []) end.

(** ** Numbers *)

Definition value_of (base v : Z) (s : string) : Z :=
  (fix go s v := match s with EmptyString => v | String c s' => go s' (v * base + digit_value c) end) s v.

(** [s.parse::<u8>()] and [u16::from_str_radix(s, 16)] on digits. *)
Definition parse_u8 (s : string) : option Z :=
  let v := value_of 10 0 s in if v <? 256 then Some v else None.
Definition parse_u16_hex (s : string) : option Z :=
  let v := value_of 16 0 s in if v <? 65536 then Some v else None.

(** The digits of a number, without leading zeros. *)
Fixpoint digits_of (base : Z) (fuel : nat) (n : Z) (acc : string) : string :=
  match fuel with
  | O => acc
  | S fuel =>
      let acc := String (digit_char (n mod base)) acc in
      if n / base =? 0 then acc else digits_of base fuel (n / base) acc
  end.
Definition show_u8 (n : Z) : string := digits_of 10 3 n "".
Definition show_hex (n : Z) : string := digits_of 16 4 n "".

(** The big-endian digits of a number of a fixed width, and back: the octets of an
    IPv4 address and the segments of an IPv6 address. *)
Fixpoint to_be (base : Z) (k : nat) (n : Z) : list Z :=
  match k with O => [] | S k => to_be base k (n / base) ++ [n mod base] end.
Definition of_be (base : Z) (l : list Z) : Z := fold_left (λ acc d, acc * base + d) l 0.

(** ** Addresses *)

(** [octal]: [many_m_n(1, 3, digit1)] takes all digits at once. *)
Definition octal : parser Z := pmap_opt parse_u8 digit1.

Definition ipv4 : parser Z :=
  pbind octal (λ a, pbind (preceded (char ".") octal) (λ b, pbind (preceded (char ".") octal) (λ c,
    pmap (λ d, of_be 256 [a; b; c; d]) (preceded (char ".") octal)))).

Definition segment : parser Z :=
  pmap_opt parse_u16_hex (verify (λ s, (String.length s <=? 4)%nat) hex_digit1).

(** The parts of an IPv6 address before and after the double colon. *)
Definition ipv6_parts : parser (list Z * bool * list Z) :=
  pbind (separated_list0 (char ":") segment) (λ pre,
  pbind (opt (tag "::")) (λ sep,
  pmap (λ post, (pre, bool_decide (is_Some sep), post)) (separated_list0 (char ":") segment))).

Definition ipv6_parts_ok (x : list Z * bool * list Z) : bool :=
  let '(pre, sep, post) := x in
  (length pre =? 8)%nat || sep && (length pre + length post <? 8)%nat.

(** Filling the eight segments: the indices of [post] are computed in [usize], and
    an index outside the array, or an underflow, is a panic, [None]. *)
Definition fill_segments (pre post : list Z) : option (list Z) :=
  if (length post <=? 8)%nat && (length pre <=? 8)%nat then
    let octets := pre ++ replicate (8 - length pre) 0 in
    Some (if bool_decide (post = []) then octets else take (8 - length post) octets ++ post)
  else None.

(** [ipv6]: fails, panics or gives an address. *)
Definition ipv6 : parser (option Z) :=
  orelse (pmap (λ ip, Some (Z.shiftl 65535 32 + ip)) (preceded (tag "::ffff:") ipv4))
    (pmap (λ x, of_be 65536 <$> fill_segments (fst (fst x)) (snd x)) (verify ipv6_parts_ok ipv6_parts)).

Definition ip : parser (option IpAddr) :=
  orelse (pmap (λ a, Some (IPv4 a)) ipv4) (pmap (fmap IPv6) ipv6).

(** ** Rendering ([Display] of the standard library) *)

Definition show_ipv4 (a : Z) : string := join "." (map show_u8 (to_be 256 4 a)).

(** The first longest run of zero segments: its start and its length. *)
Fixpoint zero_run (i : nat) (current longest : nat * nat) (l : list Z) : nat * nat :=
  match l with
  | [] => longest
  | s :: l' =>
      if s =? 0 then
        let current := if (snd current =? 0)%nat then (i, 1%nat) else (fst current, S (snd current)) in
        zero_run (S i) current (if (snd longest <? snd current)%nat then current else longest) l'
      else zero_run (S i) (0%nat, 0%nat) longest l'
  end.

Definition show_segments (l : list Z) : string := join ":" (map show_hex l).

Definition show_ipv6 (a : Z) : string :=
  let segments := to_be 65536 8 a in
  if Z.shiftr a 32 =? 65535 then "::ffff:" +:+ show_ipv4 (Z.land a (Z.ones 32))
  else
    let '(start, len) := zero_run 0 (0%nat, 0%nat) (0%nat, 0%nat) segments in
    if (1 <? len)%nat
    then show_segments (take start segments) +:+ "::" +:+ show_segments (drop (start + len) segments)
    else show_segments segments.

Definition show_ip (a : IpAddr) : string := match a with IPv4 a => show_ipv4 a | IPv6 a => show_ipv6 a end.

Example show_ipv6_examples :
  map show_ipv6 [1; 0; 281470681743360; 281470698652420; 42540766411282592856903984951653826561] =
  ["::1"; "::"; "::ffff:0.0.0.0"; "::ffff:1.2.3.4"; "2001:db8::1"].
Proof. vm_compute. reflexivity. Qed.
