(* ===== verification/NomProps.v ===== *)
(** * Addresses read back

    The parsers of addresses of src/config/parser/nom_recipes read what the
    standard library writes: the lemmas of the round trip, and the theorem for
    addresses of both families. *)

From S2P Require Import Prelude Dns Nom.
From Stdlib Require Import Ascii.

Local Open Scope Z_scope.

(** ** Runs of characters *)

Lemma all_chars_app p a b : all_chars p (a +:+ b) = all_chars p a && all_chars p b.
Proof. induction a as [|c a IH]; [done|]. rewrite string_app_cons. simpl. rewrite IH. by rewrite andb_assoc. Qed.

Lemma string_app_nil_r s : s +:+ "" = s.
Proof. induction s as [|c s IH]; [done|]. by rewrite string_app_cons, IH. Qed.

Lemma span_app p a b : all_chars p a = true → stops p b = true → span p (a +:+ b) = (a, b).
Proof.
  intros Ha Hb. induction a as [|c a IH].
  - destruct b as [|c b]; [done|]. simpl in *. by destruct (p c).
  - simpl in Ha. apply andb_true_iff in Ha as [Hc Ha]. rewrite string_app_cons. simpl. by rewrite Hc, IH.
Qed.

Lemma span_stop p s : stops p s = true → span p s = ("", s).
Proof. apply (span_app p ""). done. Qed.

Lemma take1_app p a b : all_chars p a = true → a ≠ "" → stops p b = true → take1 p (a +:+ b) = Some (b, a).
Proof. intros Ha Hne Hb. unfold take1. rewrite span_app by done. by rewrite bool_decide_false. Qed.

Lemma take1_stop p s : stops p s = true → take1 p s = None.
Proof. intros Hs. unfold take1. by rewrite span_stop. Qed.

(** ** Numbers *)

Lemma digit_char_ok d : 0 <= d < 16 →
  digit_value (digit_char d) = d ∧ is_hex_digit (digit_char d) = true ∧
  (d < 10 → is_digit (digit_char d) = true) ∧ Ascii.eqb (digit_char d) "." = false ∧ Ascii.eqb (digit_char d) ":" = false.
Proof.
  intros Hd.
  assert (Hall : forallb (λ d, (digit_value (digit_char d) =? d) && is_hex_digit (digit_char d) &&
    ((10 <=? d) || is_digit (digit_char d)) && negb (Ascii.eqb (digit_char d) ".") && negb (Ascii.eqb (digit_char d) ":"))
    (map Z.of_nat (seq 0 16)) = true) by (vm_compute; reflexivity).
  rewrite forallb_forall in Hall. specialize (Hall d).
  destruct (andb_prop _ _ (Hall ltac:(apply in_map_iff; exists (Z.to_nat d); rewrite in_seq; lia))) as [H1 E5%negb_true_iff].
  apply andb_true_iff in H1 as [[[E1 E2]%andb_true_iff E3]%andb_true_iff E4%negb_true_iff]. zify_bool.
  split_and!; [done|done| |done|done]. intros Hlt. apply orb_true_iff in E3 as [E3|E3]; [zify_bool; lia|done].
Qed.

Lemma value_of_cons base v c s : value_of base v (String c s) = value_of base (v * base + digit_value c) s.
Proof. done. Qed.

Section digits.
Context (base : Z) (Hbase : 2 <= base <= 16).

Lemma value_of_digits fuel n acc : 0 <= n < base ^ Z.of_nat fuel → (0 < fuel)%nat →
  value_of base 0 (digits_of base fuel n acc) = value_of base n acc.
Proof.
  revert n acc. induction fuel as [|fuel IH]; intros n acc Hn Hf; [lia|]. cbn [digits_of].
  assert (Hm : 0 <= n mod base < base) by (apply Z.mod_pos_bound; lia).
  assert (Hd : n = base * (n / base) + n mod base) by (apply Z.div_mod; lia).
  destruct (n / base =? 0) eqn:E; zify_bool.
  - rewrite value_of_cons, (proj1 (digit_char_ok (n mod base) ltac:(lia))). f_equal. lia.
  - assert (0 <= n / base) by (apply Z.div_pos; lia).
    assert (n / base < base ^ Z.of_nat fuel).
    { apply Z.div_lt_upper_bound; [lia|]. rewrite Nat2Z.inj_succ, Z.pow_succ_r in Hn by lia. lia. }
    rewrite IH; [|lia|destruct fuel; [change (base ^ Z.of_nat 0) with 1 in *|]; lia].
    rewrite value_of_cons, (proj1 (digit_char_ok (n mod base) ltac:(lia))). f_equal. lia.
Qed.

Lemma digits_of_chars p fuel n acc :
  (∀ d, 0 <= d < base → p (digit_char d) = true) → all_chars p acc = true → all_chars p (digits_of base fuel n acc) = true.
Proof.
  intros Hp. revert n acc. induction fuel as [|fuel IH]; intros n acc Hacc; [done|]. cbn [digits_of].
  assert (Hm : 0 <= n mod base < base) by (apply Z.mod_pos_bound; lia).
  destruct (n / base =? 0); [|apply IH]; simpl; by rewrite Hp, Hacc.
Qed.

Lemma digits_of_length fuel n acc :
  (String.length (digits_of base fuel n acc) <= fuel + String.length acc)%nat ∧
  ((0 < fuel)%nat → digits_of base fuel n acc ≠ "").
Proof.
  assert (Hlen : ∀ fuel n acc, (String.length acc <= String.length (digits_of base fuel n acc) <= fuel + String.length acc)%nat ∧
    ((0 < fuel)%nat → (0 < String.length (digits_of base fuel n acc))%nat)).
  { clear fuel n acc. induction fuel as [|fuel IH]; intros n acc; [simpl; lia|]. cbn [digits_of].
    destruct (n / base =? 0); [simpl; lia|]. destruct (IH (n / base) (String (digit_char (n mod base)) acc)) as [H1 H2].
    cbn [String.length] in H1. split; lia. }
  destruct (Hlen fuel n acc) as [H1 H2]. split; [lia|]. intros Hf E. specialize (H2 Hf). rewrite E in H2. simpl in H2. lia.
Qed.
End digits.

(** Octets and segments put together again. *)
Lemma of_be_app base l d : of_be base (l ++ [d]) = of_be base l * base + d.
Proof. unfold of_be. by rewrite fold_left_app. Qed.

Lemma of_be_to_be base k n : 0 < base → 0 <= n < base ^ Z.of_nat k → of_be base (to_be base k n) = n.
Proof.
  intros Hb. revert n. induction k as [|k IH]; intros n Hn.
  { change (base ^ Z.of_nat 0) with 1 in Hn. unfold of_be. simpl. lia. }
  cbn [to_be].
  rewrite of_be_app, IH; [pose proof (Z.div_mod n base ltac:(lia)); lia|].
  split; [apply Z.div_pos; lia|]. apply Z.div_lt_upper_bound; [lia|].
  rewrite Nat2Z.inj_succ, Z.pow_succ_r in Hn by lia. lia.
Qed.

Lemma to_be_length base k n : length (to_be base k n) = k.
Proof. revert n. induction k as [|k IH]; intros n; [done|]. simpl. rewrite length_app, IH. simpl. lia. Qed.

Lemma to_be_range base k n : 0 < base → Forall (λ d, 0 <= d < base) (to_be base k n).
Proof.
  intros Hb. revert n. induction k as [|k IH]; intros n; [constructor|]. simpl. apply Forall_app. split; [apply IH|].
  constructor; [by apply Z.mod_pos_bound|constructor].
Qed.

(** ** IPv4 *)

Lemma show_u8_chars n : 0 <= n < 256 → all_chars is_digit (show_u8 n) = true ∧ show_u8 n ≠ "".
Proof.
  intros Hn. split; [|apply digits_of_length; lia].
  apply (digits_of_chars 10); [lia| |done]. intros d Hd. apply (digit_char_ok d); lia.
Qed.

Lemma octal_show n r : 0 <= n < 256 → stops is_digit r = true → octal (show_u8 n +:+ r) = Some (r, n).
Proof.
  intros Hn Hr. destruct (show_u8_chars n Hn) as [Hc Hne]. unfold octal, pmap_opt, digit1.
  rewrite take1_app by done. simpl. unfold parse_u8, show_u8.
  rewrite (value_of_digits 10) by lia. simpl. by rewrite (proj2 (Z.ltb_lt n 256)) by lia.
Qed.

Lemma dot_octal_show n r : 0 <= n < 256 → stops is_digit r = true →
  preceded (char ".") octal ("." +:+ show_u8 n +:+ r) = Some (r, n).
Proof. apply octal_show. Qed.

Lemma ipv4_show a r : 0 <= a < 2 ^ 32 → stops is_digit r = true → ipv4 (show_ipv4 a +:+ r) = Some (r, a).
Proof.
  intros Ha Hr. unfold show_ipv4.
  pose proof (to_be_range 256 4 a ltac:(lia)) as Hrange. pose proof (of_be_to_be 256 4 a ltac:(lia) ltac:(lia)) as Hval.
  pose proof (to_be_length 256 4 a) as Hlen.
  destruct (to_be 256 4 a) as [|b1 [|b2 [|b3 [|b4 [|? ?]]]]]; try discriminate.
  rewrite !Forall_cons in Hrange. destruct Hrange as (H1 & H2 & H3 & H4 & _). cbn [map join].
  rewrite !string_app_assoc. unfold ipv4, pbind, pmap.
  rewrite (octal_show b1) by done. cbn -[octal preceded of_be].
  rewrite (dot_octal_show b2) by done. cbn -[octal preceded of_be].
  rewrite (dot_octal_show b3) by done. cbn -[octal preceded of_be].
  rewrite (dot_octal_show b4) by done. cbn -[octal preceded of_be]. by rewrite Hval.
Qed.

(** ** Segments of IPv6 *)

Lemma show_hex_chars n : all_chars is_hex_digit (show_hex n) = true ∧ show_hex n ≠ "" ∧ (String.length (show_hex n) <= 4)%nat.
Proof.
  unfold show_hex. destruct (digits_of_length 16 4 n "") as [Hl Hne].
  split_and!; [|apply Hne; lia|change (String.length "") with 0%nat in Hl; lia].
  apply (digits_of_chars 16); [lia| |done]. intros d Hd. apply (digit_char_ok d); lia.
Qed.

Lemma segment_show n r : 0 <= n < 65536 → stops is_hex_digit r = true → segment (show_hex n +:+ r) = Some (r, n).
Proof.
  intros Hn Hr. destruct (show_hex_chars n) as (Hc & Hne & Hl). unfold segment, pmap_opt, verify, hex_digit1.
  rewrite take1_app by done. simpl. rewrite (proj2 (Nat.leb_le _ _) Hl). simpl. unfold parse_u16_hex, show_hex.
  rewrite (value_of_digits 16) by lia. simpl. by rewrite (proj2 (Z.ltb_lt n 65536)) by lia.
Qed.

Lemma segment_stop r : stops is_hex_digit r = true → segment r = None.
Proof. intros Hr. unfold segment, pmap_opt, verify, hex_digit1. by rewrite take1_stop. Qed.

(** ** Separated lists *)

Section separated.
Context {A B : Type} (sep : parser B) (p : parser A) (show : A → string) (sept : string).
Context (ok : A → Prop) (follows : string → Prop).
Context (p_show : ∀ x s, ok x → follows s → p (show x +:+ s) = Some (s, x)).
Context (sep_show : ∀ x s, ok x → ∃ b, sep (sept +:+ show x +:+ s) = Some (show x +:+ s, b)).
Context (follows_sep : ∀ x s, ok x → follows (sept +:+ show x +:+ s)).

(** A text at which a list ends. *)
Definition ends (r : string) : Prop :=
  follows r ∧ match sep r with None => True | Some (s, _) => p s = None end.

Lemma sep_tail_show fuel l r : Forall ok l → (length l < fuel)%nat → ends r →
  sep_tail fuel sep p (foldr (λ x s, sept +:+ show x +:+ s) r l) = (r, l).
Proof.
  intros Hl Hf [Hfol Hend]. revert fuel Hf. induction Hl as [|x l Hx Hl IH]; intros fuel Hf; (destruct fuel as [|fuel]; [simpl in Hf; lia|]).
  - simpl. destruct (sep r) as [[s b]|]; [|done]. by rewrite Hend.
  - cbn [foldr sep_tail]. destruct (sep_show x (foldr (λ x s, sept +:+ show x +:+ s) r l) Hx) as [b ->].
    rewrite p_show; [|done|]. 2:{ destruct l; [done|]. cbn [foldr]. apply follows_sep. by apply Forall_cons in Hl as [? _]. }
    rewrite IH by (simpl in Hf; lia). done.
Qed.

Lemma join_foldr x l r :
  join sept (map show (x :: l)) +:+ r = show x +:+ foldr (λ x s, sept +:+ show x +:+ s) r l.
Proof.
  revert x. induction l as [|y l IH]; intros x; [done|].
  change (join sept (map show (x :: y :: l))) with (show x +:+ sept +:+ join sept (map show (y :: l))).
  rewrite !string_app_assoc, IH. done.
Qed.

Lemma separated_list1_show x l r : Forall ok (x :: l) → ends r →
  (length l <= String.length (join sept (map show (x :: l)) +:+ r))%nat →
  separated_list1 sep p (join sept (map show (x :: l)) +:+ r) = Some (r, x :: l).
Proof.
  intros [Hx Hl]%Forall_cons Hr Hlen. unfold separated_list1. rewrite join_foldr in *.
  rewrite p_show; [|done|]. 2:{ destruct l; [apply Hr|]. cbn [foldr]. apply follows_sep. by apply Forall_cons in Hl as [? _]. }
  cbn -[sep_tail String.length]. rewrite sep_tail_show; [done|done|lia|done].
Qed.
End separated.

Lemma join_length (sept : string) (l : list string) : (1 <= String.length sept)%nat →
  (length l <= S (String.length (join sept l)))%nat.
Proof.
  intros Hs. induction l as [|x [|y l] IH]; [simpl; lia|simpl; lia|].
  cbn [join length] in *. rewrite !string_length_app. lia.
Qed.

(** ** IPv6 *)

Definition is_hex_colon (c : ascii) : bool := is_hex_digit c || Ascii.eqb c ":".
(** A text that may follow an address. *)
Definition ip_follows (r : string) : bool := stops (λ c, is_hex_colon c || Ascii.eqb c ".") r.

Lemma ip_follows_hex r : ip_follows r = true → stops is_hex_digit r = true ∧ stops is_digit r = true ∧ stops is_hex_colon r = true.
Proof.
  unfold ip_follows, is_hex_colon, is_hex_digit. destruct r as [|c r]; [done|]. simpl.
  by destruct (is_digit c), (Ascii.eqb c ":"), ((97 <=? code c) && (code c <=? 102)), ((65 <=? code c) && (code c <=? 70)).
Qed.

(** What follows the digits of a text without dots does not start with a dot. *)
Lemma span_no_dot w r : all_chars is_hex_colon w = true → ip_follows r = true →
  char "." (snd (span is_digit (w +:+ r))) = None.
Proof.
  intros Hw Hr. induction w as [|c w IH].
  - rewrite string_app_nil. rewrite span_stop by apply (ip_follows_hex _ Hr). simpl.
    destruct r as [|c r]; [done|]. cbn in Hr |- *. destruct (Ascii.eqb c "."); [|done]. by rewrite orb_true_r in Hr.
  - cbn in Hw. apply andb_true_iff in Hw as [Hc Hw]. rewrite string_app_cons. cbn [span].
    destruct (is_digit c); [destruct (span _ _) eqn:E; exact (IH Hw)|]. simpl.
    destruct (Ascii.eqb c ".") eqn:Ed; [|done]. apply Ascii.eqb_eq in Ed as ->. done.
Qed.

Lemma ipv4_no_dot w r : all_chars is_hex_colon w = true → ip_follows r = true → ipv4 (w +:+ r) = None.
Proof.
  intros Hw Hr. pose proof (span_no_dot w r Hw Hr) as Hd. unfold ipv4, pbind, octal, pmap_opt, digit1, take1.
  destruct (span is_digit (w +:+ r)) as [x y]. simpl in Hd. case_bool_decide; [done|]. simpl.
  destruct (parse_u8 x); [|done]. unfold preceded. simpl. by rewrite Hd.
Qed.

Lemma tag_no_dot t w r s : all_chars is_hex_colon t = true → all_chars is_hex_colon w = true → ip_follows r = true →
  tag t (w +:+ r) = Some (s, ()) → ∃ w', s = w' +:+ r ∧ all_chars is_hex_colon w' = true.
Proof.
  revert w. induction t as [|c t IH]; intros w Ht Hw Hr Htag.
  - simpl in Htag. exists w. by simplify_eq.
  - cbn in Ht. apply andb_true_iff in Ht as [Hc Ht]. destruct w as [|x w].
    + apply ip_follows_hex in Hr as (_ & _ & Hr). rewrite string_app_nil in Htag.
      destruct r as [|x r]; [done|]. cbn in Htag, Hr. destruct (Ascii.eqb x c) eqn:E; [|done].
      apply Ascii.eqb_eq in E as ->. by rewrite Hc in Hr.
    + cbn in Hw. apply andb_true_iff in Hw as [Hx Hw]. rewrite string_app_cons in Htag. cbn in Htag.
      destruct (Ascii.eqb x c); [|done]. by apply (IH w).
Qed.

(** A text of segments is never taken for an IPv4-mapped address. *)
Lemma mapped_no_dot w r : all_chars is_hex_colon w = true → ip_follows r = true →
  preceded (tag "::ffff:") ipv4 (w +:+ r) = None.
Proof.
  intros Hw Hr. unfold preceded. destruct (tag "::ffff:" (w +:+ r)) as [[s []]|] eqn:E; [|done]. simpl.
  destruct (tag_no_dot "::ffff:" w r s eq_refl Hw Hr E) as (w' & -> & Hw'). by apply ipv4_no_dot.
Qed.

(** *** Lists of segments *)

Lemma show_segments_chars l : all_chars is_hex_colon (show_segments l) = true.
Proof.
  assert (Hh : ∀ n, all_chars is_hex_colon (show_hex n) = true).
  { intros n. destruct (show_hex_chars n) as [H _]. revert H. generalize (show_hex n). intros s.
    induction s as [|c s IH]; [done|]. cbn [all_chars].
    intros [Hc Hs]%andb_true_iff. rewrite IH by done. unfold is_hex_colon. by rewrite Hc. }
  unfold show_segments. induction l as [|x [|y l] IH]; [done|apply Hh|].
  change (join ":" (map show_hex (x :: y :: l))) with (show_hex x +:+ ":" +:+ join ":" (map show_hex (y :: l))).
  by rewrite all_chars_app, Hh, string_app_cons, string_app_nil.
Qed.

Definition u16 (d : Z) : Prop := 0 <= d < 65536.

Lemma segments_show l r : Forall u16 l → stops is_hex_digit r = true →
  match char ":" r with None => True | Some (s, _) => stops is_hex_digit s = true end →
  separated_list0 (char ":") segment (show_segments l +:+ r) = Some (r, l).
Proof.
  intros Hl Hr Hend. unfold separated_list0. destruct l as [|x l].
  { change (show_segments [] +:+ r) with r. unfold separated_list1. by rewrite segment_stop. }
  unfold show_segments.
  rewrite (separated_list1_show (char ":") segment show_hex ":" u16 (λ s, stops is_hex_digit s = true)); [done|..|done| |].
  - intros; by apply segment_show.
  - intros y s _. by exists ":"%char.
  - done.
  - split; [done|]. destruct (char ":" r) as [[s b]|]; [|done]. by apply segment_stop.
  - pose proof (join_length ":" (map show_hex (x :: l)) ltac:(simpl; lia)) as Hlen.
    rewrite length_map in Hlen. rewrite string_length_app. cbn [length] in Hlen. lia.
Qed.

Lemma final_ends r : ip_follows r = true → char ":" r = None ∧ tag "::" r = None.
Proof.
  unfold ip_follows, is_hex_colon. destruct r as [|c r]; [done|]. cbn. destruct (Ascii.eqb c ":") eqn:E; [|done].
  by rewrite orb_true_r.
Qed.

Lemma ipv6_parts_whole l r : Forall u16 l → ip_follows r = true →
  ipv6_parts (show_segments l +:+ r) = Some (r, (l, false, [])).
Proof.
  intros Hl Hr. destruct (final_ends r Hr) as [Hc Ht]. destruct (ip_follows_hex r Hr) as (Hh & _ & _).
  unfold ipv6_parts, pbind, opt, pmap. rewrite segments_show; [|done|done|by rewrite Hc].
  cbn -[separated_list0 tag]. rewrite Ht. cbn -[separated_list0].
  pose proof (segments_show [] r ltac:(constructor) Hh ltac:(by rewrite Hc)) as E.
  change (show_segments [] +:+ r) with r in E. by rewrite E.
Qed.

Lemma ipv6_parts_elided pre post r : Forall u16 pre → Forall u16 post → ip_follows r = true →
  ipv6_parts (show_segments pre +:+ "::" +:+ show_segments post +:+ r) = Some (r, (pre, true, post)).
Proof.
  intros Hpre Hpost Hr. destruct (final_ends r Hr) as [Hc Ht]. destruct (ip_follows_hex r Hr) as (Hh & _ & _).
  unfold ipv6_parts, pbind, opt, pmap. rewrite segments_show by done. cbn [mbind option_bind].
  assert (Htag : ∀ s, tag "::" ("::" +:+ s) = Some (s, ())) by done. rewrite Htag. cbn [mbind option_bind].
  rewrite segments_show; [done|done|done|by rewrite Hc].
Qed.

(** *** Filling the segments *)

(** A run of zeros of [l]. *)
Definition run_at (l : list Z) (run : nat * nat) : Prop :=
  ∃ a b, l = a ++ replicate (snd run) 0 ++ b ∧ length a = fst run.
(** The run at the end of [l], if it has started. *)
Definition run_open (l : list Z) (run : nat * nat) : Prop :=
  snd run = 0%nat ∨ ∃ a, l = a ++ replicate (snd run) 0 ∧ length a = fst run.

Lemma run_at_app l l' run : run_at l run → run_at (l ++ l') run.
Proof. intros (a & b & -> & Ha). exists a, (b ++ l'). by rewrite <-!app_assoc. Qed.

Lemma run_open_zero l run : run_open l run →
  run_open (l ++ [0]) (if (snd run =? 0)%nat then (length l, 1%nat) else (fst run, S (snd run))).
Proof.
  intros [E|(a & -> & Ha)]; right.
  - rewrite E. exists l. done.
  - destruct (snd run =? 0)%nat eqn:E.
    + apply Nat.eqb_eq in E. exists (a ++ replicate (snd run) 0). done.
    + exists a. split; [|done]. cbn [snd]. by rewrite <-app_assoc, replicate_S_end.
Qed.

Lemma run_open_at l run : run_open l run → (0 < snd run)%nat → run_at l run.
Proof. intros [E|(a & -> & Ha)] Hpos; [lia|]. exists a, []. by rewrite app_nil_r. Qed.

Lemma zero_run_ok l p current longest : run_open p current → run_at p longest →
  run_at (p ++ l) (zero_run (length p) current longest l).
Proof.
  revert p current longest. induction l as [|s l IH]; intros p current longest Hc Hl; [by rewrite app_nil_r|].
  cbn [zero_run]. replace (p ++ s :: l) with ((p ++ [s]) ++ l) by by rewrite <-app_assoc.
  replace (S (length p)) with (length (p ++ [s])) by (rewrite length_app; simpl; lia).
  destruct (s =? 0) eqn:E.
  - zify_bool. subst s. pose proof (run_open_zero p current Hc) as Ho. apply IH; [done|].
    destruct (snd longest <? _)%nat eqn:Elt; [|by apply run_at_app].
    apply run_open_at; [done|]. apply Nat.ltb_lt in Elt. lia.
  - apply IH; [by left|by apply run_at_app].
Qed.

Lemma fill_elided a len b : (length a + len + length b = 8)%nat →
  fill_segments a b = Some (a ++ replicate len 0 ++ b).
Proof.
  intros Hlen. unfold fill_segments. rewrite !(proj2 (Nat.leb_le _ _)) by lia. simpl. f_equal.
  case_bool_decide as E.
  - subst b. rewrite app_nil_r. f_equal. f_equal. simpl in Hlen. lia.
  - rewrite take_app, take_ge, take_replicate, <-app_assoc by lia. f_equal. f_equal. f_equal. lia.
Qed.

Lemma fill_whole l : length l = 8%nat → fill_segments l [] = Some l.
Proof. intros Hl. rewrite (fill_elided l 0) by (simpl; lia). by rewrite app_nil_r. Qed.

(** An address of 128 bits, printed without a dot. *)
Lemma segments_text a r : 0 <= a < 2 ^ 128 → Z.shiftr a 32 ≠ 65535 → ip_follows r = true →
  ∃ w, show_ipv6 a = w ∧ all_chars is_hex_colon w = true ∧
       pmap (λ x, of_be 65536 <$> fill_segments (fst (fst x)) (snd x)) (verify ipv6_parts_ok ipv6_parts) (w +:+ r)
       = Some (r, Some a).
Proof.
  intros Ha Hm Hr. unfold show_ipv6. rewrite (proj2 (Z.eqb_neq _ _)) by done. cbv zeta.
  pose proof (to_be_range 65536 8 a ltac:(lia)) as Hrange. pose proof (of_be_to_be 65536 8 a ltac:(lia) ltac:(lia)) as Hval.
  pose proof (to_be_length 65536 8 a) as Hlen. remember (to_be 65536 8 a) as l eqn:El. clear El.
  pose proof (zero_run_ok l [] (0%nat, 0%nat) (0%nat, 0%nat) ltac:(by left) ltac:(by exists [], [])) as Hrun.
  rewrite app_nil_l in Hrun. cbn [length] in Hrun. destruct (zero_run 0 _ _ l) as [st len].
  destruct (1 <? len)%nat eqn:Elen.
  - destruct Hrun as (x & y & -> & Hx). cbn [fst snd] in *. apply Nat.ltb_lt in Elen. subst st.
    rewrite !length_app, length_replicate in Hlen. rewrite !Forall_app in Hrange. destruct Hrange as (H1 & _ & H2).
    rewrite take_app_length, drop_app_add', drop_app_length' by (done || by rewrite length_replicate).
    eexists; split; [done|]. rewrite !all_chars_app, !show_segments_chars. split; [done|].
    rewrite !string_app_assoc. unfold pmap, verify. rewrite ipv6_parts_elided by done. simpl.
    rewrite (proj2 (Nat.ltb_lt _ _)), orb_true_r by lia. simpl. rewrite (fill_elided x len y) by lia.
    cbn -[of_be]. by rewrite Hval.
  - eexists; split; [done|]. rewrite show_segments_chars. split; [done|].
    unfold pmap, verify. rewrite ipv6_parts_whole by done. simpl. rewrite Hlen. simpl. rewrite fill_whole by done.
    cbn -[of_be]. by rewrite Hval.
Qed.

Lemma ipv6_show a r : 0 <= a < 2 ^ 128 → ip_follows r = true → ipv6 (show_ipv6 a +:+ r) = Some (r, Some a).
Proof.
  intros Ha Hr. unfold ipv6, orelse. destruct (Z.eq_dec (Z.shiftr a 32) 65535) as [Em|Em].
  - unfold show_ipv6. rewrite (proj2 (Z.eqb_eq _ _)) by done. rewrite string_app_assoc. unfold pmap at 1, preceded.
    assert (Htag : ∀ s, tag "::ffff:" ("::ffff:" +:+ s) = Some (s, ())) by done. rewrite Htag.
    cbn [mbind option_bind]. rewrite Z.land_ones by lia.
    rewrite ipv4_show; [|by apply Z.mod_pos_bound|apply (ip_follows_hex r Hr)].
    cbn [mbind option_bind]. rewrite <-Em, Z.shiftl_mul_pow2, Z.shiftr_div_pow2 by lia.
    pose proof (Z.div_mod a (2 ^ 32) ltac:(lia)). do 3 f_equal. lia.
  - destruct (segments_text a r Ha Em Hr) as (w & -> & Hw & Hp). unfold pmap at 1. rewrite mapped_no_dot by done. done.
Qed.

Lemma ipv4_not_ipv6 a r : 0 <= a < 2 ^ 128 → ip_follows r = true → ipv4 (show_ipv6 a +:+ r) = None.
Proof.
  intros Ha Hr. destruct (Z.eq_dec (Z.shiftr a 32) 65535) as [Em|Em].
  - unfold show_ipv6. by rewrite (proj2 (Z.eqb_eq _ _)) by done.
  - destruct (segments_text a r Ha Em Hr) as (w & -> & Hw & Hp). by apply ipv4_no_dot.
Qed.

(** An address as its type holds it. *)
Definition ip_valid (a : IpAddr) : bool :=
  match a with IPv4 a => (0 <=? a) && (a <? 2 ^ 32) | IPv6 a => (0 <=? a) && (a <? 2 ^ 128) end.

(** Every address of both families is read back from what [Display] writes, with
    the rest of the text untouched, when the rest does not continue the address. *)
Lemma ip_show a r : ip_valid a = true → ip_follows r = true → ip (show_ip a +:+ r) = Some (r, Some a).
Proof.
  intros Ha Hr. destruct a as [a|a]; cbn [ip_valid] in Ha; apply andb_true_iff in Ha as [H1 H2];
    apply Z.leb_le in H1; apply Z.ltb_lt in H2; unfold ip, orelse, show_ip, pmap.
  - by rewrite ipv4_show by (done || apply (ip_follows_hex r Hr)).
  - by rewrite ipv4_not_ipv6, ipv6_show by done.
Qed.

(** An address with eight segments before the double colon and more than eight
    after it passes the check and makes the parser panic. *)
Example ipv6_panics : ip "1:2:3:4:5:6:7:8::1:2:3:4:5:6:7:8:9" = Some ("", None).
Proof. vm_compute. reflexivity. Qed.
(** With fewer, the segments after the double colon overwrite those before it. *)
Example ipv6_overwrites : ip "1:2:3:4:5:6:7:8::9" = ip "1:2:3:4:5:6:7:9".
Proof. vm_compute. reflexivity. Qed.
