(* ===== verification/ConfigText.v ===== *)
(** * Configuration text

    Domains, address rules and lines of a configuration file, as they are parsed
    (src/config/parser/domain.rs, address_rule.rs, mod.rs) and printed (the
    [Display] instances of src/config/domain.rs, src/config/mod.rs and
    src/config/parser/mod.rs).

    hickory's [Name] and the pattern builder of the [wildcard] crate are arguments.
    The values of the settings other than [address] are arguments too, under the
    keywords that introduce them; a parser whose value is [None] panics. *)

From S2P Require Import Prelude Dns DomainMap DomainRule Nom.
From Stdlib Require Import Ascii.

(** Texts of names and patterns: [Name::from_str], [Display for Name],
    [Name::root] and [WildcardBuilder::build]. *)
Class NameSyntax (Name : Type) := {
  name_from_str : string → option Name;
  name_display : Name → string;
  name_root : Name;
  wildcard_build : string → option Wildcard;
}.

Definition lf : ascii := "010".
Definition cr : ascii := "013".
Definition eol (c : ascii) : bool := Ascii.eqb c lf || Ascii.eqb c cr.

(** [is_not] of a name: space, newline, tab, quotes and the characters of other
    syntax. *)
Definition name_stop : string := String lf (String "009" (String "034" " \/|#',!+<>")).

(** ** Domains *)

Section names.
Context {Name : Type} `{!NameOps Name, !NameSyntax Name}.

Definition parse_name : parser Name := pmap_opt name_from_str (is_not name_stop).

(** The five alternatives of [WildcardName::parse]. *)
Definition parse_sub : parser (WildcardName Name) :=
  pbind (pmap_opt wildcard_build (terminated (verify (λ w, in_set w "*") (is_not ".")) (char ".")))
    (λ w, pmap (Sub w) parse_name).
Definition parse_full : parser (WildcardName Name) :=
  pmap Full (preceded (preceded (char "-") (char ".")) parse_name).
Definition parse_suffix : parser (WildcardName Name) :=
  pmap Suffix (preceded (preceded (opt (char "+")) (char ".")) parse_name).
Definition parse_default : parser (WildcardName Name) :=
  pmap (λ name,
    if is_wildcard name then Sub wildcard_default (base_name name)
    else if is_root name then Suffix name
    else Default name) parse_name.
Definition parse_plus : parser (WildcardName Name) :=
  pmap (λ _, Suffix name_root) (preceded (char "+") (opt (char "."))).

Definition parse_wildcard_name : parser (WildcardName Name) :=
  orelse parse_sub (orelse parse_full (orelse parse_suffix (orelse parse_default parse_plus))).

Definition parse_domain : parser (Domain Name) :=
  orelse (pmap DSet (preceded (tag_no_case "domain-set:") (take1 (λ c, negb (Ascii.eqb c "/")))))
    (pmap DName parse_wildcard_name).

Definition show_wildcard_name (w : WildcardName Name) : string :=
  match w with
  | Default n => name_display n
  | Suffix n => "+." +:+ name_display n
  | Sub w n => wildcard_display w +:+ "." +:+ name_display n
  | Full n => "-." +:+ name_display n
  end.

Definition show_domain (d : Domain Name) : string :=
  match d with DName n => show_wildcard_name n | DSet n => "domain-set:" +:+ n end.
End names.

(** ** Addresses of a rule *)

Definition ip_sep : parser string := preceded space0 (preceded (char ",") space0).

(** The addresses of a list, by family. *)
Definition v4_of (a : IpAddr) : option Z := match a with IPv4 a => Some a | IPv6 _ => None end.
Definition v6_of (a : IpAddr) : option Z := match a with IPv6 a => Some a | IPv4 _ => None end.
Definition some_if_any {A} (l : list A) : option (list A) := match l with [] => None | _ => Some l end.
Definition addr_of (l : list IpAddr) : AddressRuleValue :=
  Addr (some_if_any (omap v4_of l)) (some_if_any (omap v6_of l)).

Definition parse_value : parser (option AddressRuleValue) :=
  let value (v : AddressRuleValue) t := pmap (λ _, Some v) (tag t) in
  orelse (value SOAv4 "#4") (orelse (value SOAv6 "#6") (orelse (value SOA "#")
  (orelse (value IGNv4 "-4") (orelse (value IGNv6 "-6") (orelse (value IGN "-")
    (pmap (λ l, addr_of <$> mapM id l) (separated_list1 ip_sep ip))))))).

Definition value_ips (v4 v6 : option (list Z)) : list IpAddr :=
  map IPv4 (default [] v4) ++ map IPv6 (default [] v6).

Definition show_value (v : AddressRuleValue) : string :=
  match v with
  | SOA => "#" | SOAv4 => "#4" | SOAv6 => "#6"
  | IGN => "-" | IGNv4 => "-4" | IGNv6 => "-6"
  | Addr v4 v6 => join "," (map show_ip (value_ips v4 v6))
  end.

(** ** Rules, lines and files *)

(** [str::trim_end]: the white space of Unicode, in UTF-8. *)
Definition is_trimmed (rev : list ascii) : option (list ascii) :=
  let byte c := nat_of_ascii c in
  match rev with
  | c :: l =>
      if (9 <=? byte c) && (byte c <=? 13) || (byte c =? 32) then Some l
      else
        match l with
        | b :: l =>
            if (byte b =? 194) && ((byte c =? 133) || (byte c =? 160)) then Some l
            else
              match l with
              | a :: l =>
                  if (byte a =? 225) && (byte b =? 154) && (byte c =? 128)
                     || (byte a =? 226) && (byte b =? 128) &&
                        ((128 <=? byte c) && (byte c <=? 138) || (byte c =? 168) || (byte c =? 169) || (byte c =? 175))
                     || (byte a =? 226) && (byte b =? 129) && (byte c =? 159)
                     || (byte a =? 227) && (byte b =? 128) && (byte c =? 128)
                  then Some l else None
              | [] => None
              end
        | [] => None
        end
  | [] => None
  end%nat.
Fixpoint trim_rev (fuel : nat) (rev : list ascii) : list ascii :=
  match fuel with
  | O => rev
  | S fuel => match is_trimmed rev with Some l => trim_rev fuel l | None => rev end
  end.
Definition trim_end (s : string) : string :=
  String.string_of_list_ascii (rev (trim_rev (String.length s) (rev (String.list_ascii_of_string s)))).

Definition line_ending : parser unit := λ s,
  match s with
  | String c s' =>
      if Ascii.eqb c lf then Some (s', ())
      else if Ascii.eqb c cr then '(r, _) ← char lf s'; Some (r, ())
      else None
  | EmptyString => None
  end.

(** [not_line_ending] fails at a carriage return that ends no line. *)
Definition not_line_ending : parser string := λ s,
  let '(a, b) := span (λ c, negb (eol c)) s in
  match b with
  | EmptyString => Some (b, a)
  | _ => match line_ending b with Some _ => Some (b, a) | None => None end
  end.

Definition comment_text : parser string := pbind (char "#") (λ c, pmap (String c) not_line_ending).
Definition comment : parser string := pmap trim_end comment_text.
(** [recognize((space1, comment))] *)
Definition line_comment : parser string := pbind space1 (λ s, pmap (λ c, s +:+ c) comment_text).

(** The keywords of the settings after [address], in the order they are tried. *)
Definition keywords : list string :=
  [ "audit-enable"; "audit-file-mode"; "audit-file"; "audit-num"; "audit-size"; "bind-cert-file";
    "bind-cert-key-file"; "bind-cert-key-pass"; "bogus-nxdomain"; "blacklist-ip"; "cache-file"; "cache-persist";
    "cache-size"; "cache-mem-size"; "cache-checkpoint-time"; "ca-file"; "ca-path"; "client-rules"; "client-rule";
    "conf-file";
    "domain-rules"; "domain-rule"; "domain-set"; "dnsmasq-lease-file"; "dns64"; "dualstack-ip-allow-force-aaaa";
    "dualstack-ip-selection"; "dualstack-ip-selection-threshold"; "edns-client-subnet"; "expand-ptr-from-address";
    "force-aaaa-soa"; "force-https-soa"; "force-qtype-soa"; "response"; "group-begin"; "group-end"; "prefetch-domain";
    "cname"; "num-workers"; "domain"; "hosts-file";
    "force-no-cname"; "local-ptr-enable"; "max-query-limit"; "nftset-timeout"; "nftset-debug"; "socket-buff-size";
    "data-dir"; "log-color"; "audit-soa"; "audit-console"; "local-domain"; "odhcpd-lease-file";
    "group-match"; "ip-rules"; "ipset"; "ipset-timeout"; "ipset-no-speed"; "acl-enable"; "bind-cert-generate";
    "bind-cert-root-key-file"; "bind-cert-san"; "bind-cert-validity-days"; "log-syslog"; "audit-syslog";
    "nftset-no-speed"; "debug-save-fail-packet"; "debug-save-fail-packet-dir";
    "https-record"; "ignore-ip"; "local-ttl"; "log-console"; "log-file-mode"; "log-file"; "log-filter"; "log-level";
    "log-num"; "log-size"; "max-reply-ip-num"; "mdns-lookup"; "nameserver"; "proxy-server"; "rr-ttl-reply-max";
    "rr-ttl-min"; "rr-ttl-max"; "rr-ttl"; "resolv-file";
    "resolv-hostanme"; "response-mode"; "server-name"; "speed-check-mode"; "serve-expired-reply-ttl";
    "serve-expired-ttl"; "serve-expired-prefetch-time"; "serve-expired"; "srv-record"; "txt-record"; "resolv-hostname";
    "tcp-idle-time"; "nftset"; "user";
    "whitelist-ip"; "ip-set"; "ip-alias";
    "bind-tcp"; "bind-tls"; "bind-quic"; "bind-https"; "bind-http"; "bind-h3"; "bind-udp"; "bind";
    "server-udp"; "server-tcp"; "server-tls"; "server-https"; "server-h3"; "server-http3"; "server-quic"; "server" ].

(** The settings other than [address]: their values, how they are parsed after a
    keyword, and how they are printed. *)
Class Settings := {
  Setting : Type;
  setting_value : string → parser (option Setting);
  group_end : Setting;
  show_setting : Setting → string;
}.

Section config.
Context {Name : Type} `{!NameOps Name, !NameSyntax Name, ST : Settings}.

Definition AddressRule : Type := ConfigForDomain Name AddressRuleValue.

Definition parse_rule : parser (option AddressRule) :=
  pbind (preceded (char "/") (terminated parse_domain (char "/")))
    (λ d, pmap (fmap (λ v, {| domain := d; config := v |})) parse_value).

Definition show_rule (r : AddressRule) : string :=
  "/" +:+ show_domain (domain r) +:+ "/" +:+ show_value (DomainRule.config r).

Inductive ConfigItem := Address (rule : AddressRule) | Other (s : Setting).

Inductive ConfigLine :=
| Config (config : ConfigItem) (comment : option string)
| Comment (comment : string)
| EmptyLine
| Eof.

Definition show_item (i : ConfigItem) : string :=
  match i with Address rule => "address " +:+ show_rule rule | Other s => show_setting s end.

Definition show_line (l : ConfigLine) : string :=
  match l with
  | Config config comment => show_item config +:+ default "" comment
  | Comment comment => comment
  | EmptyLine | Eof => ""
  end.

(** [Display for ConfigFile] *)
Fixpoint show_config (ls : list ConfigLine) : string :=
  match ls with
  | [] => ""
  | Eof :: ls => show_config ls
  | l :: ls => show_line l +:+ String lf (show_config ls)
  end.

Definition address_item : parser (option ConfigItem) :=
  pmap (fmap Address) (preceded (tag_no_case "address") (preceded space1 parse_rule)).

Definition setting_item (keyword : string) : parser (option ConfigItem) :=
  if bool_decide (keyword = "group-end") then pmap (λ _, Some (Other group_end)) (tag_no_case keyword)
  else pmap (fmap Other) (preceded (tag_no_case keyword) (preceded space1 (setting_value keyword))).

Definition group_ : parser (option ConfigItem) :=
  orelse address_item (foldr (λ k, orelse (setting_item k)) (λ _, None) keywords).

Definition parse_config_line : parser (option ConfigLine) :=
  pbind (preceded space0 group_) (λ config,
    pmap (λ comment, (λ config, Config config comment) <$> config)
      (orelse (pmap Some line_comment) (pmap (λ _, None) space0))).

Definition eof : parser unit := λ s, match s with EmptyString => Some ("", ()) | _ => None end.

Definition parse_line : parser (option ConfigLine) :=
  orelse parse_config_line
    (orelse (pmap (λ c, Some (Comment c)) (preceded space0 comment))
      (orelse (pmap (λ _, Some Eof) eof) (pmap (λ _, Some EmptyLine) space0))).

(** [ConfigFile::parse] *)
Definition parse_config_file : parser (option (list ConfigLine)) :=
  pmap (mapM id) (separated_list0 line_ending parse_line).
End config.
Arguments AddressRule : clear implicits.
Arguments ConfigItem Name {ST}.
Arguments ConfigLine Name {ST}.
