(* ===== verification/ConfigProps.v ===== *)
(** * Configuration text read back

    What the configuration parser reads from what the server prints: domains,
    addresses, rules and whole files. *)

From S2P Require Import Prelude Dns DomainMap DomainRule Nom NomProps ConfigText.
From Stdlib Require Import Ascii.

(** ** Shared lemmas *)

Lemma in_set_cons x s c : in_set (String x s) c = Ascii.eqb x c || in_set s c.
Proof. done. Qed.

(** A tag that fails on a text fails on it followed by a character outside the tag. *)
Lemma tag_no_case_app t w c s : tag_no_case t w = None → in_set t (to_lower c) = false →
  tag_no_case t (w +:+ String c s) = None.
Proof.
  revert w. induction t as [|x t IH]; intros w Hw Hc; [done|]. rewrite in_set_cons in Hc.
  apply orb_false_iff in Hc as [Hx Hc]. destruct w as [|y w].
  - rewrite string_app_nil. cbn [tag_no_case]. rewrite Ascii.eqb_sym in Hx. by rewrite Hx.
  - rewrite string_app_cons. cbn [tag_no_case] in *. destruct (Ascii.eqb (to_lower y) x); [by apply IH|done].
Qed.

Section domains.
Context {Name : Type} `{!NameOps Name, !NameSyntax Name}.

(** ** Domains that a file can hold *)

Definition name_char (c : ascii) : bool := negb (in_set name_stop c).
Definition not_dot (c : ascii) : bool := negb (in_set "." c).
Definition not_slash (c : ascii) : bool := negb (Ascii.eqb c "/").

Lemma not_dot_eqb c : not_dot c = negb (Ascii.eqb c ".").
Proof. unfold not_dot. by rewrite in_set_cons, orb_false_r, Ascii.eqb_sym. Qed.

(** A name printed in characters of names and read back by hickory. *)
Definition plain_name (n : Name) : bool :=
  bool_decide (name_display n ≠ "") && all_chars name_char (name_display n) &&
  bool_decide (name_from_str (name_display n) = Some n).

Definition no_set_prefix (t : string) : bool := bool_decide (tag_no_case "domain-set:" t = None).

(** The first label of a text ends at a dot, has no star and is not the mark of a
    full match. *)
Definition first_label_ok (t : string) : bool :=
  let '(a, b) := span not_dot t in
  bool_decide (a ≠ "") && bool_decide (a ≠ "-") && negb (in_set a "*") && bool_decide (b ≠ "").

Definition pattern_ok (w : Wildcard) : bool :=
  bool_decide (pattern w ≠ "") && all_chars not_dot (pattern w) && in_set (pattern w) "*" &&
  no_set_prefix (pattern w) && bool_decide (wildcard_build (pattern w) = Some w).

Definition domain_ok (d : Domain Name) : bool :=
  match d with
  | DSet s => bool_decide (s ≠ "") && all_chars not_slash s
  | DName (Suffix n) | DName (Full n) => plain_name n
  | DName (Sub w n) => pattern_ok w && plain_name n
  | DName (Default n) =>
      plain_name n && no_set_prefix (name_display n) && first_label_ok (name_display n) &&
      negb (is_wildcard n) && negb (is_root n)
  end.

Lemma parse_name_show n s : plain_name n = true → stops name_char s = true →
  parse_name (name_display n +:+ s) = Some (s, n).
Proof.
  unfold plain_name. intros [[H1%bool_decide_eq_true H2]%andb_true_iff H3%bool_decide_eq_true]%andb_true_iff Hs.
  unfold parse_name, pmap_opt, is_not. rewrite take1_app by done. simpl. by rewrite H3.
Qed.

(** *** The alternatives of [WildcardName::parse] *)

Lemma parse_sub_label a s : a ≠ "" → all_chars not_dot a = true → in_set a "*" = false →
  parse_sub (Name := Name) (a +:+ String "." s) = None.
Proof.
  intros Ha Hd Hs. unfold parse_sub, pbind, pmap_opt, terminated, verify, is_not.
  rewrite take1_app by done. simpl. by rewrite Hs.
Qed.

Lemma parse_sub_show w n s : pattern_ok w = true → plain_name n = true → stops name_char s = true →
  parse_sub (pattern w +:+ "." +:+ name_display n +:+ s) = Some (s, Sub w n).
Proof.
  unfold pattern_ok. intros Hw Hn Hs.
  apply andb_true_iff in Hw as [[[[H1%bool_decide_eq_true H2]%andb_true_iff H3]%andb_true_iff _]%andb_true_iff H5%bool_decide_eq_true].
  unfold parse_sub, pbind, pmap_opt, terminated, verify, is_not.
  rewrite take1_app by done. cbn [mbind option_bind]. rewrite H3. cbn. rewrite string_app_cons, string_app_nil. cbn. rewrite H5. cbn [mbind option_bind].
  unfold pmap. by rewrite parse_name_show.
Qed.

(** A first label that marks neither a full nor a suffix match. *)
Lemma parse_marks a s : a ≠ "" → a ≠ "-" → all_chars not_dot a = true → stops (λ c, Ascii.eqb c "+") a = true →
  parse_full (Name := Name) (a +:+ String "." s) = None ∧ parse_suffix (Name := Name) (a +:+ String "." s) = None.
Proof.
  intros Ha Hm Hd Hp. destruct a as [|c a]; [done|]. rewrite string_app_cons. cbn [all_chars stops] in Hd, Hp.
  apply andb_true_iff in Hd as [Hc Hd]. apply negb_true_iff in Hp. split.
  - unfold parse_full, pmap, preceded. cbn. destruct (Ascii.eqb c "-") eqn:Em; [|done]. apply Ascii.eqb_eq in Em as ->. cbn.
    destruct a as [|c' a]; [done|]. rewrite string_app_cons. cbn [all_chars] in Hd. apply andb_true_iff in Hd as [Hd _]. cbn.
    rewrite not_dot_eqb in Hd. by destruct (Ascii.eqb c' ".").
  - unfold parse_suffix, pmap, preceded, opt. cbn. rewrite Hp. cbn.
    rewrite not_dot_eqb in Hc. by destruct (Ascii.eqb c ".").
Qed.

Lemma plain_no_plus n : plain_name n = true → stops (λ c, Ascii.eqb c "+") (name_display n) = true.
Proof.
  unfold plain_name. intros [[_ H]%andb_true_iff _]%andb_true_iff. destruct (name_display n) as [|c t]; [done|].
  cbn [all_chars stops] in *. apply andb_true_iff in H as [H _].
  destruct (Ascii.eqb c "+") eqn:E; [|done]. apply Ascii.eqb_eq in E as ->. done.
Qed.

Lemma span_split p s a b : span p s = (a, b) → s = a +:+ b ∧ all_chars p a = true ∧ stops p b = true.
Proof.
  revert a b. induction s as [|c s IH]; intros a b; cbn; [by intros [= <- <-]|]. destruct (p c) eqn:E.
  - destruct (span p s) as [a' b'] eqn:Es. intros [= <- <-]. destruct (IH a' b' eq_refl) as (-> & H1 & H2).
    cbn. by rewrite E, H1.
  - intros [= <- <-]. cbn. by rewrite E.
Qed.

Lemma first_label_split t : first_label_ok t = true → ∃ a b, t = a +:+ String "." b ∧
  a ≠ "" ∧ a ≠ "-" ∧ in_set a "*" = false ∧ all_chars not_dot a = true.
Proof.
  unfold first_label_ok. destruct (span not_dot t) as [a b] eqn:E.
  intros [[[H1%bool_decide_eq_true H2%bool_decide_eq_true]%andb_true_iff H3%negb_true_iff]%andb_true_iff H4%bool_decide_eq_true]%andb_true_iff.
  destruct (span_split _ _ _ _ E) as (-> & Ha & Hb). destruct b as [|c b]; [done|].
  cbn [stops] in Hb. rewrite not_dot_eqb, negb_involutive in Hb. apply Ascii.eqb_eq in Hb as ->. by exists a, b.
Qed.

Lemma parse_wildcard_default n s : plain_name n = true → first_label_ok (name_display n) = true →
  is_wildcard n = false → is_root n = false → stops name_char s = true →
  parse_wildcard_name (name_display n +:+ s) = Some (s, Default n).
Proof.
  intros Hn Hl Hw Hr Hs. pose proof (parse_name_show n s Hn Hs) as Hp. pose proof (plain_no_plus n Hn) as Hplus.
  destruct (first_label_split _ Hl) as (a & b & E & H1 & H2 & H3 & H4). rewrite E in Hp, Hplus |- *.
  rewrite string_app_assoc, string_app_cons in *.
  assert (Hplus' : stops (λ c, Ascii.eqb c "+") a = true) by (by destruct a).
  destruct (parse_marks a (b +:+ s) H1 H2 H4 Hplus') as [Hf Hsuf].
  unfold parse_wildcard_name, orelse. rewrite parse_sub_label, Hf, Hsuf by done.
  unfold parse_default, pmap. rewrite Hp. cbn. by rewrite Hw, Hr.
Qed.

Lemma parse_wildcard_show w s : domain_ok (DName w) = true → stops name_char s = true →
  parse_wildcard_name (show_wildcard_name w +:+ s) = Some (s, w).
Proof.
  intros Hok Hs. destruct w as [n|n|w n|n]; cbn [domain_ok show_wildcard_name] in *.
  - apply andb_true_iff in Hok as [[[[H1 _]%andb_true_iff H2]%andb_true_iff H3%negb_true_iff]%andb_true_iff H4%negb_true_iff].
    by apply parse_wildcard_default.
  - unfold parse_wildcard_name, orelse. rewrite string_app_assoc.
    rewrite (parse_sub_label "+" (name_display n +:+ s)) by done. rewrite !string_app_cons, string_app_nil.
    cbn -[parse_suffix]. unfold parse_suffix, pmap, preceded. cbn -[parse_name]. by rewrite parse_name_show.
  - apply andb_true_iff in Hok as [Hw Hn]. unfold parse_wildcard_name, orelse, wildcard_display.
    rewrite bool_decide_false. 2:{ unfold pattern_ok in Hw. rewrite !andb_true_iff, bool_decide_eq_true in Hw. apply Hw. }
    by rewrite !string_app_assoc, parse_sub_show.
  - unfold parse_wildcard_name, orelse. rewrite string_app_assoc.
    rewrite (parse_sub_label "-" (name_display n +:+ s)) by done. rewrite !string_app_cons, string_app_nil.
    unfold parse_full, pmap, preceded. cbn -[parse_name]. by rewrite parse_name_show.
Qed.

(** What is printed for a name is never read as a set of domains. *)
Lemma domain_no_set w c s : domain_ok (DName w) = true → c = "/"%char →
  tag_no_case "domain-set:" (show_wildcard_name w +:+ String c s) = None.
Proof.
  intros Hok ->. destruct w as [n|n|w n|n]; cbn [domain_ok show_wildcard_name] in *; [|done| |done].
  - apply tag_no_case_app; [|done]. rewrite !andb_true_iff in Hok. destruct Hok as ((((_ & H) & _) & _) & _).
    by apply bool_decide_eq_true in H.
  - apply andb_true_iff in Hok as [Hw _]. unfold wildcard_display, pattern_ok, no_set_prefix in *.
    rewrite !andb_true_iff, !bool_decide_eq_true in Hw. destruct Hw as ((((H1 & _) & _) & H) & _).
    rewrite bool_decide_false by done. rewrite !string_app_assoc. by apply tag_no_case_app.
Qed.

Lemma parse_domain_show d s : domain_ok d = true →
  parse_domain (show_domain d +:+ String "/" s) = Some (String "/" s, d).
Proof.
  intros Hok. unfold parse_domain, orelse. destruct d as [w|t]; cbn [show_domain].
  - unfold pmap at 1, preceded. rewrite domain_no_set by done. cbn -[parse_wildcard_name].
    unfold pmap. by rewrite parse_wildcard_show.
  - unfold pmap at 1, preceded. rewrite string_app_assoc. cbn [domain_ok] in Hok.
    apply andb_true_iff in Hok as [H1%bool_decide_eq_true H2].
    assert (Htag : ∀ s, tag_no_case "domain-set:" ("domain-set:" +:+ s) = Some (s, ())) by done. rewrite Htag.
    cbn [mbind option_bind]. by rewrite take1_app.
Qed.
End domains.

(** ** Addresses of a rule *)

Definition value_ok (v : AddressRuleValue) : bool :=
  match v with
  | Addr v4 v6 =>
      bool_decide (value_ips v4 v6 ≠ []) && bool_decide (v4 ≠ Some []) && bool_decide (v6 ≠ Some []) &&
      forallb ip_valid (value_ips v4 v6)
  | _ => true
  end.

(** A text that may follow the addresses of a rule. *)
Definition value_follows (r : string) : bool :=
  ip_follows r && stops (λ c, Ascii.eqb c ",") (snd (span is_space r)).

Lemma is_space_cases c : is_space c = true → c = " "%char ∨ c = "009"%char.
Proof.
  unfold is_space. rewrite !in_set_cons, orb_false_r. intros [H|H]%orb_true_iff; apply Ascii.eqb_eq in H; auto.
Qed.

Lemma ip_space c s : is_space c = true → ip (String c s) = None.
Proof. by intros [-> | ->]%is_space_cases. Qed.

Lemma show_ip_starts a s : ip_valid a = true → stops is_space (show_ip a +:+ s) = true.
Proof.
  intros Ha. pose proof (ip_show a "" Ha eq_refl) as H. rewrite string_app_nil_r in H.
  destruct (show_ip a) as [|c t]; [done|]. rewrite string_app_cons. cbn [stops].
  destruct (is_space c) eqn:E; [|done]. by rewrite ip_space in H.
Qed.

Lemma space0_stop s : stops is_space s = true → space0 s = Some (s, "").
Proof. intros Hs. unfold space0, take0. by rewrite span_stop. Qed.

Lemma ip_sep_show a s : ip_valid a = true → ip_sep ("," +:+ show_ip a +:+ s) = Some (show_ip a +:+ s, "").
Proof.
  intros Ha. rewrite string_app_cons, string_app_nil. unfold ip_sep, preceded.
  rewrite (space0_stop (String "," _)) by done. cbn -[space0]. by rewrite space0_stop by by apply show_ip_starts.
Qed.

Lemma value_follows_ends r : value_follows r = true → ip_follows r = true ∧ ip_sep r = None.
Proof.
  unfold value_follows. intros [H1 H2]%andb_true_iff. split; [done|]. unfold ip_sep, preceded.
  assert (E : space0 r = Some (snd (span is_space r), fst (span is_space r))) by (unfold space0, take0; by destruct (span _ r)).
  rewrite E.
  destruct (span is_space r) as [a [|c b]]; [done|]. cbn in H2 |- *. by destruct (Ascii.eqb c ",").
Qed.

Lemma ip_list_show l r : l ≠ [] → forallb ip_valid l = true → value_follows r = true →
  separated_list1 ip_sep ip (join "," (map show_ip l) +:+ r) = Some (r, map Some l).
Proof.
  intros Hl Hok [Hr Hend]%value_follows_ends. destruct l as [|x l]; [done|]. rewrite forallb_forall in Hok.
  pose proof (separated_list1_show ip_sep ip (from_option show_ip "") ","
    (λ o, ∃ a, o = Some a ∧ ip_valid a = true) (λ s, ip_follows s = true)) as H.
  change (map Some (x :: l)) with (Some x :: map Some l).
  replace (map show_ip (x :: l)) with (map (from_option show_ip "") (Some x :: map Some l)) by (cbn [map]; by rewrite map_map).
  apply H.
  - intros o s (a & -> & Ha) Hs. by apply ip_show.
  - intros o s (a & -> & Ha). eexists. by apply ip_sep_show.
  - done.
  - apply (List.Forall_map Some _ (x :: l)), List.Forall_forall. intros a Ha. exists a. auto.
  - split; [done|]. by rewrite Hend.
  - pose proof (join_length "," (map (from_option show_ip "") (Some x :: map Some l)) ltac:(simpl; lia)) as Hlen.
    rewrite length_map in Hlen. rewrite string_length_app. cbn [length] in Hlen. lia.
Qed.

Lemma mapM_some {A} (l : list A) : mapM id (map Some l) = Some l.
Proof. induction l as [|x l IH]; [done|]. cbn. by rewrite IH. Qed.

Lemma addr_of_ips v4 v6 : v4 ≠ Some [] → v6 ≠ Some [] → addr_of (value_ips v4 v6) = Addr v4 v6.
Proof.
  intros H4 H6. unfold addr_of, value_ips. rewrite !omap_app.
  assert (E1 : ∀ l, omap v4_of (map IPv4 l) = l ∧ omap v6_of (map IPv4 l) = []).
  { intros l. induction l as [|x l IH]; [done|]. cbn. destruct IH as [-> ->]. done. }
  assert (E2 : ∀ l, omap v4_of (map IPv6 l) = [] ∧ omap v6_of (map IPv6 l) = l).
  { intros l. induction l as [|x l IH]; [done|]. cbn. destruct IH as [-> ->]. done. }
  destruct (E1 (default [] v4)) as [-> ->], (E2 (default [] v6)) as [-> ->]. rewrite app_nil_r. cbn [app].
  by destruct v4 as [[]|], v6 as [[]|].
Qed.

Lemma parse_value_show v r : value_ok v = true → value_follows r = true →
  parse_value (show_value v +:+ r) = Some (r, Some v).
Proof.
  intros Hv Hr. destruct (value_follows_ends r Hr) as [Hf _].
  destruct (ip_follows_hex r Hf) as (Hh & _ & _).
  assert (H46 : stops (λ c, Ascii.eqb c "4" || Ascii.eqb c "6") r = true).
  { destruct r as [|c r]; [done|]. cbn in Hh |- *. destruct (Ascii.eqb c "4") eqn:E4; [by apply Ascii.eqb_eq in E4 as ->|].
    destruct (Ascii.eqb c "6") eqn:E6; [by apply Ascii.eqb_eq in E6 as ->|done]. }
  destruct v as [ | | | | | |v4 v6]; try done.
  1,2: destruct r as [|c r]; [done|]; cbn in H46; apply negb_true_iff, orb_false_iff in H46 as [H4 H6];
    unfold parse_value, orelse, pmap; cbn [show_value]; rewrite string_app_cons, string_app_nil; cbn; by rewrite H4, H6.
  cbn [value_ok] in Hv. rewrite !andb_true_iff, !bool_decide_eq_true in Hv. destruct Hv as (((Hne & H4) & H6) & Hips).
  pose proof (ip_list_show _ r Hne Hips Hr) as Hl. cbn [show_value].
  destruct (value_ips v4 v6) as [|x l] eqn:El; [done|].
  assert (Hx : ip_valid x = true) by (cbn [forallb] in Hips; by apply andb_true_iff in Hips as [? _]).
  assert (Hd : ∀ t, stops (λ c, Ascii.eqb c "#" || Ascii.eqb c "-") (show_ip x +:+ t) = true).
  { intros t. pose proof (ip_show x "" Hx eq_refl) as H. rewrite string_app_nil_r in H.
    destruct (show_ip x) as [|c s]; [done|]. rewrite string_app_cons. cbn. destruct (Ascii.eqb c "#") eqn:E1; [by apply Ascii.eqb_eq in E1 as ->|].
    destruct (Ascii.eqb c "-") eqn:E2; [by apply Ascii.eqb_eq in E2 as ->|done]. }
  rewrite join_foldr in *. specialize (Hd (foldr (λ x s, "," +:+ show_ip x +:+ s) r l)).
  remember (show_ip x +:+ foldr (λ x s, "," +:+ show_ip x +:+ s) r l) as t eqn:Et. clear Et.
  destruct t as [|c t]; [done|]. cbn in Hd. apply negb_true_iff, orb_false_iff in Hd as [Hd1 Hd2].
  unfold parse_value, orelse, pmap. cbn -[separated_list1 ip_sep ip mapM addr_of]. rewrite Hd1, Hd2, Hl.
  cbn -[separated_list1 ip_sep ip mapM addr_of map]. rewrite mapM_some. cbn -[addr_of]. by rewrite <-El, addr_of_ips.
Qed.

(** ** Lines and files *)

Section lines.
Context {Name : Type} `{!NameOps Name, !NameSyntax Name, ST : Settings}.
Abbreviation line := (ConfigLine Name).

Definition rule_ok (r : AddressRule Name) : bool := domain_ok (domain r) && value_ok (config r).

(** The comment of a line: blanks, a hash sign, and the rest of the line. *)
Definition comment_ok (c : string) : bool :=
  match span is_space c with
  | (a, String h b) => bool_decide (a ≠ "") && Ascii.eqb h "#" && all_chars (λ c, negb (eol c)) b
  | _ => false
  end.

(** The lines of a managed file: address rules, comments and blank lines. *)
Definition line_ok (l : line) : bool :=
  match l with
  | Config (Address r) c => rule_ok r && from_option comment_ok true c
  | Comment (String h b) => Ascii.eqb h "#" && all_chars (λ c, negb (eol c)) b && bool_decide (trim_end (String h b) = String h b)
  | EmptyLine => true
  | _ => false
  end.

(** What follows a line: nothing, or the next line. *)
Definition line_end (s : string) : bool := match s with EmptyString => true | String c _ => Ascii.eqb c lf end.

Lemma line_end_follows s : line_end s = true → value_follows s = true.
Proof. destruct s as [|c s]; [done|]. cbn [line_end]. by intros ->%Ascii.eqb_eq. Qed.

Lemma comment_split c : comment_ok c = true → ∃ a b, c = a +:+ String "#" b ∧ a ≠ "" ∧
  all_chars is_space a = true ∧ all_chars (λ c, negb (eol c)) b = true.
Proof.
  unfold comment_ok. destruct (span is_space c) as [a [|h b]] eqn:E; [done|].
  intros [[H1%bool_decide_eq_true H2%Ascii.eqb_eq]%andb_true_iff H3]%andb_true_iff. subst h.
  destruct (span_split _ _ _ _ E) as (-> & Ha & _). by exists a, b.
Qed.

Lemma comment_follows c s : comment_ok c = true → value_follows (c +:+ s) = true.
Proof.
  intros (a & b & -> & Ha & Hs & _)%comment_split. rewrite string_app_assoc, string_app_cons. unfold value_follows.
  rewrite span_app by done. cbn [snd stops]. rewrite andb_true_r.
  destruct a as [|x a]; [done|]. cbn [all_chars] in Hs. apply andb_true_iff in Hs as [Hx _].
  rewrite string_app_cons. by destruct (is_space_cases x Hx) as [-> | ->].
Qed.

Lemma comment_text_show b s : all_chars (λ c, negb (eol c)) b = true → line_end s = true →
  comment_text (String "#" b +:+ s) = Some (s, String "#" b).
Proof.
  intros Hb Hs. rewrite string_app_cons. unfold comment_text, pbind, pmap. cbn -[not_line_ending]. unfold not_line_ending.
  rewrite span_app; [|done|by destruct s as [|c s]; [|cbn in Hs |- *; unfold eol; rewrite Hs]].
  destruct s as [|c s]; [done|]. cbn [line_ending]. cbn [line_end] in Hs. by rewrite Hs.
Qed.

Lemma line_comment_show c s : comment_ok c = true → line_end s = true → line_comment (c +:+ s) = Some (s, c).
Proof.
  intros (a & b & -> & Ha & Hs & Hb)%comment_split He. rewrite string_app_assoc.
  unfold line_comment, pbind, pmap, space1. rewrite take1_app by done. cbn -[comment_text].
  by rewrite comment_text_show.
Qed.

Lemma line_end_space s : line_end s = true → stops is_space s = true.
Proof. destruct s as [|c s]; [done|]. cbn [line_end]. by intros ->%Ascii.eqb_eq. Qed.

Lemma line_comment_none s : line_end s = true → line_comment s = None.
Proof. intros Hs%line_end_space. unfold line_comment, pbind, space1. by rewrite take1_stop. Qed.

(** No setting starts with a hash sign or at the end of a line. *)
Lemma group_none s : line_end s = true ∨ (∃ b, s = String "#" b) → group_ (Name := Name) s = None.
Proof. intros [H|[b ->]]; [|done]. destruct s as [|c s]; [done|]. cbn [line_end] in H. by apply Ascii.eqb_eq in H as ->. Qed.

Lemma parse_rule_show r s : rule_ok r = true → value_follows s = true → parse_rule (show_rule r +:+ s) = Some (s, Some r).
Proof.
  unfold rule_ok. intros [Hd Hv]%andb_true_iff Hs. unfold parse_rule, show_rule, pbind, preceded, terminated, pmap.
  rewrite !string_app_assoc, !(string_app_cons "/"), !string_app_nil. cbn -[parse_domain parse_value].
  rewrite parse_domain_show by done. cbn -[parse_value]. rewrite parse_value_show by done. by destruct r.
Qed.

Lemma address_line_show r c s : rule_ok r = true → from_option comment_ok true c = true → line_end s = true →
  parse_line (show_line (Config (Address r) c) +:+ s) = Some (s, Some (Config (Address r) c)).
Proof.
  intros Hr Hc Hs. unfold parse_line, parse_config_line, orelse, pbind, preceded. cbn [show_line show_item].
  rewrite !string_app_assoc. rewrite space0_stop by done. cbn [mbind option_bind].
  assert (Hf : value_follows (default "" c +:+ s) = true).
  { destruct c as [c|]; [by apply comment_follows|by apply line_end_follows]. }
  assert (Hg : group_ ("address " +:+ show_rule r +:+ default "" c +:+ s) = Some (default "" c +:+ s, Some (Address r))).
  { unfold group_, orelse, address_item, pmap, preceded, space1.
    assert (Htag : ∀ t, tag_no_case "address" ("address " +:+ t) = Some (" " +:+ t, ())) by done. rewrite Htag.
    cbn [mbind option_bind]. rewrite (take1_app is_space " ") by done. cbn [mbind option_bind]. by rewrite parse_rule_show. }
  rewrite Hg. cbn [mbind option_bind]. unfold pmap.
  destruct c as [c|]; cbn [default].
  - by rewrite line_comment_show.
  - rewrite string_app_nil, line_comment_none by done. cbn [mbind option_bind].
    by rewrite space0_stop by by apply line_end_space.
Qed.

(** Every line of a managed file is read back, before the end of a line. *)
Lemma parse_line_show l s : line_ok l = true → parse_line (show_line l +:+ String lf s) = Some (String lf s, Some l).
Proof.
  destruct l as [[r|x] c|[|h b]| |]; try done; cbn [line_ok].
  - intros [Hr Hc]%andb_true_iff. by apply address_line_show.
  - intros [[->%Ascii.eqb_eq Hb]%andb_true_iff Ht%bool_decide_eq_true]%andb_true_iff. cbn [show_line].
    unfold parse_line, orelse, parse_config_line, pbind, preceded.
    rewrite !(space0_stop (String "#" b +:+ _)) by done. cbn [mbind option_bind].
    rewrite group_none by (right; by eexists). cbn [mbind option_bind]. unfold comment, pmap.
    rewrite (space0_stop (String "#" b +:+ _)) by done. cbn [mbind option_bind].
    rewrite comment_text_show by done. cbn [mbind option_bind]. by rewrite Ht.
Qed.

Lemma parse_line_eof : parse_line (Name := Name) "" = Some ("", Some Eof).
Proof. unfold parse_line, orelse, parse_config_line, pbind, preceded. rewrite space0_stop by done. cbn [mbind option_bind]. by rewrite group_none by by left. Qed.

Lemma show_config_cons l ls : line_ok l = true → show_config (l :: ls) = show_line l +:+ String lf (show_config ls).
Proof. by destruct l. Qed.

(** The lines after the first, and a last one that ends the list. *)
Lemma sep_tail_lines fuel ls t rest x : (length ls < fuel)%nat → forallb line_ok ls = true →
  parse_line t = Some (rest, x) → line_ending rest = None →
  sep_tail fuel line_ending parse_line (String lf (show_config ls +:+ t)) = (rest, map Some ls ++ [x]).
Proof.
  intros Hf Hok Ht Hr. revert fuel Hf. induction ls as [|l ls IH]; intros [|fuel] Hf; try (cbn in Hf; lia).
  - cbn [show_config]. rewrite string_app_nil. cbn -[parse_line]. rewrite Ht. destruct fuel; cbn; by rewrite ?Hr.
  - cbn [forallb] in Hok. apply andb_true_iff in Hok as [Hl Hok]. rewrite show_config_cons by done.
    rewrite string_app_assoc, string_app_cons. cbn -[parse_line show_line]. rewrite parse_line_show by done.
    rewrite IH by (done || cbn in Hf; lia). done.
Qed.

Lemma show_config_length ls : forallb line_ok ls = true → (length ls <= String.length (show_config ls))%nat.
Proof.
  induction ls as [|l ls IH]; [done|]. cbn [forallb]. intros [Hl Hok]%andb_true_iff. rewrite show_config_cons by done.
  rewrite string_length_app. cbn [length String.length]. specialize (IH Hok). lia.
Qed.

(** A file of well-formed lines, followed by a text of which one more line is read. *)
Lemma config_file_tail ls t rest x : forallb line_ok ls = true →
  parse_line t = Some (rest, Some x) → line_ending rest = None →
  parse_config_file (show_config ls +:+ t) = Some (rest, Some (ls ++ [x])).
Proof.
  intros Hok Ht Hr. unfold parse_config_file, pmap, separated_list0, separated_list1. destruct ls as [|l ls].
  { cbn [show_config]. rewrite string_app_nil, Ht. cbn. by rewrite Hr. }
  cbn [forallb] in Hok. apply andb_true_iff in Hok as [Hl Hok]. rewrite show_config_cons by done.
  rewrite string_app_assoc, string_app_cons, parse_line_show by done. cbn [mbind option_bind].
  pose proof (show_config_length ls Hok) as Hlen.
  rewrite (sep_tail_lines _ ls t rest (Some x)); [|rewrite string_length_app; cbn [String.length]; rewrite string_length_app; lia|done..].
  cbn [mbind option_bind]. change (Some l :: map Some ls ++ [Some x]) with (map Some (l :: ls) ++ map Some [x]).
  by rewrite <-map_app, mapM_some.
Qed.

Lemma config_file_show ls : forallb line_ok ls = true →
  parse_config_file (show_config ls) = Some ("", Some (ls ++ [Eof])).
Proof.
  intros Hok. rewrite <-(string_app_nil_r (show_config ls)).
  apply config_file_tail; [done|apply parse_line_eof|done].
Qed.
End lines.

(** ** The theorems on files *)

Lemma in_set_app a b c : in_set (a +:+ b) c = in_set a c || in_set b c.
Proof. induction a as [|x a IH]; [done|]. rewrite string_app_cons, !in_set_cons, IH. by rewrite orb_assoc. Qed.

Section files.
Context {Name : Type} `{!NameOps Name, !NameSyntax Name, ST : Settings}.

(** C8. A file of address rules, comments and blank lines of the kind [line_ok]
    describes is read back as it was printed, rule by rule and comment by comment,
    with nothing left over, and printing what was read gives the file again.  The
    rules are those for a set of domains without a slash in its name, for a name with
    one of the marks for subdomains or for itself only, or with a pattern with a star
    as its first label, and for a plain name whose text has a dot and whose first
    label has no star; plain names of one label are not among them, since their
    printed rule swallows a wildcard rule on the next line.  Names consist of name
    characters and are read back by the name parser, values are any of the marks or
    at least one address, and comments have no line end and no blanks at their end. *)
Theorem config_file_roundtrip (ls : list (ConfigLine Name)) (Hok : forallb line_ok ls = true) :
  ∃ ls', parse_config_file (show_config ls) = Some ("", Some ls') ∧
    ls' = ls ++ [Eof] ∧ show_config ls' = show_config ls.
Proof.
  exists (ls ++ [Eof]). split_and!; [by apply config_file_show|done|].
  induction ls as [|l ls IH]; [done|]. cbn [forallb] in Hok. apply andb_true_iff in Hok as [Hl Hok].
  specialize (IH Hok). by destruct l; cbn [app show_config]; rewrite ?IH.
Qed.

(** The pattern that a rule for a name without dots and the rule for a wildcard
    on the next line are read as. *)
Definition swallowed (n : Name) (v : AddressRuleValue) (w : Wildcard) : Wildcard :=
  {| pattern := name_display n +:+ "/" +:+ show_value v +:+ String lf ("address /" +:+ pattern w) |}.

Lemma swallowed_text n1 n2 v1 v2 w : pattern w ≠ "" →
  show_config (Name := Name)
    [Config (Address {| domain := DName (Default n1); config := v1 |}) None;
     Config (Address {| domain := DName (Sub w n2); config := v2 |}) None]
  = show_config [Config (Address {| domain := DName (Sub (swallowed n1 v1 w) n2); config := v2 |}) None].
Proof.
  intros Hw. cbn [show_config show_line show_item]. unfold show_rule.
  cbn [domain config show_domain show_wildcard_name]. unfold wildcard_display, swallowed. cbn [pattern default].
  rewrite (bool_decide_false (pattern w = "")) by done. rewrite bool_decide_false by (by destruct (name_display n1)).
  by rewrite !string_app_assoc, ?string_app_cons, ?string_app_assoc.
Qed.

Lemma swallowed_ok n v w : all_chars not_dot (name_display n +:+ "/" +:+ show_value v) = true →
  no_set_prefix (name_display n) = true → pattern_ok w = true →
  wildcard_build (pattern (swallowed n v w)) = Some (swallowed n v w) → pattern_ok (swallowed n v w) = true.
Proof.
  intros Hd Hset Hw Hb. unfold pattern_ok in *. rewrite !andb_true_iff, !bool_decide_eq_true in *.
  destruct Hw as ((((_ & H2) & H3) & _) & _). unfold no_set_prefix in *. rewrite bool_decide_eq_true in *.
  unfold swallowed in *. cbn [pattern] in *. rewrite !all_chars_app, !andb_true_iff in *.
  destruct Hd as (Hd1 & _ & Hd2). split_and!; try done.
  - by destruct (name_display n).
  - rewrite !in_set_app, (in_set_cons lf), in_set_app, H3. by rewrite !orb_true_r.
  - by apply (tag_no_case_app _ _ "/").
Qed.

(** Two rules on two lines, the first for a name of one label with a value that
    has no dot, the second for a wildcard: the file is read back as one rule, for
    a wildcard whose pattern spans both lines. *)
Theorem wildcard_swallows_line (n1 n2 : Name) (v1 v2 : AddressRuleValue) (w : Wildcard)
    (Hn1 : all_chars not_dot (name_display n1 +:+ "/" +:+ show_value v1) = true)
    (Hset : no_set_prefix (name_display n1) = true)
    (Hw : domain_ok (DName (Sub w n2)) = true) (Hv2 : value_ok v2 = true)
    (Hbuild : wildcard_build (pattern (swallowed n1 v1 w)) = Some (swallowed n1 v1 w)) :
  parse_config_file (show_config
    [Config (Address {| domain := DName (Default n1); config := v1 |}) None;
     Config (Address {| domain := DName (Sub w n2); config := v2 |}) None])
  = Some ("", Some [Config (Address {| domain := DName (Sub (swallowed n1 v1 w) n2); config := v2 |}) None; Eof]).
Proof.
  cbn [domain_ok] in Hw. apply andb_true_iff in Hw as [Hw Hn2].
  rewrite swallowed_text by (unfold pattern_ok in Hw; rewrite !andb_true_iff, bool_decide_eq_true in Hw; apply Hw).
  apply (config_file_show [_]). cbn [forallb line_ok from_option]. unfold rule_ok. cbn [domain config domain_ok].
  by rewrite swallowed_ok, Hn2, Hv2.
Qed.
End files.

(** ** A concrete syntax of names *)

Module Example.
Import ListName DomainRule.Example.

Fixpoint split_dots (acc s : string) : list string :=
  match s with
  | EmptyString => [acc]
  | String c s' => if Ascii.eqb c "." then acc :: split_dots "" s' else split_dots (acc +:+ String c "") s'
  end.

(** Labels separated by dots, a last dot for a fully qualified name. *)
Definition from_str (s : string) : option name :=
  if bool_decide (s = ".") then Some ([], true)
  else
    let l := split_dots "" s in
    let '(l, fqdn) := if bool_decide (last l = Some "") then (removelast l, true) else (l, false) in
    if forallb (λ x, negb (bool_decide (x = ""))) l then Some (l, fqdn) else None.
Definition display (n : name) : string :=
  join "." (fst n) +:+ if snd n then "." else "".

#[export] Instance list_name_syntax : NameSyntax name := {
  name_from_str := from_str; name_display := display; name_root := ([], true);
  wildcard_build p := Some {| pattern := p |} }.
#[export] Instance text_settings : Settings := {
  Setting := string; setting_value _ := pmap Some (take1 (λ c, negb (eol c))); group_end := "group-end"; show_setting s := s }.

Definition rule_of (d : WildcardName name) (v : AddressRuleValue) : ConfigLine name :=
  Config (Address {| domain := DName d; config := v |}) None.

Definition lines : list (ConfigLine name) :=
  [ Comment "# static addresses";
    rule_of (Default (["www"; "example"; "com"], false))
      (Addr (Some [16909060; 134744072]%Z) (Some [1; 281470698652420; 42540766411282592856903984951653826561]%Z));
    EmptyLine;
    rule_of (Suffix (["example"; "com"], true)) SOAv6;
    Config (Address {| domain := DName (Sub {| pattern := "a*" |} (["example"], false)); config := DomainRule.SOA |}) (Some "  # all of a");
    Config (Address {| domain := DSet "ads"; config := IGN |}) None ].

(** A file with every kind of line. *)
Lemma config_file_roundtrip_witness : ∃ ls',
  show_config lines = join (String lf "")
    ["# static addresses"; "address /www.example.com/1.2.3.4,8.8.8.8,::1,::ffff:1.2.3.4,2001:db8::1"; "";
     "address /+.example.com./#6"; "address /a*.example/#  # all of a"; "address /domain-set:ads/-"; ""] ∧
  parse_config_file (show_config lines) = Some ("", Some ls') ∧ ls' = lines ++ [Eof] ∧ show_config ls' = show_config lines.
Proof.
  assert (Hok : forallb line_ok lines = true) by (vm_compute; reflexivity).
  destruct (config_file_roundtrip lines Hok) as [ls' H].
  exists ls'. split; [vm_compute; reflexivity|exact H].
Defined.

(** [address /lan/#] and [address /*.example.com/1.2.3.4] are read back as one
    rule. *)
Lemma wildcard_swallows_line_witness : ∃ w : Wildcard,
  pattern w = "lan/#" +:+ String lf "address /*" ∧
  parse_config_file (show_config
    [rule_of (Default (["lan"], false)) DomainRule.SOA;
     rule_of (Sub {| pattern := "*" |} (["example"; "com"], false)) (Addr (Some [16909060%Z]) None)])
  = Some ("", Some [rule_of (Sub w (["example"; "com"], false)) (Addr (Some [16909060%Z]) None); Eof]).
Proof.
  exists (swallowed (Name := name) (["lan"], false) DomainRule.SOA {| pattern := "*" |}). split; [vm_compute; reflexivity|].
  apply wildcard_swallows_line; vm_compute; reflexivity.
Defined.
End Example.
