(* ===== verification/AddressApi.v ===== *)
(** * The address-rule API

    The handlers of src/api/address.rs on the managed file address.conf: a rule is
    added or removed by reading the file, changing its lines and writing it back,
    and the server reloads its configuration.

    The file system and the reload are an interface.  Every operation that changes
    or reads something takes the state of the world and says whether it succeeded,
    so that any of them may fail at any time. *)

From S2P Require Import Prelude Dns DomainMap DomainRule Nom NomProps ConfigText ConfigProps CacheApi.
From Stdlib Require Import Ascii.

(** The managed directory and address.conf in it. *)
Class Disk (W : Type) := {
  dir_exists : W → bool;
  create_dir_all : W → W * bool;
  file_exists : W → bool;
  read_to_string : W → W * option string;
  write_text : string → W → W * bool;
  reload : W → W * bool;
}.

(** The text of an internal error is the library's; here it names the operation
    that failed. *)
Inductive ApiError := Internal (e : string) | NotFound (e : string).
(** An answer, an error, or a panic of the handler. *)
Inductive outcome := Status (code : Z) | Refused (e : ApiError) | Panic.

#[export] Instance Domain_eq_dec {Name} `{EqDecision Name} : EqDecision (Domain Name).
Proof. solve_decision. Defined.

Section api.
Context {Name : Type} `{!NameOps Name, !NameSyntax Name, ST : Settings} {W : Type} `{!Disk W}.
Abbreviation line := (ConfigLine Name).

(** [list] *)
Definition list_addresses `{RuleData} (rule_groups : gmap string (RuleGroup Name)) : DataListPayload (AddressRule Name) :=
  payload_of (from_option address_rules [] (rule_groups !! "default")).

Definition line_rule (l : line) : option (AddressRule Name) :=
  match l with Config (Address rule) _ => Some rule | _ => None end.

(** The filter of [retain]. *)
Definition retained (l : line) : bool :=
  match l with Config (Address _) _ | Comment _ | EmptyLine => true | _ => false end.

(** The rules of a file with the indices of their lines. *)
Definition indexed_rules (config : list line) : list (nat * AddressRule Name) :=
  omap (λ x, pair (fst x) <$> line_rule (snd x)) (imap pair config).

(** [state.app.reload().await?; Ok(status)] *)
Definition finish (status : Z) (w : W) : W * outcome :=
  let '(w, ok) := reload w in (w, if ok then Status status else Refused (Internal "reload")).

(** [std::fs::write(&file, text)?], then the reload. *)
Definition write_and_finish (status : Z) (text : string) (w : W) : W * outcome :=
  let '(w, ok) := write_text text w in
  if ok then finish status w else (w, Refused (Internal "write")).

(** Reading and parsing the file. *)
Definition with_config (w : W) (k : list line → W → W * outcome) : W * outcome :=
  let '(w, text) := read_to_string w in
  match text with
  | None => (w, Refused (Internal "read"))
  | Some text =>
      match parse_config_file text with
      | None => (w, Refused (Internal "parse"))
      | Some (_, None) => (w, Panic)
      | Some (_, Some config) => k config w
      end
  end.

Definition create_in_file (rule : AddressRule Name) (w : W) : W * outcome :=
  with_config w (λ config w,
    let rules := indexed_rules config in
    let idx := fst <$> List.find (λ r, bool_decide (domain (snd r) = domain rule)) rules in
    match idx with
    | Some _ => (w, Refused (Internal "address already exists"))
    | None =>
        let config := config ++ [Config (Address rule) None] in
        write_and_finish 201 (show_config (List.filter retained config)) w
    end).

(** [create]; [managed_dir] tells whether the configuration has a managed
    directory. *)
Definition create (managed_dir : bool) (rule : AddressRule Name) (w : W) : W * outcome :=
  if negb managed_dir then (w, Refused (NotFound "managed_dir not found"))
  else
    let '(w, ok) := if dir_exists w then (w, true) else create_dir_all w in
    if negb ok then (w, Refused (Internal "create_dir_all"))
    else if file_exists w then create_in_file rule w
    else write_and_finish 201 (show_item (Address rule)) w.

(** The indices of the lines with a rule for [d]. *)
Definition domain_idx (d : Domain Name) (config : list line) : list nat :=
  omap (λ x, match line_rule (snd x) with
             | Some rule => if bool_decide (domain rule = d) then Some (fst x) else None
             | None => None
             end) (imap pair config).

Definition not_found (d : Domain Name) : ApiError := NotFound ("Domain " +:+ show_domain d +:+ " not found").

(** [delete] *)
Definition delete_address (managed_dir : bool) (d : Domain Name) (w : W) : W * outcome :=
  if negb managed_dir then (w, Refused (NotFound "managed_dir not found"))
  else if negb (dir_exists w) then (w, Refused (not_found d))
  else if negb (file_exists w) then (w, Refused (not_found d))
  else
    with_config w (λ config w,
      let idx := domain_idx d config in
      match idx with
      | [] => (w, Refused (not_found d))
      | _ =>
          let config := fold_left (λ config i, delete i config) (rev idx) config in
          write_and_finish 204 (show_config (List.filter retained config)) w
      end).

(** [update] does nothing and answers 200. *)
Definition update (w : W) : W * outcome := (w, Status 200).
End api.

(** ** Lines by index *)

Section index.
Context {A : Type} (P : A → bool).

Definition positions (l : list A) : list nat :=
  omap (λ x, if P (snd x) then Some (fst x) else None) (imap pair l).

Lemma imap_pair_S (l : list A) : imap (λ i x, (S i, x)) l = map (λ x, (S (fst x), snd x)) (imap pair l).
Proof.
  assert (H : ∀ (f : nat → nat) (l : list A), imap (λ i x, (S (f i), x)) l = map (λ x, (S (fst x), snd x)) (imap (λ i x, (f i, x)) l)).
  { clear l. intros f l. revert f. induction l as [|x l IH]; intros f; [done|]. cbn. f_equal. apply (IH (λ i, f (S i))). }
  exact (H id l).
Qed.

Lemma imap_snd (l : list A) : map snd (imap pair l) = l.
Proof.
  induction l as [|x l IH]; [done|]. rewrite imap_cons. change (imap (pair ∘ S) l) with (imap (λ i x, (S i, x)) l).
  rewrite imap_pair_S. cbn [map]. rewrite map_map. cbn. f_equal. exact IH.
Qed.

Lemma positions_cons x l : positions (x :: l) = (if P x then [0%nat] else []) ++ map S (positions l).
Proof.
  unfold positions. rewrite imap_cons. change (imap (pair ∘ S) l) with (imap (λ i x, (S i, x)) l). rewrite imap_pair_S.
  assert (H : ∀ l : list (nat * A), omap (λ x, if P (snd x) then Some (fst x) else None) (map (λ x, (S (fst x), snd x)) l)
    = map S (omap (λ x, if P (snd x) then Some (fst x) else None) l)).
  { clear. induction l as [|y l IH]; [done|]. cbn. destruct (P (snd y)); cbn; by rewrite IH. }
  cbn [omap]. unfold omap in H. cbn. destruct (P x); cbn; by rewrite <-H.
Qed.

(** Removing them from the last to the first keeps the other lines. *)
Lemma remove_positions l : fold_left (λ l i, delete i l) (rev (positions l)) l = List.filter (λ x, negb (P x)) l.
Proof.
  induction l as [|x l IH]; [done|]. rewrite positions_cons, rev_app_distr, fold_left_app, <-map_rev.
  assert (H : ∀ idx l, fold_left (λ l i, delete i l) (map S idx) (x :: l) = x :: fold_left (λ l i, delete i l) idx l).
  { clear. induction idx as [|i idx IH]; intros l; [done|]. cbn. by rewrite IH. }
  rewrite H, IH. cbn. by destruct (P x).
Qed.

Lemma positions_nil l : positions l = [] ↔ existsb P l = false.
Proof.
  induction l as [|x l IH]; [done|]. rewrite positions_cons. cbn. destruct (P x); [done|]. cbn.
  rewrite <-IH. by destruct (positions l).
Qed.
End index.

(** ** What the disk promises *)

(** Directories and files as the standard library documents them, with [contents]
    for the text of address.conf: what an operation did if it says that it
    succeeded, and that only writing changes the file.  A failed write may leave
    anything behind.  The reload reads the configuration again. *)
Class DiskLaws (W : Type) `{!Disk W} := {
  contents : W → option string;
  exists_spec w : file_exists w = bool_decide (is_Some (contents w));
  file_in_dir w : is_Some (contents w) → dir_exists w = true;
  create_dir_spec w : contents (fst (create_dir_all w)) = contents w;
  read_keeps w : contents (fst (read_to_string w)) = contents w;
  read_spec w t : snd (read_to_string w) = Some t → contents w = Some t;
  write_spec t w : snd (write_text t w) = true → contents (fst (write_text t w)) = Some t;
  reload_keeps w : contents (fst (reload w)) = contents w;
}.

(** No operation fails. *)
Definition reliable {W} `{!Disk W} : Prop :=
  (∀ w, snd (create_dir_all w) = true) ∧ (∀ w, file_exists w = true → is_Some (snd (read_to_string w))) ∧
  (∀ t w, snd (write_text t w) = true) ∧ (∀ w, snd (reload w) = true).

Section refinement.
Context {Name : Type} `{!NameOps Name, !NameSyntax Name, ST : Settings} {W : Type} `{!Disk W, !DiskLaws W}.
Abbreviation line := (ConfigLine Name).

(** *** The abstract file *)

(** A file is its rules, comments and blank lines, in order. *)
Definition text_lines (c : option string) : list line :=
  match c ≫= parse_config_file with Some (_, Some ls) => List.filter retained ls | _ => [] end.
Definition file_lines (w : W) : list line := text_lines (contents w).

(** A file that holds nothing but lines the server can print. *)
Definition printable (l : line) : bool := line_ok l || match l with Eof => true | _ => false end.
Definition managed_text (c : option string) : bool :=
  match c with
  | Some t => match parse_config_file t with Some (EmptyString, Some ls) => forallb printable ls | _ => false end
  | None => true
  end.
Definition managed (w : W) : bool := managed_text (contents w).

Definition rule_for (d : Domain Name) (l : line) : bool :=
  match line_rule l with Some r => bool_decide (domain r = d) | None => false end.

Inductive request := CreateRule (r : AddressRule Name) | DeleteRule (d : Domain Name).

Definition request_ok (q : request) : bool := match q with CreateRule r => rule_ok r | DeleteRule _ => true end.

(** A rule is added once, at the end; a domain is removed with all its rules, and
    everything else stays where it is. *)
Definition spec_step (q : request) (ls : list line) : list line * outcome :=
  match q with
  | CreateRule r =>
      if existsb (rule_for (domain r)) ls then (ls, Refused (Internal "address already exists"))
      else (ls ++ [Config (Address r) None], Status 201)
  | DeleteRule d =>
      if existsb (rule_for d) ls then (List.filter (λ l, negb (rule_for d l)) ls, Status 204)
      else (ls, Refused (not_found d))
  end.

Definition handle (q : request) (w : W) : W * outcome :=
  match q with CreateRule r => create true r w | DeleteRule d => delete_address true d w end.

(** Requests one after the other. *)
Fixpoint serve {S : Type} (step : request → S → S * outcome) (qs : list request) (s : S) : S * list outcome :=
  match qs with
  | [] => (s, [])
  | q :: qs => let '(s, o) := step q s in let '(s, os) := serve step qs s in (s, o :: os)
  end.

(** The answers after an operation that failed. *)
Definition read_fault (o : outcome) : bool :=
  match o with Refused (Internal e) => bool_decide (e = "create_dir_all" ∨ e = "read") | _ => false end.
Definition write_fault (o : outcome) : bool := match o with Refused (Internal e) => bool_decide (e = "write") | _ => false end.
Definition reload_fault (o : outcome) : bool := match o with Refused (Internal e) => bool_decide (e = "reload") | _ => false end.
Definition io_fault (o : outcome) : bool := read_fault o || write_fault o || reload_fault o.

(** The answer [o] to a request and the list it leaves, where operations may fail:
    nothing is changed if the file could not be read; everything is done if the
    configuration could not be reloaded. *)
Definition spec_answer (q : request) (o : outcome) (ls ls' : list line) : Prop :=
  if read_fault o then ls' = ls
  else if reload_fault o then ls' = fst (spec_step q ls) ∧ ∃ status, snd (spec_step q ls) = Status status
  else (ls', o) = spec_step q ls.

Fixpoint spec_run (qs : list request) (os : list outcome) (ls ls' : list line) : Prop :=
  match qs, os with
  | [], [] => ls' = ls
  | q :: qs, o :: os => ∃ ls1, spec_answer q o ls ls1 ∧ spec_run qs os ls1 ls'
  | _, _ => False
  end.

(** *** Lemmas *)

Lemma printable_retained ls : forallb printable ls = true → forallb line_ok (List.filter retained ls) = true.
Proof.
  induction ls as [|l ls IH]; [done|]. cbn [forallb List.filter]. intros [Hl Hls]%andb_true_iff.
  unfold printable in Hl. destruct (retained l) eqn:E; [|auto]. cbn [forallb]. rewrite IH by done.
  destruct l; try done; by rewrite orb_false_r in Hl; rewrite Hl.
Qed.

Lemma ok_retained ls : forallb line_ok ls = true → List.filter retained ls = ls.
Proof.
  induction ls as [|l ls IH]; [done|]. cbn [forallb List.filter]. intros [Hl Hls]%andb_true_iff. rewrite IH by done.
  by destruct l as [[]| | |].
Qed.

(** Where a request leaves the world, for the abstract list [ls] before it. *)
Definition step_ok (q : request) (ls : list line) (r : W * outcome) : Prop :=
  (write_fault (snd r) = false → managed (fst r) = true ∧ spec_answer q (snd r) ls (file_lines (fst r))) ∧
  (reliable (W := W) → io_fault (snd r) = false).

Lemma step_same q ls w o : managed w = true → file_lines w = ls → spec_step q ls = (ls, o) → io_fault o = false → step_ok q ls (w, o).
Proof.
  intros Hm Hl Hs Ho. split; cbn [fst snd]; [|done]. intros _. split; [done|]. unfold io_fault in Ho. unfold spec_answer.
  destruct (read_fault o), (reload_fault o); rewrite ?orb_true_r in Ho; try done. by rewrite Hl, Hs.
Qed.

Lemma read_fault_ok q ls w e : managed w = true → file_lines w = ls → e = "create_dir_all" ∨ e = "read" → ¬ reliable (W := W) →
  step_ok q ls (w, Refused (Internal e)).
Proof.
  intros Hm Hl He Hr. split; cbn [fst snd]; [|done]. intros _. split; [done|]. unfold spec_answer, read_fault.
  by rewrite bool_decide_true.
Qed.

(** Writing a text that parses leaves the file it describes, whatever the reload
    answers. *)
Lemma write_text_ok q ls status t ls' w : spec_step q ls = (List.filter retained ls', Status status) →
  parse_config_file t = Some ("", Some ls') → forallb printable ls' = true → step_ok q ls (write_and_finish status t w).
Proof.
  intros Hs Hp Hok. unfold write_and_finish, finish. pose proof (write_spec t w) as Hw.
  destruct (write_text t w) as [w1 ok] eqn:Ew. cbn [fst snd] in Hw. destruct ok.
  - pose proof (reload_keeps w1) as Hc. rewrite (Hw eq_refl) in Hc. destruct (reload w1) as [w2 ok] eqn:Er. cbn [fst] in Hc.
    assert (Hm : managed w2 = true) by (unfold managed, managed_text; by rewrite Hc, Hp).
    assert (Hl : file_lines w2 = List.filter retained ls') by (unfold file_lines, text_lines; rewrite Hc; cbn; by rewrite Hp).
    split; cbn [fst snd].
    + intros _. split; [done|]. unfold spec_answer. destruct ok; cbn; rewrite Hs, Hl; [done|]. split; [done|by exists status].
    + intros (_ & _ & _ & Hr). specialize (Hr w1). rewrite Er in Hr. cbn in Hr. by rewrite Hr.
  - split; cbn [fst snd]; [done|]. intros (_ & _ & Hr & _). specialize (Hr t w). by rewrite Ew in Hr.
Qed.

Lemma write_lines_ok q ls status ls' w : spec_step q ls = (ls', Status status) → forallb line_ok ls' = true →
  step_ok q ls (write_and_finish status (show_config ls') w).
Proof.
  intros Hs Hok. apply (write_text_ok q ls status _ (ls' ++ [Eof])).
  - rewrite List.filter_app, ok_retained by done. by rewrite app_nil_r.
  - by apply config_file_show.
  - rewrite forallb_app. cbn. rewrite andb_true_r. apply forallb_forall. intros l Hl.
    rewrite forallb_forall in Hok. unfold printable. by rewrite (Hok l Hl).
Qed.

Lemma same_text w w' : contents w' = contents w → managed w' = managed w ∧ file_lines w' = file_lines w.
Proof. unfold managed, file_lines. by intros ->. Qed.

(** A managed file is read as its lines, if it is read. *)
Lemma read_managed q w k : managed w = true → file_exists w = true →
  (∀ ls w', forallb printable ls = true → file_lines w = List.filter retained ls →
     managed w' = true → file_lines w' = file_lines w → step_ok q (file_lines w) (k ls w')) →
  step_ok q (file_lines w) (with_config w k).
Proof.
  intros Hm He Hk. unfold with_config. pose proof (same_text _ _ (read_keeps w)) as [H1 H2].
  pose proof (read_spec w) as Hread. destruct (read_to_string w) as [w1 [t|]] eqn:Er; cbn [fst snd] in *.
  - specialize (Hread t eq_refl). pose proof Hm as Hm'. unfold managed, managed_text in Hm'. rewrite Hread in Hm'.
    destruct (parse_config_file t) as [[[|] [ls|]]|] eqn:Ep; try done. apply Hk; [done| |congruence|done].
    unfold file_lines, text_lines. rewrite Hread. cbn. by rewrite Ep.
  - apply read_fault_ok; [congruence|done|auto|]. intros (_ & Hr & _). specialize (Hr w He). rewrite Er in Hr. by destruct Hr.
Qed.

Lemma existsb_retained d ls : existsb (rule_for d) (List.filter retained ls) = existsb (rule_for d) ls.
Proof.
  induction ls as [|l ls IH]; [done|]. cbn [List.filter existsb].
  destruct (retained l) eqn:E; cbn [existsb]; rewrite IH; [done|]. by destruct l as [[]| | |].
Qed.

Lemma filter_comm {A} (P Q : A → bool) l : List.filter P (List.filter Q l) = List.filter Q (List.filter P l).
Proof.
  induction l as [|x l IH]; [done|]. cbn. destruct (Q x) eqn:E1, (P x) eqn:E2; cbn; rewrite ?E1, ?E2, ?IH; done.
Qed.

Lemma forallb_filter {A} (P Q : A → bool) l : forallb P l = true → forallb P (List.filter Q l) = true.
Proof. rewrite !forallb_forall. intros H x [Hx _]%filter_In. by apply H. Qed.

(** The rules that [create] looks through and the lines that [delete] removes. *)
Lemma find_indexed (d : Domain Name) (ls : list line) :
  match List.find (λ r, bool_decide (domain (snd r) = d)) (indexed_rules ls) with Some _ => true | None => false end
  = existsb (rule_for d) ls.
Proof.
  rewrite <-(imap_snd ls) at 2. unfold indexed_rules. induction (imap pair ls) as [|[i l] ps IH]; [done|].
  cbn. unfold rule_for at 1. destruct (line_rule l) as [r|]; [|exact IH]. cbn. case_bool_decide; [done|exact IH].
Qed.

Lemma domain_idx_positions d ls : domain_idx d ls = positions (rule_for d) ls.
Proof.
  unfold domain_idx, positions, rule_for. apply list_omap_ext, Forall_Forall2_diag, Forall_true.
  intros [i l]. cbn. destruct (line_rule l); [|done]. by case_bool_decide.
Qed.

Lemma create_refines r w : managed w = true → rule_ok r = true → step_ok (CreateRule r) (file_lines w) (create true r w).
Proof.
  intros Hm Hr. unfold create. cbn [negb]. destruct (file_exists w) eqn:Ef.
  - assert (Hc : is_Some (contents w)) by (rewrite exists_spec in Ef; by apply bool_decide_eq_true in Ef).
    rewrite (file_in_dir w Hc). cbn [negb]. rewrite Ef. apply read_managed; [done|done|]. intros ls w' Hp Hl Hm' Hl'.
    pose proof (existsb_retained (domain r) ls) as Hx. rewrite <-Hl in Hx.
    pose proof (find_indexed (domain r) ls) as Hi. rewrite <-Hx in Hi. unfold create_in_file.
    destruct (List.find (λ x, bool_decide (domain (snd x) = domain r)) (indexed_rules ls)) as [x|]; cbn [fmap option_fmap option_map].
    + apply step_same; [done|done|cbn; by rewrite <-Hi|done].
    + rewrite List.filter_app. cbn [List.filter retained]. apply write_lines_ok; [cbn; by rewrite <-Hi, Hl|].
      rewrite forallb_app, printable_retained by done. cbn. by rewrite Hr.
  - assert (Hc : contents w = None).
    { rewrite exists_spec in Ef. apply bool_decide_eq_false in Ef. by apply eq_None_not_Some. }
    assert (Hl : file_lines w = []) by (unfold file_lines; by rewrite Hc).
    assert (Hw : ∀ w1, step_ok (CreateRule r) (file_lines w) (write_and_finish 201 (show_item (Address r)) w1)).
    { intros w1. pose proof (address_line_show r None "" Hr eq_refl eq_refl) as Ha.
      pose proof (config_file_tail [] _ "" _ eq_refl Ha eq_refl) as Hp.
      cbn [show_config show_line] in Hp. rewrite string_app_nil, !string_app_nil_r in Hp.
      eapply write_text_ok; [rewrite Hl|exact Hp|]; cbn; [done|]. unfold printable. cbn. by rewrite Hr. }
    destruct (dir_exists w) eqn:Hd; cbn [negb]; [rewrite Ef; apply Hw|].
    pose proof (create_dir_spec w) as Hcd. destruct (create_dir_all w) as [w1 ok] eqn:Ecd. cbn [fst snd] in Hcd.
    destruct ok; cbn [negb]; [rewrite exists_spec, Hcd, Hc; apply Hw|].
    destruct (same_text w w1 Hcd) as [H1 H2]. apply read_fault_ok; [congruence|done|auto|].
    intros (Hrel & _). specialize (Hrel w). by rewrite Ecd in Hrel.
Qed.

Lemma delete_refines d w : managed w = true → step_ok (DeleteRule d) (file_lines w) (delete_address true d w).
Proof.
  intros Hm. unfold delete_address. cbn [negb]. destruct (file_exists w) eqn:Ef.
  - assert (Hc : is_Some (contents w)) by (rewrite exists_spec in Ef; by apply bool_decide_eq_true in Ef).
    rewrite (file_in_dir w Hc). cbn [negb]. apply read_managed; [done|done|]. intros ls w' Hp Hl Hm' Hl'.
    pose proof (existsb_retained d ls) as Hx. rewrite <-Hl in Hx. rewrite domain_idx_positions.
    pose proof (positions_nil (rule_for d) ls) as Hnil. destruct (existsb (rule_for d) ls) eqn:E.
    + destruct (positions (rule_for d) ls) as [|i idx] eqn:Ei; [discriminate (proj1 Hnil eq_refl)|].
      rewrite <-Ei, remove_positions, filter_comm, <-Hl. apply write_lines_ok; [cbn; by rewrite Hx|].
      rewrite Hl. by apply forallb_filter, printable_retained.
    + rewrite (proj2 Hnil eq_refl). apply step_same; [done|done|cbn; by rewrite Hx|done].
  - assert (Hl : file_lines w = []).
    { rewrite exists_spec in Ef. apply bool_decide_eq_false, eq_None_not_Some in Ef. unfold file_lines. by rewrite Ef. }
    assert (Hn : step_ok (DeleteRule d) (file_lines w) (w, Refused (not_found d))).
    { apply step_same; [done|done|cbn; by rewrite Hl|done]. }
    by destruct (dir_exists w).
Qed.

Lemma handle_refines q w : managed w = true → request_ok q = true → step_ok q (file_lines w) (handle q w).
Proof. destruct q; [apply create_refines|intros H _; by apply delete_refines]. Qed.

Lemma spec_run_exact qs os ls ls' : existsb io_fault os = false → spec_run qs os ls ls' → (ls', os) = serve spec_step qs ls.
Proof.
  revert os ls. induction qs as [|q qs IH]; intros [|o os] ls Ho Hs; cbn in *; [by rewrite Hs|done|done|].
  apply orb_false_iff in Ho as [Ho Hos]. destruct Hs as (ls1 & Ha & Hs). unfold spec_answer in Ha. unfold io_fault in Ho.
  destruct (read_fault o), (reload_fault o); rewrite ?orb_true_r in Ho; try done. rewrite <-Ha. by rewrite <-(IH os ls1 Hos Hs).
Qed.

(** C7. Any sequence of requests on a managed file, or on a directory without one,
    while any operation of the file system and any reload may fail.  A managed file
    has nothing but lines the server can print and read back, and the rules created
    are such rules too; names of one label are not, because their printed form
    swallows the next line.  As long as no write has failed, the text on the disk
    reads back as the abstract list of rules with all comments in place, the file
    stays managed, and every answer is the one of the abstract list, or the error of
    a read, after which the list is as before, or of a reload, after which the
    request has been done all the same.  Without a failure among the answers they
    are those of the abstract list, and there is none where no operation fails. *)
Theorem address_api_refines (qs : list request) (w : W)
    (Hm : managed w = true) (Hq : forallb request_ok qs = true) :
  let '(w', os) := serve handle qs w in
  (existsb write_fault os = false → managed w' = true ∧ spec_run qs os (file_lines w) (file_lines w')) ∧
  (existsb io_fault os = false → (file_lines w', os) = serve spec_step qs (file_lines w)) ∧
  (reliable (W := W) → existsb io_fault os = false).
Proof.
  assert (Hrun : let '(w', os) := serve handle qs w in
    (existsb write_fault os = false → managed w' = true ∧ spec_run qs os (file_lines w) (file_lines w')) ∧
    (reliable (W := W) → existsb io_fault os = false)).
  { revert w Hm. induction qs as [|q qs IH]; intros w Hm; [done|]. cbn [forallb] in Hq. apply andb_true_iff in Hq as [Hq Hqs].
    cbn [serve]. destruct (handle_refines q w Hm Hq) as [Hs Hr]. destruct (handle q w) as [w1 o]. cbn [fst snd] in *.
    destruct (serve handle qs w1) as [w2 os] eqn:Ew. split; cbn [existsb].
    - intros [Ho Hos]%orb_false_iff. destruct (Hs Ho) as [Hm1 Ha]. specialize (IH Hqs w1 Hm1). rewrite Ew in IH.
      destruct IH as [[Hm2 IH] _]; [done|]. split; [done|]. cbn. by eexists.
    - intros Hrel. rewrite (Hr Hrel). assert (Hw : write_fault o = false).
      { specialize (Hr Hrel). unfold io_fault in Hr. by destruct (read_fault o), (write_fault o). }
      destruct (Hs Hw) as [Hm1 _]. specialize (IH Hqs w1 Hm1). rewrite Ew in IH. by apply IH. }
  destruct (serve handle qs w) as [w' os]. destruct Hrun as [H1 H2]. split_and!; [done| |done]. intros Hio.
  apply spec_run_exact; [done|]. apply H1. clear -Hio. induction os as [|o os IH]; [done|]. cbn in *.
  apply orb_false_iff in Hio as [Ho Hos]. rewrite IH, orb_false_r by done. unfold io_fault in Ho.
  by destruct (read_fault o), (write_fault o).
Qed.

(** What [create] does with a file that holds, after well-formed lines, a text
    that is no configuration line, unless an operation fails: the rule is stored and
    answered 201, and that text, with every rule after it, is gone. *)
Theorem unparsed_tail_lost (ls : list line) (t : string) (r : AddressRule Name) (w : W)
    (Hw : contents w = Some (show_config ls +:+ t))
    (Hls : forallb line_ok ls = true) (Ht : parse_line (Name := Name) t = Some (t, Some EmptyLine))
    (Heol : line_ending t = None) (Hr : rule_ok r = true) (Hnew : existsb (rule_for (domain r)) ls = false) :
  io_fault (snd (create true r w)) = false →
  snd (create true r w) = Status 201 ∧
  contents (fst (create true r w)) = Some (show_config (ls ++ [EmptyLine; Config (Address r) None])).
Proof.
  assert (Hf : file_exists w = true) by (rewrite exists_spec, Hw; done).
  unfold create. cbn [negb]. rewrite (file_in_dir w) by (rewrite Hw; done). cbn [negb]. rewrite Hf. unfold create_in_file, with_config.
  pose proof (read_spec w) as Hread. destruct (read_to_string w) as [w0 [u|]]; cbn [fst snd] in *; [|done].
  specialize (Hread u eq_refl). assert (u = show_config ls +:+ t) as -> by congruence. rewrite (config_file_tail ls t t EmptyLine) by done.
  pose proof (find_indexed (domain r) (ls ++ [EmptyLine])) as E. rewrite existsb_app, Hnew in E. cbn in E.
  destruct (List.find (λ x, bool_decide (domain (snd x) = domain r)) (indexed_rules (ls ++ [EmptyLine]))); [done|].
  cbn [fmap option_fmap option_map]. rewrite <-app_assoc, List.filter_app, ok_retained by done. cbn [List.filter retained app].
  unfold write_and_finish, finish. pose proof (write_spec (show_config (ls ++ [EmptyLine; Config (Address r) None])) w0) as H1.
  destruct (write_text _ w0) as [w1 ok]. cbn [fst snd] in *. destruct ok; cbn [fst snd]; [|done].
  pose proof (reload_keeps w1) as H4. destruct (reload w1) as [w2 ok]. cbn [fst snd] in *. destruct ok; [|done].
  intros _. split; [done|]. rewrite H4. by apply H1.
Qed.
End refinement.

(** ** A concrete disk *)

Module Example.
Import ListName DomainRule.Example ConfigProps.Example.

(** No directory, a directory without the file, or the text of the file; and which
    of the next operations fail. *)
Definition disk : Type := option (option string) * list bool.
Definition attempt {A} (w : disk) (ok fault : option (option string) * A) : disk * A :=
  let '(d, a) := match snd w with true :: _ => fault | _ => ok end in ((d, tail (snd w)), a).

#[export] Instance disk_ops : Disk disk := {
  dir_exists w := bool_decide (is_Some (fst w));
  create_dir_all w := attempt w (Some (default None (fst w)), true) (fst w, false);
  file_exists w := match fst w with Some (Some _) => true | _ => false end;
  read_to_string w := attempt w (fst w, default None (fst w)) (fst w, None);
  write_text t w := attempt w match fst w with Some _ => (Some (Some t), true) | None => (None, false) end (Some (Some ""), false);
  reload w := attempt w (fst w, true) (fst w, false);
}.
#[export] Instance disk_laws : DiskLaws disk.
Proof.
  refine {| contents := λ w : disk, default None (fst w) |}.
  - by intros [[[]|] ?].
  - intros [[[]|] ?]; [done|by intros [? [=]]|by intros [? [=]]].
  - by intros [[[]|] [|[] ?]].
  - by intros [[[]|] [|[] ?]].
  - by intros [[[]|] [|[] ?]] t.
  - by intros t [[[]|] [|[] ?]].
  - by intros [[[]|] [|[] ?]].
Defined.

Definition www : AddressRule name :=
  {| domain := DName (Default (["www"; "example"; "com"], false)); config := Addr (Some [16909060%Z]) None |}.
Definition ads : AddressRule name := {| domain := DSet "ads"; config := DomainRule.SOA |}.

(** A rule is created, although the reload after it fails, and created again;
    reading fails for another one, which is created then; the first is deleted
    twice. *)
Lemma address_api_refines_witness :
  let qs := [CreateRule www; CreateRule www; CreateRule ads; CreateRule ads; DeleteRule (domain www); DeleteRule (domain www)] in
  let w : disk := (None, [false; false; true; false; true]) in
  let '(w', os) := serve handle qs w in
  os = [Refused (Internal "reload"); Refused (Internal "address already exists"); Refused (Internal "read"); Status 201;
        Status 204; Refused (NotFound "Domain www.example.com not found")] ∧
  fst w' = Some (Some ("address /domain-set:ads/#" +:+ String lf "")) ∧
  managed w' = true ∧ spec_run qs os (file_lines w) (file_lines w').
Proof.
  intros qs w. assert (Hq : forallb request_ok qs = true) by (vm_compute; reflexivity).
  pose proof (address_api_refines qs w eq_refl Hq) as H. revert H.
  destruct (serve handle qs w) as [w' os] eqn:E. vm_compute in E. injection E as <- <-. intros (H & _).
  split; [reflexivity|]. split; [vm_compute; reflexivity|]. by apply H.
Defined.

(** The rule after a line with a misspelt keyword is gone. *)
Lemma unparsed_tail_lost_witness :
  let t := "adress /a.example.com/#" +:+ String lf ("address /b.example.com/#" +:+ String lf "") in
  let w : disk := (Some (Some t), []) in
  snd (create true ads w) = Status 201 ∧
  contents (fst (create true ads w)) = Some (String lf ("address /domain-set:ads/#" +:+ String lf "")).
Proof.
  intros t w. exact (unparsed_tail_lost [] t ads w eq_refl eq_refl eq_refl eq_refl eq_refl eq_refl eq_refl).
Defined.
End Example.
