(* ===== verification/Text.v ===== *)
(** * Texts as the standard library cuts them

    The functions of [str], [BufRead::lines], [i64::from_str] and
    [IpAddr::from_str] of Rust's standard library that the readers of lease files,
    ARP tables and names use.  A text is a sequence of bytes in UTF-8. *)

From S2P Require Import Prelude Dns DomainMap DomainRule Nom NomProps ConfigText.
From Stdlib Require Import Ascii.

(** ** White space and fields *)

(** White space of Unicode at the head of a text: the rest of the text. *)
Definition white (s : string) : option string :=
  let byte := nat_of_ascii in
  match s with
  | EmptyString => None
  | String a s1 =>
      if (9 <=? byte a) && (byte a <=? 13) || (byte a =? 32) then Some s1
      else
        match s1 with
        | EmptyString => None
        | String b s2 =>
            if (byte a =? 194) && ((byte b =? 133) || (byte b =? 160)) then Some s2
            else
              match s2 with
              | EmptyString => None
              | String c s3 =>
                  if (byte a =? 225) && (byte b =? 154) && (byte c =? 128)
                     || (byte a =? 226) && (byte b =? 128) &&
                        ((128 <=? byte c) && (byte c <=? 138) || (byte c =? 168) || (byte c =? 169) || (byte c =? 175))
                     || (byte a =? 226) && (byte b =? 129) && (byte c =? 159)
                     || (byte a =? 227) && (byte b =? 128) && (byte c =? 128)
                  then Some s3 else None
              end
        end
  end.

(** [str::trim_start]; every turn removes a byte at least. *)
Fixpoint trim_start_loop (fuel : nat) (s : string) : string :=
  match fuel with
  | O => s
  | S fuel => match white s with Some r => trim_start_loop fuel r | None => s end
  end.
Definition trim_start (s : string) : string := trim_start_loop (String.length s) s.
Definition trim (s : string) : string := trim_end (trim_start s).

Definition non_empty (s : string) : bool := negb (bool_decide (s = "")).

(** [str::split_whitespace]; [cur] is the field read so far. *)
Fixpoint fields_loop (fuel : nat) (cur s : string) : list string :=
  match fuel with
  | O => List.filter non_empty [cur]
  | S fuel =>
      match s with
      | EmptyString => List.filter non_empty [cur]
      | String c s' =>
          match white s with
          | Some r => List.filter non_empty [cur] ++ fields_loop fuel "" r
          | None => fields_loop fuel (cur +:+ String c "") s'
          end
      end
  end.
Definition split_whitespace (s : string) : list string := fields_loop (String.length s) "" s.

(** [str::split] at a character, empty parts included. *)
Fixpoint split_at (sep : ascii) (cur s : string) : list string :=
  match s with
  | EmptyString => [cur]
  | String c s' => if Ascii.eqb c sep then cur :: split_at sep "" s' else split_at sep (cur +:+ String c "") s'
  end.
Definition split (sep : ascii) (s : string) : list string := split_at sep "" s.
(** [split(' ').filter(|p| !p.is_empty())] *)
Definition split_spaces (s : string) : list string := List.filter non_empty (split " " s).

Definition starts_with (c : ascii) (s : string) : bool :=
  match s with String x _ => Ascii.eqb x c | EmptyString => false end.

(** [str::strip_suffix] *)
Fixpoint strip_suffix (suffix s : string) : option string :=
  if bool_decide (s = suffix) then Some ""
  else match s with EmptyString => None | String c s' => String c <$> strip_suffix suffix s' end.

Fixpoint to_ascii_lowercase (s : string) : string :=
  match s with EmptyString => "" | String c s' => String (to_lower c) (to_ascii_lowercase s') end.

(** [trim_end_matches] of a character *)
Fixpoint drop_while {A} (p : A → bool) (l : list A) : list A :=
  match l with x :: l' => if p x then drop_while p l' else l | [] => [] end.
Definition trim_end_matches (c : ascii) (s : string) : string :=
  String.string_of_list_ascii
    (rev (drop_while (Ascii.eqb c) (rev (String.list_ascii_of_string s)))).
(** [trim_matches] of a set of characters *)
Definition trim_matches (p : ascii → bool) (s : string) : string :=
  String.string_of_list_ascii
    (rev (drop_while p (rev (drop_while p (String.list_ascii_of_string s))))).

(** ** Lines *)

Definition continuation (b : nat) : bool := (128 <=? b) && (b <=? 191).
(** Whether a sequence of bytes is text: the well-formed sequences of UTF-8. *)
Fixpoint utf8_valid (s : string) : bool :=
  match s with
  | EmptyString => true
  | String a s1 =>
      let a := nat_of_ascii a in
      if a <=? 127 then utf8_valid s1
      else
        match s1 with
        | EmptyString => false
        | String b s2 =>
            let b := nat_of_ascii b in
            if (194 <=? a) && (a <=? 223) then continuation b && utf8_valid s2
            else
              match s2 with
              | EmptyString => false
              | String c s3 =>
                  let c := nat_of_ascii c in
                  if (224 <=? a) && (a <=? 239) then
                    (if a =? 224 then (160 <=? b) && (b <=? 191)
                     else if a =? 237 then (128 <=? b) && (b <=? 159) else continuation b) &&
                    continuation c && utf8_valid s3
                  else
                    match s3 with
                    | EmptyString => false
                    | String d s4 =>
                        (240 <=? a) && (a <=? 244) &&
                        (if a =? 240 then (144 <=? b) && (b <=? 191)
                         else if a =? 244 then (128 <=? b) && (b <=? 143) else continuation b) &&
                        continuation c && continuation (nat_of_ascii d) && utf8_valid s4
                    end
              end
        end
  end.

(** [BufRead::lines]: a line ends at a line feed, a carriage return before it is
    dropped, and a line that is no text is an error, [None]. *)
Definition drop_cr (s : string) : string := default s (strip_suffix (String cr "") s).
Definition line_text (s : string) : option string := if utf8_valid s then Some s else None.
Fixpoint lines_at (cur s : string) : list (option string) :=
  match s with
  | EmptyString => if bool_decide (cur = "") then [] else [line_text cur]
  | String c s' =>
      if Ascii.eqb c lf then (drop_cr <$> line_text cur) :: lines_at "" s' else lines_at (cur +:+ String c "") s'
  end.
Definition lines (s : string) : list (option string) := lines_at "" s.

(** ** Numbers and addresses *)

Local Open Scope Z_scope.

(** [i64::from_str] *)
Definition i64_from_str (s : string) : option Z :=
  let number neg t :=
    if non_empty t && all_chars is_digit t then
      let v := value_of 10 0 t in
      let v := if neg : bool then - v else v in
      if (- 2 ^ 63 <=? v) && (v <=? 2 ^ 63 - 1) then Some v else None
    else None in
  match s with
  | String "+" t => number false t
  | String "-" t => number true t
  | _ => number false s
  end.

(** [Parser::read_number]: at most [max] digits, in [bits] bits; a leading zero
    only where it is allowed. *)
Definition read_number (base limit : Z) (is_dig : ascii → bool) (max : nat) (allow_zero_prefix : bool) : parser Z := λ s,
  let '(ds, r) := span is_dig s in
  let n := String.length ds in
  let v := value_of base 0 ds in
  if (n =? 0)%nat || (max <? n)%nat || (limit <=? v) then None
  else if negb allow_zero_prefix && starts_with "0" ds && (1 <? n)%nat then None
  else Some (r, v).
Definition read_octet : parser Z := read_number 10 256 is_digit 3 false.
Definition read_group : parser Z := read_number 16 65536 is_hex_digit 4 true.

(** [read_separator]: the separator before every item but the first. *)
Definition read_separator {A} (sep : ascii) (index : nat) (p : parser A) : parser A :=
  if (index =? 0)%nat then p else preceded (char sep) p.

Definition read_ipv4_addr : parser Z :=
  pbind read_octet (λ a, pbind (read_separator "." 1 read_octet) (λ b,
  pbind (read_separator "." 2 read_octet) (λ c,
    pmap (λ d, of_be 256 [a; b; c; d]) (read_separator "." 3 read_octet)))).

(** [read_groups], from the group [i] with [left] groups to go: the groups read and
    whether the last two are an IPv4 address. *)
Fixpoint read_groups (left i : nat) (s : string) : string * (list Z * bool) :=
  match left with
  | O => (s, ([], false))
  | S left' =>
      match (if (0 <? left')%nat then read_separator ":" i read_ipv4_addr s else None) with
      | Some (r, a) => (r, ([a / 65536; a mod 65536], true))
      | None =>
          match read_separator ":" i read_group s with
          | Some (r, g) => let '(r', (gs, v4)) := read_groups left' (S i) r in (r', (g :: gs, v4))
          | None => (s, ([], false))
          end
      end
  end.

Definition read_ipv6_addr : parser Z := λ s,
  let '(r, (head, head_ipv4)) := read_groups 8 0 s in
  if (length head =? 8)%nat then Some (r, of_be 65536 head)
  else if head_ipv4 then None
  else
    '(r, _) ← char ":" r; '(r, _) ← char ":" r;
    let '(r, (tail, _)) := read_groups (8 - (length head + 1)) 0 r in
    Some (r, of_be 65536 (head ++ replicate (8 - length head - length tail) 0 ++ tail)).

(** [IpAddr::from_str] *)
Definition ip_from_str (s : string) : option IpAddr :=
  match orelse (pmap IPv4 read_ipv4_addr) (pmap IPv6 read_ipv6_addr) s with
  | Some (EmptyString, a) => Some a
  | _ => None
  end.

Example ip_from_str_examples :
  map ip_from_str ["192.168.100.16"; "2001:db8::100"; "::"; "::ffff:1.2.3.4"; "1:2:3:4:5:6:7:8"; "01.2.3.4"; "1.2.3"; "1::2::3"; "1:2:3:4:5:6:1.2.3.4"] =
  [Some (IPv4 3232261136); Some (IPv6 42540766411282592856903984951653826816); Some (IPv6 0); Some (IPv6 281470698652420);
   Some (IPv6 5192455318486707404433266433261576); None; None; None; Some (IPv6 5192455318486707404433266449711876)].
Proof. vm_compute. reflexivity. Qed.

(** ** Addresses are read back *)

Lemma octet_shape n : 0 <= n < 256 →
  (String.length (show_u8 n) <=? 3)%nat && negb (starts_with "0" (show_u8 n) && (1 <? String.length (show_u8 n))%nat) = true.
Proof.
  intros Hn.
  assert (Hall : forallb (λ k, let s := show_u8 (Z.of_nat k) in
    (String.length s <=? 3)%nat && negb (starts_with "0" s && (1 <? String.length s)%nat)) (seq 0 256) = true)
    by (vm_compute; reflexivity).
  rewrite forallb_forall in Hall. specialize (Hall (Z.to_nat n)). rewrite Z2Nat.id in Hall by lia.
  apply Hall, in_seq. lia.
Qed.

Lemma read_octet_show n r : 0 <= n < 256 → stops is_digit r = true → read_octet (show_u8 n +:+ r) = Some (r, n).
Proof.
  intros Hn Hr. destruct (show_u8_chars n Hn) as [Hc Hne].
  pose proof (octet_shape n Hn) as Hs. apply andb_true_iff in Hs as [Hl Hz].
  unfold read_octet, read_number. rewrite span_app by done. apply Nat.leb_le in Hl.
  rewrite (proj2 (Nat.eqb_neq _ _)) by (by destruct (show_u8 n)).
  rewrite (proj2 (Nat.ltb_ge _ _)) by lia. unfold show_u8 at 1. rewrite (value_of_digits 10) by lia.
  change (value_of 10 n "") with n. rewrite (proj2 (Z.leb_gt _ _)) by lia. cbn [orb negb andb].
  apply negb_true_iff in Hz. rewrite Hz. unfold show_u8. by rewrite (value_of_digits 10) by lia.
Qed.

Lemma read_ipv4_show a r : 0 <= a < 2 ^ 32 → stops is_digit r = true → read_ipv4_addr (show_ipv4 a +:+ r) = Some (r, a).
Proof.
  intros Ha Hr. unfold show_ipv4.
  pose proof (to_be_range 256 4 a ltac:(lia)) as Hrange. pose proof (of_be_to_be 256 4 a ltac:(lia) ltac:(lia)) as Hval.
  pose proof (to_be_length 256 4 a) as Hlen.
  destruct (to_be 256 4 a) as [|o1 [|o2 [|o3 [|o4 [|]]]]]; try done. clear Hlen.
  rewrite !Forall_cons in Hrange. destruct Hrange as (H1 & H2 & H3 & H4 & _).
  cbn [map join]. rewrite !string_app_assoc. unfold read_ipv4_addr, pbind, pmap, read_separator. simpl Nat.eqb. cbv iota.
  assert (Hdot : ∀ n s, 0 <= n < 256 → stops is_digit s = true →
    preceded (char ".") read_octet ("." +:+ show_u8 n +:+ s) = Some (s, n)) by (intros; by apply read_octet_show).
  rewrite read_octet_show by done. cbn [mbind option_bind]. rewrite Hdot by done. cbn [mbind option_bind].
  rewrite Hdot by done. cbn [mbind option_bind]. rewrite Hdot by done. cbn [mbind option_bind]. by rewrite Hval.
Qed.

(** Texts of digits and colons hold no IPv4 address. *)
Lemma read_ipv4_no_dot s : all_chars is_hex_colon s = true → read_ipv4_addr s = None.
Proof.
  intros Hs. pose proof (span_no_dot s "" Hs eq_refl) as Hd. rewrite string_app_nil_r in Hd.
  unfold read_ipv4_addr, pbind, read_octet, read_number. destruct (span is_digit s) as [x y]. simpl in Hd.
  repeat case_if; try done. unfold read_separator, preceded. cbn -[char of_be value_of]. by rewrite Hd.
Qed.

Lemma separated_ipv4_no_dot i s : all_chars is_hex_colon s = true → read_separator ":" i read_ipv4_addr s = None.
Proof.
  intros Hs. unfold read_separator. case_if; [by apply read_ipv4_no_dot|]. unfold preceded, char.
  destruct s as [|c s]; [done|]. cbn in Hs. apply andb_true_iff in Hs as [_ Hs].
  case_if; [|done]. cbn. by apply read_ipv4_no_dot.
Qed.

Lemma read_group_show n r : u16 n → stops is_hex_digit r = true → read_group (show_hex n +:+ r) = Some (r, n).
Proof.
  intros Hn Hr. destruct (show_hex_chars n) as (Hc & Hne & Hl). unfold read_group, read_number.
  rewrite span_app by done. rewrite (proj2 (Nat.eqb_neq _ _)) by (by destruct (show_hex n)).
  rewrite (proj2 (Nat.ltb_ge _ _)) by lia. unfold show_hex. unfold u16 in Hn. rewrite (value_of_digits 16) by lia.
  change (value_of 16 n "") with n. by rewrite (proj2 (Z.leb_gt _ _)) by lia.
Qed.

Lemma read_group_stop r : stops is_hex_digit r = true → read_group r = None.
Proof. intros Hr. unfold read_group, read_number. by rewrite span_stop. Qed.

(** What may follow the groups: nothing, or a double colon. *)
Definition groups_end (r : string) : Prop := r = "" ∨ ∃ t, r = "::" +:+ t.

Lemma groups_end_stop i r : groups_end r → read_separator ":" i read_group r = None ∧ stops is_hex_digit r = true.
Proof.
  intros [->|[t ->]]; (split; [|done]); unfold read_separator; by case_if.
Qed.

Definition more_groups (l : list Z) (r : string) : string := foldr (λ x s, ":" +:+ show_hex x +:+ s) r l.

Lemma show_groups x l r : show_segments (x :: l) +:+ r = show_hex x +:+ more_groups l r.
Proof. unfold show_segments, more_groups. apply join_foldr. Qed.

Lemma more_groups_chars l r : all_chars is_hex_colon r = true → all_chars is_hex_colon (more_groups l r) = true.
Proof.
  intros Hr. induction l as [|x l IH]; [done|]. cbn [more_groups foldr].
  pose proof (show_segments_chars [x]) as Hx. change (show_segments [x]) with (show_hex x) in Hx.
  rewrite !all_chars_app. fold (more_groups l r). by rewrite IH, Hx.
Qed.

Lemma more_groups_stop l r : groups_end r → stops is_hex_digit (more_groups l r) = true.
Proof. intros Hr. destruct l; [by apply (groups_end_stop 0)|done]. Qed.

Lemma read_groups_more left i l r : Forall u16 l → (length l <= left)%nat → (0 < i)%nat →
  all_chars is_hex_colon r = true → groups_end r → read_groups left i (more_groups l r) = (r, (l, false)).
Proof.
  intros Hl. revert left i. induction Hl as [|x l Hx Hl IH]; intros left i Hlen Hi Hc Hr.
  - destruct left as [|left]; [done|]. cbn [read_groups more_groups foldr].
    replace (if (0 <? left)%nat then _ else None) with (@None (string * Z))
      by (case_if; [by rewrite separated_ipv4_no_dot|done]).
    by rewrite (proj1 (groups_end_stop i r Hr)).
  - destruct left as [|left]; [cbn in Hlen; lia|]. cbn [read_groups].
    replace (if (0 <? left)%nat then _ else None) with (@None (string * Z))
      by (case_if; [rewrite separated_ipv4_no_dot; [done|by apply more_groups_chars]|done]).
    cbn [more_groups foldr]. fold (more_groups l r). unfold read_separator.
    rewrite (proj2 (Nat.eqb_neq _ _)) by lia.
    assert (Hsep : preceded (char ":") read_group (":" +:+ show_hex x +:+ more_groups l r) = Some (more_groups l r, x))
      by (apply read_group_show; [done|by apply more_groups_stop]).
    rewrite Hsep. rewrite IH by (done || cbn in Hlen; lia). done.
Qed.

Lemma read_groups_show left l r : Forall u16 l → (length l <= left)%nat → (1 <= left)%nat →
  all_chars is_hex_colon r = true → groups_end r → read_groups left 0 (show_segments l +:+ r) = (r, (l, false)).
Proof.
  intros Hl Hlen Hleft Hc Hr. destruct left as [|left]; [lia|]. cbn [read_groups].
  replace (if (0 <? left)%nat then _ else None) with (@None (string * Z))
    by (case_if; [rewrite separated_ipv4_no_dot; [done|by rewrite all_chars_app, show_segments_chars, Hc]|done]).
  destruct Hl as [|x l Hx Hl].
  { change (show_segments [] +:+ r) with r. by rewrite (proj1 (groups_end_stop 0 r Hr)). }
  rewrite show_groups. cbn [read_separator]. unfold read_separator. simpl Nat.eqb. cbv iota.
  rewrite read_group_show; [|done|by apply more_groups_stop].
  rewrite read_groups_more by (done || cbn in Hlen; lia). done.
Qed.

Lemma read_ipv6_mapped a : 0 <= a < 2 ^ 32 →
  read_ipv6_addr ("::ffff:" +:+ show_ipv4 a) = Some ("", of_be 65536 [0; 0; 0; 0; 0; 65535; a / 65536; a mod 65536]).
Proof.
  intros Ha.
  assert (Hv4 : read_separator ":" 1 read_ipv4_addr (":" +:+ show_ipv4 a) = Some ("", a)).
  { change (read_separator ":" 1 read_ipv4_addr (":" +:+ show_ipv4 a)) with (read_ipv4_addr (show_ipv4 a)).
    rewrite <- (string_app_nil_r (show_ipv4 a)). by apply read_ipv4_show. }
  assert (Htail : read_groups 7 0 ("ffff" +:+ ":" +:+ show_ipv4 a) = ("", ([65535; a / 65536; a mod 65536], false))
                ∨ read_groups 7 0 ("ffff" +:+ ":" +:+ show_ipv4 a) = ("", ([65535; a / 65536; a mod 65536], true))).
  { right. cbn [read_groups]. change (0 <? 6)%nat with true. cbv iota.
    assert (read_separator ":" 0 read_ipv4_addr ("ffff" +:+ ":" +:+ show_ipv4 a) = None) as -> by done.
    assert (read_separator ":" 0 read_group ("ffff" +:+ ":" +:+ show_ipv4 a) = Some (":" +:+ show_ipv4 a, 65535)) as ->.
    { change (read_separator ":" 0 read_group) with read_group. by apply (read_group_show 65535 (":" +:+ show_ipv4 a)). }
    change (0 <? 5)%nat with true. cbv iota. by rewrite Hv4. }
  unfold read_ipv6_addr.
  assert (read_groups 8 0 ("::ffff:" +:+ show_ipv4 a) = ("::ffff:" +:+ show_ipv4 a, ([], false))) as -> by done.
  change ("::ffff:" +:+ show_ipv4 a) with (String ":" (String ":" ("ffff" +:+ ":" +:+ show_ipv4 a))).
  remember ("ffff" +:+ ":" +:+ show_ipv4 a) as t eqn:Et. cbn -[read_groups of_be]. by destruct Htail as [-> | ->].
Qed.

Lemma read_ipv6_show a : 0 <= a < 2 ^ 128 → read_ipv6_addr (show_ipv6 a) = Some ("", a).
Proof.
  intros Ha. unfold show_ipv6. case_if.
  - zify_bool. rewrite Z.land_ones by lia. rewrite Z.shiftr_div_pow2 in * by lia.
    rewrite read_ipv6_mapped by (by apply Z.mod_pos_bound). f_equal. f_equal. unfold of_be. cbn [fold_left].
    pose proof (Z.div_mod a (2 ^ 32) ltac:(lia)). pose proof (Z.div_mod (a mod 2 ^ 32) 65536 ltac:(lia)). lia.
  - cbv zeta.
    pose proof (to_be_range 65536 8 a ltac:(lia)) as Hrange. pose proof (of_be_to_be 65536 8 a ltac:(lia) ltac:(lia)) as Hval.
    pose proof (to_be_length 65536 8 a) as Hlen. remember (to_be 65536 8 a) as l eqn:El. clear El.
    pose proof (zero_run_ok l [] (0%nat, 0%nat) (0%nat, 0%nat) ltac:(by left) ltac:(by exists [], [])) as Hrun.
    rewrite app_nil_l in Hrun. cbn [length] in Hrun. destruct (zero_run 0 _ _ l) as [st len].
    destruct (1 <? len)%nat eqn:Elen.
    + destruct Hrun as (x & y & -> & Hx). cbn [fst snd] in *. apply Nat.ltb_lt in Elen. subst st.
      rewrite !length_app, length_replicate in Hlen. rewrite !Forall_app in Hrange. destruct Hrange as (H1 & _ & H2).
      rewrite take_app_length, drop_app_add', drop_app_length' by (done || by rewrite length_replicate).
      unfold read_ipv6_addr. rewrite read_groups_show; [|done|lia|lia| |by right; eexists];
        [|by rewrite all_chars_app, show_segments_chars].
      rewrite (proj2 (Nat.eqb_neq _ _)) by lia.
      assert (Hy : read_groups (8 - (length x + 1)) 0 (show_segments y) = ("", (y, false))).
      { rewrite <- (string_app_nil_r (show_segments y)). apply read_groups_show; (done || lia || by left). }
      remember (show_segments y) as t eqn:Et. remember (8 - (length x + 1))%nat as k eqn:Ek.
      rewrite !string_app_cons. unfold char. cbn -[read_groups of_be Nat.sub]. rewrite string_app_nil, Hy.
      replace (8 - length x - length y)%nat with len by lia. by rewrite Hval.
    + unfold read_ipv6_addr. rewrite <- (string_app_nil_r (show_segments l)).
      rewrite read_groups_show by (done || lia || by left). rewrite Hlen. cbn -[of_be]. by rewrite Hval.
Qed.

(** Every address of both families is read back from what [Display] writes. *)
Lemma ip_from_str_show a : ip_valid a = true → ip_from_str (show_ip a) = Some a.
Proof.
  intros Ha. destruct a as [a|a]; cbn [ip_valid] in Ha; apply andb_true_iff in Ha as [H1 H2];
    apply Z.leb_le in H1; apply Z.ltb_lt in H2; unfold ip_from_str, orelse, show_ip, pmap.
  - rewrite <- (string_app_nil_r (show_ipv4 a)). by rewrite read_ipv4_show by done.
  - destruct (Z.eq_dec (Z.shiftr a 32) 65535) as [Em|Em].
    + assert (read_ipv4_addr (show_ipv6 a) = None) as ->
        by (unfold show_ipv6; by rewrite (proj2 (Z.eqb_eq _ _)) by done).
      cbn [mbind option_bind]. by rewrite read_ipv6_show.
    + destruct (segments_text a "" ltac:(lia) Em eq_refl) as (w & Ew & Hw & _). rewrite read_ipv4_no_dot by (by rewrite Ew).
      cbn [mbind option_bind]. by rewrite read_ipv6_show.
Qed.

(** ** Fields of a line *)

Definition printable (c : ascii) : bool := (33 <=? code c) && (code c <=? 126).
(** A field: a non-empty word of printable ASCII characters. *)
Definition field (s : string) : bool := non_empty s && all_chars printable s.

Lemma printable_spec c : printable c = true → (33 <= nat_of_ascii c <= 126)%nat.
Proof. unfold printable, code. intros [H1 H2]%andb_true_iff. zify_bool. lia. Qed.

Lemma white_printable c s : printable c = true → white (String c s) = None.
Proof.
  intros Hc%printable_spec. unfold white.
  assert ((9 <=? nat_of_ascii c) && (nat_of_ascii c <=? 13) || (nat_of_ascii c =? 32) = false)%nat as ->.
  { apply orb_false_iff. split; [apply andb_false_iff; right; apply Nat.leb_gt|apply Nat.eqb_neq]; lia. }
  assert (E : ∀ n, (128 <= n)%nat → (nat_of_ascii c =? n)%nat = false) by (intros; apply Nat.eqb_neq; lia).
  repeat (case_match; try done); rewrite !E in * by lia; done.
Qed.

Lemma trim_start_field s : stops printable s = false → trim_start s = s.
Proof.
  destruct s as [|c s]; [done|]. cbn [stops]. intros Hc%negb_false_iff. unfold trim_start. cbn [String.length trim_start_loop].
  by rewrite white_printable.
Qed.

Lemma is_trimmed_printable c l : printable c = true → is_trimmed (c :: l) = None.
Proof.
  intros Hc%printable_spec. unfold is_trimmed.
  assert ((9 <=? nat_of_ascii c) && (nat_of_ascii c <=? 13) || (nat_of_ascii c =? 32) = false)%nat as ->.
  { apply orb_false_iff. split; [apply andb_false_iff; right; apply Nat.leb_gt|apply Nat.eqb_neq]; lia. }
  assert (E : ∀ n, (128 <= n)%nat → (nat_of_ascii c =? n)%nat = false) by (intros; apply Nat.eqb_neq; lia).
  assert (E' : (128 <=? nat_of_ascii c)%nat = false) by (apply Nat.leb_gt; lia).
  repeat (case_match; try done); rewrite ?E', ?E, ?andb_false_r in * by lia; done.
Qed.

Lemma list_ascii_app s t : String.list_ascii_of_string (s +:+ t) = String.list_ascii_of_string s ++ String.list_ascii_of_string t.
Proof. induction s as [|c s IH]; [done|]. rewrite string_app_cons. simpl. by rewrite IH. Qed.

Lemma last_printable w : field w = true →
  ∃ l c, String.list_ascii_of_string w = l ++ [c] ∧ printable c = true.
Proof.
  unfold field. intros [Hne Hw]%andb_true_iff. induction w as [|c w IH]; [done|].
  cbn in Hw. apply andb_true_iff in Hw as [Hc Hw]. destruct w as [|d w].
  - exists [], c. done.
  - destruct (IH eq_refl Hw) as (l & x & E & Hx). exists (c :: l), x. split; [|done]. cbn in *. by rewrite E.
Qed.

Lemma trim_end_field s w : field w = true → trim_end (s +:+ w) = s +:+ w.
Proof.
  intros (l & c & E & Hc)%last_printable. unfold trim_end. rewrite list_ascii_app, E, !rev_app_distr. simpl.
  destruct (String.length (s +:+ w)); cbn [trim_rev]; [|rewrite is_trimmed_printable by done];
    rewrite <- !rev_app_distr; simpl; rewrite !rev_app_distr, !rev_involutive; simpl;
    rewrite <- app_assoc; simpl; rewrite <- E, <- list_ascii_app; apply String.string_of_list_ascii_of_string.
Qed.

Lemma field_starts w t : field w = true → stops printable (w +:+ t) = false.
Proof.
  unfold field. destruct w as [|c w]; [done|]. intros [_ Hw]%andb_true_iff. cbn in Hw.
  apply andb_true_iff in Hw as [Hc _]. rewrite string_app_cons. cbn [stops]. by apply negb_false_iff.
Qed.

Lemma join_cons sep x l : l ≠ [] → join sep (x :: l) = x +:+ sep +:+ join sep l.
Proof. by destruct l. Qed.

Lemma join_last sep l : l ≠ [] → ∃ s w, w ∈ l ∧ join sep l = s +:+ w.
Proof.
  induction l as [|x l IH]; [done|]. intros _. destruct (decide (l = [])) as [->|Hne].
  - exists "", x. split; [set_solver|done].
  - destruct (IH Hne) as (s & w & Hw & E). exists (x +:+ sep +:+ s), w. rewrite join_cons by done.
    rewrite E, !string_app_assoc. split; [set_solver|done].
Qed.

(** A line of fields has nothing to trim. *)
Lemma trim_fields l : l ≠ [] → Forall (λ w, field w = true) l → trim (join " " l) = join " " l.
Proof.
  intros Hne Hl. unfold trim. rewrite trim_start_field.
  - destruct (join_last " " l Hne) as (s & w & Hw & ->). apply trim_end_field. rewrite Forall_forall in Hl. by apply Hl.
  - destruct Hl as [|x l Hx Hl]; [done|]. destruct l as [|y l].
    + rewrite <- (string_app_nil_r (join " " [x])). by apply field_starts.
    + rewrite join_cons by done. by apply field_starts.
Qed.

(** *** Splitting *)

Lemma split_at_app sep cur s t : all_chars (λ c, negb (Ascii.eqb c sep)) s = true →
  split_at sep cur (s +:+ t) = split_at sep (cur +:+ s) t.
Proof.
  revert cur. induction s as [|c s IH]; intros cur Hs; [by rewrite string_app_nil, string_app_nil_r|].
  cbn in Hs. apply andb_true_iff in Hs as [Hc%negb_true_iff Hs]. rewrite string_app_cons. cbn [split_at]. rewrite Hc.
  rewrite IH by done. by rewrite string_app_assoc.
Qed.

Lemma split_join sep l : l ≠ [] → Forall (λ w, all_chars (λ c, negb (Ascii.eqb c sep)) w = true) l →
  split sep (join (String sep "") l) = l.
Proof.
  intros Hne Hl. unfold split. induction Hl as [|x l Hx Hl IH]; [done|]. destruct (decide (l = [])) as [->|Hn].
  - cbn [join]. rewrite <- (string_app_nil_r x), split_at_app by done. by rewrite string_app_nil, string_app_nil_r.
  - rewrite join_cons, split_at_app by done. rewrite string_app_cons. cbn [split_at]. rewrite Ascii.eqb_refl.
    rewrite !string_app_nil. by rewrite IH.
Qed.

Lemma all_chars_impl (p q : ascii → bool) s : (∀ c, p c = true → q c = true) → all_chars p s = true → all_chars q s = true.
Proof.
  intros Hpq. induction s as [|c s IH]; [done|]. cbn. intros [Hc Hs]%andb_true_iff. by rewrite Hpq, IH.
Qed.

Lemma filter_all_fields l : Forall (λ w, field w = true) l → List.filter non_empty l = l.
Proof.
  induction 1 as [|w l Hw Hl IH]; [done|]. cbn. unfold field in Hw. apply andb_true_iff in Hw as [-> _]. by rewrite IH.
Qed.

Lemma split_spaces_fields l : l ≠ [] → Forall (λ w, field w = true) l → split_spaces (join " " l) = l.
Proof.
  intros Hne Hl. unfold split_spaces. rewrite split_join, filter_all_fields; [done|done|done|].
  eapply Forall_impl; [exact Hl|]. intros w [_ Hw]%andb_true_iff. eapply all_chars_impl; [|exact Hw].
  intros c Hc. apply negb_true_iff, Ascii.eqb_neq. intros ->. done.
Qed.

Lemma fields_loop_word fuel cur w t : all_chars printable w = true →
  fields_loop (String.length w + fuel) cur (w +:+ t) = fields_loop fuel (cur +:+ w) t.
Proof.
  revert cur. induction w as [|c w IH]; intros cur Hw; [by rewrite string_app_nil_r|].
  cbn in Hw. apply andb_true_iff in Hw as [Hc Hw]. rewrite string_app_cons. cbn [String.length Nat.add fields_loop].
  rewrite white_printable by done. rewrite IH by done. by rewrite string_app_assoc.
Qed.

Lemma fields_loop_space fuel cur s :
  fields_loop (S fuel) cur (" " +:+ s) = List.filter non_empty [cur] ++ fields_loop fuel "" s.
Proof. done. Qed.

Lemma split_whitespace_fields l : l ≠ [] → Forall (λ w, field w = true) l → split_whitespace (join " " l) = l.
Proof.
  intros Hne Hl. unfold split_whitespace. induction Hl as [|x l Hx Hl IH]; [done|].
  pose proof Hx as Hx'. unfold field in Hx'. apply andb_true_iff in Hx' as [Hnx Hcx]. destruct (decide (l = [])) as [->|Hn].
  - cbn [join]. rewrite <- (string_app_nil_r x) at 2. replace (String.length x) with (String.length x + 0)%nat by lia.
    rewrite fields_loop_word by done. rewrite string_app_nil. cbn. by rewrite Hnx.
  - rewrite join_cons by done. rewrite string_length_app, fields_loop_word by done.
    rewrite string_app_nil. change (String.length (" " +:+ join " " l)) with (S (String.length (join " " l))).
    rewrite fields_loop_space, (IH Hn). cbn. by rewrite Hnx.
Qed.

Lemma strip_suffix_spec suffix s t : strip_suffix suffix s = Some t ↔ s = t +:+ suffix.
Proof.
  revert t. induction s as [|c s IH]; intros t; cbn [strip_suffix]; case_bool_decide as E.
  - subst. split; [intros [= <-]; done|]. intros Et. f_equal. by destruct t.
  - split; [done|]. intros Et. destruct t; [by destruct E|done].
  - split; [intros [= <-]; by rewrite string_app_nil|]. intros Et. f_equal.
    apply (f_equal String.length) in Et. rewrite E, string_length_app in Et. destruct t; [done|cbn in Et; lia].
  - rewrite fmap_Some. split.
    + intros (u & Hu%IH & ->). by rewrite string_app_cons, Hu.
    + intros Et. destruct t as [|x t]; [by rewrite string_app_nil in Et|]. rewrite string_app_cons in Et.
      injection Et as -> Et. exists t. split; [by apply IH|done].
Qed.

(** *** Lines *)

Lemma utf8_ascii s : all_chars (λ c, code c <=? 127) s = true → utf8_valid s = true.
Proof.
  induction s as [|c s IH]; [done|]. cbn [all_chars]. intros [Hc Hs]%andb_true_iff. cbn [utf8_valid]. cbv zeta.
  unfold code in Hc. zify_bool. rewrite (proj2 (Nat.leb_le _ _)) by lia. auto.
Qed.

Lemma lines_at_app cur s t : all_chars (λ c, negb (Ascii.eqb c lf)) s = true →
  lines_at cur (s +:+ t) = lines_at (cur +:+ s) t.
Proof.
  revert cur. induction s as [|c s IH]; intros cur Hs; [by rewrite string_app_nil, string_app_nil_r|].
  cbn in Hs. apply andb_true_iff in Hs as [Hc%negb_true_iff Hs]. rewrite string_app_cons. cbn [lines_at]. rewrite Hc.
  rewrite IH by done. by rewrite string_app_assoc.
Qed.

(** A line of fields is read as it is. *)
Definition line_char (c : ascii) : bool := printable c || Ascii.eqb c " ".

Lemma line_chars l : Forall (λ w, field w = true) l → all_chars line_char (join " " l) = true.
Proof.
  induction 1 as [|w l Hw Hl IH]; [done|]. unfold field in Hw. apply andb_true_iff in Hw as [_ Hw].
  assert (Hw' : all_chars line_char w = true).
  { eapply all_chars_impl; [|exact Hw]. unfold line_char. by intros c ->. }
  destruct (decide (l = [])) as [->|Hne]; [done|]. rewrite join_cons by done. by rewrite !all_chars_app, Hw', IH.
Qed.

Lemma line_char_spec c : line_char c = true → (32 <= nat_of_ascii c <= 126)%nat.
Proof. unfold line_char. intros [H%printable_spec|H%Ascii.eqb_eq]%orb_true_iff; [lia|subst; vm_compute; lia]. Qed.

Lemma drop_cr_line s : all_chars line_char s = true → drop_cr s = s.
Proof.
  intros Hs. unfold drop_cr. destruct (strip_suffix _ s) as [t|] eqn:E; [|done].
  apply strip_suffix_spec in E. rewrite E, all_chars_app in Hs. apply andb_true_iff in Hs as [_ Hs]. done.
Qed.

Lemma line_text_line s : all_chars line_char s = true → line_text s = Some s.
Proof.
  intros Hs. unfold line_text. rewrite utf8_ascii; [done|]. eapply all_chars_impl; [|exact Hs].
  intros c Hc%line_char_spec. unfold code. apply Z.leb_le. lia.
Qed.

Definition text_of_lines (l : list string) : string := foldr (λ s t, s +:+ String lf t) "" l.

Lemma lines_of_text l : Forall (λ s, all_chars line_char s = true) l → lines (text_of_lines l) = map Some l.
Proof.
  unfold lines. induction 1 as [|s l Hs Hl IH]; [done|]. cbn [text_of_lines foldr]. rewrite lines_at_app.
  - rewrite string_app_nil. cbn [lines_at]. rewrite Ascii.eqb_refl, line_text_line by done. cbn [fmap option_fmap option_map].
    rewrite drop_cr_line by done. cbn [map]. f_equal. exact IH.
  - eapply all_chars_impl; [|exact Hs]. intros c Hc%line_char_spec. apply negb_true_iff, Ascii.eqb_neq. intros ->.
    vm_compute in Hc. lia.
Qed.

(** The characters of an address. *)
Lemma show_ip_chars a : ip_valid a = true →
  all_chars (λ c, is_hex_colon c || Ascii.eqb c ".") (show_ip a) = true ∧ non_empty (show_ip a) = true.
Proof.
  intros Ha. assert (Hne : non_empty (show_ip a) = true).
  { unfold non_empty. apply negb_true_iff, bool_decide_eq_false. intros E.
    pose proof (ip_from_str_show a Ha) as H. by rewrite E in H. }
  split; [|done]. clear Hne.
  assert (H4 : ∀ x, all_chars (λ c, is_hex_colon c || Ascii.eqb c ".") (show_ipv4 x) = true).
  { intros x. unfold show_ipv4. pose proof (to_be_range 256 4 x ltac:(lia)) as Hr.
    induction Hr as [|d l Hd Hl IH]; [done|].
    assert (Hd' : all_chars (λ c, is_hex_colon c || Ascii.eqb c ".") (show_u8 d) = true).
    { eapply all_chars_impl; [|apply (show_u8_chars d Hd)]. intros c Hc. unfold is_hex_colon, is_hex_digit. by rewrite Hc. }
    destruct (decide (l = [])) as [->|Hne]; [done|]. cbn [map]. rewrite join_cons by (by destruct l).
    by rewrite !all_chars_app, Hd', IH. }
  assert (Hseg : ∀ l, all_chars (λ c, is_hex_colon c || Ascii.eqb c ".") (show_segments l) = true).
  { intros l. eapply all_chars_impl; [|apply show_segments_chars]. by intros c ->. }
  destruct a as [a|a]; cbn [show_ip]; [apply H4|]. unfold show_ipv6. cbv zeta. case_if; [by rewrite all_chars_app, H4|].
  destruct (zero_run _ _ _ _) as [st len]. case_if; by rewrite ?all_chars_app, ?Hseg.
Qed.

(** ** Numbers *)

(** A number as it is written. *)
Definition decimal (n : Z) : string := digits_of 10 (S (Z.to_nat (Z.log2 n))) n "".

Lemma decimal_ok n : (0 <= n)%Z → all_chars is_digit (decimal n) = true ∧ decimal n ≠ "" ∧ value_of 10 0 (decimal n) = n.
Proof.
  intros Hn. unfold decimal. split_and!.
  - apply (digits_of_chars 10); [lia| |done]. intros d Hd. apply (digit_char_ok d); lia.
  - apply digits_of_length; lia.
  - assert (Hlog : (n < 10 ^ Z.of_nat (S (Z.to_nat (Z.log2 n))))%Z).
    { rewrite Nat2Z.inj_succ, Z2Nat.id by apply Z.log2_nonneg.
      destruct (decide (n = 0%Z)) as [->|Hne]; [done|]. pose proof (Z.log2_spec n ltac:(lia)) as [_ Hlt].
      eapply Z.lt_le_trans; [exact Hlt|]. apply Z.pow_le_mono_l. lia. }
    rewrite (value_of_digits 10) by lia. done.
Qed.
