(* ===== verification/DnsClient.v ===== *)
(** * The upstream client

    [DnsClient] and the lookups of its groups (src/dns_client.rs): the default group, the
    groups by name, and the addresses of the servers' own names that the bootstrap
    resolver has found.  The servers of the groups are shared, as the code shares them
    by [Arc]: a group is a list of positions in the list of all servers.

    What a server is asked and what happens on the network is an interface: for a
    server, a name and options, what each attempt brings; and for a lookup the order in
    which the answers arrive and the speed checks complete. *)

From S2P Require Import Prelude Float64 Dns IpSet DomainMap DomainRule Context NameServer Ping NsStrategy NsProps.
From S2P Require Import Nom ConfigText Text.

Record LookupOptions `{RuleData} := {
  lk_is_dnssec : bool;
  lk_record_type : RecordType;
  lk_client_subnet : option ClientSubnet;
}.

(** The configured groups. *)
Record DnsClient := { dc_default : list nat; dc_servers : gmap string (list nat) }.

(** What lookups change: the state of every server, with its filters, and the records of
    [ip_store]. *)
Record Upstreams := { up_servers : list (ServerFilter * NameServer); up_store : Query → option (list Record_) }.

(** The course of one lookup: when its answers are filtered, the order in which the
    servers of the group answer, the speed checks and their order, the positions of the
    servers whose lookups are dropped because the strategy has returned, and what the
    bootstrap resolver knows afterwards. *)
Record course := {
  co_filtered_at : Z;
  co_order : list nat;
  co_pings : ping_nets;
  co_schedule : list nat;
  co_dropped : list nat;
  co_store : Query → option (list Record_);
}.

(** [authority_code] is the code of hickory's error for an answer without records. *)
Class UpstreamNet `{RuleData} := {
  asked : nat → string → LookupOptions → nat → NameServer.attempt;
  course_of : list nat → string → LookupOptions → course;
  authority_code : ResponseCode;
}.
Class UpstreamNetLaws `{UpstreamNet} := {
  course_pings g name o i : @NetworkLaws (answer_net (co_pings (course_of g name o)) i);
}.

Section client.
Context `{RD : RuleData, RM : RangeMaps, MO : MapOrder, ET : ErrorText, UN : !UpstreamNet}.
Implicit Types u : Upstreams.

Definition get_server_group (c : DnsClient) (name : string) : option (list nat) :=
  if bool_decide (name = "") || bool_decide (to_ascii_lowercase name = "default") then Some (dc_default c)
  else dc_servers c !! name.

(** [lookup_nameserver]: [local_lookup] of the bootstrap resolver. *)
Definition lookup_nameserver (now : Z) (name : string) (t : RecordType) u : option DnsResponse :=
  let query := {| q_name := name; q_type := t; q_class := 1 |} in
  new_with_max_ttl now query <$> up_store u query.

(** The servers of a group, and what the lookups leave of them. *)
Definition members u (g : list nat) : list (ServerFilter * NameServer) := omap (λ i, up_servers u !! i) g.
Definition put_server (l : list (ServerFilter * NameServer)) (x : nat * NameServer) : list (ServerFilter * NameServer) :=
  alter (λ s, (fst s, snd x)) (fst x) l.
Definition put_servers u (g : list nat) (states : list NameServer) (store : Query → option (list Record_)) : Upstreams :=
  {| up_servers := fold_left put_server (zip g states) (up_servers u); up_store := store |}.

(** [NameServerGroup::lookup], also the lookup of the client, on its default group. *)
Definition group_lookup_any (now : Z) (g : list nat) (name : string) (o : LookupOptions) u
  : result DnsResponse LookupError * Upstreams :=
  let co := course_of g name o in
  let '(res, states) := group_lookup now (map (λ i, asked i name o) g) (co_order co) (map snd (members u g)) in
  (res, put_servers u g states (co_store co)).

(** The states after [lookup_ip]: a lookup that is dropped records nothing. *)
Definition states_after (now : Z) (dropped : list nat) (nets : list (nat → NameServer.attempt)) (servers : list NameServer)
  : list NameServer :=
  imap (λ i x, if bool_decide (i ∈ dropped) then fst x else snd (fst (ns_lookup now (snd x) (fst x))))
    (zip (allow_probe_if_all_cooling now servers) nets).

(** [lookup_ip] of src/dns_mw_ns.rs on a group; [None] is a panic. *)
Definition group_lookup_ip (now : Z) (g : list nat) (name : string) (ipo : LookupIpOptions) (o : LookupOptions) u
  : option (result DnsResponse LookupError) * Upstreams :=
  let co := course_of g name o in
  let nets := map (λ i, asked i name o) g in
  (lookup_ip authority_code now (co_filtered_at co) ipo (members u g) nets (co_pings co) (co_schedule co),
   put_servers u g (states_after now (co_dropped co) nets (map snd (members u g))) (co_store co)).

Lemma group_lookup_ip_returns `{!MapOrderLaws, !UpstreamNetLaws} now g name ipo o u : is_ip_addr (lo_record_type ipo) = true →
  is_Some (fst (group_lookup_ip now g name ipo o u)).
Proof.
  intros Hip. unfold group_lookup_ip. cbn [fst].
  edestruct (lookup_ip_sound authority_code now (co_filtered_at (course_of g name o)) ipo) as (r & -> & _); [done| |by eexists].
  intros i. apply course_pings.
Qed.
End client.
