(* ===== verification/NsMiddleware.v ===== *)
(** * The name-server middleware

    [NameServerMiddleware::handle] (src/dns_mw_ns.rs), the last stage of the chain:
    which group of servers a request goes to and with which options, and what the
    context and the answer say about it afterwards. *)

From S2P Require Import Prelude Float64 Dns AuditLog App Lru DnsCache CacheInv CacheProps CacheMiddleware.
From S2P Require Import IpSet DomainMap DomainRule Context AddressMw Middleware Search RewriteMw Dns64.
From S2P Require Import NameServer Ping DualStack Chain ChainProps NsStrategy NsProps Nom ConfigText Text DnsClient.

(** The zone [local.] of multicast DNS. *)
Class LocalZone (Name : Type) := { LOCAL : Name }.

Definition set_up `{LY : Layout, LO : !LruOps Query DnsCacheEntry} {U : Type} (w : World U) (u : U) : World U :=
  {| w_now := w_now w; w_wall := w_wall w; w_ticks := w_ticks w; w_cache := w_cache w; w_audit := w_audit w;
     w_packets := w_packets w; w_up := u |}.

Section middleware.
Context `{LY : Layout, LO : !LruOps Query DnsCacheEntry}.
Context {Name : Type} `{!NameOps Name, !Glob, !HashCode Name, NT : !NameText Name, RD : RuleData}.
Context `{NO : NetOps, RM : RangeMaps, CT : !ChainText, LZ : !LocalZone Name}.
Context `{MO : MapOrder, ET : ErrorText, UN : !UpstreamNet} (client : DnsClient).
Abbreviation W := (World Upstreams).
Abbreviation chain_mw := (middleware (DnsContext Name) DnsRequest DnsResponse LookupError W).
Implicit Types ctx : DnsContext Name.
Implicit Types w : W.

Definition lookup_options ctx (req : DnsRequest) : LookupOptions := {|
  lk_is_dnssec := is_dnssec req;
  lk_record_type := q_type (req_query req);
  lk_client_subnet := or_else (req_extensions req ≫= e_subnet)
    (rule_get (λ n, subnet (node_rule n)) (ctx_domain_rule ctx)) |}.

(** The group: that of multicast names for local names, when there is one, else
    the group of the request. *)
Definition server_group ctx (req : DnsRequest) : option (list nat) :=
  let name := to_name (q_name (req_query req)) in
  let in_local_domain := match cf_local_domain (cfg ctx) with Some suffix => zone_of suffix name | None => false end in
  let mdns := if (mdns_lookup (cfg ctx) && zone_of LOCAL name) || in_local_domain
              then get_server_group client "mdns" else None in
  or_else mdns (get_server_group client (server_group_name ctx)).

Definition lookup_ip_options ctx (req : DnsRequest) : LookupIpOptions :=
  let '(ignore, blacklist, whitelist) := ip_rule_sets_for (cfg ctx) (req_src req) in
  let strategy := match ctx_domain_rule ctx with
                  | Some rule => default (cfg_response_mode (cfg ctx)) (node_get (λ n, response_mode (node_rule n)) rule)
                  | None => cfg_response_mode (cfg ctx)
                  end in
  {| response_strategy := if so_is_background (server_opts ctx) then FastestIp else strategy;
     lo_speed_check_mode := match ctx_domain_rule ctx with
                            | Some rule => or_else (speed_check_mode (node_rule rule)) (cf_speed_check_mode (cfg ctx))
                            | None => cf_speed_check_mode (cfg ctx)
                            end;
     lo_no_speed_check := no_speed_check (server_opts ctx);
     lo_ignore_ip := ignore;
     lo_whitelist_ip := whitelist;
     lo_blacklist_ip := blacklist;
     lo_ip_alias := ip_alias (cfg ctx);
     lo_record_type := q_type (req_query req) |}.

Definition tag_group (group : string) (r : result DnsResponse LookupError) : result DnsResponse LookupError :=
  match r with Ok res => Ok (with_name_server_group res group) | Err e => Err e end.

(** A panic of the address lookup would end the task; [group_lookup_ip_returns] excludes
    it, and [default] is never used. *)
Definition ns_mw : chain_mw := λ _ ctx req w,
  let name := q_name (req_query req) in
  let rtype := q_type (req_query req) in
  let own := if is_ip_addr rtype then lookup_nameserver (w_now w) name rtype (w_up w) else None in
  match own with
  | Some lookup => (Ok lookup, set_no_cache ctx true, w)
  | None =>
      let options := lookup_options ctx req in
      if no_rule_nameserver (server_opts ctx) then
        let '(res, u) := group_lookup_any (w_now w) (dc_default client) name options (w_up w) in (res, ctx, set_up w u)
      else
        let group_name := server_group_name ctx in
        match server_group ctx req with
        | None => (Err (LE_Proto NoConnections), ctx, w)
        | Some ns =>
            let '(res, u) :=
              if is_ip_addr rtype then
                let '(r, u) := group_lookup_ip (w_now w) ns name (lookup_ip_options ctx req) options (w_up w) in
                (default (Err (LE_Proto NoConnections)) r, u)
              else group_lookup_any (w_now w) ns name options (w_up w) in
            (tag_group group_name res, set_source ctx (From_Server group_name), set_up w u)
        end
  end.

(** ** Properties *)

(** The stage asks upstream and nothing else: the cache, the logs and the clock are
    not touched, and of the context only the source and the cache flag change. *)
Lemma ns_mw_keeps next ctx req w :
  let '(_, ctx', w') := ns_mw next ctx req w in
  same_request ctx ctx' ∧ w_cache w' = w_cache w ∧ w_audit w' = w_audit w ∧ w_packets w' = w_packets w ∧
  w_now w' = w_now w ∧ w_ticks w' = w_ticks w.
Proof.
  unfold ns_mw, same_request. repeat case_match; simplify_eq/=; auto 10.
Qed.

(** *** Where requests go *)

(** A name of multicast DNS, if that is on, or of the local domain. *)
Definition is_local ctx (req : DnsRequest) : Prop :=
  let name := to_name (q_name (req_query req)) in
  mdns_lookup (cfg ctx) = true ∧ zone_of LOCAL name = true ∨
  ∃ suffix, cf_local_domain (cfg ctx) = Some suffix ∧ zone_of suffix name = true.

(** The group a request belongs to: of multicast names, if it is local and there is such
    a group; else the default group, under its names, or the group of that name. *)
Inductive routed ctx (req : DnsRequest) : option (list nat) → Prop :=
| RoutedMdns g : is_local ctx req → dc_servers client !! "mdns" = Some g → routed ctx req (Some g)
| RoutedDefault : ¬ is_local ctx req ∨ dc_servers client !! "mdns" = None →
    server_group_name ctx = "" ∨ to_ascii_lowercase (server_group_name ctx) = "default" →
    routed ctx req (Some (dc_default client))
| RoutedNamed : ¬ is_local ctx req ∨ dc_servers client !! "mdns" = None →
    server_group_name ctx ≠ "" → to_ascii_lowercase (server_group_name ctx) ≠ "default" →
    routed ctx req (dc_servers client !! server_group_name ctx).

(** The options of the lookups: the client subnet is the one of the request, else that of
    its rule; the strategy and the speed checks are those of the rule, else of the
    configuration, but a background refresh selects the fastest address. *)
Record asked_with ctx (req : DnsRequest) (o : LookupOptions) : Prop := {
  aw_dnssec : lk_is_dnssec o = is_dnssec req;
  aw_type : lk_record_type o = q_type (req_query req);
  aw_subnet s : (req_extensions req ≫= e_subnet) = Some s → lk_client_subnet o = Some s;
  aw_rule_subnet : (req_extensions req ≫= e_subnet) = None →
    lk_client_subnet o = rule_get (λ n, subnet (node_rule n)) (ctx_domain_rule ctx);
}.
Record selected_with ctx (req : DnsRequest) (o : LookupIpOptions) : Prop := {
  sw_background : so_is_background (server_opts ctx) = true → response_strategy o = FastestIp;
  sw_strategy : so_is_background (server_opts ctx) = false → response_strategy o =
    default (cfg_response_mode (cfg ctx)) (ctx_domain_rule ctx ≫= node_get (λ n, response_mode (node_rule n)));
  sw_modes : lo_speed_check_mode o =
    or_else (ctx_domain_rule ctx ≫= λ n, speed_check_mode (node_rule n)) (cf_speed_check_mode (cfg ctx));
  sw_no_check : lo_no_speed_check o = no_speed_check (server_opts ctx);
  sw_lists : (lo_ignore_ip o, lo_blacklist_ip o, lo_whitelist_ip o) = ip_rule_sets_for (cfg ctx) (req_src req);
  sw_alias : lo_ip_alias o = ip_alias (cfg ctx);
  sw_type : lo_record_type o = q_type (req_query req);
}.

Lemma lookup_options_spec ctx req : asked_with ctx req (lookup_options ctx req).
Proof.
  split; try done; cbn [lookup_options lk_client_subnet]; [by intros s ->|by intros ->].
Qed.
Lemma lookup_ip_options_spec ctx req : selected_with ctx req (lookup_ip_options ctx req).
Proof.
  unfold lookup_ip_options. destruct (ip_rule_sets_for _ _) as [[i b] w] eqn:E.
  split; cbn; try done; [by intros ->| |]; destruct (ctx_domain_rule ctx); cbn; try done; by intros ->.
Qed.

Lemma is_local_spec ctx req : let name := to_name (q_name (req_query req)) in
  (mdns_lookup (cfg ctx) && zone_of LOCAL name) ||
    match cf_local_domain (cfg ctx) with Some suffix => zone_of suffix name | None => false end = true ↔ is_local ctx req.
Proof.
  cbv zeta. unfold is_local. rewrite orb_true_iff, andb_true_iff. destruct (cf_local_domain (cfg ctx)); naive_solver.
Qed.

Lemma server_group_routed ctx req : routed ctx req (server_group ctx req).
Proof.
  assert (Hm : get_server_group client "mdns" = dc_servers client !! "mdns") by reflexivity.
  assert (Hrest : ¬ is_local ctx req ∨ dc_servers client !! "mdns" = None →
    routed ctx req (get_server_group client (server_group_name ctx))).
  { intros H0. unfold get_server_group. destruct (_ || _) eqn:E.
    - apply RoutedDefault; [done|]. by rewrite orb_true_iff, !bool_decide_eq_true in E.
    - rewrite orb_false_iff, !bool_decide_eq_false in E. by apply RoutedNamed; [|apply E..]. }
  unfold server_group. cbv zeta. rewrite Hm. destruct (_ || _) eqn:Eb.
  - apply is_local_spec in Eb. destruct (dc_servers client !! "mdns") as [g|] eqn:Eg; [by apply RoutedMdns|]. cbn. auto.
  - cbn. apply Hrest. left. rewrite <-is_local_spec. by rewrite Eb.
Qed.

(** C19. Routing: addresses of the upstream servers' own names are answered from what the
    bootstrap resolver knows and kept out of the cache; a listener without name-server
    rules asks the default group; every other request goes to the group of multicast
    names if it is local and there is such a group, else to the group of its context,
    and fails without a connection when there is none.  Addresses are looked up by the
    strategies, everything else by the first useful answer of the group, with the name,
    the type, the client subnet and the lists of the request and its rule.  What a group
    answers is tagged with the group of the context, the tag the cache compares. *)
Theorem ns_routes `{!MapOrderLaws, !UpstreamNetLaws}
    (next : handler (DnsContext Name) DnsRequest DnsResponse LookupError W) (ctx : DnsContext Name) (req : DnsRequest) (w : W) :
  let '(res, ctx', w') := ns_mw next ctx req w in
  let q := req_query req in
  let own := if is_ip_addr (q_type q) then up_store (w_up w) {| q_name := q_name q; q_type := q_type q; q_class := 1 |} else None in
  ∃ o, asked_with ctx req o ∧
  match own with
  | Some records =>
      res = Ok (new_with_max_ttl (w_now w) {| q_name := q_name q; q_type := q_type q; q_class := 1 |} records) ∧
      ctx_no_cache ctx' = true ∧ w' = w
  | None =>
      ctx_no_cache ctx' = ctx_no_cache ctx ∧
      if no_rule_nameserver (server_opts ctx) then
        (res, w_up w') = group_lookup_any (w_now w) (dc_default client) (q_name q) o (w_up w) ∧ ctx' = ctx
      else ∃ g, routed ctx req g ∧
        match g with
        | None => res = Err (LE_Proto NoConnections) ∧ w' = w
        | Some g => ∃ res0,
            ctx_source ctx' = From_Server (server_group_name ctx) ∧ res = tag_group (server_group_name ctx) res0 ∧
            if is_ip_addr (q_type q) then
              ∃ ipo, selected_with ctx req ipo ∧ group_lookup_ip (w_now w) g (q_name q) ipo o (w_up w) = (Some res0, w_up w')
            else group_lookup_any (w_now w) g (q_name q) o (w_up w) = (res0, w_up w')
        end
  end.
Proof.
  destruct (ns_mw next ctx req w) as [[res ctx'] w'] eqn:E. cbv zeta. exists (lookup_options ctx req).
  split; [apply lookup_options_spec|]. unfold ns_mw, lookup_nameserver in E.
  assert (Hip : is_ip_addr (q_type (req_query req)) = true → ∃ r u,
    group_lookup_ip (w_now w) (default [] (server_group ctx req)) (q_name (req_query req)) (lookup_ip_options ctx req)
      (lookup_options ctx req) (w_up w) = (Some r, u)).
  { intros Hip. edestruct (group_lookup_ip_returns (w_now w) (default [] (server_group ctx req)) (q_name (req_query req))
      (lookup_ip_options ctx req) (lookup_options ctx req) (w_up w)) as [r Hr].
    { by rewrite (sw_type _ _ _ (lookup_ip_options_spec ctx req)). }
    destruct (group_lookup_ip _ _ _ _ _ _) as [? u] eqn:Eu. cbn in Hr. subst. eauto. }
  pose proof (server_group_routed ctx req) as Hg.
  destruct (is_ip_addr (q_type (req_query req))); [destruct (up_store _ _) as [records|]; [by simplify_eq/=|]|]; cbn [fmap option_fmap option_map] in E;
    (destruct (no_rule_nameserver _); [by destruct (group_lookup_any _ _ _ _ _); simplify_eq/=|]);
    (destruct (server_group ctx req) as [g|] eqn:Eg; [|by simplify_eq; split; [|exists None]]).
  - destruct (Hip eq_refl) as (r & u & Hr). cbn [default from_option id] in Hr. rewrite Hr in E. simplify_eq/=. split; [done|]. exists (Some g).
    split; [done|]. exists r. split_and!; [done..|]. exists (lookup_ip_options ctx req). split; [apply lookup_ip_options_spec|done].
  - destruct (group_lookup_any _ _ _ _ _) as [r u] eqn:Eu. simplify_eq/=. split; [done|]. exists (Some g). split; [done|]. by exists r.
Qed.
End middleware.

(** ** A routed request *)

Module NsExample.
Import ListName DomainRule.Example Ranges Context.Example.

#[local] Instance layout : Layout := demo_layout.
#[local] Instance lru : LruOps Query DnsCacheEntry := ListLru.list_lru.
#[local] Instance chain_text : ChainText := {
  rtype_is_dnssec _ := false; socket_text _ _ := "192.168.1.5:5353"; name_for_file n := n; encodes _ := true }.
#[local] Instance texts : NameText name := {
  to_name s := (ChainProps.Example.split_labels "" s, true); name_text n := join "." (fst n) }.
#[local] Instance order : MapOrder := { map_order l := l }.
#[local] Instance order_laws : MapOrderLaws.
Proof. by split. Qed.
#[local] Instance errors : ErrorText := { proto_text k := match k with Timeout => "timeout" | _ => "other" end }.
#[local] Instance local_zone : LocalZone name := { LOCAL := (["local"], true) }.

(** Every server answers after a nanosecond, with its position as the address. *)
#[local] Instance network : UpstreamNet := {
  asked i name o _ := {| at_start := 0; at_took := 1; at_answer :=
    Ok (new_with_deadline {| q_name := name; q_type := lk_record_type o; q_class := 1 |}
          [{| r_name := name; r_class := 1; r_ttl := 60; r_data := RD_A (Z.of_nat i) |}] 0) |};
  course_of _ _ _ := {| co_filtered_at := 2; co_order := [0]; co_pings := NsProps.Example.pings; co_schedule := [];
    co_dropped := []; co_store _ := None |};
  authority_code := NXDomain }.
#[local] Instance network_laws : UpstreamNetLaws.
Proof. split. intros. apply NsProps.Example.net_laws. Qed.

Definition client : DnsClient := {| dc_default := [0]; dc_servers := {[ "mdns" := [1]; "office" := [2] ]} |}.
Definition ups : Upstreams := {| up_servers := replicate 3 (NsProps.Example.no_filter, ns_new); up_store _ := None |}.
Definition world : World Upstreams :=
  {| w_now := 0; w_wall := 0; w_ticks := []; w_up := ups; w_packets := []; w_audit := audit_new true;
     w_cache := {| cache := cache_new 100 true 0 5 0; prefetch_queue := Some []; notified := false |} |}.
Definition office_ctx : DnsContext name :=
  {| cfg := config no_settings; server_opts := opts_default; ctx_domain_rule := None; fastest_speed := 0;
     ctx_source := From_None; ctx_no_cache := false; server_group_name := "office" |}.

(** A name outside the local zones goes to the group of its context. *)
Lemma ns_routes_witness :
  routed client office_ctx (request "www.example.com" RT_A) (Some [2]) ∧
  ∃ l, fst (fst (ns_mw client default_handler office_ctx (request "www.example.com" RT_A) world)) = Ok l ∧
    ip_addrs l = [IPv4 2] ∧ name_server_group l = Some "office".
Proof.
  pose proof (ns_routes client default_handler office_ctx (request "www.example.com" RT_A) world) as H.
  destruct (ns_mw client default_handler office_ctx (request "www.example.com" RT_A) world) as [[res ctx'] w'] eqn:E.
  cbv zeta in H. destruct H as (o & _ & H). cbn in H. destruct H as (_ & g & Hg & H).
  assert (Eg : g = Some [2]).
  { inversion Hg; subst; [|exfalso|reflexivity].
    - exfalso. match goal with H : is_local _ _ |- _ => destruct H as [[Hz _]|(s & Hz & _)] end; vm_compute in Hz; discriminate.
    - match goal with H : _ = "" ∨ _ |- _ => destruct H as [H'|H']; vm_compute in H'; discriminate end. }
  subst g. split; [exact Hg|]. cbn [fst]. destruct H as (res0 & _ & Hres & ipo & _ & Hl).
  vm_compute in E. injection E as <- <- <-. eexists. split; [reflexivity|]. split; reflexivity.
Defined.
End NsExample.
