(* ===== verification/DnsUrl.v ===== *)
(** * Server addresses

    [DnsUrl] (src/dns_url.rs): the addresses of upstream servers, as they are read from
    and printed to text, and what the client takes from them.

    The [url] crate ([Url::parse], the printing of hosts and the coding of forms),
    [str::to_lowercase] outside ASCII and two facts of hickory's [Protocol] are
    arguments. *)

From S2P Require Import Prelude Dns DomainMap Nom NomProps ConfigText Text.
From Stdlib Require Import Ascii.

(** ** The crates *)

(** [url::Host], and the parts of a [Url] that are used. *)
Inductive Host := HDomain (s : string) | HIpv4 (a : Z) | HIpv6 (a : Z).
Inductive Protocol := PUdp | PTcp | PTls | PHttps | PQuic | PH3.
Record Url := {
  ul_scheme : string; ul_host : option Host; ul_port : option Z; ul_path : string;
  ul_query : option string; ul_fragment : option string }.

#[export] Instance Host_eq_dec : EqDecision Host.
Proof. solve_decision. Defined.
#[export] Instance Protocol_eq_dec : EqDecision Protocol.
Proof. solve_decision. Defined.

(** A pair without a value is printed as its key alone. *)
Class UrlCrate := {
  url_parse : string → option Url;
  host_display : Host → string;
  form_parse : string → list (string * string);
  form_display : list (string * option string) → string;
  text_lowercase : string → string;
  protocol_encrypted : Protocol → bool;
  query_path : string;
}.

(** ** Parameters *)

(** A [BTreeMap] of texts. *)
Abbreviation Params := (gmap string string).

(** [bool::from_str] *)
Definition bool_from_str (s : string) : option bool :=
  if bool_decide (s = "true") then Some true else if bool_decide (s = "false") then Some false else None.
Definition bool_text (b : bool) : string := if b then "true" else "false".

Definition get_param {T} (of_str : string → option T) (name : string) (p : Params) : option T := p !! name ≫= of_str.
Definition set_param (name v : string) (p : Params) : Params := <[name := v]> p.
Definition is_set (name : string) (p : Params) : bool := bool_decide (is_Some (p !! name)).
Definition set_sni_off (v : bool) : Params → Params := set_param "sni" (bool_text (negb v)).
Definition set_ssl_verify (v : bool) : Params → Params := set_param "ssl_verify" (bool_text v).
Definition sni_off (p : Params) : bool :=
  match get_param bool_from_str "sni" p with
  | Some v => negb v
  | None => match get_param bool_from_str "enable_sni" p with Some v => negb v | None => false end
  end.
Definition ssl_verify (p : Params) : bool := default true (get_param bool_from_str "ssl_verify" p).

(** ** Addresses *)

Inductive HttpsPrefer := PreferAuto | PreferH2 | PreferH3.
Inductive ProtocolConfig :=
| CUdp | CTcp | CTls | CHttps (path : string) (prefer : HttpsPrefer) | CQuic | CH3 (path : string) (disable_grease : bool)
| CSystem | CDhcp (interface : option string).
Record DnsUrl := {
  du_name : string; proto : ProtocolConfig; du_host : Host; du_port : option Z; params : Params; options : Params }.

#[export] Instance HttpsPrefer_eq_dec : EqDecision HttpsPrefer.
Proof. solve_decision. Defined.
#[export] Instance ProtocolConfig_eq_dec : EqDecision ProtocolConfig.
Proof. solve_decision. Defined.
#[export] Instance DnsUrl_eq_dec : EqDecision DnsUrl.
Proof. solve_decision. Defined.

Definition to_protocol (c : ProtocolConfig) : option Protocol :=
  match c with
  | CUdp => Some PUdp | CTcp => Some PTcp | CTls => Some PTls | CHttps _ _ => Some PHttps | CQuic => Some PQuic
  | CH3 _ _ => Some PH3 | CSystem | CDhcp _ => None
  end.
Definition protocol_port (p : Protocol) : Z :=
  match p with PUdp | PTcp => 53 | PTls | PQuic => 853 | PHttps | PH3 => 443 end.
Definition default_port (c : ProtocolConfig) : Z := match to_protocol c with Some p => protocol_port p | None => 0 end.
Definition to_str (c : ProtocolConfig) : string :=
  match c with
  | CUdp => "udp" | CTcp => "tcp" | CTls => "tls" | CHttps _ _ => "https" | CQuic => "quic" | CH3 _ _ => "h3"
  | CSystem => "system" | CDhcp _ => "dhcp"
  end.

Definition port (u : DnsUrl) : Z := default (default_port (proto u)) (du_port u).
Definition host_ip (h : Host) : option IpAddr :=
  match h with HDomain _ => None | HIpv4 a => Some (IPv4 a) | HIpv6 a => Some (IPv6 a) end.
Definition ip (u : DnsUrl) : option IpAddr :=
  match host_ip (du_host u) with Some a => Some a | None => get_param ip_from_str "ip" (params u) end.
Definition has_ip (u : DnsUrl) : bool :=
  match proto u with CSystem | CDhcp _ => true | _ => bool_decide (is_Some (ip u)) end.

Definition with_params (f : Params → Params) (u : DnsUrl) : DnsUrl := {|
  du_name := du_name u; proto := proto u; du_host := du_host u; du_port := du_port u; params := f (params u); options := options u |}.
Definition set_ip (a : IpAddr) : DnsUrl → DnsUrl := with_params (set_param "ip" (show_ip a)).
Definition set_port (p : Z) (u : DnsUrl) : DnsUrl := {|
  du_name := du_name u; proto := proto u; du_host := du_host u; du_port := Some p; params := params u; options := options u |}.
Definition set_host (h : string) (u : DnsUrl) : DnsUrl :=
  let u := match host_ip (du_host u) with Some a => set_ip a u | None => u end in {|
  du_name := h; proto := proto u; du_host := HDomain h; du_port := du_port u; params := params u; options := options u |}.

(** ** Text *)

Section text.
Context `{!UrlCrate}.

Definition params_of_text (s : string) : Params := fold_left (λ m x, <[fst x := snd x]> m) (form_parse s) ∅.
(** A [BTreeMap] is read in the order of its keys. *)
Definition entries (p : Params) : list (string * string) := sort_by (λ a b, String.compare (fst a) (fst b)) (map_to_list p).
Definition entry_pair (x : string * string) : string * option string :=
  (fst x, if bool_decide (snd x = "") then None else Some (snd x)).
Definition params_display (p : Params) : string :=
  match entries p with [] => "" | l => form_display (map entry_pair l) end.

Definition is_encrypted (c : ProtocolConfig) : bool := match to_protocol c with Some p => protocol_encrypted p | None => false end.

Inductive DnsUrlParseErr := ParseError | ProtocolNotSupport (s : string) | HostUnspecified.

(** [DnsUrl::default] under the name of a scheme. *)
Definition named_url (name : string) (c : ProtocolConfig) : DnsUrl := {|
  du_name := name; proto := c; du_host := HDomain name; du_port := None; params := ∅; options := ∅ |}.

(** A domain that is an address is one. *)
Definition address_host (h : Host) : Host :=
  match h with
  | HDomain s => match ip_from_str s with Some (IPv4 a) => HIpv4 a | Some (IPv6 a) => HIpv6 a | None => h end
  | _ => h
  end.
Definition protocol_of_scheme (s : string) : option Protocol :=
  if bool_decide (s = "udp") then Some PUdp else if bool_decide (s = "tcp") then Some PTcp
  else if bool_decide (s = "tls") then Some PTls else if bool_decide (s = "https") then Some PHttps
  else if bool_decide (s = "quic") then Some PQuic else if bool_decide (s = "h3") then Some PH3 else None.

Definition text_ends_with_slash (s : string) : bool := bool_decide (is_Some (strip_suffix "/" s)).
Definition path_given (slash : bool) (path : string) : option string :=
  if bool_decide (path = "") || bool_decide (path = "/") && negb slash then None else Some path.
Definition prefer_of (options : Params) : HttpsPrefer :=
  if is_set "h2" options then PreferH2 else if is_set "h3" options then PreferH3 else PreferAuto.
Definition protocol_config (p : Protocol) (path : option string) (options : Params) : ProtocolConfig :=
  match p with
  | PUdp => CUdp | PTcp => CTcp | PTls => CTls | PQuic => CQuic
  | PHttps => CHttps (default query_path path) (prefer_of options)
  | PH3 => CH3 (default query_path path) (is_set "disable_grease" options)
  end.

(** The address once it is split into its parts. *)
Definition of_url (slash : bool) (url : Url) : result DnsUrl DnsUrlParseErr :=
  let host := address_host <$> ul_host url in
  if bool_decide (ul_scheme url = "dhcp") then
    Ok (named_url "dhcp" (CDhcp (host_display <$> host)))
  else
    match protocol_of_scheme (ul_scheme url) with
    | None => Err (ProtocolNotSupport (ul_scheme url))
    | Some p =>
        match host with
        | None => Err HostUnspecified
        | Some host =>
            let ps := params_of_text (default "" (ul_query url)) in
            let os := params_of_text (default "" (ul_fragment url)) in
            let name := match host with HDomain s => s | _ => default (host_display host) (ps !! "host") end in
            let path := path_given slash (ul_path url) in
            let '(host, ps) :=
              match ps !! "host" with
              | Some domain =>
                  let ps := delete "host" ps in
                  (HDomain domain, match host_ip host with Some a => set_param "ip" (show_ip a) ps | None => ps end)
              | None => (host, ps)
              end in
            Ok {| du_name := name; proto := protocol_config p path os; du_host := host; du_port := ul_port url;
                  params := ps; options := os |}
        end
    end.

Definition from_str (text : string) : result DnsUrl DnsUrlParseErr :=
  let url := text_lowercase text in
  if bool_decide (url = "system") then Ok (named_url url CSystem)
  else if bool_decide (url = "dhcp") then Ok (named_url url (CDhcp None))
  else
    let url := if includes "://" url then url else "udp://" +:+ url in
    match url_parse url with
    | None => Err ParseError
    | Some parts => of_url (text_ends_with_slash url) parts
    end.

Definition path_text (c : ProtocolConfig) : string := match c with CHttps p _ | CH3 p _ => p | _ => "" end.
Definition port_text (u : DnsUrl) : string :=
  match du_port u with
  | Some p => if (p =? default_port (proto u))%Z then "" else ":" +:+ decimal p
  | None => ""
  end.
(** Display for DnsUrl *)
Definition to_string (u : DnsUrl) : string :=
  to_str (proto u) +:+
  match proto u with
  | CSystem => ""
  | CDhcp interface => match interface with Some i => "://" +:+ i | None => "" end
  | _ =>
      "://" +:+ host_display (du_host u) +:+ port_text u +:+ path_text (proto u) +:+
      (if bool_decide (params u = ∅) then "" else "?" +:+ params_display (params u)) +:+
      (if bool_decide (options u = ∅) then "" else "#" +:+ params_display (options u))
  end.

(** [From<IpAddr>] and [From<SocketAddr>]; [unwrap] panics on an error. *)
Definition of_ip (a : IpAddr) : option DnsUrl :=
  match from_str (match a with IPv4 _ => show_ip a | IPv6 _ => "[" +:+ show_ip a +:+ "]" end) with Ok u => Some u | Err _ => None end.
Definition of_sock_addr (a : IpAddr) (p : Z) : option DnsUrl := set_port p <$> of_ip a.
End text.

(** ** A small implementation of the crate

    It reads addresses in normal form. *)

Module SimpleUrl.
Definition is_lower (c : ascii) : bool := (97 <=? code c)%Z && (code c <=? 122)%Z.
Definition opt_text (before : string) (o : option string) : string := match o with Some s => before +:+ s | None => "" end.

(** Forms: characters other than lower-case letters and digits are escaped. *)
Definition hex (n : nat) : ascii := ascii_of_nat (if (n <? 10)%nat then 48 + n else 87 + n).
Definition unhex (c : ascii) : nat := if (nat_of_ascii c <? 58)%nat then nat_of_ascii c - 48 else nat_of_ascii c - 87.
Definition plain_char (c : ascii) : bool := is_lower c || is_digit c.
Fixpoint enc (s : string) : string :=
  match s with
  | EmptyString => ""
  | String c s =>
      if plain_char c then String c (enc s)
      else String "%" (String (hex (nat_of_ascii c / 16)) (String (hex (nat_of_ascii c mod 16)) (enc s)))
  end.
Fixpoint dec (s : string) : string :=
  match s with
  | EmptyString => ""
  | String c s' =>
      match Ascii.eqb c "%", s' with
      | true, String a (String b r) => String (ascii_of_nat (16 * unhex a + unhex b)) (dec r)
      | _, _ => String c (dec s')
      end
  end.
Definition pair_text (x : string * option string) : string := enc (fst x) +:+ opt_text "=" (enc <$> snd x).
Definition read_pair (t : string) : string * string :=
  match split "=" t with k :: v :: _ => (dec k, dec v) | k :: _ => (dec k, "") | [] => ("", "") end.
Definition form_display (l : list (string * option string)) : string := join "&" (map pair_text l).
Definition form_parse (s : string) : list (string * string) := map read_pair (List.filter non_empty (split "&" s)).

(** Addresses: the parts between the marks. *)
Definition before (p : ascii → bool) (s : string) : string * string := span (λ c, negb (p c)) s.
Definition after_mark (s : string) : option string := match s with String _ r => Some r | EmptyString => None end.
Definition split_authority (authority : string) : string * string :=
  if starts_with "[" authority then
    let '(h, r) := before (Ascii.eqb "]") authority in (h +:+ "]", default "" (after_mark r))
  else before (Ascii.eqb ":") authority.
Definition read_port (s : string) : option (option Z) :=
  match s with
  | EmptyString => Some None
  | String _ d => if all_chars is_digit d then Some (Some (value_of 10 0 d)) else None
  end.
Definition parse_host (scheme s : string) : option Host :=
  match s with
  | EmptyString => None
  | String "[" r => match ip_from_str (fst (before (Ascii.eqb "]") r)) with Some (IPv6 a) => Some (HIpv6 a) | _ => None end
  | _ => match ip_from_str s with
         | Some (IPv4 a) => Some (if bool_decide (scheme = "https") then HIpv4 a else HDomain s)
         | _ => Some (HDomain s)
         end
  end.
Definition url_parse (s : string) : option Url :=
  let '(scheme, r) := before (Ascii.eqb ":") s in
  match r with
  | String ":" (String "/" (String "/" r)) =>
      let '(r, fragment) := before (Ascii.eqb "#") r in
      let '(r, query) := before (Ascii.eqb "?") r in
      let '(authority, path) := before (Ascii.eqb "/") r in
      let '(host, port) := split_authority authority in
      match parse_host scheme host, read_port port with
      | Some h, Some n => Some {| ul_scheme := scheme; ul_host := Some h; ul_port := n; ul_path := path;
                                  ul_query := after_mark query; ul_fragment := after_mark fragment |}
      | _, _ => None
      end
  | _ => None
  end.
#[export] Instance simple_url : UrlCrate := {
  DnsUrl.url_parse := url_parse;
  host_display h := match h with HDomain s => s | HIpv4 a => show_ipv4 a | HIpv6 a => "[" +:+ show_ipv6 a +:+ "]" end;
  DnsUrl.form_parse := form_parse; DnsUrl.form_display := form_display; text_lowercase := to_ascii_lowercase;
  protocol_encrypted p := match p with PUdp | PTcp => false | _ => true end; query_path := "/dns-query" }.

Example url_parse_examples :
  map (λ s, match from_str s with Ok u => Some (to_string u) | Err _ => None end)
    ["8.8.8.8"; "https://dns.google"; "tls://8.8.8.8:953?host=dns.google"; "https://Dns.Google/Query#h3"; "[2001:db8::1]:5353"; "system"; "h3://x.org:443/"; "ftp://a"] =
  [Some "udp://8.8.8.8"; Some "https://dns.google/dns-query"; Some "tls://dns.google:953?ip=8%2e8%2e8%2e8"; Some "https://dns.google/query#h3";
   Some "udp://[2001:db8::1]:5353"; Some "system"; Some "h3://x.org/"; None].
Proof. vm_compute. reflexivity. Qed.
End SimpleUrl.
