(* ===== verification/DnsUrlProps.v ===== *)
(** * Properties of server addresses

    A printed address is read back; what setting a host name keeps. *)

From S2P Require Import Prelude Dns DomainMap Nom NomProps ConfigText Text DnsUrl.
From Stdlib Require Import Ascii.

(** ** Characters *)

Import SimpleUrl (is_lower, opt_text).

Definition lower_text (s : string) : Prop := to_ascii_lowercase s = s.
Definition is_ascii (c : ascii) : bool := (code c <? 128)%Z.
Definition form_char (c : ascii) : bool :=
  is_lower (to_lower c) || is_digit c || in_set "*-._%+&=" c.
Definition domain_char (c : ascii) : bool := is_lower c || is_digit c || in_set "-." c.
Definition path_char (c : ascii) : bool := is_lower c || is_digit c || in_set "-_~/" c.
Definition ip6_char (c : ascii) : bool := is_digit c || is_lower c || in_set ":." c.

(** A name of letters, digits, hyphens and dots whose last label starts with a letter, and
    no punycode. *)
Definition plain_domain (s : string) : bool :=
  all_chars domain_char s && negb (includes "xn--" s) && bool_decide (ip_from_str s = None) &&
  match last (split "." s) with Some (String c _) => is_lower c | _ => false end.

(** ** What the crate does *)

(** The host of an address that is not of a scheme the standard names is not read
    further, so that an IPv4 address in it is a domain. *)
Definition read_host (p : Protocol) (h : Host) : Host :=
  match h, p with HIpv4 a, PHttps => h | HIpv4 a, _ => HDomain (show_ipv4 a) | _, _ => h end.
Definition scheme_of (p : Protocol) : string :=
  match p with PUdp => "udp" | PTcp => "tcp" | PTls => "tls" | PHttps => "https" | PQuic => "quic" | PH3 => "h3" end.
Definition host_ok (h : Host) : Prop :=
  match h with HDomain s => plain_domain s = true | HIpv4 a => (0 <= a < 2 ^ 32)%Z | HIpv6 a => (0 <= a < 2 ^ 128)%Z end.
Definition path_ok (s : string) : Prop := all_chars path_char s = true ∧ starts_with "/" s = true.
Definition url_text (p : Protocol) (h : string) (port : option Z) (path : string) (query fragment : option string) : string :=
  scheme_of p +:+ "://" +:+ h +:+ opt_text ":" (decimal <$> port) +:+ path +:+ opt_text "?" query +:+ opt_text "#" fragment.

Class UrlLaws `{!UrlCrate} := {
  lowercase_ascii s : all_chars is_ascii s = true → text_lowercase s = to_ascii_lowercase s;
  host_domain s : host_display (HDomain s) = s;
  host_ipv4 a : host_display (HIpv4 a) = show_ipv4 a;
  host_ipv6 a : ∃ t, host_display (HIpv6 a) = "[" +:+ t +:+ "]" ∧ all_chars ip6_char t = true;
  form_chars l : all_chars form_char (form_display l) = true;
  form_empty : form_parse "" = [];
  form_read l : Forall (λ x, fst x ≠ "" ∧ lower_text (fst x) ∧ lower_text (default "" (snd x)) ∧
                             all_chars is_ascii (fst x) = true ∧ all_chars is_ascii (default "" (snd x)) = true) l →
    form_parse (to_ascii_lowercase (form_display l)) = map (λ x, (fst x, default "" (snd x))) l;
  query_path_ok : path_ok query_path;
  (** [Url::parse] of an address in normal form; the port is not the one [https] implies. *)
  url_read p h port path query fragment :
    host_ok h → (∀ n, port = Some n → (0 <= n < 65536)%Z ∧ n ≠ protocol_port p) →
    (path_ok path ∨ path = "" ∧ p ≠ PHttps) →
    (∀ q, query = Some q → q ≠ "" ∧ all_chars form_char q = true) →
    (∀ f, fragment = Some f → f ≠ "" ∧ all_chars form_char f = true) →
    url_parse (url_text p (host_display h) port path query fragment) =
      Some {| ul_scheme := scheme_of p; ul_host := Some (read_host p h); ul_port := port; ul_path := path;
              ul_query := query; ul_fragment := fragment |};
}.

(** ** Lower case *)

Lemma lower_app a b : to_ascii_lowercase (a +:+ b) = to_ascii_lowercase a +:+ to_ascii_lowercase b.
Proof. induction a as [|c a IH]; [done|]. rewrite !string_app_cons. cbn [to_ascii_lowercase]. by rewrite IH, string_app_cons. Qed.
Lemma lower_chars (p : ascii → bool) s : (∀ c, p c = true → to_lower c = c) → all_chars p s = true → lower_text s.
Proof.
  intros Hp. unfold lower_text. induction s as [|c s IH]; [done|]. cbn [all_chars to_ascii_lowercase].
  intros [Hc Hs]%andb_true_iff. by rewrite Hp, IH.
Qed.
(** A fact about every character. *)
Ltac each_char c := destruct c as [[] [] [] [] [] [] [] []]; vm_compute; congruence.

Lemma domain_lower s : all_chars domain_char s = true → lower_text s.
Proof. apply lower_chars. intros c. each_char c. Qed.
Lemma path_lower s : all_chars path_char s = true → lower_text s.
Proof. apply lower_chars. intros c. each_char c. Qed.
Lemma digits_lower s : all_chars is_digit s = true → lower_text s.
Proof. apply lower_chars. intros c. each_char c. Qed.
Lemma ip6_lower s : all_chars ip6_char s = true → lower_text s.
Proof. apply lower_chars. intros c. each_char c. Qed.
Lemma domain_ascii s : all_chars domain_char s = true → all_chars is_ascii s = true.
Proof. apply all_chars_impl. intros c. each_char c. Qed.
Lemma path_ascii s : all_chars path_char s = true → all_chars is_ascii s = true.
Proof. apply all_chars_impl. intros c. each_char c. Qed.
Lemma digits_ascii s : all_chars is_digit s = true → all_chars is_ascii s = true.
Proof. apply all_chars_impl. intros c. each_char c. Qed.
Lemma ip6_ascii s : all_chars ip6_char s = true → all_chars is_ascii s = true.
Proof. apply all_chars_impl. intros c. each_char c. Qed.
Lemma form_ascii s : all_chars form_char s = true → all_chars is_ascii s = true.
Proof. apply all_chars_impl. intros c. each_char c. Qed.
Lemma form_lower s : all_chars form_char s = true → all_chars form_char (to_ascii_lowercase s) = true.
Proof.
  induction s as [|c s IH]; [done|]. cbn [all_chars to_ascii_lowercase]. intros [Hc Hs]%andb_true_iff. rewrite IH by done.
  rewrite andb_true_r. revert Hc. each_char c.
Qed.

Lemma show_ipv4_chars x : all_chars (λ c, is_digit c || Ascii.eqb c ".") (show_ipv4 x) = true.
Proof.
  unfold show_ipv4. pose proof (to_be_range 256 4 x ltac:(lia)) as Hr. induction Hr as [|d l Hd Hl IH]; [done|].
  assert (Hd' : all_chars (λ c, is_digit c || Ascii.eqb c ".") (show_u8 d) = true).
  { eapply all_chars_impl; [|apply (show_u8_chars d Hd)]. by intros c ->. }
  destruct (decide (l = [])) as [->|Hne]; [done|]. cbn [map]. rewrite join_cons by (by destruct l). by rewrite !all_chars_app, Hd', IH.
Qed.
Lemma show_ipv4_domain x : all_chars domain_char (show_ipv4 x) = true.
Proof. eapply all_chars_impl, show_ipv4_chars. intros c. each_char c. Qed.

Lemma show_ipv6_lower a : all_chars ip6_char (show_ipv6 a) = true.
Proof.
  assert (Hh : ∀ n, all_chars ip6_char (show_hex n) = true).
  { intros n. apply (digits_of_chars 16); [lia| |done]. intros d Hd.
    assert (Hall : forallb (λ i, ip6_char (digit_char (Z.of_nat i))) (seq 0 16) = true) by (vm_compute; reflexivity).
    rewrite forallb_forall in Hall. specialize (Hall (Z.to_nat d)).
    rewrite Z2Nat.id in Hall by lia. apply Hall, in_seq. lia. }
  assert (Hs : ∀ l, all_chars ip6_char (show_segments l) = true).
  { intros l. unfold show_segments. induction l as [|x [|y l] IH]; [done|apply Hh|].
    change (join ":" (map show_hex (x :: y :: l))) with (show_hex x +:+ ":" +:+ join ":" (map show_hex (y :: l))).
    by rewrite !all_chars_app, Hh, IH. }
  assert (H4 : ∀ x, all_chars ip6_char (show_ipv4 x) = true).
  { intros x. eapply all_chars_impl, show_ipv4_chars. intros c. each_char c. }
  unfold show_ipv6. cbv zeta. case_if; [by rewrite all_chars_app, H4|].
  destruct (zero_run _ _ _ _) as [st len]. case_if; by rewrite ?all_chars_app, ?Hs.
Qed.

(** ** Reading what was printed *)

Section roundtrip.
Context `{!UrlCrate, !UrlLaws}.

(** Texts of parameters. *)
Definition param_text (s : string) : Prop := lower_text s ∧ all_chars is_ascii s = true.
Definition params_ok (p : Params) : Prop := map_Forall (λ k v, k ≠ "" ∧ param_text k ∧ param_text v) p.

Lemma entries_perm p : entries p ≡ₚ map_to_list p.
Proof. apply sort_by_perm. Qed.
Lemma fold_insert (l : list (string * string)) (m : gmap string string) : NoDup l.*1 → (∀ x, x ∈ l.*1 → m !! x = None) →
  fold_left (λ m x, <[fst x := snd x]> m) l m = list_to_map l ∪ m.
Proof.
  revert m. induction l as [|[k v] l IH]; intros m Hnd Hm; cbn; [by rewrite (left_id_L ∅ (∪))|].
  cbn in Hnd. apply NoDup_cons in Hnd as [Hk Hnd]. rewrite IH; [|done|].
  - rewrite <-insert_union_r, insert_union_l; [done|]. by apply not_elem_of_list_to_map_1.
  - intros x Hx. rewrite lookup_insert_ne; [apply Hm; cbn; set_solver|]. set_solver.
Qed.
Lemma entry_pair_read x : (fst (entry_pair x), default "" (snd (entry_pair x))) = x.
Proof. destruct x as [k v]. unfold entry_pair. cbn. by case_bool_decide; subst. Qed.

Lemma entries_ok p : params_ok p → Forall (λ x, fst x ≠ "" ∧ lower_text (fst x) ∧ lower_text (default "" (snd x)) ∧
  all_chars is_ascii (fst x) = true ∧ all_chars is_ascii (default "" (snd x)) = true) (map entry_pair (entries p)).
Proof.
  intros Hp. apply Forall_map, Forall_forall. intros [k v] Hx. rewrite entries_perm in Hx.
  apply elem_of_map_to_list, Hp in Hx as (Hk & [Hk1 Hk2] & [Hv1 Hv2]). cbn. pose proof (entry_pair_read (k, v)) as E.
  cbn in E. injection E as E. by rewrite E.
Qed.
Lemma params_read p : params_ok p → params_of_text (to_ascii_lowercase (params_display p)) = p.
Proof.
  intros Hp. unfold params_of_text, params_display. pose proof (entries_ok p Hp) as Ho. pose proof (entries_perm p) as Hperm.
  assert (Hread : fold_left (λ m x, <[fst x := snd x]> m) (entries p) ∅ = p).
  { rewrite fold_insert; [|rewrite Hperm; apply NoDup_fst_map_to_list|done]. rewrite (right_id_L ∅ (∪)).
    rewrite (list_to_map_proper _ (map_to_list p)); [apply list_to_map_to_list|rewrite Hperm; apply NoDup_fst_map_to_list|done]. }
  destruct (entries p) as [|x l]; [cbn; by rewrite form_empty|]. rewrite form_read by done.
  rewrite map_map, (map_ext _ id entry_pair_read), map_id. done.
Qed.
Lemma params_display_chars p : all_chars form_char (params_display p) = true.
Proof. unfold params_display. destruct (entries p); [done|]. apply form_chars. Qed.
Lemma params_display_ne p : params_ok p → p ≠ ∅ → to_ascii_lowercase (params_display p) ≠ "".
Proof. 
  intros Hp Hne E. apply Hne. rewrite <-(params_read p Hp), E. unfold params_of_text. by rewrite form_empty.
Qed.

(** Hosts. *)
Lemma host_text h : host_ok h → lower_text (host_display h) ∧ all_chars is_ascii (host_display h) = true.
Proof.
  destruct h as [s|a|a]; cbn.
  - intros [[[Hs _]%andb_true_iff _]%andb_true_iff _]%andb_true_iff. rewrite host_domain. auto using domain_lower, domain_ascii.
  - intros _. rewrite host_ipv4. auto using domain_lower, domain_ascii, show_ipv4_domain.
  - intros _. destruct (host_ipv6 a) as (t & -> & Ht). unfold lower_text. rewrite !lower_app, !all_chars_app, (ip6_ascii t) by done.
    by rewrite (ip6_lower t Ht).
Qed.

(** Addresses in the form [from_str] gives them: the name is the host, the settings of the
    protocol are those of the options, and a bare [/] has nothing behind it. *)
Record printable (u : DnsUrl) (p : Protocol) : Prop := {
  pr_proto : to_protocol (proto u) = Some p;
  pr_path : path_text (proto u) ≠ "" → path_ok (path_text (proto u));
  pr_config : proto u = protocol_config p (Some (path_text (proto u))) (options u);
  pr_slash : path_text (proto u) = "/" → params u = ∅ ∧ options u = ∅;
  pr_https : to_protocol (proto u) = Some PHttps ∨ to_protocol (proto u) = Some PH3 → path_text (proto u) ≠ "";
  pr_host : host_ok (du_host u);
  pr_name : du_name u = host_display (du_host u);
  pr_port : ∀ n, du_port u = Some n → (0 <= n < 65536)%Z;
  pr_params : params_ok (params u) ∧ params u !! "host" = None;
  pr_options : params_ok (options u);
}.

Definition shown_port (u : DnsUrl) : option Z :=
  match du_port u with Some n => if (n =? default_port (proto u))%Z then None else Some n | None => None end.
Definition shown (q : Params) : option string := if bool_decide (q = ∅) then None else Some (params_display q).
Lemma to_string_url u p : to_protocol (proto u) = Some p →
  to_string u = url_text p (host_display (du_host u)) (shown_port u) (path_text (proto u)) (shown (params u)) (shown (options u)).
Proof.
  intros Hp. unfold to_string, url_text, port_text, shown_port, shown.
  assert (Hsch : to_str (proto u) = scheme_of p) by (destruct (proto u); simplify_eq/=; done).
  rewrite Hsch. destruct (proto u) eqn:E; simplify_eq/=; destruct (du_port u); repeat case_match; done.
Qed.

Lemma opt_lower b o : lower_text b → to_ascii_lowercase (opt_text b o) = opt_text b (to_ascii_lowercase <$> o).
Proof. intros Hb. destruct o; [|done]. cbn. by rewrite lower_app, Hb. Qed.
Lemma url_text_lower p h port path q f : lower_text h → lower_text path → (∀ n, port = Some n → (0 <= n)%Z) →
  to_ascii_lowercase (url_text p h port path q f) = url_text p h port path (to_ascii_lowercase <$> q) (to_ascii_lowercase <$> f).
Proof.
  intros Hh Hp Hn. assert (Hport : to_ascii_lowercase <$> (decimal <$> port) = decimal <$> port).
  { destruct port as [n|]; [|done]. cbn. f_equal. apply digits_lower, decimal_ok. eauto. }
  unfold url_text. rewrite !lower_app, Hh, Hp, !opt_lower, Hport by done. by destruct p.
Qed.
Lemma opt_ascii b o : all_chars is_ascii b = true → (∀ s, o = Some s → all_chars is_ascii s = true) → all_chars is_ascii (opt_text b o) = true.
Proof. intros Hb Ho. destruct o; [|done]. cbn. rewrite all_chars_app, Hb. by apply Ho. Qed.

Lemma read_address_host p h : host_ok h → address_host (read_host p h) = h.
Proof.
  destruct h as [s|a|a]; unfold host_ok, plain_domain, read_host.
  - intros [[_ Hs%bool_decide_eq_true]%andb_true_iff _]%andb_true_iff. unfold address_host. by rewrite Hs.
  - intros Ha. assert (E : ip_from_str (show_ipv4 a) = Some (IPv4 a)).
    { apply (ip_from_str_show (IPv4 a)). unfold ip_valid. lia. }
    destruct p; unfold address_host; by rewrite ?E.
  - done.
Qed.
Lemma scheme_protocol p : protocol_of_scheme (scheme_of p) = Some p.
Proof. by destruct p. Qed.
Lemma url_text_slash p h port : text_ends_with_slash (url_text p h port "/" None None) = true.
Proof.
  unfold text_ends_with_slash. apply bool_decide_eq_true. eexists. apply strip_suffix_spec. unfold url_text. cbn.
  by rewrite !string_app_nil_r, <-!string_app_assoc.
Qed.

(** The address without a port that its protocol implies. *)
Definition without_default_port (u : DnsUrl) : DnsUrl := {|
  du_name := du_name u; proto := proto u; du_host := du_host u; du_port := shown_port u; params := params u; options := options u |}.

Lemma of_url_shown u p slash : printable u p → (path_text (proto u) = "/" → slash = true) →
  of_url slash {| ul_scheme := scheme_of p; ul_host := Some (read_host p (du_host u)); ul_port := shown_port u;
    ul_path := path_text (proto u); ul_query := to_ascii_lowercase <$> shown (params u);
    ul_fragment := to_ascii_lowercase <$> shown (options u) |} = Ok (without_default_port u).
Proof.
  intros Hu Hslash. unfold of_url. cbn [ul_scheme ul_host ul_port ul_path ul_query ul_fragment fmap option_fmap option_map].
  rewrite (read_address_host _ _ (pr_host _ _ Hu)), scheme_protocol, bool_decide_false by by destruct p.
  assert (Hshow : ∀ q, params_ok q → params_of_text (default "" (to_ascii_lowercase <$> shown q)) = q).
  { intros q Hq. unfold shown. case_bool_decide; [subst; cbn; unfold params_of_text; by rewrite form_empty|]. by apply params_read. }
  destruct (pr_params _ _ Hu) as [Hps Hhost]. rewrite !Hshow by (done || apply Hu). rewrite Hhost.
  unfold without_default_port. f_equal. f_equal; [rewrite (pr_name _ _ Hu); by destruct (du_host u); cbn; rewrite ?host_domain|].
  symmetry. etrans; [apply (pr_config _ _ Hu)|]. pose proof (pr_https _ _ Hu) as Hne. pose proof (pr_proto _ _ Hu) as Hp.
  unfold path_given. destruct (decide (path_text (proto u) = "")) as [E|E].
  - rewrite E, bool_decide_true by done. cbn. destruct p; try done; exfalso; apply Hne; auto.
  - rewrite bool_decide_false by done. cbn. case_bool_decide as E'; [|done]. by rewrite Hslash.
Qed.

(** C28. A printed address is read back, up to a port that the protocol implies anyway. *)
Theorem url_roundtrip u p : printable u p → from_str (to_string u) = Ok (without_default_port u).
Proof.
  intros Hu. rewrite (to_string_url u p) by apply Hu. unfold from_str.
  destruct (host_text _ (pr_host _ _ Hu)) as [Hh1 Hh2].
  assert (Hpath : all_chars path_char (path_text (proto u)) = true).
  { destruct (decide (path_text (proto u) = "")) as [->|E]; [done|]. by apply (pr_path _ _ Hu). }
  assert (Hport : ∀ n, shown_port u = Some n → (0 <= n < 65536)%Z ∧ n ≠ protocol_port p).
  { intros n. unfold shown_port, default_port. rewrite (pr_proto _ _ Hu). destruct (du_port u) as [m|] eqn:Em; [|done].
    destruct (m =? protocol_port p)%Z eqn:E; [done|]. intros [= ->]. split; [by eapply pr_port|lia]. }
  assert (Hq : ∀ q s, shown q = Some s → all_chars form_char s = true).
  { intros q s. unfold shown. case_bool_decide; [done|]. intros [= <-]. apply params_display_chars. }
  assert (Hform : ∀ q s, params_ok q → to_ascii_lowercase <$> shown q = Some s → s ≠ "" ∧ all_chars form_char s = true).
  { intros q s Hok. unfold shown. case_bool_decide; [done|]. intros [= <-].
    split; [by apply params_display_ne|apply form_lower, params_display_chars]. }
  rewrite lowercase_ascii.
  2:{ unfold url_text. rewrite !all_chars_app, Hh2, (path_ascii _ Hpath). rewrite !opt_ascii; [by destruct p|..]; try done.
      - intros s Hs. eapply form_ascii, Hq, Hs.
      - intros s Hs. eapply form_ascii, Hq, Hs.
      - intros s (n & [Hn _]%Hport & ->)%fmap_Some. apply digits_ascii, decimal_ok. lia. }
  rewrite url_text_lower; [|done|by apply path_lower|by intros n [Hn _]%Hport; lia].
  set (text := url_text p (host_display (du_host u)) (shown_port u) (path_text (proto u)) (to_ascii_lowercase <$> shown (params u))
    (to_ascii_lowercase <$> shown (options u))).
  assert (Hinc : includes "://" text = true) by (apply includes_spec; by eexists (scheme_of p), _).
  assert (text ≠ "system" ∧ text ≠ "dhcp") as [H1 H2] by (split; intros E; rewrite E in Hinc; done).
  rewrite !bool_decide_false, Hinc by done. unfold text at 1. rewrite url_read.
  - apply of_url_shown; [done|]. intros E. destruct (pr_slash _ _ Hu E) as [E1 E2]. unfold text. rewrite E, E1, E2.
    apply url_text_slash.
  - apply Hu.
  - done.
  - destruct (decide (path_text (proto u) = "")) as [E|E]; [right|left; by apply Hu]. split; [done|]. intros ->.
    apply (pr_https _ _ Hu); [left; apply Hu|done].
  - intros q. apply Hform, Hu.
  - intros f. apply Hform, Hu.
Qed.
End roundtrip.

(** ** The small implementation of the crate *)

Module SimpleUrlLaws.
Import SimpleUrl Nom.

Lemma dec_enc s : dec (enc s) = s.
Proof.
  induction s as [|c s IH]; [done|]. cbn [enc]. destruct (plain_char c) eqn:Hc.
  - cbn [dec]. rewrite IH. destruct (Ascii.eqb c "%") eqn:E; [apply Ascii.eqb_eq in E as ->; done|]. done.
  - cbn [dec]. rewrite IH. f_equal. clear. destruct c as [[] [] [] [] [] [] [] []]; vm_compute; reflexivity.
Qed.
Lemma enc_chars s : all_chars (λ c, plain_char c || Ascii.eqb c "%") (enc s) = true.
Proof.
  induction s as [|c s IH]; [done|]. cbn [enc]. destruct (plain_char c) eqn:Hc; cbn [all_chars]; rewrite IH; [by rewrite Hc|].
  rewrite andb_true_r. clear. destruct c as [[] [] [] [] [] [] [] []]; vm_compute; reflexivity.
Qed.
Lemma pair_chars x : all_chars (λ c, plain_char c || in_set "%=" c) (pair_text x) = true.
Proof.
  assert (He : ∀ s, all_chars (λ c, plain_char c || in_set "%=" c) (enc s) = true).
  { intros s. eapply all_chars_impl, enc_chars. intros c. each_char c. }
  unfold pair_text. rewrite all_chars_app, He. destruct x as [k [v|]]; [|done]. cbn. apply He.
Qed.
Lemma read_pair_text x : read_pair (pair_text x) = (fst x, default "" (snd x)).
Proof.
  assert (He : ∀ s, all_chars (λ c, negb (Ascii.eqb c "=")) (enc s) = true).
  { intros s. eapply all_chars_impl, enc_chars. intros c. each_char c. }
  destruct x as [k [v|]]; unfold read_pair, pair_text; cbn [fst snd fmap option_fmap option_map opt_text default].
  - replace (split "=" _) with [enc k; enc v]; [by rewrite !dec_enc|].
    symmetry. apply (split_join "=" [enc k; enc v]); [done|]. by repeat constructor.
  - rewrite string_app_nil_r. replace (split "=" _) with [enc k]; [by rewrite dec_enc|].
    symmetry. apply (split_join "=" [enc k]); [done|]. by repeat constructor.
Qed.
Lemma form_display_chars (p : ascii → bool) l : p "&"%char = true → (∀ c, plain_char c || in_set "%=" c = true → p c = true) →
  all_chars p (form_display l) = true.
Proof.
  intros Hand Hp. unfold form_display. induction l as [|x l IH]; [done|].
  assert (Hx : all_chars p (pair_text x) = true) by (eapply all_chars_impl, pair_chars; auto).
  destruct l as [|y l]; [done|]. change (join "&" (map pair_text (x :: y :: l))) with (pair_text x +:+ "&" +:+ join "&" (map pair_text (y :: l))).
  rewrite !all_chars_app, Hx, IH. cbn. by rewrite Hand.
Qed.
Lemma form_parse_display l : Forall (λ x, fst x ≠ "") l →
  form_parse (to_ascii_lowercase (form_display l)) = map (λ x, (fst x, default "" (snd x))) l.
Proof.
  intros Hl. assert (Hlow : to_ascii_lowercase (form_display l) = form_display l).
  { apply (lower_chars (λ c, plain_char c || in_set "%=&" c)); [intros c; each_char c|].
    apply form_display_chars; [done|]. intros c. each_char c. }
  rewrite Hlow. unfold form_parse, form_display. destruct l as [|x l]; [done|].
  rewrite split_join; [|done|].
  - rewrite forallb_filter_id, map_map.
    + apply map_ext. apply read_pair_text.
    + apply forallb_forall. intros t Ht%list_elem_of_In. apply list_elem_of_fmap in Ht as (y & -> & Hy).
      rewrite Forall_forall in Hl. specialize (Hl y Hy). unfold non_empty. apply negb_true_iff, bool_decide_eq_false.
      unfold pair_text. destruct y as [[|c k] v]; [done|]. cbn. by destruct (plain_char c).
  - apply Forall_map, Forall_forall. intros y _. eapply all_chars_impl, pair_chars. intros c. each_char c.
Qed.

Lemma before_app (p q : ascii → bool) a b : all_chars q a = true → (∀ c, q c = true → p c = false) →
  match b with EmptyString => True | String c _ => p c = true end → before p (a +:+ b) = (a, b).
Proof.
  intros Ha Hq Hb. apply span_app; [eapply all_chars_impl, Ha; intros c Hc; by rewrite Hq|].
  destruct b as [|c b]; [done|]. cbn. by rewrite Hb.
Qed.

(** The text of a host with its port is split again. *)
Definition host_char (c : ascii) : bool := domain_char c || ip6_char c || in_set "[]" c.
Definition port_part (t : string) : Prop := match t with EmptyString => True | String c _ => c = ":"%char end.

Lemma domain_authority scheme s t : all_chars domain_char s = true → s ≠ "" → port_part t →
  split_authority (s +:+ t) = (s, t) ∧ parse_host scheme s =
    match ip_from_str s with Some (IPv4 a) => Some (if bool_decide (scheme = "https") then HIpv4 a else HDomain s) | _ => Some (HDomain s) end.
Proof.
  intros Hs Hne Ht. unfold split_authority. destruct s as [|c s]; [done|]. cbn [all_chars] in Hs.
  assert (Hc : Ascii.eqb c "[" = false).
  { destruct (Ascii.eqb c "[") eqn:E; [|done]. apply Ascii.eqb_eq in E as ->. done. }
  rewrite string_app_cons. cbn [starts_with]. rewrite Hc, <-string_app_cons. split.
  - apply (before_app _ domain_char); [done|intros x; each_char x|]. destruct t; [done|]. by cbn in Ht; subst.
  - unfold parse_host. destruct c as [[] [] [] [] [] [] [] []]; done.
Qed.
Lemma ipv6_authority scheme a t : (0 <= a < 2 ^ 128)%Z → port_part t →
  split_authority (("[" +:+ show_ipv6 a +:+ "]") +:+ t) = ("[" +:+ show_ipv6 a +:+ "]", t) ∧
  parse_host scheme ("[" +:+ show_ipv6 a +:+ "]") = Some (HIpv6 a).
Proof.
  intros Ha Ht. assert (Hv : ip_valid (IPv6 a) = true) by (unfold ip_valid; lia).
  destruct (show_ip_chars _ Hv) as [Hc _]. pose proof (ip_from_str_show _ Hv) as Hr. cbn [show_ip] in Hc, Hr.
  assert (Hb : ∀ b, before (Ascii.eqb "]") (show_ipv6 a +:+ String "]" b) = (show_ipv6 a, String "]" b)).
  { intros b. apply (before_app _ (λ c, is_hex_colon c || Ascii.eqb c ".")); [done|intros x; each_char x|done]. }
  unfold split_authority, parse_host. rewrite !string_app_assoc. change ("[" +:+ ?z) with (String "[" z). change ("]" +:+ ?z) with (String "]" z).
  change (starts_with "[" (String "[" _)) with true. cbv iota. unfold before in *. cbn [span]. split.
  - change (negb (Ascii.eqb "]" "[")) with true. cbv iota. by rewrite Hb.
  - change "]" with (String "]" ""). rewrite Hb. cbn [fst]. by rewrite Hr.
Qed.

Lemma host_authority p h t : host_ok h → port_part t →
  split_authority (host_display h +:+ t) = (host_display h, t) ∧ parse_host (scheme_of p) (host_display h) = Some (read_host p h) ∧
  all_chars host_char (host_display h) = true.
Proof.
  intros Hh Ht. destruct h as [s|a|a]; cbn [host_display simple_url]; unfold host_ok, plain_domain, read_host in *.
  - apply andb_true_iff in Hh as [[[Hs _]%andb_true_iff Hip%bool_decide_eq_true]%andb_true_iff Hl].
    assert (s ≠ "") by (intros ->; done). destruct (domain_authority (scheme_of p) s t) as [-> ->]; [done..|]. rewrite Hip.
    split_and!; [done..|]. eapply all_chars_impl, Hs. intros c. each_char c.
  - pose proof (show_ipv4_domain a) as Hc. assert (E : ip_from_str (show_ipv4 a) = Some (IPv4 a)).
    { apply (ip_from_str_show (IPv4 a)). unfold ip_valid. lia. }
    assert (show_ipv4 a ≠ "") by (intros E'; by rewrite E' in E).
    destruct (domain_authority (scheme_of p) (show_ipv4 a) t) as [-> ->]; [done..|]. rewrite E.
    split_and!; [done|by destruct p|]. eapply all_chars_impl, Hc. intros c. each_char c.
  - destruct (ipv6_authority (scheme_of p) a t) as [-> ->]; [done..|]. split_and!; [done..|].
    rewrite !all_chars_app, (all_chars_impl ip6_char host_char (show_ipv6 a)); [done| |apply show_ipv6_lower]. intros c. each_char c.
Qed.

Lemma opt_text_start (c : ascii) b o : match opt_text (String c b) o with EmptyString => True | String x _ => Ascii.eqb c x = true end.
Proof. destruct o; [|done]. cbn. apply Ascii.eqb_refl. Qed.
Lemma after_opt_text c o : after_mark (opt_text (String c "") o) = o.
Proof. by destruct o. Qed.
Lemma port_chars port : (∀ n, port = Some n → (0 <= n)%Z) →
  let t := opt_text ":" (decimal <$> port) in
  port_part t ∧ all_chars (λ c, is_digit c || Ascii.eqb c ":") t = true ∧ read_port t = Some port.
Proof.
  intros Hn. destruct port as [n|]; [|done]. destruct (decimal_ok n (Hn _ eq_refl)) as (H1 & _ & H3).
  cbn [fmap option_fmap option_map opt_text]. change (":" +:+ decimal n) with (String ":" (decimal n)). cbv zeta. split_and!; [done| |].
  - cbn [all_chars]. rewrite (all_chars_impl is_digit) by (done || by intros c ->). done.
  - unfold read_port. by rewrite H1, H3.
Qed.

Lemma simple_url_read p h port path query fragment :
  host_ok h → (∀ n, port = Some n → (0 <= n < 65536)%Z ∧ n ≠ protocol_port p) →
  (path_ok path ∨ path = "" ∧ p ≠ PHttps) →
  (∀ q, query = Some q → q ≠ "" ∧ all_chars form_char q = true) →
  (∀ f, fragment = Some f → f ≠ "" ∧ all_chars form_char f = true) →
  DnsUrl.url_parse (url_text p (host_display h) port path query fragment) =
    Some {| ul_scheme := scheme_of p; ul_host := Some (read_host p h); ul_port := port; ul_path := path;
            ul_query := query; ul_fragment := fragment |}.
Proof.
  intros Hh Hport Hpath Hq Hf.
  destruct (port_chars port) as (Hp1 & Hp2 & Hp3); [by intros n [? _]%Hport; lia|].
  set (t := opt_text ":" (decimal <$> port)) in *.
  destruct (host_authority p h t Hh Hp1) as (Ha & Hhost & Hhc).
  assert (Hr : DnsUrl.url_parse (url_text p (host_display h) port path query fragment) =
    url_parse (scheme_of p +:+ "://" +:+ ((host_display h +:+ t) +:+ path) +:+ opt_text "?" query +:+ opt_text "#" fragment)).
  { cbn [DnsUrl.url_parse simple_url]. unfold url_text. by rewrite !string_app_assoc. }
  rewrite Hr. unfold url_parse.
  rewrite (before_app (Ascii.eqb ":") plain_char (scheme_of p)); [|by destruct p|intros c; each_char c|done].
  change ("://" +:+ ?z) with (String ":" (String "/" (String "/" z))). cbv iota.
  assert (Hauth : all_chars host_char (host_display h +:+ t) = true).
  { rewrite all_chars_app, Hhc. eapply all_chars_impl, Hp2. intros c. each_char c. }
  assert (Hpc : all_chars path_char path = true) by (destruct Hpath as [[? _]|[-> _]]; done).
  assert (Hp' : match path with EmptyString => True | String c _ => Ascii.eqb "/" c = true end).
  { destruct Hpath as [[_ Hs]|[-> _]]; [|done]. destruct path as [|c path]; [done|]. cbn in Hs. by rewrite Ascii.eqb_sym. }
  assert (Hqc : all_chars (λ c, form_char c || Ascii.eqb c "?") (opt_text "?" query) = true).
  { destruct query as [q|]; [|done]. unfold opt_text. rewrite all_chars_app.
    rewrite (all_chars_impl form_char _ q) by (exact (proj2 (Hq q eq_refl)) || by intros c ->). done. }
  rewrite <-(string_app_assoc ((host_display h +:+ t) +:+ path)).
  rewrite (before_app (Ascii.eqb "#") (λ c, host_char c || path_char c || form_char c || Ascii.eqb c "?")).
  2:{ rewrite (all_chars_app _ _ (opt_text _ _)), (all_chars_app _ _ path).
      rewrite (all_chars_impl host_char _ (_ +:+ t)), (all_chars_impl path_char _ path); try done; [|intros c; each_char c..].
      eapply all_chars_impl, Hqc. intros c. each_char c. }
  2:{ intros c. each_char c. }
  2:{ apply opt_text_start. }
  rewrite (before_app (Ascii.eqb "?") (λ c, host_char c || path_char c)).
  2:{ rewrite (all_chars_app _ _ path), (all_chars_impl host_char _ (_ +:+ t)), (all_chars_impl path_char _ path); try done; intros c; each_char c. }
  2:{ intros c. each_char c. }
  2:{ apply opt_text_start. }
  rewrite (before_app (Ascii.eqb "/") host_char); [|done|intros c; each_char c|done].
  by rewrite Ha, Hhost, Hp3, !after_opt_text.
Qed.
#[export] Instance simple_laws : UrlLaws.
Proof.
  split; try done.
  - intros a. exists (show_ipv6 a). split; [done|apply show_ipv6_lower].
  - intros l. apply form_display_chars; [done|]. intros c. each_char c.
  - intros l Hl. apply form_parse_display. eapply Forall_impl; [exact Hl|]. intros x Hx. apply Hx.
  - exact simple_url_read.
Qed.

(** A DoH server with a port and preferences, and one over TLS whose address is a parameter. *)
Lemma url_roundtrip_witness :
  let u := {| du_name := "dns.example"; proto := CHttps "/dns-query" PreferH2; du_host := HDomain "dns.example"; du_port := Some 8443%Z;
              params := {[ "ip" := "2001:db8::1" ]}; options := {[ "h2" := "" ]} |} in
  from_str (to_string u) = Ok u.
Proof.
  intros u. apply (url_roundtrip u PHttps).
  assert (Hok : ∀ s, bool_decide (to_ascii_lowercase s = s) && all_chars is_ascii s = true → param_text s).
  { intros s [H1%bool_decide_eq_true H2]%andb_true_iff. by split. }
  split; try done.
  - intros n [= <-]. done.
  - split; [|done]. apply map_Forall_singleton. split; [done|]. split; apply Hok; vm_compute; reflexivity.
  - apply map_Forall_singleton. split; [done|]. split; apply Hok; vm_compute; reflexivity.
Defined.
End SimpleUrlLaws.

(** ** Host names *)

(** Naming a server that is given by its address changes what it is called and keeps where
    it is. *)
Lemma set_host_ip h u : (∀ a, host_ip (du_host u) = Some a → ip_valid a = true) → ip (set_host h u) = ip u.
Proof.
  intros Hv. unfold set_host, ip. cbn [du_host params host_ip]. destruct (host_ip (du_host u)) as [a|] eqn:E; [|done].
  unfold get_param. cbn [params set_ip with_params]. unfold set_param. rewrite lookup_insert_eq. cbn. by apply ip_from_str_show, Hv.
Qed.
