(* ===== verification/UpstreamApi.v ===== *)
(** * Server groups and [/api/nameservers]

    How [DnsClientBuilder::build] (src/dns_client.rs) shares one [NameServer] per
    configured server among the groups it belongs to, and how the handler of
    src/api/nameserver.rs adds up the statistics the upstream page shows. *)

From S2P Require Import Prelude Float64 Dns IpSet Nom DnsUrl NameServer Jsx WebApi.

(** ** Configuration *)

Record NameServerInfo := {
  i_name : option string;
  i_server : DnsUrl;
  i_group : list string;
  i_blacklist_ip : bool;
  i_whitelist_ip : bool;
  i_check_edns : bool;
  i_exclude_default_group : bool;
  i_proxy : option string;
  i_bootstrap_dns : bool;
  i_resolve_group : option string;
  i_subnet : option IpNet;
  i_so_mark : option Z;
  i_interface : option string;
  i_enabled : option bool;
}.

#[export] Instance NameServerInfo_eq_dec : EqDecision NameServerInfo.
Proof. solve_decision. Defined.

(** [From<DnsUrl>] *)
Definition server_of (u : DnsUrl) : NameServerInfo := {|
  i_name := None; i_server := u; i_group := []; i_blacklist_ip := false; i_whitelist_ip := false; i_check_edns := false;
  i_exclude_default_group := false; i_proxy := None; i_bootstrap_dns := false; i_resolve_group := None; i_subnet := None;
  i_so_mark := None; i_interface := None; i_enabled := None |}.

Definition enabled (i : NameServerInfo) : bool := default true (i_enabled i).

Definition show_bool (b : bool) : string := if b then "true" else "false".

Section servers.
Context `{!UrlCrate}.

(** [format!("{}|{}|{}|{}|{}|{}|{}", ..)] *)
Definition stats_key (i : NameServerInfo) : string :=
  join "|" [to_string (i_server i); join "," (i_group i); show_bool (i_blacklist_ip i);
            show_bool (i_whitelist_ip i); show_bool (i_check_edns i);
            show_bool (i_exclude_default_group i); show_bool (i_bootstrap_dns i)].

(** ** Groups *)

(** The members of a group: a [HashSet], so that each occurs once. *)
Definition default_members (infos : list NameServerInfo) : list NameServerInfo :=
  remove_dups (filter (λ i, i_exclude_default_group i = false) infos).
Definition group_members (g : string) (infos : list NameServerInfo) : list NameServerInfo :=
  remove_dups (filter (λ i, g ∈ i_group i) infos).
Definition group_names (infos : list NameServerInfo) : list string :=
  remove_dups (infos ≫= i_group).

(** The servers that resolve the names of the others. *)
Definition bootstrap_members (infos : list NameServerInfo) : list NameServerInfo :=
  match filter (λ i, i_bootstrap_dns i = true ∧ has_ip (i_server i) = true) infos with
  | [] => filter (λ i, has_ip (i_server i) = true ∧ i_proxy i = None) infos
  | l => l
  end.

(** [make_server(.., dedup = true)] creates each of them once. *)
Definition client_groups (infos : list NameServerInfo) : list (list NameServerInfo) :=
  (match default_members infos with
   | [] => remove_dups (bootstrap_members infos)
   | l => l
   end) :: map (λ g, group_members g infos) (group_names infos).

(** ** The handler *)

Record Agg := { ag_query : Z; ag_success : Z; ag_failure : Z; ag_time_ns : Z; ag_failing : bool }.
Definition agg_default : Agg :=
  {| ag_query := 0; ag_success := 0; ag_failure := 0; ag_time_ns := 0; ag_failing := false |}.

Definition agg_avg_time_ms (a : Agg) : f64 :=
  if (ag_query a =? 0)%Z then F64.zero
  else F64.div (F64.div (F64.of_Z (ag_time_ns a)) (F64.of_Z (ag_query a))) (F64.of_Z 1000000).

Definition protocol_label (c : ProtocolConfig) : string :=
  match c with
  | CUdp => "UDP" | CTcp => "TCP" | CSystem => "System" | CDhcp _ => "DHCP" | CTls => "DoT" | CHttps _ _ => "DoH" | CQuic => "DoQ"
  | CH3 _ _ => "DoH3"
  end.

Section handler.
(** The running servers: one per configuration, [None] when it could not be
    created. *)
Variable instance : NameServerInfo → option NameServer.

Definition add_server (now : Z) (m : gmap string Agg) (i : NameServerInfo) : gmap string Agg :=
  match instance i with
  | None => m
  | Some ns =>
      let a := default agg_default (m !! stats_key i) in
      <[stats_key i :=
          {| ag_query := u64 (ag_query a + query_count ns);
             ag_success := u64 (ag_success a + success_count ns);
             ag_failure := u64 (ag_failure a + failure_count ns);
             ag_time_ns := u64 (ag_time_ns a + total_time_ns ns);
             ag_failing := ag_failing a || is_failing now ns |}]> m
  end.

Definition aggregate_groups (now : Z) (groups : list (list NameServerInfo)) : gmap string Agg :=
  fold_left (add_server now) (concat groups) ∅.

Definition upstream_row (m : gmap string Agg) (i : NameServerInfo) : UpstreamServer :=
  let '(query, success, failure, avg, failing) :=
    match m !! stats_key i with
    | Some a => (ag_query a, ag_success a, ag_failure a, agg_avg_time_ms a, ag_failing a)
    | None => (0, 0, 0, F64.zero, false)%Z
    end in
  {| us_name := i_name i;
     server := to_string (i_server i);
     group := i_group i;
     protocol := protocol_label (proto (i_server i));
     security := if is_encrypted (proto (i_server i)) then "加密" else "明文";
     ip := default (host_display (du_host (i_server i))) (show_ip <$> DnsUrl.ip (i_server i));
     port := DnsUrl.port (i_server i);
     us_status := if failing then "error" else "ok";
     query_total := query;
     success_total := success;
     failure_total := failure;
     avg_time_ms := avg;
     success_rate := if (0 <? query)%Z
                     then F64.mul (F64.div (F64.of_Z success) (F64.of_Z query)) (F64.of_Z 100)
                     else F64.zero |}.

Definition nameservers (now : Z) (infos : list NameServerInfo) : list UpstreamServer :=
  map (upstream_row (aggregate_groups now (client_groups infos)))
    (filter (λ i, enabled i = true) infos).

(** ** Lemmas *)

(** A statistic of the servers, and the field that sums it up. *)
Record summed (f : Agg → Z) (g : NameServer → Z) : Prop := {
  summed_default : f agg_default = 0%Z;
  summed_add : ∀ now m i ns k, instance i = Some ns →
    from_option f 0%Z (add_server now m i !! k) =
      if bool_decide (stats_key i = k)
      then u64 (from_option f 0%Z (m !! k) + g ns) else from_option f 0%Z (m !! k);
}.

Lemma summed_fields :
  summed ag_query query_count ∧ summed ag_success success_count ∧ summed ag_failure failure_count.
Proof.
  split_and!; (split; [done|]); intros now m i ns k Hi; unfold add_server; rewrite Hi;
    (case_bool_decide as E; [subst k; rewrite lookup_insert_eq; simpl; by destruct (m !! stats_key i)|
     by rewrite lookup_insert_ne]).
Qed.

Lemma sum_of_keys f g now k : summed f g → ∀ l m,
  from_option f 0%Z (m !! k) = u64 (from_option f 0%Z (m !! k)) →
  from_option f 0%Z (fold_left (add_server now) l m !! k) =
    u64 (from_option f 0%Z (m !! k) +
         sumZ (λ i, if bool_decide (stats_key i = k) then from_option g 0%Z (instance i) else 0%Z) l).
Proof.
  intros [_ Hadd] l. induction l as [|i l IH]; intros m Hm.
  { simpl. by rewrite Z.add_0_r. }
  cbn [fold_left]. rewrite sumZ_cons. destruct (instance i) as [ns|] eqn:Hi.
  - pose proof (Hadd now m i ns k Hi) as E. rewrite IH.
    + rewrite E. case_bool_decide; simpl; rewrite ?u64_add_l; f_equal; lia.
    + rewrite E. case_bool_decide; [|done].
      pose proof (u64_add_l (from_option f 0%Z (m !! k) + g ns) 0) as Eu. by rewrite !Z.add_0_r in Eu.
  - unfold add_server at 2. rewrite Hi, IH by done. f_equal. case_bool_decide; simpl; lia.
Qed.

(** The sum over one group: the server itself, when it is a member. *)
Lemma sum_one_group (info : NameServerInfo) (v : NameServerInfo → Z) (l : list NameServerInfo) :
  NoDup l → (∀ i, i ∈ l → stats_key i = stats_key info → i = info) →
  sumZ (λ i, if bool_decide (stats_key i = stats_key info) then v i else 0%Z) l =
    (Z.b2z (bool_decide (info ∈ l)) * v info)%Z.
Proof.
  induction 1 as [|i l Hi Hnd IH]; intros Hinj; [done|]. rewrite sumZ_cons.
  rewrite IH by (intros; apply Hinj; set_solver).
  destruct (decide (i = info)) as [->|Hne].
  - rewrite (bool_decide_eq_true_2 (stats_key info = _)), (bool_decide_eq_false_2 (info ∈ l)),
      (bool_decide_eq_true_2 (info ∈ info :: l)) by set_solver. simpl. lia.
  - assert (bool_decide (stats_key i = stats_key info) = false) as ->.
    { apply bool_decide_eq_false_2. intros E. apply Hne, Hinj; set_solver. }
    replace (bool_decide (info ∈ i :: l)) with (bool_decide (info ∈ l)); [lia|].
    apply bool_decide_ext. set_solver.
Qed.

Lemma sum_groups (info : NameServerInfo) (v : NameServerInfo → Z) groups :
  Forall NoDup groups → (∀ i, i ∈ concat groups → stats_key i = stats_key info → i = info) →
  sumZ (λ i, if bool_decide (stats_key i = stats_key info) then v i else 0%Z) (concat groups) =
    (count_if (λ l, bool_decide (info ∈ l)) groups * v info)%Z.
Proof.
  induction 1 as [|l ls Hl Hls IH]; intros Hinj; [done|]. simpl concat.
  rewrite sumZ_app, count_if_cons, IH, sum_one_group; [lia|done|..];
    intros; apply Hinj; simpl; set_solver.
Qed.

Lemma client_groups_nodup infos : Forall NoDup (client_groups infos).
Proof.
  unfold client_groups. constructor.
  - pose proof (NoDup_remove_dups (filter (λ i, i_exclude_default_group i = false) infos)) as Hn.
    unfold default_members. destruct (remove_dups _); [apply NoDup_remove_dups|done].
  - apply Forall_map, Forall_forall. intros g _. apply NoDup_remove_dups.
Qed.

(** The statistics of the upstream page count a server once per group: when
    the statistics keys tell the configured servers apart, the totals shown for a
    server are its own counters multiplied by the number of groups - the default
    one included - that it is a member of. *)
Theorem upstream_totals (now : Z) (infos : list NameServerInfo) (info : NameServerInfo) (ns : NameServer)
    (Hinst : instance info = Some ns)
    (Hkeys : ∀ i, i ∈ concat (client_groups infos) → stats_key i = stats_key info → i = info) :
  let k := count_if (λ l, bool_decide (info ∈ l)) (client_groups infos) in
  let row := upstream_row (aggregate_groups now (client_groups infos)) info in
  query_total row = u64 (k * query_count ns) ∧
  success_total row = u64 (k * success_count ns) ∧
  failure_total row = u64 (k * failure_count ns).
Proof.
  cbv zeta. set (m := aggregate_groups now (client_groups infos)).
  set (k := count_if _ _).
  assert (Hsum : ∀ f g, summed f g → from_option f 0%Z (m !! stats_key info) = u64 (k * g ns)).
  { intros f g Hfg. unfold m, aggregate_groups. rewrite (sum_of_keys f g now _ Hfg) by done.
    rewrite lookup_empty. cbn [from_option]. rewrite Z.add_0_l. f_equal.
    rewrite (sum_groups info (λ i, from_option g 0%Z (instance i)) (client_groups infos)
               (client_groups_nodup infos) Hkeys).
    by rewrite Hinst. }
  destruct summed_fields as (Hq & Hs & Hf).
  rewrite <- (Hsum _ _ Hq), <- (Hsum _ _ Hs), <- (Hsum _ _ Hf). unfold upstream_row.
  by destruct (m !! stats_key info).
Qed.
End handler.
End servers.

Import SimpleUrl.

(** A server of the group [g1] that stays in the default group: its ten queries
    are shown as twenty. *)
Definition demo_info : NameServerInfo := {|
  i_name := None;
  i_server := {| du_name := "8.8.8.8"; proto := CUdp; du_host := HIpv4 134744072; du_port := None; params := ∅; options := ∅ |};
  i_group := ["g1"]; i_blacklist_ip := false; i_whitelist_ip := false; i_check_edns := false;
  i_exclude_default_group := false; i_proxy := None; i_bootstrap_dns := false; i_resolve_group := None; i_subnet := None;
  i_so_mark := None; i_interface := None; i_enabled := None |}.
Definition demo_ns : NameServer :=
  {| fail_streak := 0; last_failure := None; query_count := 10; success_count := 9;
     failure_count := 1; total_time_ns := 200000000 |}.

Lemma upstream_totals_witness :
  map query_total (nameservers (λ _, Some demo_ns) 0 [demo_info]) = [20%Z].
Proof.
  transitivity [query_total (upstream_row (aggregate_groups (λ _, Some demo_ns) 0
    (client_groups [demo_info])) demo_info)]; [reflexivity|].
  assert (Hk : ∀ i, i ∈ concat (client_groups [demo_info]) →
                    stats_key i = stats_key demo_info → i = demo_info).
  { intros i Hi _. vm_compute in Hi. repeat (apply elem_of_cons in Hi as [->|Hi]; [reflexivity|]).
    by apply not_elem_of_nil in Hi. }
  rewrite (proj1 (upstream_totals (λ _, Some demo_ns) 0 [demo_info] demo_info demo_ns eq_refl Hk)).
  reflexivity.
Defined.
