(* ===== verification/ApiContract.v ===== *)
(** * The REST interface between the server and the dashboard

    What the handlers of src/api/ serialise, against what the interfaces and the
    request functions of webui/src/lib/api.ts expect. *)

From S2P Require Import Prelude Float64 DnsUrl Jsx WebApi WebUtils WebQueryLog WebCacheTab WebUpstream Dns AuditLog QueryLogApi App Stats Lru DnsCache CacheInv CacheProps CacheApi NameServer UpstreamApi.

(** ** Serialisation *)

(** The renderings of libraries: chrono's timestamps, hickory's record types and
    records. *)
Class Render := {
  rfc3339 : Z → string;
  json_record_type : RecordType → json;
  json_dns_class : Z → json;
  json_record : Record_ → json;
}.

Definition serialize_payload {A} (f : A → json) (p : DataListPayload A) : json :=
  JObj [("count", JInt (pl_count p)); ("total", JInt (pl_total p)); ("data", JArr (map f (pl_data p)))].

Definition json_opt_str (o : option string) : json := from_option JStr JNull o.

Definition serialize_UpstreamServer (u : UpstreamServer) : json :=
  JObj [("name", json_opt_str (us_name u)); ("server", JStr (WebApi.server u));
        ("group", JArr (map JStr (group u))); ("protocol", JStr (protocol u));
        ("security", JStr (security u)); ("ip", JStr (ip u)); ("port", JInt (port u));
        ("status", JStr (us_status u)); ("query_total", JInt (query_total u));
        ("success_total", JInt (success_total u)); ("failure_total", JInt (failure_total u));
        ("avg_time_ms", json_f64 (avg_time_ms u)); ("success_rate", json_f64 (success_rate u))].

Section contract.
Context `{Render}.

Definition serialize_CachedQueryRecord (r : CachedQueryRecord) : json :=
  JObj [("name", JStr (cr_name r)); ("hits", JInt (cr_hits r));
        ("last_access", JStr (rfc3339 (cr_last_access r)));
        ("query_type", json_record_type (cr_query_type r));
        ("query_class", json_dns_class (cr_query_class r));
        ("records", JArr (map json_record (cr_records r)))].

Definition serialize_QueryLogEntry (e : AuditLog.QueryLogEntry) : json :=
  JObj [("time", JStr (rfc3339 (AuditLog.time e))); ("client", JStr (AuditLog.client e));
        ("domain", JStr (AuditLog.domain e)); ("query_type", JStr (AuditLog.query_type e));
        ("elapsed_ms", json_f64 (AuditLog.elapsed_ms e)); ("result", JStr (log_result e));
        ("speed_ms", from_option json_f64 JNull (AuditLog.speed_ms e));
        ("source", JStr (AuditLog.source e))].

Definition serialize_QueryLogList (l : QueryLogList) : json :=
  JObj [("total", JInt (total l)); ("data", JArr (map serialize_QueryLogEntry (log_data l)))].

(** What the dashboard makes of them. *)
Definition cache_entry_view (r : CachedQueryRecord) : CacheEntry :=
  {| ce_name := cr_name r; WebApi.hits := cr_hits r; WebApi.last_access := rfc3339 (cr_last_access r);
     WebApi.query_type := json_record_type (cr_query_type r);
     WebApi.records := map json_record (cr_records r) |}.

Definition log_entry_view (e : AuditLog.QueryLogEntry) : WebApi.QueryLogEntry :=
  {| WebApi.time := rfc3339 (AuditLog.time e); WebApi.client := AuditLog.client e;
     WebApi.domain := AuditLog.domain e; ql_query_type := AuditLog.query_type e;
     WebApi.elapsed_ms := AuditLog.elapsed_ms e; ql_result := log_result e;
     WebApi.speed_ms := AuditLog.speed_ms e; WebApi.source := AuditLog.source e |}.

Lemma mapM_map {A B C} (f : A → B) (g : B → option C) (h : A → C) l :
  (∀ a, a ∈ l → g (f a) = Some (h a)) → mapM g (map f l) = Some (map h l).
Proof.
  induction l as [|a l IH]; intros E; [done|]. simpl.
  rewrite E by set_solver. simpl. rewrite IH by set_solver. done.
Qed.

Definition finite_row (u : UpstreamServer) : bool :=
  F64.is_finite (avg_time_ms u) && F64.is_finite (success_rate u).
Definition finite_entry (e : AuditLog.QueryLogEntry) : bool :=
  F64.is_finite (AuditLog.elapsed_ms e) && from_option F64.is_finite true (AuditLog.speed_ms e).

Lemma decode_upstream_row u :
  finite_row u = true → decode_UpstreamServer (serialize_UpstreamServer u) = Some u.
Proof.
  intros [Ha Hs]%andb_true_iff. destruct u as [n sv g pr sec i po st q su f av ra]. simpl in Ha, Hs.
  unfold decode_UpstreamServer, serialize_UpstreamServer, field, field_opt, json_f64. simpl.
  rewrite Ha, Hs. rewrite (mapM_map JStr as_string id g) by done. rewrite map_id.
  by destruct n.
Qed.

Lemma read_cache_record r : read_CacheEntry (serialize_CachedQueryRecord r) = Some (cache_entry_view r).
Proof.
  unfold read_CacheEntry, serialize_CachedQueryRecord, field. simpl.
  by rewrite (mapM_map json_record Some json_record (cr_records r)).
Qed.

(** Whether the type of a record is serialised as a string. *)
Definition type_is_text (r : CachedQueryRecord) : bool :=
  match json_record_type (cr_query_type r) with JStr _ => true | _ => false end.

Lemma decode_cache_record r :
  decode_CacheEntry (serialize_CachedQueryRecord r) = if type_is_text r then Some (cache_entry_view r) else None.
Proof.
  unfold decode_CacheEntry. rewrite read_cache_record. unfold type_is_text, serialize_CachedQueryRecord, field. simpl.
  by destruct (json_record_type (cr_query_type r)).
Qed.

Lemma decode_cache_records l : mapM decode_CacheEntry (map serialize_CachedQueryRecord l) =
  if forallb type_is_text l then Some (map cache_entry_view l) else None.
Proof.
  induction l as [|r l IH]; [done|]. cbn [map mapM forallb]. rewrite decode_cache_record, IH.
  by destruct (type_is_text r), (forallb type_is_text l).
Qed.

Lemma decode_log_entry e :
  finite_entry e = true → decode_QueryLogEntry (serialize_QueryLogEntry e) = Some (log_entry_view e).
Proof.
  intros [He Hs]%andb_true_iff.
  unfold decode_QueryLogEntry, serialize_QueryLogEntry, field, field_opt, json_f64. simpl.
  rewrite He. unfold log_entry_view. simpl.
  destruct (AuditLog.speed_ms e) as [x|]; simpl in *; [|done]. by rewrite Hs.
Qed.

(** C31. The list endpoints keep their contract: the documents of [/api/nameservers],
    [/api/caches] and [/api/query-log] have the shape the dashboard declares, and
    it reads from them exactly the rows the server listed, as long as the times
    and rates are finite numbers; but the interface of a cache entry declares a type
    that is a string, so the document of [/api/caches] has the declared shape exactly
    when the types of all its entries are serialised as strings - the pages read all
    rows in either case. *)
Theorem list_endpoints_contract (ups : list UpstreamServer) (page : DataListPayload CachedQueryRecord)
    (log : QueryLogList)
    (Hups : Forall (λ u, finite_row u = true) ups)
    (Hlog : Forall (λ e, finite_entry e = true) (log_data log)) :
  decode_NameserversResponse (serialize_payload serialize_UpstreamServer (payload_of ups)) =
    Some {| ns_count := Z.of_nat (length ups); ns_total := Z.of_nat (length ups); ns_data := ups |} ∧
  (let rows := {| caches_count := pl_count page; caches_total := pl_total page;
                  caches_data := map cache_entry_view (pl_data page) |} in
   read_CachesResponse (serialize_payload serialize_CachedQueryRecord page) = Some rows ∧
   decode_CachesResponse (serialize_payload serialize_CachedQueryRecord page) =
     if forallb type_is_text (pl_data page) then Some rows else None) ∧
  decode_QueryLogResponse (serialize_QueryLogList log) =
    Some {| ql_total := total log; ql_data := map log_entry_view (log_data log) |}.
Proof.
  cbv zeta. split_and!.
  - unfold decode_NameserversResponse, serialize_payload, field. simpl.
    rewrite (mapM_map serialize_UpstreamServer decode_UpstreamServer id ups).
    + by rewrite map_id.
    + intros u Hu. apply decode_upstream_row. exact (proj1 (Forall_forall _ _) Hups u Hu).
  - unfold read_CachesResponse, caches_response, serialize_payload, field. simpl.
    rewrite (mapM_map serialize_CachedQueryRecord read_CacheEntry cache_entry_view); [reflexivity|].
    intros r _. apply read_cache_record.
  - unfold decode_CachesResponse, caches_response, serialize_payload, field. simpl. rewrite decode_cache_records.
    destruct (forallb _ _); reflexivity.
  - unfold decode_QueryLogResponse, serialize_QueryLogList, field. simpl.
    rewrite (mapM_map serialize_QueryLogEntry decode_QueryLogEntry log_entry_view); [done|].
    intros e He. apply decode_log_entry. exact (proj1 (Forall_forall _ _) Hlog e He).
Qed.

(** ** Flushing *)

(** The server as the dashboard reaches it for a flush. *)
Definition flush_fetch `{LY : Layout} `{LO : !LruOps Query DnsCacheEntry} (c : option DnsCache)
    (r : Request) : result Response string :=
  match req_method r with
  | POST => if String.eqb (req_path r) "/api/caches/flush" then Ok (snd (flush c))
            else Err "unreachable"
  | _ => Err "unreachable"
  end.

(** The flush button: the server empties the cache, whatever it holds, and
    answers so that the dashboard's mutation succeeds; every page of the listing
    is then empty with a total of zero, and nothing is left to prefetch. *)
Theorem flush_end_to_end `{LY : Layout} `{LO : !LruOps Query DnsCacheEntry}
    `{LL : !LruLaws (K := Query) (V := DnsCacheEntry)} (c : DnsCache) (p : CacheListParams)
    (Hp : (0 ≤ default 0 (cl_offset p))%Z) :
  mutationFn useFlushCache (flush_fetch (Some c)) = Ok None ∧
  caches (fst (flush (Some c))) p = Some {| pl_count := 0; pl_total := 0; pl_data := [] |} ∧
  ∃ c', fst (flush (Some c)) = Some c' ∧ entry_count c' = 0 ∧ used_bytes c' = 0%Z ∧
    prefetch_heap c' = [].
Proof.
  assert (Ei : ∀ l, l ∈ map clear (shards c) → iter l = []).
  { intros l (l0 & -> & _)%list_elem_of_fmap. apply clear_iter. }
  split_and!; [done| |].
  - unfold caches, caches_page. simpl.
    assert (E : cached_records (cache_clear c) = []).
    { unfold cached_records. simpl. induction (map clear (shards c)) as [|l ls IH]; [done|].
      simpl. rewrite Ei, IH by set_solver. done. }
    rewrite E. destruct (cl_offset p) as [o|]; simpl in *; [|done].
    case_if; zify_bool; [exfalso; lia|done].
  - eexists. split_and!; [done| |done|done]. apply entry_count_0. intros i l Hl. apply Ei.
    simpl in Hl. by eapply list_elem_of_lookup_2.
Qed.

(** ** Endpoints whose answers the dashboard does not expect *)

(** [Result<(), ApiError>]: an empty 200, or the error as text. *)
Definition reload_response (r : result unit string) : Response :=
  match r with
  | Ok _ => {| status := 200; statusText := "OK"; body := None |}
  | Err e => {| status := 500; statusText := "Internal Server Error"; body := None |}
  end.

(** [/api/version] is a bare string. *)
Definition version_document (BUILD_VERSION : string) : json := JStr BUILD_VERSION.

Record SystemStatus := {
  sy_server_name : string;
  sy_version : string;
  sy_build_date : Z;
  sy_uptime : string;
  sy_config_loaded_at : string;
  sy_active_queries : Z;
}.

Definition serialize_SystemStatus (s : SystemStatus) : json :=
  JObj [("server_name", JStr (sy_server_name s)); ("version", JStr (sy_version s));
        ("build_date", JStr (rfc3339 (sy_build_date s))); ("uptime", JStr (sy_uptime s));
        ("config_loaded_at", JStr (sy_config_loaded_at s));
        ("active_queries", JInt (sy_active_queries s))].

(** A listener: the variant of [BindAddrConfig] is its [type]; [opts] are the
    flattened options. *)
Record BindAddrConfig := {
  ba_type : string;
  ba_addr : string;
  ba_port : Z;
  ba_device : option string;
}.

Definition serialize_BindAddrConfig (b : BindAddrConfig) (opts : list (string * json)) : json :=
  JObj ([("type", JStr (ba_type b)); ("addr", JStr (ba_addr b)); ("port", JInt (ba_port b))] ++
        from_option (λ d, [("device", JStr d)]) [] (ba_device b) ++ opts).

(** Four answers break the contract: whether or not the configuration was
    reloaded, the dashboard reports that the reload failed; and the documents of
    [/api/version], [/api/system/status] and [/api/listeners] do not have the
    shape the dashboard declares - a bare version, an uptime that is text, and a
    listener without a protocol. *)
Theorem unexpected_answers (reloaded : result unit string) (v : string) (s : SystemStatus)
    (b : BindAddrConfig) (opts : list (string * json))
    (Hopts : ¬ ("protocol" ∈ map fst opts)) :
  is_ok (mutationFn useReloadConfig (λ _, Ok (reload_response reloaded))) = false ∧
  decode_VersionResponse (version_document v) = None ∧
  decode_SystemStatusResponse (serialize_SystemStatus s) = None ∧
  decode_Listener (serialize_BindAddrConfig b opts) = None.
Proof.
  split_and!; [by destruct reloaded|done|done|].
  assert (Hp : jget "protocol" (serialize_BindAddrConfig b opts) = None).
  { unfold serialize_BindAddrConfig, jget. destruct (ba_device b); simpl;
      induction opts as [|[k j] opts IH]; try done; simpl in *;
      apply not_elem_of_cons in Hopts as [Hk Hopts];
      (destruct (String.eqb_spec k "protocol"); [congruence|]); by apply IH. }
  unfold decode_Listener, field. rewrite Hp. simpl.
  set (j := serialize_BindAddrConfig b opts).
  by destruct (jget "addr" j ≫= as_string), (jget "port" j ≫= as_int).
Qed.
End contract.

Import SimpleUrl.
#[local] Instance demo_render : Render :=
  {| rfc3339 := λ _, "2024-01-01T00:00:00Z"; json_record_type := λ _, JStr "A";
     json_dns_class := λ _, JStr "IN"; json_record := λ _, JObj [] |}.

Lemma list_endpoints_contract_witness :
  decode_NameserversResponse (serialize_payload serialize_UpstreamServer
    (payload_of (nameservers (λ _, Some demo_ns) 0 [demo_info]))) =
  Some {| ns_count := 1; ns_total := 1; ns_data := nameservers (λ _, Some demo_ns) 0 [demo_info] |}.
Proof.
  apply (list_endpoints_contract (nameservers (λ _, Some demo_ns) 0 [demo_info])
    (payload_of []) {| total := 0; log_data := [] |}).
  - apply Forall_singleton. vm_compute. reflexivity.
  - constructor.
Defined.

Lemma flush_end_to_end_witness :
  mutationFn useFlushCache (flush_fetch (LY := demo_layout) (LO := ListLru.list_lru)
    (Some (cache_new 100 true 0 5 0))) = Ok None.
Proof.
  apply (flush_end_to_end (LY := demo_layout) (LO := ListLru.list_lru) (LL := ListLru.list_lru_laws)
    (cache_new 100 true 0 5 0) {| cl_offset := None; cl_limit := None |}).
  vm_compute. discriminate.
Defined.

Lemma unexpected_answers_witness :
  is_ok (mutationFn useReloadConfig (λ _, Ok (reload_response (Ok tt)))) = false.
Proof.
  apply (unexpected_answers (Ok tt) "0.1"
    {| sy_server_name := "smartdns."; sy_version := "0.1"; sy_build_date := 0; sy_uptime := "1s";
       sy_config_loaded_at := "1s"; sy_active_queries := 0 |}
    {| ba_type := "udp"; ba_addr := "0.0.0.0"; ba_port := 53; ba_device := None |} []).
  apply not_elem_of_nil.
Defined.
