(* ===== verification/FileCache.v ===== *)
(** * Values cached from files

    The discipline [LanClientStore::cached_clients] (src/dnsmasq.rs) and
    [DnsHostsMiddleware::cached_hosts] (src/dns_mw_hosts.rs) share: a value read
    from files is kept with a signature of the files, and the files are looked at
    again after two seconds.

    Any number of calls run at the same time.  A call is a sequence of atomic
    steps, one for every time it takes the lock, looks at the files or reads them;
    the clock and the files change between the steps as they like.  The hosts
    files are the case where reading always gives a value. *)

From S2P Require Import Prelude Dns.

(** [HOSTS_FILE_STAT_INTERVAL] and [LEASE_FILE_STAT_INTERVAL] *)
Definition STAT_INTERVAL : Z := secs 2.

Record Cached (V Sig : Type) := { value : V; signature : Sig; checked_at : Z }.
Arguments value {V Sig}.
Arguments signature {V Sig}.
Arguments checked_at {V Sig}.

Section cache.
Context {FS V Sig : Type} `{EqDecision Sig} (sign : FS → Sig) (load : FS → option V).
Abbreviation shared := (option (Cached V Sig)).

(** [Instant::duration_since] is zero for a later instant. *)
Definition fresh (now : Z) (c : Cached V Sig) : bool := (Z.max 0 (now - checked_at c) <? STAT_INTERVAL)%Z.
Definition set_checked_at (now : Z) (c : Cached V Sig) : Cached V Sig :=
  {| value := value c; signature := signature c; checked_at := now |}.

(** Where a call is, which began at the instant [now]: before it looks at the
    cache, before it looks at the files, with their signature [s], before it reads
    them, with what it read, and done. *)
Inductive call :=
| Started (now : Z)
| Missed (now : Z)
| Signed (now : Z) (s : Sig)
| Loading (now : Z) (s : Sig)
| Loaded (now : Z) (s : Sig) (r : option V)
| Returned (now : Z) (r : option V).

(** A step of a call, with the files and the cache as they are. *)
Definition advance (fs : FS) (cache : shared) (c : call) : shared * call :=
  match c with
  | Started now =>
      match cache with
      | Some e => if fresh now e then (cache, Returned now (Some (value e))) else (cache, Missed now)
      | None => (cache, Missed now)
      end
  | Missed now => (cache, Signed now (sign fs))
  | Signed now s =>
      match cache with
      | Some e =>
          if fresh now e then (cache, Returned now (Some (value e)))
          else if bool_decide (signature e = s) then (Some (set_checked_at now e), Returned now (Some (value e)))
          else (cache, Loading now s)
      | None => (cache, Loading now s)
      end
  | Loading now s => (cache, Loaded now s (load fs))
  | Loaded now s (Some v) => (Some {| value := v; signature := s; checked_at := now |}, Returned now (Some v))
  | Loaded now s None =>
      match cache with
      | Some e => (Some (set_checked_at now e), Returned now (Some (value e)))
      | None => (None, Returned now None)
      end
  | Returned now r => (cache, Returned now r)
  end.

(** A call nothing interferes with, at the instant [now]. *)
Definition refresh (now : Z) (fs : FS) (cache : shared) : option V * shared :=
  match cache with
  | Some e =>
      if fresh now e then (Some (value e), cache)
      else if bool_decide (signature e = sign fs) then (Some (value e), Some (set_checked_at now e))
      else
        match load fs with
        | Some v => (Some v, Some {| value := v; signature := sign fs; checked_at := now |})
        | None => (Some (value e), Some (set_checked_at now e))
        end
  | None =>
      match load fs with
      | Some v => (Some v, Some {| value := v; signature := sign fs; checked_at := now |})
      | None => (None, None)
      end
  end.

Lemma refresh_advance now fs cache :
  let steps n := Nat.iter n (λ '(c, k), advance fs c k) (cache, Started now) in
  steps 5 = (snd (refresh now fs cache), Returned now (fst (refresh now fs cache))).
Proof.
  unfold refresh. cbn. destruct cache as [e|]; cbn; [|by destruct (load fs)].
  destruct (fresh now e) eqn:Ef; cbn; rewrite ?Ef; cbn; [done|]. case_bool_decide; cbn; [done|]. by destruct (load fs).
Qed.

(** ** Many calls *)

Inductive action := Begin | Run (i : nat).
#[export] Instance action_eq_dec : EqDecision action.
Proof. solve_decision. Defined.

Record state := { cache_ : shared; calls : list call }.
Definition init : state := {| cache_ := None; calls := [] |}.

Section schedule.
(** The clock and the files at every step of a schedule. *)
Context (clock : nat → Z) (files : nat → FS).

Definition step (n : nat) (st : state) (a : action) : state :=
  match a with
  | Begin => {| cache_ := cache_ st; calls := calls st ++ [Started (clock n)] |}
  | Run i =>
      match calls st !! i with
      | Some c =>
          let '(cache', c') := advance (files n) (cache_ st) c in
          {| cache_ := cache'; calls := <[i := c']> (calls st) |}
      | None => st
      end
  end.

Fixpoint exec_from (n : nat) (st : state) (acts : list action) : state :=
  match acts with
  | [] => st
  | a :: acts' => exec_from (S n) (step n st a) acts'
  end.
Definition exec (acts : list action) : state := exec_from 0 init acts.

(** *** Bounded staleness *)

Context (clock_mono : ∀ i j, i ≤ j → (clock i ≤ clock j)%Z).

(** Reading the files failed, at a step before [n] and not before [t]. *)
Definition failed_since (n : nat) (t : Z) : Prop := ∃ f, f < n ∧ (t ≤ clock f)%Z ∧ load (files f) = None.
(** [s] is the signature of the files at a step [q] before [n]. *)
Definition signed_at (n q : nat) (s : Sig) : Prop := q < n ∧ s = sign (files q).
(** [v] was read between the steps [q] and [n]. *)
Definition loaded_after (n q : nat) (v : option V) : Prop := ∃ r, q ≤ r ∧ r < n ∧ load (files r) = v.

Definition cache_ok (n : nat) (e : Cached V Sig) : Prop :=
  ∃ q, signed_at n q (signature e) ∧ loaded_after n q (Some (value e)) ∧
    ((∃ p, (checked_at e ≤ clock p)%Z ∧ signed_at n p (signature e)) ∨ failed_since n (checked_at e)).

(** A step before [n] and less than two seconds before [now], or after it. *)
Definition recent (n : nat) (now : Z) (p : nat) : Prop := p < n ∧ (now - STAT_INTERVAL < clock p)%Z.

(** What a call that began at [now] may return: a value read from the files at a
    step [k], not before the step [q] at which their signature was taken, such that
    the files had the same signature at a recent step [p], or could not be read at a
    recent step; nothing only if reading failed since the call began. *)
Definition result_ok (n : nat) (now : Z) (r : option V) : Prop :=
  match r with
  | Some v => ∃ q k, q ≤ k ∧ k < n ∧ load (files k) = Some v ∧
      ((∃ p, recent n now p ∧ sign (files p) = sign (files q)) ∨
       ∃ f, recent n now f ∧ load (files f) = None)
  | None => failed_since n now
  end.

(** Files that have the same signature twice have had the same contents in
    between. *)
Definition detected (n : nat) : Prop :=
  ∀ i j k, i ≤ j → j ≤ k → k < n → sign (files i) = sign (files k) → load (files j) = load (files i).

(** The call returns what the files held at a recent step, or could not be read at
    a recent step. *)
Definition current (n : nat) (now : Z) (r : option V) : Prop :=
  ∃ k, recent n now k ∧ (load (files k) = r ∨ load (files k) = None).

Definition call_ok (n : nat) (c : call) : Prop :=
  match c with
  | Started now | Missed now => (now ≤ clock n)%Z
  | Signed now s | Loading now s => ∃ q, (now ≤ clock q)%Z ∧ signed_at n q s
  | Loaded now s r => ∃ q, (now ≤ clock q)%Z ∧ signed_at n q s ∧ loaded_after n q r
  | Returned now r => result_ok n now r
  end.

Definition ok (n : nat) (st : state) : Prop :=
  (∀ e, cache_ st = Some e → cache_ok n e) ∧ Forall (call_ok n) (calls st).

Lemma loaded_after_S n q v : loaded_after n q v → loaded_after (S n) q v.
Proof. intros (r & ? & ? & ?). exists r. repeat split; auto; lia. Qed.
Lemma failed_since_S n t : failed_since n t → failed_since (S n) t.
Proof. intros (f & ? & ? & ?). exists f. repeat split; auto; lia. Qed.

Lemma cache_ok_S n e : cache_ok n e → cache_ok (S n) e.
Proof.
  intros (q & [Hq Hs] & Hl & Hc). exists q. split; [split; [lia|done]|]. split; [by apply loaded_after_S|].
  destruct Hc as [(p & Hp & [? ?])|?%failed_since_S]; [left; exists p|auto]. split; [done|split; [lia|done]].
Qed.

Lemma result_ok_S n now r : result_ok n now r → result_ok (S n) now r.
Proof.
  destruct r as [v|]; [|apply failed_since_S]. intros (q & k & ? & ? & ? & H). exists q, k. split_and!; [done|lia|done|].
  destruct H as [(p & [? ?] & ?)|(f & [? ?] & ?)]; [left; exists p|right; exists f]; (split; [split; [lia|done]|done]).
Qed.

Lemma recent_le n now p k : recent n now p → p ≤ k → k < n → recent n now k.
Proof. intros [? ?] Hk ?. pose proof (clock_mono p k Hk). split; [done|lia]. Qed.

Lemma recent_now n now p : p < n → (now ≤ clock p)%Z → recent n now p.
Proof. unfold recent, STAT_INTERVAL, secs. lia. Qed.

(** Where every change of the files changes the signature, what is returned is
    current. *)
Lemma result_current n now r : result_ok n now r → detected n → current n now r.
Proof.
  destruct r as [v|]; cbn.
  - intros (q & k & Hqk & Hk & Hv & [(p & Hp & Hs)|(f & Hf & Hn)]) Hd; [|by exists f; auto].
    destruct (decide (p ≤ k)) as [Hpk|Hpk]; [exists k; eauto using recent_le|].
    pose proof Hp as [Hpn _]. exists p. split; [done|left]. rewrite <- Hv.
    rewrite (Hd q p p), (Hd q k p) by (done || lia). done.
  - intros (f & ? & ? & Hn) _. exists f. split; [by apply recent_now|auto].
Qed.

Lemma call_ok_S n c : call_ok n c → call_ok (S n) c.
Proof.
  pose proof (clock_mono n (S n) ltac:(lia)). destruct c as [now|now|now s|now s|now s r|now r]; cbn; [lia|lia| | | |].
  - intros (q & ? & [? ?]). exists q. repeat split; auto; lia.
  - intros (q & ? & [? ?]). exists q. repeat split; auto; lia.
  - intros (q & ? & [? ?] & ?%loaded_after_S). exists q. repeat split; auto; lia.
  - apply result_ok_S.
Qed.

(** What is served from a fresh entry. *)
Lemma fresh_result n now e : cache_ok n e → fresh now e = true → result_ok n now (Some (value e)).
Proof.
  intros (q & [Hq Hs] & (r & Hqr & Hr & Hv) & Hc) Hf. unfold fresh in Hf. zify_bool. exists q, r. split_and!; [done..|].
  destruct Hc as [(p & Hp1 & [Hp2 Hp3])|(f & Hf1 & Hf2 & Hf3)]; [left; exists p|right; exists f].
  - split; [split; [done|lia]|congruence].
  - split; [split; [done|lia]|done].
Qed.

(** What is served from an entry of which another look at the files gives the same
    signature. *)
Lemma unchanged_ok n now e q : cache_ok n e → (now ≤ clock q)%Z → signed_at n q (signature e) →
  cache_ok n (set_checked_at now e) ∧ result_ok n now (Some (value e)).
Proof.
  intros (q0 & [Hq0 Hs0] & Hl & _) Hnow [Hq Hs]. pose proof Hl as (r & Hr0 & Hr & Hv). split.
  - exists q0. split_and!; [done|done|left; by exists q].
  - exists q0, r. split_and!; [done..|left]. exists q. split; [by apply recent_now|congruence].
Qed.

(** After a failed read the entry stays. *)
Lemma kept_ok n now e : cache_ok n e → failed_since n now →
  cache_ok n (set_checked_at now e) ∧ result_ok n now (Some (value e)).
Proof.
  intros (q & Hq & Hl & _) Hf. pose proof Hl as (r & Hqr & Hr & Hv). split.
  - exists q. split_and!; [done|done|by right].
  - exists q, r. split_and!; [done..|right].
    destruct Hf as (f & ? & ? & ?). exists f. split; [by apply recent_now|done].
Qed.

Lemma advance_ok n cache c :
  (∀ e, cache = Some e → cache_ok n e) → call_ok n c →
  let '(cache', c') := advance (files n) cache c in
  (∀ e, cache' = Some e → cache_ok (S n) e) ∧ call_ok (S n) c'.
Proof.
  intros Hcache Hc. pose proof (clock_mono n (S n) ltac:(lia)).
  assert (HcacheS : ∀ e, cache = Some e → cache_ok (S n) e) by (intros; apply cache_ok_S; auto).
  destruct c as [now|now|now s|now s|now s [v|]|now r]; cbn in Hc |- *.
  - destruct cache as [e|]; [destruct (fresh now e) eqn:Ef|]; (split; [done|]); cbn; try lia.
    apply (result_ok_S n now (Some (value e))), fresh_result; auto.
  - split; [done|]. exists n. repeat split; auto.
  - destruct Hc as (q & Hnow & Hq).
    assert (HqS : call_ok (S n) (Loading now s)) by (apply call_ok_S; exists q; auto).
    destruct cache as [e|]; [|done]. destruct (fresh now e) eqn:Ef.
    { split; [done|]. apply (result_ok_S n now (Some (value e))), fresh_result; auto. }
    case_bool_decide as Es; [|done]. subst s.
    destruct (unchanged_ok n now e q (Hcache _ eq_refl) Hnow Hq) as [H1 H2].
    split; [intros ? [= <-]; by apply cache_ok_S|by apply (result_ok_S n now (Some (value e)))].
  - destruct Hc as (q & Hnow & [Hq ->]). split; [done|]. exists q. repeat split; auto. exists n. repeat split; auto; lia.
  - destruct Hc as (q & Hnow & Hq & Hl). split.
    + intros ? [= <-]. apply cache_ok_S. exists q. split_and!; [done|done|left; by exists q].
    + apply (result_ok_S n now (Some v)). destruct Hl as (r & Hqr & Hr & Hv). exists q, r.
      split_and!; [done..|left]. exists q. destruct Hq. split; [by apply recent_now|done].
  - destruct Hc as (q & Hnow & Hq & (r & Hqr & Hr & Hv)).
    assert (Hf : failed_since n now) by (exists r; pose proof (clock_mono q r Hqr); repeat split; auto; lia).
    destruct cache as [e|].
    + destruct (kept_ok n now e (Hcache _ eq_refl) Hf) as [H1 H2].
      split; [intros ? [= <-]; by apply cache_ok_S|by apply (result_ok_S n now (Some (value e)))].
    + split; [done|]. by apply (failed_since_S n).
  - split; [done|]. by apply (result_ok_S n).
Qed.

Lemma step_ok n st a : ok n st → ok (S n) (step n st a).
Proof.
  intros [Hcache Hcalls].
  assert (HcallsS : Forall (call_ok (S n)) (calls st)) by (eapply Forall_impl; [exact Hcalls|apply call_ok_S]).
  destruct a as [|i]; cbn.
  - split; cbn; [intros; apply cache_ok_S; auto|]. apply Forall_app. split; [done|].
    constructor; [cbn; apply clock_mono; lia|constructor].
  - destruct (calls st !! i) as [c|] eqn:Ei; [|split; [intros; apply cache_ok_S; auto|done]].
    pose proof (advance_ok n (cache_ st) c Hcache (Forall_lookup_1 _ _ _ _ Hcalls Ei)) as Ha.
    destruct (advance (files n) (cache_ st) c) as [cache' c']. destruct Ha as [Ha1 Ha2].
    split; cbn; [done|]. by apply Forall_insert.
Qed.

Lemma exec_ok acts : ok (length acts) (exec acts).
Proof.
  assert (Hgen : ∀ n st, ok n st → ok (n + length acts) (exec_from n st acts)).
  { induction acts as [|a acts IH]; intros n st Hok; cbn; [by rewrite Nat.add_0_r|].
    rewrite <- Nat.add_succ_comm. by apply IH, step_ok. }
  apply (Hgen 0 init). split; [done|constructor].
Qed.

(** A call is done after five steps of its own. *)
Definition rank (c : call) : nat :=
  match c with
  | Started _ => 5 | Missed _ => 4 | Signed _ _ => 3 | Loading _ _ => 2 | Loaded _ _ _ => 1 | Returned _ _ => 0
  end.

Lemma advance_rank fs cache c : rank (snd (advance fs cache c)) ≤ rank c - 1.
Proof. destruct c as [| | | |? ? []|]; cbn; repeat case_match; cbn; lia. Qed.

(** The steps a schedule gives to call [i]. *)
Definition runs (i : nat) (acts : list action) : nat :=
  length (filter (λ a, a = Run i) acts).

Definition began (c : call) : Z :=
  match c with Started t | Missed t | Signed t _ | Loading t _ | Loaded t _ _ | Returned t _ => t end.

Lemma advance_began fs cache c : began (snd (advance fs cache c)) = began c.
Proof. by destruct c as [| | | |? ? []|]; cbn; repeat case_match. Qed.

Lemma rank_0 c : rank c = 0 → ∃ r, c = Returned (began c) r.
Proof. destruct c; try done. by eexists. Qed.

Lemma step_call n st a i c : calls st !! i = Some c →
  ∃ c', calls (step n st a) !! i = Some c' ∧ began c' = began c ∧
        rank c' ≤ rank c - (if bool_decide (a = Run i) then 1 else 0).
Proof.
  intros Hi. destruct a as [|j]; cbn.
  - exists c. rewrite lookup_app_l by by eapply lookup_lt_Some. split_and!; [done|done|]. rewrite bool_decide_false by done. lia.
  - destruct (calls st !! j) as [cj|] eqn:Ej.
    + pose proof (advance_rank (files n) (cache_ st) cj) as Hr. pose proof (advance_began (files n) (cache_ st) cj) as Hb.
      destruct (advance (files n) (cache_ st) cj) as [cache' c']. cbn in *. destruct (decide (j = i)) as [->|Hne].
      * simplify_eq. exists c'. rewrite list_lookup_insert_eq by by eapply lookup_lt_Some.
        split_and!; [done|done|]. by rewrite bool_decide_true.
      * exists c. rewrite list_lookup_insert_ne by done. split_and!; [done|done|]. rewrite bool_decide_false by congruence. lia.
    + exists c. split_and!; [done|done|]. case_bool_decide; [|lia]. simplify_eq.
Qed.

Lemma exec_call acts n st i c : calls st !! i = Some c →
  ∃ c', calls (exec_from n st acts) !! i = Some c' ∧ began c' = began c ∧ rank c' ≤ rank c - runs i acts.
Proof.
  revert n st c. induction acts as [|a acts IH]; intros n st c Hi; cbn [exec_from].
  - exists c. split_and!; [done|done|]. cbn. lia.
  - destruct (step_call n st a i c Hi) as (c1 & H1 & H2 & H3). destruct (IH (S n) _ c1 H1) as (c2 & H4 & H5 & H6).
    exists c2. split_and!; [done|congruence|]. unfold runs in *. rewrite filter_cons.
    case_bool_decide; case_decide; cbn; (done || lia).
Qed.

Lemma exec_from_app acts1 acts2 n st :
  exec_from n st (acts1 ++ acts2) = exec_from (n + length acts1) (exec_from n st acts1) acts2.
Proof.
  revert n st. induction acts1 as [|a acts1 IH]; intros n st; cbn; [by rewrite Nat.add_0_r|].
  rewrite IH. by rewrite <- Nat.add_succ_comm.
Qed.

(** However calls interleave with one another, with the clock and with changes of
    the files, a call that gets five steps returns, and what it returns is as
    [result_ok] says. *)
Lemma served_value (acts1 acts2 : list action) :
  let n := length acts1 in
  let acts := acts1 ++ Begin :: acts2 in
  let i := length (calls (exec acts1)) in
  5 ≤ runs i acts2 →
  ∃ r, calls (exec acts) !! i = Some (Returned (clock n) r) ∧ result_ok (length acts) (clock n) r.
Proof.
  intros n acts i Hruns.
  assert (Hbegin : calls (step n (exec acts1) Begin) !! i = Some (Started (clock n))).
  { cbn. subst i. rewrite lookup_app_r, Nat.sub_diag by lia. done. }
  destruct (exec_call acts2 (S n) _ i _ Hbegin) as (c & Hc & Hb & Hr). cbn in Hb, Hr.
  assert (Hexec : exec acts = exec_from (S n) (step n (exec acts1) Begin) acts2).
  { unfold exec, acts. by rewrite exec_from_app. }
  destruct (rank_0 c ltac:(lia)) as [r Er]. rewrite Hb in Er. subst c. exists r. rewrite Hexec. split; [done|].
  pose proof (proj2 (exec_ok acts)) as Hok. rewrite Hexec in Hok.
  exact (Forall_lookup_1 _ _ _ _ Hok Hc).
Qed.
End schedule.
End cache.
