(* ===== verification/Hosts.v ===== *)
(** * Hosts files

    [DnsHostsMiddleware] (src/dns_mw_hosts.rs): the hosts files behind a cache, the
    signature that tells when they changed, the answers from them, and
    [local_domain_base], which the lease middleware uses as well.

    The file system is a class, as are hickory's [Hosts] and the texts of names. *)

From S2P Require Import Prelude Dns AuditLog IpSet DomainMap DomainRule Context Middleware Search.
From S2P Require Import Nom NomProps ConfigText ConfigProps Text FileCache.
From Stdlib Require Import Ascii.

(** The file system: whether a path is a file, its modification time, its bytes
    ([None] when it cannot be opened), the paths of a glob pattern ([None] for a
    bad pattern, and for an entry that cannot be read), and the order of paths. *)
Class Files (FS : Type) := {
  is_file : FS → string → bool;
  modified : FS → string → option Z;
  read_bytes : FS → string → option string;
  glob_paths : FS → string → option (list (option string));
  path_cmp : string → string → comparison;
}.

(** hickory's hosts files: an empty table, reading a file into one, and the records
    for a name, a type and a class with the instant they are valid until. *)
Class HostsOps (Name : Type) := {
  Hosts : Type;
  hosts_default : Hosts;
  read_hosts_conf : string → Hosts → Hosts;
  lookup_static_host : Hosts → Name → RecordType → Z → option (list Record_ * Z);
}.

(** [Name::to_utf8]: a fully qualified name ends in a dot. *)
Class NameUtf8 (Name : Type) := { to_utf8 : Name → string }.
Class NameUtf8Laws (Name : Type) `{!NameOps Name, !NameUtf8 Name} := {
  to_utf8_fqdn n : is_fqdn n = true → ∃ t, to_utf8 n = t +:+ ".";
}.

(** A part of the state of the world that a stage reads and writes. *)
Class Stored (W T : Type) := { get : W → T; put : T → W → W }.
Arguments get {W} T {Stored}.
Arguments put {W} T {Stored}.
Class StoredLaws (W T : Type) `{!Clock W, !Stored W T} := {
  get_put t w : get T (put T t w) = t;
  get_clock w : get T (snd (read_clock w)) = get T w;
}.

Definition RT_PTR : RecordType := RT_Other 12.

(** ** Names below the local domain *)

Section local_domain.
Context {Name : Type} `{!NameOps Name, !NameSyntax Name, !NameUtf8 Name}.

Definition local_domain_base (name : Name) (suffix : option Name) : option Name :=
  suffix ← suffix;
  if negb (zone_of suffix name) then None
  else strip_suffix ("." +:+ to_utf8 suffix) (to_utf8 name) ≫= name_from_str.
End local_domain.

(** ** The files and their signature *)

Section hosts.
Context {FS Name : Type} `{FL : !Files FS, HO : !HostsOps Name}.

Definition HostsFileMeta : Type := string * option Z.
Definition HostsFileSignature : Type := list HostsFileMeta.
Definition HostsCache : Type := option (Cached Hosts HostsFileSignature).

Definition system_hosts_paths : list string := ["/etc/hosts"].

Definition append_hosts_file_meta (fs : FS) (path : string) (files : list HostsFileMeta) : list HostsFileMeta :=
  if is_file fs path then files ++ [(path, modified fs path)] else files.

(** [Vec::dedup_by]: the first of a run of equal paths stays. *)
Fixpoint dedup_paths (last : option string) (files : list HostsFileMeta) : list HostsFileMeta :=
  match files with
  | [] => []
  | m :: files' =>
      let rest := dedup_paths (Some (fst m)) files' in
      match last with
      | Some p => match path_cmp p (fst m) with Eq => dedup_paths last files' | _ => m :: rest end
      | None => m :: rest
      end
  end.

Definition collect_hosts_signature (hosts_file_pattern : option string) (fs : FS) : HostsFileSignature :=
  let files :=
    match hosts_file_pattern with
    | Some pattern =>
        foldl (λ files entry, match entry with Some path => append_hosts_file_meta fs path files | None => files end)
          [] (default [] (glob_paths fs pattern))
    | None => []
    end in
  let files := foldl (λ files path, append_hosts_file_meta fs path files) files system_hosts_paths in
  dedup_paths None (sort_by (λ a b, path_cmp (fst a) (fst b)) files).

Definition read_hosts (pattern : string) (fs : FS) : Hosts :=
  foldl (λ hosts entry,
    match entry with
    | Some path =>
        if negb (is_file fs path) then hosts
        else match read_bytes fs path with Some file => read_hosts_conf file hosts | None => hosts end
    | None => hosts
    end) hosts_default (default [] (glob_paths fs pattern)).

(** What a refresh of the cache reads. *)
Definition refreshed_hosts (hosts_file_pattern : option string) (fs : FS) : Hosts :=
  match hosts_file_pattern with Some pattern => read_hosts pattern fs | None => hosts_default end.

Definition cached_hosts (hosts_file_pattern : option string) (now : Z) (fs : FS) (cache : HostsCache)
  : Hosts * HostsCache :=
  let signature_ := collect_hosts_signature hosts_file_pattern fs in
  let reread :=
    let hosts := refreshed_hosts hosts_file_pattern fs in
    (hosts, Some {| value := hosts; signature := signature_; checked_at := now |}) in
  match cache with
  | Some c =>
      if fresh now c then (value c, cache)
      else if bool_decide (signature c = signature_) then (value c, Some (set_checked_at now c))
      else reread
  | None => reread
  end.

(** The cache of hosts files is the discipline of the caches of files, with a
    reader that never fails. *)
Lemma cached_hosts_refresh p now fs cache :
  refresh (collect_hosts_signature p) (λ fs, Some (refreshed_hosts p fs)) now fs cache =
  (Some (fst (cached_hosts p now fs cache)), snd (cached_hosts p now fs cache)).
Proof. unfold refresh, cached_hosts. destruct cache as [c|]; [|done]. by repeat case_if. Qed.
End hosts.
Arguments HostsCache Name {HO}.

(** ** The middleware *)

Section middleware.
Context {FS Name W : Type} `{FL : !Files FS, HO : !HostsOps Name, !NameOps Name, !NameSyntax Name, !NameUtf8 Name, NT : !NameText Name}.
Context `{RD : RuleData, RM : RangeMaps, CK : !Clock W, SF : !Stored W FS, SH : !Stored W (HostsCache Name)}.
Abbreviation chain_mw := (middleware (DnsContext Name) DnsRequest DnsResponse LookupError W).

(** The class of [Query::query]. *)
Definition CLASS_IN : Z := 1.

(** The records for a query, as it is, with or without the trailing dot, or below
    the local domain, and how long they are valid. *)
Definition lookup_hosts (hosts : Hosts) (local_domain : option Name) (query : Query) : option (list Record_ * Z) :=
  let name := to_name (q_name query) in
  let found := or_else (lookup_static_host hosts name (q_type query) (q_class query))
    (lookup_static_host hosts (set_fqdn (negb (is_fqdn name)) name) (q_type query) CLASS_IN) in
  match found with
  | Some found => Some found
  | None =>
      base ← local_domain_base name local_domain;
      '(records, valid_until) ← lookup_static_host hosts base (q_type query) CLASS_IN;
      Some (map (λ record, with_name record (q_name query)) records, valid_until)
  end.

Definition consults_hosts (c : RuntimeConfig Name) (t : RecordType) : bool :=
  is_ip_addr t || bool_decide (t = RT_PTR) && expand_ptr_from_address c.

Definition hosts_mw : chain_mw := λ next ctx req w,
  let query := req_query req in
  if consults_hosts (cfg ctx) (q_type query) then
    let '((now, _), w) := read_clock w in
    let '(hosts, cache) := cached_hosts (cf_hosts_file (cfg ctx)) now (get FS w) (get (HostsCache Name) w) in
    let w := put (HostsCache Name) cache w in
    match lookup_hosts hosts (cf_local_domain (cfg ctx)) query with
    | Some (records, valid_until) => (Ok (new_with_deadline query records valid_until), ctx, w)
    | None => next ctx req w
    end
  else next ctx req w.
End middleware.

(** ** The local domain *)

Section local_domain_facts.
Context {Name : Type} `{!NameOps Name, !NameSyntax Name, !NameUtf8 Name, !NameUtf8Laws Name, HO : !HostsOps Name, NT : !NameText Name}.

Lemma string_app_inj_last s t a b : s +:+ String a "" = t +:+ String b "" → a = b.
Proof.
  intros E. assert (rev (String.list_ascii_of_string (s +:+ String a "")) = rev (String.list_ascii_of_string (t +:+ String b ""))) as H
    by by rewrite E.
  rewrite !list_ascii_app, !rev_app_distr in H. by injection H.
Qed.

(** Names below the local domain: for a fully qualified name, which every name of a
    message is, and a local domain written without a trailing dot, as in
    [local-domain lan], nothing is ever stripped, because the text of the name
    ends in a dot and that of the domain does not.  So the option does not make
    the hosts files answer for names of the local domain, nor the leases. *)
Theorem local_domain_ignored (hosts : Hosts) (query : Query) (suffix : Name) (t : string) (c : ascii) :
  is_fqdn (to_name (q_name query)) = true → to_utf8 suffix = t +:+ String c "" → c ≠ "."%char →
  local_domain_base (to_name (q_name query)) (Some suffix) = None ∧
  lookup_hosts hosts (Some suffix) query = lookup_hosts hosts None query.
Proof.
  intros Hf Hs Hc. assert (Hbase : local_domain_base (to_name (q_name query)) (Some suffix) = None).
  { unfold local_domain_base. cbn [mbind option_bind]. case_if; [done|].
    destruct (strip_suffix _ _) as [u|] eqn:E; [|done]. apply strip_suffix_spec in E. exfalso.
    destruct (to_utf8_fqdn _ Hf) as [v Hv]. rewrite Hv, Hs in E. apply Hc.
    rewrite <- string_app_assoc, <- string_app_assoc in E. by apply string_app_inj_last in E. }
  split; [done|]. unfold lookup_hosts. cbv zeta. rewrite Hbase. by destruct (or_else _ _).
Qed.
End local_domain_facts.

(** ** A concrete file system and table, for the examples *)

Module Example.
Import ListName ConfigProps.Example.

(** Files with their modification time and contents; a pattern is a path. *)
Definition disk : Type := list (string * (Z * string)).
Definition file_at (d : disk) (path : string) : option (Z * string) :=
  snd <$> List.find (λ f, bool_decide (fst f = path)) d.
#[export] Instance disk_files : Files disk := {
  is_file d path := bool_decide (is_Some (file_at d path));
  modified d path := fst <$> file_at d path;
  read_bytes d path := snd <$> file_at d path;
  glob_paths d pattern := Some (if bool_decide (is_Some (file_at d pattern)) then [Some pattern] else []);
  path_cmp a b := (encode a ?= encode b)%positive;
}.

#[export] Instance list_name_utf8 : NameUtf8 name := { to_utf8 := name_display }.
#[export] Instance list_name_utf8_laws : NameUtf8Laws name.
Proof. split. intros [l []] Hn; [|done]. by eexists. Qed.

(** Tables of an address and a host per line, with the reverse name of a host given
    by [reverse]. *)
Definition reverse (ip : IpAddr) : name :=
  match ip with
  | IPv4 a => (map pretty (rev (to_be 256 4 a)) ++ ["in-addr"; "arpa"], true)
  | IPv6 a => ([pretty a; "ip6"; "arpa"], true)
  end.
Definition hosts_line (line : option string) : option (IpAddr * name) :=
  line ← line;
  match split_spaces line with
  | ip :: host :: _ => ip ← ip_from_str ip; host ← name_from_str host; Some (ip, set_fqdn true host)
  | _ => None
  end.
Definition host_record (n : name) (t : RecordType) (e : IpAddr * name) : option Record_ :=
  let record d := {| r_name := name_display n; r_class := 1; r_ttl := 86400; r_data := d |} in
  match t, fst e with
  | RT_A, IPv4 a => if bool_decide (snd e = n) then Some (record (RD_A a)) else None
  | RT_AAAA, IPv6 a => if bool_decide (snd e = n) then Some (record (RD_AAAA a)) else None
  | RT_Other _, ip => if bool_decide (reverse ip = n) then Some (record (RD_Other 12 (name_display (snd e)))) else None
  | _, _ => None
  end.
#[export] Instance list_hosts : HostsOps name := {
  Hosts := list (IpAddr * name);
  hosts_default := [];
  read_hosts_conf text h := h ++ omap hosts_line (Text.lines text);
  lookup_static_host h n t _ :=
    match omap (host_record n t) h with [] => None | records => Some (records, secs 86400) end;
}.

#[export] Instance wire_names : NameText name := {
  to_name s := default ([], true) (set_fqdn true <$> name_from_str s); name_text := name_display }.
Definition printer : Hosts := [(IPv4 3232235781, (["printer"], true))].
Definition lan : name := (["lan"], false).

(** A host of the hosts file is found by its own name and not below the local
    domain; the test of the code, with a name that is not fully qualified, strips
    the domain. *)
Lemma local_domain_ignored_witness :
  (local_domain_base (to_name "printer.lan.") (Some lan) = None ∧
   lookup_hosts printer (Some lan) (query_query "printer.lan." RT_A) = lookup_hosts printer None (query_query "printer.lan." RT_A)) ∧
  local_domain_base (["printer"; "lan"], false) (Some lan) = Some (["printer"], false) ∧
  is_Some (lookup_hosts printer (Some lan) (query_query "printer." RT_A)).
Proof.
  split; [|split; [vm_compute; reflexivity|eexists; vm_compute; reflexivity]].
  assert (H1 : is_fqdn (to_name (q_name (query_query "printer.lan." RT_A))) = true) by (vm_compute; reflexivity).
  assert (H2 : to_utf8 lan = "la" +:+ "n") by (vm_compute; reflexivity).
  assert (H3 : "n"%char ≠ "."%char) by discriminate.
  exact (local_domain_ignored printer (query_query "printer.lan." RT_A) lan "la" "n" H1 H2 H3).
Defined.
End Example.
