(* ===== verification/Leases.v ===== *)
(** * DHCP leases

    [LanClientStore], the readers of the lease files of dnsmasq and odhcpd, lookups
    by name and by address (src/dnsmasq.rs), and [DnsmasqMiddleware]
    (src/dns_mw_dnsmasq.rs), which answers from them. *)

From S2P Require Import Prelude Dns AuditLog IpSet DomainMap DomainRule Context Middleware Search.
From S2P Require Import Nom NomProps ConfigText Text FileCache Hosts.
From Stdlib Require Import Ascii.

(** Dates of the chrono crate: of a time stamp, the local time, the last date. *)
Class Dates := {
  NaiveDateTime : Type;
  from_timestamp : Z → option NaiveDateTime;
  local_now : NaiveDateTime;
  last_date : NaiveDateTime;
}.

(** hickory's [Name::append_name] and [append_domain]; they fail for a name that
    would be too long. *)
Class NameBuild (Name : Type) := {
  append_name : Name → Name → option Name;
  append_domain : Name → Name → option Name;
}.
Class NameBuildLaws (Name : Type) `{!NameOps Name, !NameBuild Name} := {
  append_name_spec a b n : append_name a b = Some n → labels n = labels a ++ labels b;
  append_domain_spec a b : append_domain a b = set_fqdn true <$> append_name a b;
}.

(** hickory's [Name::parse_arpa_name]: the network of a reverse name. *)
Class ArpaNames (Name : Type) := { parse_arpa_name : Name → option IpNet }.
(** [IpNet::addr] *)
Definition net_addr (n : IpNet) : IpAddr := match n with Net4 a _ => IPv4 a | Net6 a _ => IPv6 a end.

Record ClientInfo (Name : Type) `{Dates} := {
  ci_id : string;
  ci_ip : IpAddr;
  ci_host : Name;
  ci_mac : string;
  ci_expires_at : NaiveDateTime;
}.
Arguments ci_id {Name H}.
Arguments ci_ip {Name H}.
Arguments ci_host {Name H}.
Arguments ci_mac {Name H}.
Arguments ci_expires_at {Name H}.

(** ** Lines of lease files *)

Section parsers.
Context {Name : Type} `{!NameOps Name, !NameSyntax Name, DT : Dates}.

Definition is_comment_or_empty (s : string) : bool :=
  match s with EmptyString => true | String c _ => Ascii.eqb c "#" end.

(** [FromStr for ClientInfo] *)
Definition client_from_str (s : string) : option (ClientInfo Name) :=
  let s := trim s in
  if is_comment_or_empty s then None
  else
    match split_spaces s with
    | timestamp :: mac :: ip :: host :: id :: _ =>
        ip ← ip_from_str ip;
        host ← name_from_str host;
        if bool_decide (name_display host = "") then None
        else Some {| ci_id := id; ci_ip := ip; ci_host := host; ci_mac := mac;
                     ci_expires_at := default local_now (i64_from_str timestamp ≫= from_timestamp) |}
    | _ => None
    end.

Definition parse_odhcpd_line (line : string) : option (ClientInfo Name) :=
  let tokens := split_whitespace line in
  first ← head tokens;
  offset ← (if bool_decide (first = "#") then Some 1 else if starts_with "#" first then None else Some 0);
  if length tokens - offset <? 8 then None
  else
    hostname ← tokens !! (offset + 3);
    if bool_decide (hostname = "*") then None
    else
      host ← name_from_str hostname;
      address ← last tokens;
      ip ← head (split "/" address) ≫= ip_from_str;
      id ← tokens !! offset;
      Some {| ci_id := id; ci_ip := ip; ci_host := host; ci_mac := ""; ci_expires_at := last_date |}.

Definition parse_lease_line (odhcpd : bool) (line : string) : option (ClientInfo Name) :=
  if odhcpd then parse_odhcpd_line (trim line)
  else
    let line := trim_start line in
    if is_comment_or_empty line then None else client_from_str line.
End parsers.

(** ** Tables *)

Section tables.
Context {FS Name : Type} `{FL : !Files FS, !NameOps Name, !Glob, !HashCode Name, !NameSyntax Name, !NameBuild Name, DT : Dates}.
Abbreviation client := (ClientInfo Name).

(** The two hash maps a file is read into; the first as an association list, in
    the order its keys were first inserted. *)
Record LeaseTables := { name_map : list (WildcardName Name * client); ip_map : gmap IpAddr client }.

Fixpoint insert_name (k : WildcardName Name) (v : client) (m : list (WildcardName Name * client))
  : list (WildcardName Name * client) :=
  match m with
  | [] => [(k, v)]
  | (k', v') :: m' => if bool_decide (k' = k) then (k', v) :: m' else (k', v') :: insert_name k v m'
  end.

Definition set_host (host : Name) (c : client) : client :=
  {| ci_id := ci_id c; ci_ip := ci_ip c; ci_host := host; ci_mac := ci_mac c; ci_expires_at := ci_expires_at c |}.

(** A client as it is stored: with the zone appended and fully qualified. *)
Definition qualify (zone_ : option Name) (c : client) : client :=
  let host :=
    match zone_ with
    | Some z => default (ci_host c) (append_name (ci_host c) z)
    | None => ci_host c
    end in
  set_host (set_fqdn true host) c.

Definition add_client (zone_ : option Name) (t : LeaseTables) (c : client) : LeaseTables :=
  let c := qualify zone_ c in
  {| name_map := insert_name (wildcard_of_name (ci_host c)) c (name_map t); ip_map := <[ci_ip c := c]> (ip_map t) |}.

(** The clients of a file, in order; [None] when it cannot be opened. *)
Definition lease_file_clients (fs : FS) (path : string) (odhcpd : bool) : option (list client) :=
  file ← read_bytes fs path;
  Some (omap (λ line, line ≫= parse_lease_line odhcpd) (lines file)).

(** [collect_lease_file]: whether the file could be read, and the tables. *)
Definition collect_lease_file (fs : FS) (path : string) (zone_ : option Name) (odhcpd : bool) (t : LeaseTables)
  : bool * LeaseTables :=
  match lease_file_clients fs path odhcpd with
  | Some clients => (true, foldl (add_client zone_) t clients)
  | None => (false, t)
  end.

Record LeaseMappings := { name_to_client : DomainMap Name client; ip_to_client : gmap IpAddr client }.

Definition no_leases : LeaseTables := {| name_map := []; ip_map := ∅ |}.

(** [order] enumerates the hash map of names when it becomes a [DomainMap]. *)
Context (order : list (WildcardName Name * client) → list (WildcardName Name * client)).

Definition read_lease_files (primary odhcpd : option string) (zone_ : option Name) (fs : FS) : option LeaseMappings :=
  let '(read1, t) :=
    match primary with Some path => collect_lease_file fs path zone_ false no_leases | None => (false, no_leases) end in
  let '(read2, t) :=
    match odhcpd with Some path => collect_lease_file fs path zone_ true t | None => (false, t) end in
  if negb (read1 || read2) then None
  else Some {| name_to_client := dm_from_iter (order (name_map t)); ip_to_client := ip_map t |}.

(** ** The store *)

Record LanClientStore := { st_zone : option Name; st_file : option string; st_odhcpd_file : option string }.

(** [new], [from_odhcpd] and [with_odhcpd_file] *)
Definition store_new (file : string) (zone_ : option Name) : LanClientStore :=
  {| st_zone := zone_; st_file := Some file; st_odhcpd_file := None |}.
Definition store_from_odhcpd (file : string) (zone_ : option Name) : LanClientStore :=
  {| st_zone := zone_; st_file := None; st_odhcpd_file := Some file |}.
Definition store_with_odhcpd_file (s : LanClientStore) (file : string) : LanClientStore :=
  {| st_zone := st_zone s; st_file := st_file s; st_odhcpd_file := Some file |}.

Definition LeaseCache : Type := option (Cached LeaseMappings (option Z)).

Definition lease_mtime (s : LanClientStore) (fs : FS) : option Z :=
  let mtime path := path ≫= modified fs in
  match mtime (st_file s), mtime (st_odhcpd_file s) with
  | Some primary, Some odhcpd => Some (Z.max primary odhcpd)
  | primary, odhcpd => or_else primary odhcpd
  end.

Definition load_leases (s : LanClientStore) (fs : FS) : option LeaseMappings :=
  read_lease_files (st_file s) (st_odhcpd_file s) (st_zone s) fs.

Definition cached_clients (s : LanClientStore) (now : Z) (fs : FS) (cache : LeaseCache)
  : option (DomainMap Name client) * LeaseCache :=
  let '(m, cache) := refresh (lease_mtime s) (load_leases s) now fs cache in
  (name_to_client <$> m, cache).

(** The client of a name in the table. *)
Definition find_client (s : LanClientStore) (m : DomainMap Name client) (name : Name) : option client :=
  let name :=
    if is_fqdn name then name
    else
      set_fqdn true
        match st_zone s with Some z => default name (append_name name z) | None => name end in
  or_else (find m name)
    match st_zone s with
    | Some z => if negb (zone_of z name) then append_domain name z ≫= find m else None
    | None => None
    end.

(** The address of a client, if it is of the type asked for. *)
Definition client_address (t : RecordType) (c : client) : option RData :=
  match t, ci_ip c with
  | RT_A, IPv4 v => Some (RD_A v)
  | RT_AAAA, IPv6 v => Some (RD_AAAA v)
  | _, _ => None
  end.

Definition lookup (s : LanClientStore) (now : Z) (fs : FS) (name : Name) (t : RecordType) (cache : LeaseCache)
  : option RData * LeaseCache :=
  match t with
  | RT_A | RT_AAAA =>
      let '(m, cache) := cached_clients s now fs cache in
      (m ≫= λ m, find_client s m name ≫= client_address t, cache)
  | _ => (None, cache)
  end.

Definition reverse_lookup (ip : IpAddr) (cache : LeaseCache) : option RData :=
  c ← cache;
  client_info ← ip_to_client (value c) !! ip;
  if negb (bool_decide (name_display (ci_host client_info) = "*"))
  then Some (RD_Other 12 (name_display (ci_host client_info))) else None.
End tables.
Arguments LeaseTables Name {DT}.
Arguments LeaseMappings Name {DT}.
Arguments LanClientStore : clear implicits.
Arguments LeaseCache Name {DT}.

Definition ptr_to_ip {Name} `{!ArpaNames Name} (name : Name) : option IpAddr := net_addr <$> parse_arpa_name name.

(** ** The middleware *)

Section middleware.
Context {FS Name W : Type} `{FL : !Files FS, !NameOps Name, !Glob, !HashCode Name, !NameSyntax Name, !NameBuild Name}.
Context `{!NameUtf8 Name, NT : !NameText Name, AN : !ArpaNames Name, DT : Dates, RD : RuleData, RM : RangeMaps}.
Context `{CK : !Clock W, SF : !Stored W FS, SL : !Stored W (LeaseCache Name)}.
Context (order : list (WildcardName Name * ClientInfo Name) → list (WildcardName Name * ClientInfo Name)).
Abbreviation chain_mw := (middleware (DnsContext Name) DnsRequest DnsResponse LookupError W).
Implicit Types ctx : DnsContext Name.

(** The answer with one record, valid for the local TTL. *)
Definition lease_reply ctx (query : Query) (now : Z) (rdata : RData) : DnsResponse :=
  let ttl := local_ttl (cfg ctx) in
  new_with_deadline query [{| r_name := q_name query; r_class := 1; r_ttl := u32 ttl; r_data := rdata |}]
    (now + secs ttl).

Definition answer_lease ctx (query : Query) (rdata : RData) (w : W) : result DnsResponse LookupError * DnsContext Name * W :=
  let '((now, _), w) := read_clock w in
  (Ok (lease_reply ctx query now rdata), set_source ctx From_Static, w).

Definition dnsmasq_mw (store : LanClientStore Name) : chain_mw := λ next ctx req w,
  let query := req_query req in
  let name := to_name (q_name query) in
  let reverse :=
    if bool_decide (q_type query = RT_PTR)
    then ptr_to_ip name ≫= λ ip, reverse_lookup ip (get (LeaseCache Name) w) else None in
  match reverse with
  | Some rdata => answer_lease ctx query rdata w
  | None =>
      let lookup_name := default name (local_domain_base name (cf_local_domain (cfg ctx))) in
      let '(found, w) :=
        if is_ip_addr (q_type query) then
          let '((now, _), w) := read_clock w in
          let '(found, cache) := lookup order store now (get FS w) lookup_name (q_type query) (get (LeaseCache Name) w) in
          (found, put (LeaseCache Name) cache w)
        else (None, w) in
      match found with
      | Some rdata => answer_lease ctx query rdata w
      | None => next ctx req w
      end
  end.
End middleware.
