(* ===== verification/LeaseProps.v ===== *)
(** * Properties of the lease tables

    What a lookup of a name finds in the lease files, what a lease without a name
    does to other names, and when reverse lookups are answered. *)

From S2P Require Import Prelude Dns AuditLog IpSet DomainMap DomainRule Context Middleware Search.
From S2P Require Import Nom NomProps ConfigText Text FileCache Hosts Leases.
From Stdlib Require Import Ascii.

Section tables.
Context {Name : Type} `{!NameOps Name, !NameLaws Name, !Glob, !HashCode Name, !NameSyntax Name, !NameBuild Name, DT : Dates}.
Abbreviation client := (ClientInfo Name).
Abbreviation names := (list (WildcardName Name * client)).
Implicit Types (c : client) (cs : list client) (m : names) (k w : WildcardName Name).

(** The name under which a client is stored. *)
Definition key c : WildcardName Name := wildcard_of_name (ci_host c).

(** *** The table of names *)

Definition assoc m k : option client := snd <$> List.find (λ p, bool_decide (fst p = k)) m.

Lemma tassoc_cons k' v m k : assoc ((k', v) :: m) k = if bool_decide (k' = k) then Some v else assoc m k.
Proof. unfold assoc. cbn. by case_bool_decide. Qed.

Lemma assoc_insert m k v k' : assoc (insert_name k v m) k' = if bool_decide (k = k') then Some v else assoc m k'.
Proof.
  induction m as [|[k0 v0] m IH]; cbn [insert_name]; [by rewrite tassoc_cons|].
  destruct (decide (k0 = k)) as [->|Hne].
  - rewrite bool_decide_true by done. rewrite !tassoc_cons. by case_bool_decide.
  - rewrite bool_decide_false by done. rewrite !tassoc_cons, IH. repeat case_bool_decide; congruence.
Qed.

Lemma insert_keys m k v : map fst (insert_name k v m) = map fst m ∨ k ∉ map fst m ∧ map fst (insert_name k v m) = map fst m ++ [k].
Proof.
  induction m as [|[k0 v0] m IH]; cbn; [right; set_solver|]. case_bool_decide as E; [by left|]. cbn.
  destruct IH as [->|[Hn ->]]; [by left|right]. split; [set_solver|done].
Qed.

Lemma insert_nodup m k v : NoDup (map fst m) → NoDup (map fst (insert_name k v m)).
Proof.
  intros Hn. destruct (insert_keys m k v) as [->|[Hk ->]]; [done|]. apply NoDup_app. split_and!; [done| |apply NoDup_singleton].
  set_solver.
Qed.

Lemma assoc_elem m k v : NoDup (map fst m) → (k, v) ∈ m ↔ assoc m k = Some v.
Proof.
  induction m as [|[k0 v0] m IH]; cbn [map]; intros Hn; [set_solver|]. apply NoDup_cons in Hn as [H0 Hn].
  rewrite tassoc_cons, elem_of_cons. specialize (IH Hn). case_bool_decide as E.
  - subst. split; [|naive_solver]. intros [?|Hin]; [naive_solver|]. destruct H0. by apply (list_elem_of_fmap_2 fst _ _ Hin).
  - rewrite IH. naive_solver.
Qed.

(** The last client under a name. *)
Definition latest cs k : option client :=
  foldl (λ acc c, if bool_decide (key c = k) then Some c else acc) None cs.

Lemma latest_snoc cs c k : latest (cs ++ [c]) k = if bool_decide (key c = k) then Some c else latest cs k.
Proof. unfold latest. by rewrite foldl_snoc. Qed.

Lemma latest_spec cs k c : latest cs k = Some c → key c = k ∧ ∃ l1 l2, cs = l1 ++ c :: l2 ∧ Forall (λ c', key c' ≠ k) l2.
Proof.
  induction cs as [|c0 cs IH] using rev_ind; [done|]. rewrite latest_snoc. case_bool_decide as E.
  - intros [= ->]. split; [done|]. exists cs, []. done.
  - intros (Hk & l1 & l2 & -> & Hl)%IH. split; [done|]. exists l1, (l2 ++ [c0]). rewrite <- app_assoc. split; [done|].
    apply Forall_app. auto.
Qed.

Lemma latest_some cs c : c ∈ cs → is_Some (latest cs (key c)).
Proof.
  induction cs as [|c0 cs IH] using rev_ind; [set_solver|]. rewrite latest_snoc, elem_of_app.
  case_bool_decide; [eauto|]. intros [?|?]; [auto|set_solver].
Qed.

(** What the tables hold after the clients [cs] were added. *)
Definition tables_of zone_ cs : LeaseTables Name := foldl (add_client zone_) no_leases cs.

Lemma name_map_spec zone_ cs :
  NoDup (map fst (name_map (tables_of zone_ cs))) ∧
  (∀ k, assoc (name_map (tables_of zone_ cs)) k = latest (map (qualify zone_) cs) k).
Proof.
  unfold tables_of. induction cs as [|c cs IH] using rev_ind; [split; [constructor|done]|].
  rewrite foldl_snoc, map_app. cbn [add_client name_map map]. destruct IH as [IHn IHk]. split; [by apply insert_nodup|].
  intros k. rewrite assoc_insert, IHk, latest_snoc. done.
Qed.

Definition latest_ip cs ip : option client :=
  foldl (λ acc c, if bool_decide (ci_ip c = ip) then Some c else acc) None cs.

Lemma ip_map_spec zone_ cs ip : ip_map (tables_of zone_ cs) !! ip = latest_ip (map (qualify zone_) cs) ip.
Proof.
  unfold tables_of, latest_ip. induction cs as [|c cs IH] using rev_ind; [apply lookup_empty|].
  rewrite foldl_snoc, map_app, foldl_app. cbn [map foldl]. rewrite <- IH. cbn.
  case_bool_decide as E; [subst; by rewrite lookup_insert_eq|by rewrite lookup_insert_ne].
Qed.

(** *** From the table to the map of domains *)

Lemma normal_key zone_ c : normal (key (qualify zone_ c)) = key (qualify zone_ c).
Proof.
  assert (Hid : ∀ n : Name, is_fqdn n = true → set_fqdn true n = n).
  { intros n Hn. apply name_ext; [apply labels_set_fqdn|by rewrite is_fqdn_set_fqdn]. }
  unfold key, wildcard_of_name, qualify. cbn [set_host ci_host].
  set (h := set_fqdn true _). assert (Hh : is_fqdn h = true) by apply is_fqdn_set_fqdn.
  case_if; cbn; f_equal; apply Hid; [by apply is_fqdn_base_name|done].
Qed.

Lemma from_iter_insert_all (rs : names) :
  Forall (λ p, normal (fst p) = fst p) rs → dm_from_iter rs = insert_all rs.
Proof.
  unfold dm_from_iter, insert_all. intros Hn. generalize (dm_new (Name := Name) (T := client)) as m0.
  induction Hn as [|[k v] rs Hk _ IH]; intros m0; [done|]. cbn [foldl]. rewrite IH. f_equal.
  unfold dm_insert. cbn in Hk |- *. unfold normal in Hk. by rewrite Hk.
Qed.

Lemma assigned_nodup (rs : names) k :
  Forall (λ p, normal (fst p) = fst p) rs → NoDup (map fst rs) → assigned rs k = assoc rs k.
Proof.
  intros Hn Hd. induction rs as [|[k0 v0] rs IH] using rev_ind; [done|].
  rewrite assigned_snoc. apply Forall_app in Hn as [Hn Hk]. apply Forall_inv in Hk. cbn [fst] in Hk.
  rewrite map_app in Hd. apply NoDup_app in Hd as (Hd & Hdis & _). rewrite IH, Hk by done.
  assert (Happ : assoc (rs ++ [(k0, v0)]) k = or_else (assoc rs k) (assoc [(k0, v0)] k)).
  { clear. induction rs as [|[k1 v1] rs IH]; [done|]. cbn [app]. rewrite tassoc_cons, (tassoc_cons k1), IH. by case_bool_decide. }
  rewrite Happ, tassoc_cons. case_bool_decide as E; [|by destruct (assoc rs k)]. subst.
  destruct (assoc rs k) as [v|] eqn:Ea; [|done]. apply assoc_elem in Ea; [|done].
  destruct (Hdis k); [by apply (list_elem_of_fmap_2 fst _ _ Ea)|set_solver].
Qed.

Lemma assoc_key m k : k ∈ map fst m ↔ is_Some (assoc m k).
Proof.
  induction m as [|[k0 v0] m IH]; cbn [map]; [split; [set_solver|by intros []]|].
  rewrite tassoc_cons, elem_of_cons, IH. case_bool_decide; naive_solver.
Qed.

Lemma latest_key cs k : is_Some (latest cs k) ↔ k ∈ map key cs.
Proof.
  split.
  - intros [c (<- & l1 & l2 & -> & _)%latest_spec]. apply list_elem_of_fmap. exists c. set_solver.
  - intros (c & -> & Hc)%list_elem_of_fmap. by apply latest_some.
Qed.

(** [c] is the client a lookup of [name] should find among [cs]: the last one under
    its name, where no client's name fits [name] better. *)
Definition serves cs (name : Name) c : Prop :=
  (∃ l1 l2, cs = l1 ++ c :: l2 ∧ Forall (λ c', key c' ≠ key c) l2) ∧
  is_match (key c) name = true ∧
  ∀ c', c' ∈ cs → is_match (key c') name = true → at_least_as_specific (key c) (key c').

Lemma find_lease order zone_ cs name :
  (∀ m, order m ≡ₚ m) → labels name ≠ [] → is_wildcard name = false →
  collision_free (map key (map (qualify zone_) cs)) name →
  match find (dm_from_iter (order (name_map (tables_of zone_ cs)))) name with
  | Some c => serves (map (qualify zone_) cs) name c
  | None => ∀ c, c ∈ map (qualify zone_) cs → is_match (key c) name = false
  end.
Proof.
  intros Horder Hne Hw [Hh1 Hh2]. destruct (name_map_spec zone_ cs) as [Hnd Hassoc].
  set (m := name_map (tables_of zone_ cs)) in *. set (qs := map (qualify zone_) cs) in *.
  assert (Hkeys : ∀ k, k ∈ map fst (order m) ↔ k ∈ map key qs).
  { intros k. rewrite (Horder m), assoc_key, Hassoc. apply latest_key. }
  assert (Hnormal : Forall (λ p, normal (fst p) = fst p) (order m)).
  { apply Forall_forall. intros p Hp%(list_elem_of_fmap_2 fst). apply Hkeys in Hp.
    apply list_elem_of_fmap in Hp as (c & -> & Hc). apply list_elem_of_fmap in Hc as (c0 & -> & _). apply normal_key. }
  assert (Hndo : NoDup (map fst (order m))) by by rewrite (Horder m).
  assert (Hstored : stored (order m) = map fst (order m)).
  { unfold stored. apply list_fmap_ext. intros i p Hp. by apply (Forall_lookup_1 _ _ _ _ Hnormal Hp). }
  assert (Hassigned : ∀ k, assigned (order m) k = latest qs k).
  { intros k. rewrite assigned_nodup by done. rewrite <- Hassoc. apply option_eq. intros v.
    rewrite <- !assoc_elem by done. by rewrite (Horder m). }
  rewrite from_iter_insert_all by done.
  assert (Hfree : collision_free (stored (order m)) name).
  { rewrite Hstored. split; intros w; setoid_rewrite Hkeys; [apply Hh1|apply Hh2]. }
  pose proof (find_best (order m) name Hfree Hne Hw) as Hbest. unfold best in Hbest.
  destruct (find (insert_all (order m)) name) as [c|].
  - destruct Hbest as (w & Hv & Hm & _ & Hmin). rewrite Hassigned in Hv.
    apply latest_spec in Hv as (<- & l1 & l2 & Hl & Hl2). split_and!; [by exists l1, l2|done|].
    intros c' Hc' Hm'. apply Hmin; [|done|by apply match_suffix].
    rewrite Hstored. apply Hkeys. by apply list_elem_of_fmap_2.
  - intros c Hc. destruct (is_match (key c) name) eqn:Em; [|done]. rewrite <- Em. apply Hbest.
    + rewrite Hstored. apply Hkeys. by apply list_elem_of_fmap_2.
    + by apply match_suffix.
Qed.
End tables.

(** ** Lines of lease files *)

Section lines.
Context {Name : Type} `{!NameOps Name, !NameSyntax Name, DT : Dates}.

(** A lease as dnsmasq writes it: expiry, hardware address, address, host name and
    client id. *)
Record dnsmasq_lease := { dl_time : string; dl_mac : string; dl_ip : IpAddr; dl_host : string; dl_id : string }.
Definition show_dnsmasq (l : dnsmasq_lease) : string :=
  join " " [dl_time l; dl_mac l; show_ip (dl_ip l); dl_host l; dl_id l].
Definition dnsmasq_client (l : dnsmasq_lease) (host : Name) : ClientInfo Name :=
  {| ci_id := dl_id l; ci_ip := dl_ip l; ci_host := host; ci_mac := dl_mac l;
     ci_expires_at := default local_now (i64_from_str (dl_time l) ≫= from_timestamp) |}.
(** A lease whose fields are words, the first not a comment, and whose host name is
    a name. *)
Definition dnsmasq_ok (l : dnsmasq_lease) (host : Name) : Prop :=
  field (dl_time l) = true ∧ starts_with "#" (dl_time l) = false ∧ field (dl_mac l) = true ∧
  ip_valid (dl_ip l) = true ∧ field (dl_host l) = true ∧ field (dl_id l) = true ∧
  name_from_str (dl_host l) = Some host ∧ name_display host ≠ "".

(** A lease as odhcpd writes it, with or without the leading mark: interface, DUID,
    IAID, host name, at least three more fields, and the address with its prefix. *)
Record odhcpd_lease := {
  ol_mark : bool; ol_interface : string; ol_duid : string; ol_iaid : string; ol_host : string;
  ol_more : list string; ol_ip : IpAddr; ol_prefix : string;
}.
Definition odhcpd_fields (l : odhcpd_lease) : list string :=
  (if ol_mark l then ["#"] else []) ++
  [ol_interface l; ol_duid l; ol_iaid l; ol_host l] ++ ol_more l ++ [show_ip (ol_ip l) +:+ "/" +:+ ol_prefix l].
Definition show_odhcpd (l : odhcpd_lease) : string := join " " (odhcpd_fields l).
Definition odhcpd_client (l : odhcpd_lease) (host : Name) : ClientInfo Name :=
  {| ci_id := ol_interface l; ci_ip := ol_ip l; ci_host := host; ci_mac := ""; ci_expires_at := last_date |}.
Definition odhcpd_ok (l : odhcpd_lease) (host : Name) : Prop :=
  Forall (λ w, field w = true) ([ol_interface l; ol_duid l; ol_iaid l; ol_host l] ++ ol_more l) ∧
  (ol_mark l = false → starts_with "#" (ol_interface l) = false) ∧ 3 ≤ length (ol_more l) ∧
  ip_valid (ol_ip l) = true ∧ field (ol_prefix l) = true ∧
  ol_host l ≠ "*" ∧ name_from_str (ol_host l) = Some host.

Lemma address_char c : is_hex_colon c || Ascii.eqb c "." = true →
  printable c = true ∧ Ascii.eqb c "/" = false ∧ Ascii.eqb c " " = false.
Proof. destruct c as [[] [] [] [] [] [] [] []]; vm_compute; done. Qed.

Lemma show_ip_field a : ip_valid a = true → field (show_ip a) = true.
Proof.
  intros (Hc & Hne)%show_ip_chars. unfold field. rewrite Hne. eapply all_chars_impl; [|exact Hc].
  intros c Hc'. by apply address_char.
Qed.

Lemma first_char_join x l : is_comment_or_empty (join " " (x :: l)) = is_comment_or_empty x ∨ x = "".
Proof. destruct x as [|c x]; [by right|left]. destruct l; [done|]. cbn [join]. done. Qed.

Lemma not_comment x l : field x = true → starts_with "#" x = false → is_comment_or_empty (join " " (x :: l)) = false.
Proof.
  intros Hx Hs. destruct (first_char_join x l) as [-> | ->]; [|done]. by destruct x.
Qed.

Lemma dnsmasq_fields l host : dnsmasq_ok l host →
  Forall (λ w, field w = true) [dl_time l; dl_mac l; show_ip (dl_ip l); dl_host l; dl_id l].
Proof. intros (? & ? & ? & ? & ? & ? & ?). repeat constructor; try done. by apply show_ip_field. Qed.

(** A line of either file is read as the lease it shows. *)
Lemma dnsmasq_line_read l host : dnsmasq_ok l host →
  parse_lease_line false (show_dnsmasq l) = Some (dnsmasq_client l host).
Proof.
  intros Hok. pose proof (dnsmasq_fields l host Hok) as Hf. destruct Hok as (Ht & Hc & _ & Hip & _ & _ & Hn & Hd).
  unfold parse_lease_line, show_dnsmasq.
  rewrite trim_start_field by (rewrite join_cons by done; by apply field_starts).
  rewrite not_comment by done. unfold client_from_str. rewrite trim_fields, not_comment, split_spaces_fields by done.
  rewrite ip_from_str_show, Hn by done. cbn [mbind option_bind]. by rewrite bool_decide_false.
Qed.

Lemma odhcpd_all_fields l host : odhcpd_ok l host → Forall (λ w, field w = true) (odhcpd_fields l).
Proof.
  intros (Hf & _ & _ & Hip & Hp & _). unfold odhcpd_fields. apply Forall_app. split; [by destruct (ol_mark l); repeat constructor|].
  rewrite app_assoc. apply Forall_app. split; [done|]. constructor; [|constructor].
  pose proof (show_ip_field _ Hip) as Hi. unfold field in *. apply andb_true_iff in Hi as [Hi1 Hi2], Hp as [_ Hp].
  rewrite !all_chars_app, Hi2, Hp. destruct (show_ip (ol_ip l)); [done|]. done.
Qed.

Lemma odhcpd_line_read l host : odhcpd_ok l host →
  parse_lease_line true (show_odhcpd l) = Some (odhcpd_client l host).
Proof.
  intros Hok. pose proof (odhcpd_all_fields l host Hok) as Hf.
  assert (Hne : odhcpd_fields l ≠ []) by (unfold odhcpd_fields; by destruct (ol_mark l)).
  unfold parse_lease_line, show_odhcpd, parse_odhcpd_line. rewrite trim_fields, split_whitespace_fields by done.
  destruct Hok as (_ & Hmark & Hmore & Hip & _ & Hstar & Hn).
  assert (Hsplit : head (split "/" (show_ip (ol_ip l) +:+ "/" +:+ ol_prefix l)) = Some (show_ip (ol_ip l))).
  { unfold split. rewrite split_at_app; [by rewrite string_app_nil|]. eapply all_chars_impl; [|apply (show_ip_chars _ Hip)].
    intros c Hc. apply negb_true_iff. by apply address_char. }
  assert (Hlast : last (odhcpd_fields l) = Some (show_ip (ol_ip l) +:+ "/" +:+ ol_prefix l)).
  { unfold odhcpd_fields. by rewrite !app_assoc, last_snoc. }
  assert (Hlen : length (odhcpd_fields l) = (if ol_mark l then 1 else 0) + 5 + length (ol_more l)).
  { unfold odhcpd_fields. rewrite !length_app. destruct (ol_mark l); cbn; lia. }
  rewrite Hlast, Hlen. unfold odhcpd_fields in *.
  destruct (ol_mark l) eqn:Em; cbn [app head mbind option_bind].
  - rewrite bool_decide_true by done. cbn [mbind option_bind]. rewrite (proj2 (Nat.ltb_ge _ _)) by lia. cbn -[split ip_from_str show_ip bool_decide].
    rewrite bool_decide_false, Hn by done. cbn [mbind option_bind]. rewrite Hsplit. cbn [mbind option_bind].
    by rewrite ip_from_str_show.
  - specialize (Hmark eq_refl). apply Forall_inv in Hf as Hi.
    rewrite bool_decide_false by (intros E; by rewrite E in Hmark). rewrite Hmark. cbn [mbind option_bind].
    rewrite (proj2 (Nat.ltb_ge _ _)) by lia. cbn -[split ip_from_str show_ip bool_decide].
    rewrite bool_decide_false, Hn by done. cbn [mbind option_bind]. rewrite Hsplit. cbn [mbind option_bind].
    by rewrite ip_from_str_show.
Qed.
End lines.

(** ** Lookups in lease files *)

Section store.
Context {FS Name : Type} `{FL : !Files FS, !NameOps Name, !NameLaws Name, !Glob, !HashCode Name, !NameSyntax Name}.
Context `{!NameBuild Name, !NameBuildLaws Name, DT : Dates}.
Abbreviation client := (ClientInfo Name).
Context (order : list (WildcardName Name * client) → list (WildcardName Name * client)).
Context (order_perm : ∀ m, order m ≡ₚ m).

Lemma file_read {A} fs path odhcpd (ls : list A) (show : A → string) (client_of : A → client) :
  read_bytes fs path = Some (text_of_lines (map show ls)) →
  Forall (λ l, all_chars line_char (show l) = true ∧ parse_lease_line odhcpd (show l) = Some (client_of l)) ls →
  lease_file_clients fs path odhcpd = Some (map client_of ls).
Proof.
  intros Hfs Hls. unfold lease_file_clients. rewrite Hfs. cbn [mbind option_bind]. f_equal. rewrite lines_of_text.
  - clear Hfs. induction Hls as [|l ls [_ Hl] _ IH]; [done|]. cbn. rewrite Hl. by f_equal.
  - apply Forall_map. eapply Forall_impl; [exact Hls|]. by intros l [].
Qed.

(** The lease files hold the leases [ps] and [os], each with the name of its host. *)
Definition holds (fs : FS) (s : LanClientStore Name) (ps : list (dnsmasq_lease * Name)) (os : list (odhcpd_lease * Name)) : Prop :=
  (∃ path, st_file s = Some path ∧ read_bytes fs path = Some (text_of_lines (map (λ l, show_dnsmasq (fst l)) ps))) ∧
  (∃ path, st_odhcpd_file s = Some path ∧ read_bytes fs path = Some (text_of_lines (map (λ l, show_odhcpd (fst l)) os))) ∧
  Forall (λ l, dnsmasq_ok (fst l) (snd l)) ps ∧ Forall (λ l, odhcpd_ok (fst l) (snd l)) os.

(** The clients of the leases, as they are stored. *)
Definition clients_of (s : LanClientStore Name) (ps : list (dnsmasq_lease * Name)) (os : list (odhcpd_lease * Name)) : list client :=
  map (qualify (st_zone s))
    (map (λ l, dnsmasq_client (fst l) (snd l)) ps ++ map (λ l, odhcpd_client (fst l) (snd l)) os).

Lemma load_leases_holds fs s ps os : holds fs s ps os →
  ∃ t, t = tables_of (st_zone s) (map (λ l, dnsmasq_client (fst l) (snd l)) ps ++ map (λ l, odhcpd_client (fst l) (snd l)) os) ∧
    load_leases order s fs = Some {| name_to_client := dm_from_iter (order (name_map t)); ip_to_client := ip_map t |}.
Proof.
  intros ((p & Hp & Hpt) & (o & Ho & Hot) & Hps & Hos). eexists. split; [done|].
  unfold load_leases, read_lease_files, collect_lease_file. rewrite Hp, Ho.
  rewrite (file_read fs p false ps (λ l, show_dnsmasq (fst l)) (λ l, dnsmasq_client (fst l) (snd l))); [|done|].
  2: { eapply Forall_impl; [exact Hps|]. intros l Hl. split; [|by apply dnsmasq_line_read].
       apply line_chars. exact (dnsmasq_fields _ _ Hl). }
  rewrite (file_read fs o true os (λ l, show_odhcpd (fst l)) (λ l, odhcpd_client (fst l) (snd l))); [|done|].
  2: { eapply Forall_impl; [exact Hos|]. intros l Hl. split; [|by apply odhcpd_line_read].
       apply line_chars. exact (odhcpd_all_fields _ _ Hl). }
  unfold tables_of. by rewrite foldl_app.
Qed.

(** No client among [cs] has a name that [name] falls under. *)
Definition unknown (cs : list client) (name : Name) : Prop := ∀ c, c ∈ cs → is_match (key c) name = false.

(** The client a lookup of [name] should find: the one [name] falls under, or else,
    for a name outside the zone of the store, the one its name in the zone falls
    under. *)
Definition expected (s : LanClientStore Name) (cs : list client) (name : Name) (found : option client) : Prop :=
  let in_zone n := ∃ z, st_zone s = Some z ∧ zone_of z name = false ∧ append_domain name z = Some n in
  match found with
  | Some c => serves cs name c ∨ unknown cs name ∧ ∃ n, in_zone n ∧ serves cs n c
  | None => unknown cs name ∧ ∀ n, in_zone n → unknown cs n
  end.

(** The name that is looked up: a name that is not fully qualified is one of the zone. *)
Definition qualified (s : LanClientStore Name) (name : Name) : Name :=
  if is_fqdn name then name
  else set_fqdn true match st_zone s with Some z => default name (append_name name z) | None => name end.

(** [fs0] holds what the call serves at [now]: the files as they are if nothing is cached
    or the cached tables are two seconds old and of another signature; else the files the
    cached tables were read from. *)
Definition served_from (s : LanClientStore Name) (now : Z) (fs : FS) (cache : LeaseCache Name) (fs0 : FS) : Prop :=
  match cache with
  | Some e =>
      if fresh now e || bool_decide (signature e = lease_mtime s fs) then load_leases order s fs0 = Some (value e) else fs0 = fs
  | None => fs0 = fs
  end.

Lemma served_tables s now fs cache fs0 t : served_from s now fs cache fs0 → load_leases order s fs0 = Some t →
  fst (cached_clients order s now fs cache) = Some (name_to_client t).
Proof.
  intros Hs Hl. unfold cached_clients, refresh, served_from in *. destruct cache as [e|]; [|subst; by rewrite Hl].
  destruct (fresh now e); cbn [orb] in Hs; [by simplify_eq/=|].
  destruct (bool_decide (signature e = lease_mtime s fs)); [by simplify_eq/=|]. subst. by rewrite Hl.
Qed.

Lemma qualified_labels s name : labels name ≠ [] → is_wildcard name = false →
  labels (qualified s name) ≠ [] ∧ is_wildcard (qualified s name) = false ∧ is_fqdn (qualified s name) = true.
Proof.
  intros Hl Hw. assert (Hlab : ∃ l, labels (qualified s name) = labels name ++ l ∧ is_fqdn (qualified s name) = true).
  { unfold qualified. destruct (is_fqdn name) eqn:Ef; [exists []; by rewrite app_nil_r|].
    rewrite labels_set_fqdn, is_fqdn_set_fqdn. destruct (st_zone s) as [z|]; [|exists []; by rewrite app_nil_r].
    destruct (append_name name z) as [n|] eqn:En; cbn; [|exists []; by rewrite app_nil_r].
    exists (labels z). by rewrite (append_name_spec _ _ _ En). }
  destruct Hlab as (l & El & Ef). rewrite El. split_and!; [by destruct (labels name)| |done].
  apply not_true_iff_false. rewrite is_wildcard_spec, El. apply not_true_iff_false in Hw. rewrite is_wildcard_spec in Hw.
  by destruct (labels name).
Qed.

(** C36. Leases answer for their hosts: a lookup of an address, whatever the cache holds,
    in files that hold - or held when the cached tables were read from them - leases as
    dnsmasq and odhcpd write them gives the address of the client whose name the name
    asked for falls under - the most specific one, and of the leases of one name the
    last; for a name outside the zone of the store, also below the zone - if the address
    is of the family asked for.  The 64-bit hashes of the leased names must be distinct
    from each other and from those of the names above the name asked for. *)
Theorem lease_lookup_correct (s : LanClientStore Name) (fs fs0 : FS) (cache : LeaseCache Name) (ps : list (dnsmasq_lease * Name))
    (os : list (odhcpd_lease * Name)) (now : Z) (name : Name) (t : RecordType) :
  served_from s now fs cache fs0 → holds fs0 s ps os → is_ip_addr t = true → labels name ≠ [] → is_wildcard name = false →
  collision_free (map key (clients_of s ps os)) (qualified s name) →
  (∀ z n, st_zone s = Some z → append_domain (qualified s name) z = Some n → collision_free (map key (clients_of s ps os)) n) →
  ∃ found, expected s (clients_of s ps os) (qualified s name) found ∧
    fst (lookup order s now fs name t cache) = found ≫= client_address t.
Proof.
  intros Hserved Hholds Ht Hl0 Hw0 Hfree Hfree'. destruct (load_leases_holds fs0 s ps os Hholds) as (tb & -> & Hload).
  pose proof (served_tables s now fs cache fs0 _ Hserved Hload) as Htab. cbn [name_to_client] in Htab.
  set (cs0 := map _ ps ++ map _ os) in *. set (m := dm_from_iter _) in Htab.
  assert (Hfind : ∀ n, labels n ≠ [] → is_wildcard n = false → collision_free (map key (clients_of s ps os)) n →
    match find m n with Some c => serves (clients_of s ps os) n c | None => unknown (clients_of s ps os) n end).
  { intros n Hln Hwn Hcn. by apply find_lease. }
  assert (Hlook : fst (lookup order s now fs name t cache) = find_client s m name ≫= client_address t).
  { unfold lookup. destruct t; try done; destruct (cached_clients _ _ _ _ _) as [m' cache']; cbn [fst] in *; by subst m'. }
  exists (find_client s m name). split; [|done]. unfold find_client. fold (qualified s name). unfold expected.
  destruct (qualified_labels s name Hl0 Hw0) as (Hl & Hw & Hf). generalize dependent (qualified s name). clear Hlook.
  intros q Hfree Hfree' Hl Hw Hf. pose proof (Hfind q Hl Hw Hfree) as H1.
  destruct (find m q) as [c|]; cbn [or_else]; [by left|].
  destruct (st_zone s) as [z|] eqn:Ez; [|split; [done|]; by intros n (? & ? & _)].
  destruct (zone_of z q) eqn:Ezone; cbn [negb]; [split; [done|]; intros n (z' & ? & ? & _); congruence|].
  destruct (append_domain q z) as [n|] eqn:Ea; cbn [mbind option_bind]; [|split; [done|]; intros n (z' & [= <-] & _ & ?); congruence].
  assert (Hn : labels n = labels q ++ labels z).
  { rewrite append_domain_spec in Ea. apply fmap_Some in Ea as (n' & Hn' & ->). rewrite labels_set_fqdn. by apply append_name_spec. }
  assert (Hwn : is_wildcard n = false).
  { apply not_true_iff_false. rewrite is_wildcard_spec, Hn. apply not_true_iff_false in Hw. rewrite is_wildcard_spec in Hw.
    by destruct (labels q). }
  assert (Hln : labels n ≠ []) by (rewrite Hn; by destruct (labels q)).
  pose proof (Hfind n Hln Hwn (Hfree' z n eq_refl Ea)) as H2. destruct (find m n) as [c|].
  - right. split; [done|]. exists n. split; [by exists z|done].
  - split; [done|]. intros n' (z' & [= <-] & _ & ?). by simplify_eq.
Qed.

(** *** Leases without a host name *)

(** The labels of the zone of the store. *)
Definition zone_labels (s : LanClientStore Name) : list string :=
  match st_zone s with Some z => labels z | None => [] end.

Lemma key_labels c : labels (deref (key c)) = (if is_wildcard (ci_host c) then tail else id) (labels (ci_host c)).
Proof. unfold key, wildcard_of_name. case_if; cbn; [apply labels_base_name|done]. Qed.

Lemma qualify_labels s host c : ci_host c = host →
  match st_zone s with Some z => is_Some (append_name host z) | None => True end →
  labels (ci_host (qualify (st_zone s) c)) = labels host ++ zone_labels s.
Proof.
  intros <- Hz. unfold qualify, zone_labels. cbn. rewrite labels_set_fqdn. destruct (st_zone s) as [z|]; [|by rewrite app_nil_r].
  destruct Hz as [n Hn]. rewrite Hn. cbn. by apply append_name_spec.
Qed.

(** The pattern of a client whose host is a star. *)
Lemma star_key c zl : labels (ci_host c) = "*" :: zl →
  is_wildcard (ci_host c) = true ∧ ∀ name x, labels name = x :: zl → is_match (key c) name = true.
Proof.
  intros Hstar. assert (Hw : is_wildcard (ci_host c) = true) by (apply is_wildcard_spec; by rewrite Hstar).
  split; [done|]. intros name x Hname. unfold key, wildcard_of_name. rewrite Hw. cbn. apply andb_true_iff.
  split; [|by destruct (head _)]. apply eq_ignore_root_case_spec. by rewrite !labels_base_name, Hname, Hstar.
Qed.

(** A client whose host is a star, seen from a name of the zone that is no host: its
    pattern matches, and only another such client fits as well. *)
Lemma star_serves cs name x zl c0 c :
  labels name = x :: zl → x ≠ "*" →
  (∀ c, c ∈ cs → labels (ci_host c) ≠ labels name) →
  c0 ∈ cs → labels (ci_host c0) = "*" :: zl →
  serves cs name c → c ∈ cs ∧ labels (ci_host c) = "*" :: zl.
Proof.
  intros Hname Hx Hno Hin0 Hstar ((l1 & l2 & -> & _) & Hm & Hmin).
  assert (Hin : c ∈ l1 ++ c :: l2) by set_solver. split; [done|].
  destruct (star_key c0 zl Hstar) as [Hw0 Hm0]. specialize (Hmin c0 Hin0 (Hm0 _ _ Hname)). unfold at_least_as_specific in Hmin. rewrite !key_labels, Hw0, Hstar in Hmin. cbn [tail] in Hmin.
  unfold key, wildcard_of_name in Hm, Hmin. destruct (is_wildcard (ci_host c)) eqn:Ew; cbn in Hm, Hmin.
  - apply andb_true_iff in Hm as [Hm _]. apply eq_ignore_root_case_spec in Hm.
    rewrite !labels_base_name, Hname in Hm. apply is_wildcard_spec in Ew. destruct (labels (ci_host c)); [done|].
    cbn in *. by simplify_eq.
  - rewrite Hw0 in Hmin. cbn in Hmin. apply zone_of_spec in Hm as [pre Hpre]. rewrite Hname in Hpre.
    assert (length zl < length (labels (ci_host c))) by lia.
    destruct pre as [|y pre]; [cbn in Hpre; exfalso; apply (Hno c Hin); congruence|].
    apply (f_equal length) in Hpre. cbn in Hpre. rewrite length_app in Hpre. lia.
Qed.

(** After a lookup the reverse lookup of every leased address is answered. *)
Lemma reverse_published s ps os m t now ip c :
  (∀ n, is_fqdn n = true → ∃ u, name_display n = u +:+ ".") →
  latest_ip (clients_of s ps os) ip = Some c →
  reverse_lookup ip (Some {| value := {| name_to_client := m;
      ip_to_client := ip_map (tables_of (st_zone s)
        (map (λ l, dnsmasq_client (fst l) (snd l)) ps ++ map (λ l, odhcpd_client (fst l) (snd l)) os)) |};
    signature := t; checked_at := now |}) = Some (RD_Other 12 (name_display (ci_host c))).
Proof.
  intros Hdisplay Hc. unfold reverse_lookup. cbn [mbind option_bind value ip_to_client].
  rewrite ip_map_spec. fold (clients_of s ps os). rewrite Hc. cbn [mbind option_bind]. rewrite bool_decide_false; [done|].
  assert (Hin : c ∈ clients_of s ps os).
  { clear -Hc. revert Hc. unfold latest_ip. generalize (clients_of s ps os) as cs. intros cs.
    induction cs as [|y cs IH] using rev_ind; [done|]. rewrite foldl_snoc. case_bool_decide; set_solver. }
  unfold clients_of in Hin. apply list_elem_of_fmap in Hin as (y & -> & _).
  destruct (Hdisplay (ci_host (qualify (st_zone s) y))) as [u ->]; [apply is_fqdn_set_fqdn|].
  intros E. destruct u as [|a u]; [done|]. rewrite string_app_cons in E. injection E as _ E. by destruct u.
Qed.

(** Leases without a host name, which dnsmasq writes with a star: such a lease
    becomes a pattern.  Every name of one label in the zone that is no client's
    host - every misspelt name - is answered with the address of a client without
    a name; and the reverse lookup of every leased address is answered, also with
    the name that is a star. *)
Theorem nameless_lease (s : LanClientStore Name) (fs : FS) (ps : list (dnsmasq_lease * Name))
    (os : list (odhcpd_lease * Name)) (now : Z) (name : Name) (t : RecordType) (l : dnsmasq_lease) (host : Name) (x : string) :
  holds fs s ps os → is_ip_addr t = true → collision_free (map key (clients_of s ps os)) name →
  (∀ n, is_fqdn n = true → ∃ u, name_display n = u +:+ ".") →
  (l, host) ∈ ps → labels host = ["*"] →
  match st_zone s with Some z => is_Some (append_name host z) | None => True end →
  is_fqdn name = true → labels name = x :: zone_labels s → x ≠ "*" →
  (∀ c, c ∈ clients_of s ps os → labels (ci_host c) ≠ labels name) →
  ∃ c, c ∈ clients_of s ps os ∧ labels (ci_host c) = "*" :: zone_labels s ∧
    fst (lookup order s now fs name t None) = client_address t c ∧
    ∀ ip c', latest_ip (clients_of s ps os) ip = Some c' →
      reverse_lookup ip (snd (lookup order s now fs name t None)) = Some (RD_Other 12 (name_display (ci_host c'))).
Proof.
  intros Hholds Ht Hfree Hdisplay Hin Hstar Hz Hf Hname Hx Hno.
  destruct (load_leases_holds fs s ps os Hholds) as (tb & -> & Hload).
  set (tb := tables_of _ _) in *. set (m := dm_from_iter _) in Hload.
  assert (Hw : is_wildcard name = false).
  { apply not_true_iff_false. rewrite is_wildcard_spec, Hname. cbn. congruence. }
  assert (Hne : labels name ≠ []) by (rewrite Hname; done).
  pose proof (find_lease order (st_zone s) _ name order_perm Hne Hw Hfree) as Hfind. fold tb m in Hfind.
  set (c0 := qualify (st_zone s) (dnsmasq_client l host)).
  assert (Hc0 : c0 ∈ clients_of s ps os).
  { unfold clients_of. apply list_elem_of_fmap_2, elem_of_app. left.
    by apply (list_elem_of_fmap_2 (λ l, dnsmasq_client (fst l) (snd l)) ps (l, host)). }
  assert (Hs0 : labels (ci_host c0) = "*" :: zone_labels s).
  { unfold c0. rewrite (qualify_labels s host) by done. by rewrite Hstar. }
  assert (Hlook : lookup order s now fs name t None =
    (find_client s m name ≫= client_address t,
     Some {| value := {| name_to_client := m; ip_to_client := ip_map tb |}; signature := lease_mtime s fs; checked_at := now |})).
  { unfold lookup, cached_clients, refresh. rewrite Hload. by destruct t. }
  rewrite Hlook. unfold find_client. rewrite Hf. destruct (find m name) as [c|] eqn:Em; cbn [or_else fst snd].
  - destruct (star_serves _ _ _ _ c0 c Hname Hx Hno Hc0 Hs0 Hfind) as [H1 H2].
    exists c. split_and!; [done|done|done|]. intros ip c' Hc'. by apply reverse_published.
  - exfalso. specialize (Hfind c0 Hc0). destruct (star_key c0 _ Hs0) as [_ Hm0]. by rewrite (Hm0 _ _ Hname) in Hfind.
Qed.
End store.

(** ** The caches of the local files *)

Section served.
Context {FS Name : Type} `{FL : !Files FS, HO : !HostsOps Name, !NameOps Name, !Glob, !HashCode Name, !NameSyntax Name}.
Context `{!NameBuild Name, DT : Dates}.
Context (order : list (WildcardName Name * ClientInfo Name) → list (WildcardName Name * ClientInfo Name)).

(** The cache of the hosts files of a pattern and the cache of the lease files of a
    store, after a schedule of calls. *)
Definition run_hosts (p : option string) (clock : nat → Z) (files : nat → FS) (acts : list action) : state :=
  exec (collect_hosts_signature p) (λ fs, Some (refreshed_hosts p fs)) clock files acts.
Definition run_leases (s : LanClientStore Name) (clock : nat → Z) (files : nat → FS) (acts : list action) : state :=
  exec (lease_mtime s) (load_leases order s) clock files acts.

(** C35. Hosts files and lease files behind their caches: however calls interleave
    with one another, with a clock that does not run backwards and with changes of
    the files, a call that gets five steps returns.  The hosts it returns were read
    after the files had a signature which they also had at some step less than two
    seconds before the call began, or later; the leases likewise, or reading has
    failed in that time, and there are none only if it failed while the call ran.
    So what is returned is what the files held in those two seconds or after, if
    every change of their contents changes their signature - the paths and times of
    the hosts files, the later of the two times of the lease files - as far as the
    schedule goes. *)
Theorem local_files_served (p : option string) (s : LanClientStore Name) (clock : nat → Z) (files : nat → FS)
    (acts1 acts2 : list action) :
  (∀ i j, i ≤ j → (clock i ≤ clock j)%Z) →
  let now := clock (length acts1) in
  let acts := acts1 ++ Begin :: acts2 in
  let n := length acts in
  let hosts_sign := collect_hosts_signature p in
  (let i := length (calls (run_hosts p clock files acts1)) in
   5 ≤ runs i acts2 →
   ∃ hosts, calls (run_hosts p clock files acts) !! i = Some (Returned now (Some hosts)) ∧
     (∃ q k r, q ≤ k ∧ k < n ∧ hosts = refreshed_hosts p (files k) ∧
        recent clock n now r ∧ hosts_sign (files r) = hosts_sign (files q)) ∧
     (detected hosts_sign (λ fs, Some (refreshed_hosts p fs)) files n →
      ∃ k, recent clock n now k ∧ hosts = refreshed_hosts p (files k))) ∧
  (let i := length (calls (run_leases s clock files acts1)) in
   5 ≤ runs i acts2 →
   ∃ leases, calls (run_leases s clock files acts) !! i = Some (Returned now leases) ∧
     result_ok (lease_mtime s) (load_leases order s) clock files n now leases ∧
     (detected (lease_mtime s) (load_leases order s) files n →
      current (load_leases order s) clock files n now leases)).
Proof.
  intros Hclock now acts n hosts_sign. split; intros i Hi.
  - destruct (served_value hosts_sign (λ fs, Some (refreshed_hosts p fs)) clock files Hclock acts1 acts2 Hi) as (r & Hr & Hok).
    pose proof (result_current hosts_sign _ clock files Hclock _ _ _ Hok) as Hcur.
    destruct r as [hosts|]; [|destruct Hok as (f & _ & _ & [=])]. exists hosts. split; [exact Hr|]. split.
    + destruct Hok as (q & k & ? & ? & [= <-] & [(r & ? & ?)|(f & _ & [=])]). by exists q, k, r.
    + intros (k & ? & [[= <-]|[=]])%Hcur. by exists k.
  - destruct (served_value (lease_mtime s) (load_leases order s) clock files Hclock acts1 acts2 Hi) as (r & Hr & Hok).
    exists r. split_and!; [exact Hr|exact Hok|]. by apply result_current.
Qed.

(** A lease file whose time is not the later of the two: whatever it comes to hold,
    the clients served are those read before, at every later instant. *)
Lemma older_lease_file_missed (s : LanClientStore Name) (t : LeaseMappings Name) (fs fs' : FS) (at_ now m1 m1' m2 : Z) :
  (st_file s ≫= modified fs) = Some m1 → (st_file s ≫= modified fs') = Some m1' → (m1 ≤ m2)%Z → (m1' ≤ m2)%Z →
  (st_odhcpd_file s ≫= modified fs) = Some m2 → (st_odhcpd_file s ≫= modified fs') = Some m2 →
  fst (cached_clients order s now fs' (Some {| value := t; signature := lease_mtime s fs; checked_at := at_ |})) =
  Some (name_to_client t).
Proof.
  intros H1 H1' Hle Hle' H2 H2'.
  assert (Hs : lease_mtime s fs = lease_mtime s fs') by (unfold lease_mtime; rewrite H1, H1', H2, H2', !Z.max_r by done; done).
  unfold cached_clients, refresh. cbn [signature value]. rewrite Hs, bool_decide_true by done. by destruct (fresh now _).
Qed.
End served.

(** ** Concrete leases *)

Module Example.
Import ListName ConfigProps.Example Hosts.Example.

#[export] Instance dates : Dates := {
  NaiveDateTime := Z; from_timestamp t := Some t; local_now := 0%Z; last_date := 8210266876799%Z }.
#[export] Instance list_name_build : NameBuild name := {
  append_name a b := Some (fst a ++ fst b, snd b); append_domain a b := Some (fst a ++ fst b, true) }.
#[export] Instance list_name_build_laws : NameBuildLaws name.
Proof. split; [by intros a b n [= <-]|done]. Qed.

Definition leases : list (dnsmasq_lease * name) :=
  [({| dl_time := "1702763919"; dl_mac := "c5:65:92:0b:b5:72"; dl_ip := IPv4 3232261136; dl_host := "andy-pc";
       dl_id := "01:c5:65:92:0b:b5:72" |}, (["andy-pc"], false));
   ({| dl_time := "1702763920"; dl_mac := "7e:79:3d:a3:71:4d"; dl_ip := IPv4 3232261276; dl_host := "*"; dl_id := "*" |},
    (["*"], false))].
Definition leases6 : list (odhcpd_lease * name) :=
  [({| ol_mark := true; ol_interface := "br-lan"; ol_duid := "duid1"; ol_iaid := "iaid1"; ol_host := "rock-5b";
       ol_more := ["1780020967"; "efe"; "128"]; ol_ip := IPv6 42540766411282592856903984951653830398; ol_prefix := "128" |},
    (["rock-5b"], false))].

Definition lease_text : string := text_of_lines
  ["1702763919 c5:65:92:0b:b5:72 192.168.100.16 andy-pc 01:c5:65:92:0b:b5:72";
   "1702763920 7e:79:3d:a3:71:4d 192.168.100.156 * *"].
Definition lease6_text : string := text_of_lines
  ["# br-lan duid1 iaid1 rock-5b 1780020967 efe 128 2001:db8::efe/128"].
Definition fs : disk :=
  [("/tmp/dhcp.leases", (100%Z, lease_text)); ("/tmp/hosts/odhcpd", (200%Z, lease6_text))].
Definition store : LanClientStore name := store_with_odhcpd_file (store_new "/tmp/dhcp.leases" None) "/tmp/hosts/odhcpd".

Lemma fs_holds : holds fs store leases leases6.
Proof.
  unfold holds. split_and!.
  - exists "/tmp/dhcp.leases". split; [done|]. vm_compute. reflexivity.
  - exists "/tmp/hosts/odhcpd". split; [done|]. vm_compute. reflexivity.
  - repeat constructor; try (vm_compute; reflexivity); discriminate.
  - repeat constructor; try (vm_compute; reflexivity); try discriminate; simpl; lia.
Defined.

Definition rock : name := (["rock-5b"], true).
(** The host of the DHCPv6 lease. *)
Lemma lease_lookup_correct_witness :
  fst (lookup id store 0 fs rock RT_AAAA None) = Some (RD_AAAA 42540766411282592856903984951653830398) ∧
  ∃ found, expected store (clients_of store leases leases6) rock found ∧
    fst (lookup id store 0 fs rock RT_AAAA None) = found ≫= client_address RT_AAAA.
Proof.
  split; [vm_compute; reflexivity|].
  assert (H1 : labels rock ≠ []) by discriminate.
  assert (Hh : collision_freeb (map key (clients_of store leases leases6)) rock = true) by (vm_compute; reflexivity).
  assert (Hz : ∀ z n, st_zone store = Some z → append_domain (qualified store rock) z = Some n →
    collision_free (map key (clients_of store leases leases6)) n) by (intros z n [=]).
  exact (lease_lookup_correct id (λ m, reflexivity m) store fs fs None leases leases6 0 rock RT_AAAA
    eq_refl fs_holds eq_refl H1 eq_refl (no_collisions _ _ Hh) Hz).
Defined.

Definition typo : name := (["adny-pc"], true).
(** A misspelt name resolves to the client without a name. *)
Lemma nameless_lease_witness :
  fst (lookup id store 0 fs typo RT_A None) = Some (RD_A 3232261276) ∧
  reverse_lookup (IPv4 3232261276) (snd (lookup id store 0 fs typo RT_A None)) = Some (RD_Other 12 "*.") ∧
  ∃ c, c ∈ clients_of store leases leases6 ∧ labels (ci_host c) = "*" :: zone_labels store ∧
    fst (lookup id store 0 fs typo RT_A None) = client_address RT_A c ∧
    ∀ ip c', latest_ip (clients_of store leases leases6) ip = Some c' →
      reverse_lookup ip (snd (lookup id store 0 fs typo RT_A None)) = Some (RD_Other 12 (name_display (ci_host c'))).
Proof.
  split; [vm_compute; reflexivity|]. split; [vm_compute; reflexivity|].
  assert (Hd : ∀ n : name, is_fqdn n = true → ∃ u, name_display n = u +:+ ".") by (intros [l []] Hn; [by eexists|done]).
  assert (Hno : ∀ c, c ∈ clients_of store leases leases6 → labels (ci_host c) ≠ labels typo).
  { intros c Hc. repeat (apply elem_of_cons in Hc as [-> | Hc]; [discriminate|]). by apply not_elem_of_nil in Hc. }
  assert (Hx : "adny-pc" ≠ "*") by discriminate.
  assert (Hh : collision_freeb (map key (clients_of store leases leases6)) typo = true) by (vm_compute; reflexivity).
  assert (Hin : ({| dl_time := "1702763920"; dl_mac := "7e:79:3d:a3:71:4d"; dl_ip := IPv4 3232261276; dl_host := "*"; dl_id := "*" |},
    (["*"], false)) ∈ leases) by (right; left).
  exact (nameless_lease id (λ m, reflexivity m) store fs leases leases6 0 typo RT_A _ _ "adny-pc"
    fs_holds eq_refl (no_collisions _ _ Hh) Hd Hin eq_refl I eq_refl eq_refl Hx Hno).
Defined.

(** Lease files of which the one for IPv6 is written again at the eighth step; a
    step takes 500 milliseconds.  One call fills the cache; two others overlap while
    the file is written, and the second of them sees what was written. *)
Definition written : disk := [("/tmp/dhcp.leases", (100%Z, lease_text)); ("/tmp/hosts/odhcpd", (300%Z, ""))].
Definition files (n : nat) : disk := if n <? 8 then fs else written.
Definition clock (n : nat) : Z := millis (500 * Z.of_nat n).
Definition before : list action := [Begin; Run 0; Run 0; Run 0; Run 0; Run 0; Begin; Run 1].
Definition after : list action := [Run 2; Run 1; Run 2; Run 1; Run 2; Run 1; Run 2; Run 1; Run 2].

Lemma clock_mono i j : i ≤ j → (clock i ≤ clock j)%Z.
Proof. unfold clock, millis. lia. Qed.
Lemma changes_detected : detected (lease_mtime store) (load_leases id store) files 18.
Proof.
  assert (Hs : lease_mtime store fs ≠ lease_mtime store written) by (vm_compute; discriminate).
  intros i j k Hi Hj _ Heq. unfold files in *. destruct (Nat.ltb_spec i 8), (Nat.ltb_spec j 8), (Nat.ltb_spec k 8);
    (reflexivity || contradiction || lia).
Qed.

Lemma local_files_served_witness :
  calls (run_leases id store clock files (before ++ Begin :: after)) !! 2 = Some (Returned (clock 8) (load_leases id store written)) ∧
  (∃ hosts, calls (run_hosts (Some "/etc/hosts") clock files (before ++ Begin :: after)) !! 2 = Some (Returned (clock 8) (Some hosts)) ∧
    ∃ k, recent clock 18 (clock 8) k ∧ hosts = refreshed_hosts (Some "/etc/hosts") (files k)) ∧
  ∃ leases, calls (run_leases id store clock files (before ++ Begin :: after)) !! 2 = Some (Returned (clock 8) leases) ∧
    current (load_leases id store) clock files 18 (clock 8) leases.
Proof.
  assert (Hruns : 5 ≤ runs 2 after) by (vm_compute; lia).
  destruct (local_files_served id (Some "/etc/hosts") store clock files before after clock_mono) as [Hh Hl].
  split; [vm_compute; reflexivity|]. split.
  - destruct (Hh Hruns) as (hosts & H1 & _ & H2). exists hosts. split; [exact H1|]. apply H2.
    intros i j k _ _ _ _. unfold files. by destruct (i <? 8), (j <? 8).
  - destruct (Hl Hruns) as (leases_ & H1 & _ & H2). exists leases_. split; [exact H1|]. apply H2. exact changes_detected.
Defined.
End Example.
