(* ===== verification/Zones.v ===== *)
(** * Zones the server answers by itself

    The zone providers and their manager (src/zone/manager.rs, provider.rs,
    providers/identity.rs, local_ptr.rs, rule.rs), the reader of the ARP table
    (src/infra/arp.rs) and [DnsZoneMiddleware] (src/dns_mw_zone.rs). *)

From S2P Require Import Prelude Dns AuditLog IpSet DomainMap DomainRule Context AddressMw Middleware Search.
From S2P Require Import Nom NomProps ConfigText Text FileCache Hosts Leases.
From Stdlib Require Import Ascii.

Definition RT_TXT : RecordType := RT_Other 16.
Definition RT_SRV : RecordType := RT_Other 33.
Definition CLASS_CH : Z := 3.

(** [DnsResponse::empty], [from_rdata] and [add_query] (src/dns.rs). *)
Definition empty_response (now : Z) : DnsResponse :=
  {| queries := []; response_code := NoError; answers := []; authorities := []; valid_until := now;
     name_server_group := None; from_cache := false |}.
Definition record_of (query : Query) (d : RData) : Record_ :=
  {| r_name := q_name query; r_class := 1; r_ttl := MAX_TTL; r_data := d |}.
Definition with_class (r : Record_) (c : Z) : Record_ :=
  {| r_name := r_name r; r_class := c; r_ttl := r_ttl r; r_data := r_data r |}.
Definition from_rdata (now : Z) (query : Query) (d : RData) : DnsResponse :=
  new_with_max_ttl now query [record_of query d].

(** ** Hardware addresses of clients *)

(** The mac_addr crate: reading an address, its text, and the zero address. *)
Class MacOps := {
  MacAddr_ : Type;
  mac_eq_dec :: EqDecision MacAddr_;
  mac_from_str : string → option MacAddr_;
  mac_text : MacAddr_ → string;
  mac_zero : MacAddr_;
}.

(** [Ipv4Addr::is_loopback], [is_private], and the unique local addresses. *)
Definition is_loopback (a : Z) : bool := (Z.shiftr a 24 =? 127)%Z.
Definition is_private (a : Z) : bool :=
  ((Z.shiftr a 24 =? 10) || (Z.shiftr a 20 =? 2753) || (Z.shiftr a 16 =? 49320))%Z.
Definition is_unique_local (a : Z) : bool := (Z.land (Z.shiftr a 112) 65024 =? 64512)%Z.

Section arp.
Context `{MO : MacOps}.

Definition client_ipv4_for_arp (client_ip : IpAddr) : option Z :=
  match client_ip with IPv4 ip => if negb (is_loopback ip) then Some ip else None | IPv6 _ => None end.

Definition trim_arp_token (token : string) : string := trim_matches (in_set "()[],;:") token.

(** [Ipv4Addr::from_str] *)
Definition ipv4_from_str (s : string) : option Z :=
  if 15 <? String.length s then None
  else match read_ipv4_addr s with Some (EmptyString, a) => Some a | _ => None end.
Definition normalize_ip_token (token : string) : option Z := ipv4_from_str (trim_arp_token token).

Fixpoint replace_char (x y : ascii) (s : string) : string :=
  match s with EmptyString => "" | String c s' => String (if Ascii.eqb c x then y else c) (replace_char x y s') end.

Definition mac_of_token (token : string) : option MacAddr_ :=
  let mac := or_else (mac_from_str token)
    (if in_set token "-" then mac_from_str (replace_char "-" ":" token) else None) in
  mac ≫= λ m, if bool_decide (m = mac_zero) then None else Some m.

(** The first address and the first hardware address of the tokens. *)
Fixpoint arp_tokens (ip : option Z) (mac : option MacAddr_) (tokens : list string) : option Z * option MacAddr_ :=
  match tokens with
  | [] => (ip, mac)
  | token :: tokens' =>
      let token := trim_arp_token token in
      let ip := match ip with None => normalize_ip_token token | _ => ip end in
      let mac := match mac with None => mac_of_token token | _ => mac end in
      match ip, mac with
      | Some _, Some _ => (ip, mac)
      | _, _ => arp_tokens ip mac tokens'
      end
  end.

Definition parse_arp_line_entry (line : string) : option (Z * MacAddr_) :=
  let '(ip, mac) := arp_tokens None None (split_whitespace line) in
  ip ← ip; mac ← mac; Some (ip, mac).

(** [str::lines] of a text. *)
Definition text_lines (s : string) : list string := omap id (lines s).

Definition parse_arp_table_mac (table_ : string) (target_ip : Z) : option string :=
  mac_text ∘ snd <$> List.find (λ e, bool_decide (fst e = target_ip)) (omap parse_arp_line_entry (text_lines table_)).

Definition lookup_client_mac_from_arp {FS} `{!Files FS} (fs : FS) (client_ip : IpAddr) : option string :=
  ip ← client_ipv4_for_arp client_ip;
  table_ ← read_bytes fs "/proc/net/arp";
  if utf8_valid table_ then parse_arp_table_mac table_ ip else None.
End arp.

(** ** Providers *)

(** [ZoneProvider]: an answer, none, or an error. *)
Definition ZoneProvider (Ctx Req W : Type) : Type := Ctx → Req → W → result (option DnsResponse) LookupError * W.

(** [ZoneManager::lookup]: the first answer or error of the providers. *)
Fixpoint manager_lookup {Ctx Req W} (providers : list (ZoneProvider Ctx Req W)) : ZoneProvider Ctx Req W :=
  match providers with
  | [] => λ _ _ w, (Ok None, w)
  | provider :: providers' => λ ctx req w,
      let '(res, w) := provider ctx req w in
      match res with
      | Ok None => manager_lookup providers' ctx req w
      | _ => (res, w)
      end
  end.

(** What the providers use of the environment and of libraries: the host's name,
    the program's name and version, the text of a JSON object with text values,
    and the wire data of SRV and HTTPS records. *)
Inductive SvcParamKey := Ipv4Hint | Ipv6Hint | OtherKey (n : Z).
Class ZoneEnv (Name : Type) `{RuleData} := {
  host_name : option Name;
  program_name : Name;
  BUILD_VERSION : string;
  json_object : list (string * string) → string;
  srv_data : SRV → string;
  https_data : HTTPS → string;
  svcb_of : string → Z * string * list (SvcParamKey * string);
  svcb_new : Z * string * list (SvcParamKey * string) → string;
}.

Section providers.
Context {FS Name W : Type} `{FL : !Files FS, !NameOps Name, !NameSyntax Name, NT : !NameText Name, AN : !ArpaNames Name}.
Context `{RD : RuleData, NO : NetOps, RM : RangeMaps, ZE : !ZoneEnv Name, MO : MacOps}.
Context `{CK : !Clock W, SF : !Stored W FS}.
Abbreviation provider := (ZoneProvider (DnsContext Name) DnsRequest W).
Abbreviation chain_mw := (middleware (DnsContext Name) DnsRequest DnsResponse LookupError W).
Implicit Types ctx : DnsContext Name.
Implicit Types req : DnsRequest.

Definition cfg_server_name ctx : Name := server_name (cfg ctx) host_name program_name.

(** *** The identity of the server and of the client *)

Definition UNKNOWN_CLIENT_MAC : string := "N/A".

Inductive CanonicalIdentityQuery :=
| ServerName | ServerVersion | ClientIp | ClientMac | WhoAmIRecords | WhoAmIJson | ServerRecords | ServerJson.

Definition translate_query_name (name : string) : option CanonicalIdentityQuery :=
  let named s := bool_decide (name = s) in
  if named "server-name." || named "hostname.bind." then Some ServerName
  else if named "version." || named "version.bind." then Some ServerVersion
  else if named "client_ip." || named "client-ip." then Some ClientIp
  else if named "client_mac." || named "client-mac." then Some ClientMac
  else if named "whoami." then Some WhoAmIRecords
  else if named "whoami.json." then Some WhoAmIJson
  else if named "smartdns." || named "id.server." then Some ServerRecords
  else if named "smartdns.json." then Some ServerJson
  else None.

Definition normalize_query_name (name : Name) : string := to_ascii_lowercase (name_display (set_fqdn true name)).
Definition trim_fqdn_dot (name : string) : string := trim_end_matches "." name.
Definition normalize_client_ip (ip : IpAddr) : IpAddr := unmapped ip.

Definition txt_record (query : Query) (value_ : string) : Record_ :=
  with_class (record_of query (RD_Other 16 value_)) (q_class query).
Definition txt_records_response (now : Z) (query : Query) (values : list string) : DnsResponse :=
  new_with_max_ttl now query (map (txt_record query) values).
Definition txt_response (now : Z) (query : Query) (value_ : string) : DnsResponse :=
  new_with_max_ttl now query [txt_record query value_].

Definition build_server_records_text (server_name_ version : string) : list string :=
  ["server_name=" +:+ server_name_; "server_version=" +:+ version].
Definition build_info_records_text (server_name_ version client_ip client_mac : string) : list string :=
  ["server_name=" +:+ server_name_; "server_version=" +:+ version; "client_ip=" +:+ client_ip; "client_mac=" +:+ client_mac].
Definition build_server_json_text (server_name_ version : string) : string :=
  json_object [("server_name", server_name_); ("server_version", version)].
Definition build_info_json_text (server_name_ version client_ip client_mac : string) : string :=
  json_object [("server_name", server_name_); ("server_version", version); ("client_ip", client_ip); ("client_mac", client_mac)].

Definition identity_reply (q : CanonicalIdentityQuery) (query : Query) (now : Z) (server_name_ client_ip client_mac : string)
  : DnsResponse :=
  match q with
  | ServerName => txt_response now query server_name_
  | ServerVersion => txt_response now query BUILD_VERSION
  | ClientIp => txt_response now query client_ip
  | ClientMac => txt_response now query client_mac
  | WhoAmIJson => txt_response now query (build_info_json_text server_name_ BUILD_VERSION client_ip client_mac)
  | WhoAmIRecords => txt_records_response now query (build_info_records_text server_name_ BUILD_VERSION client_ip client_mac)
  | ServerRecords => txt_records_response now query (build_server_records_text server_name_ BUILD_VERSION)
  | ServerJson => txt_response now query (build_server_json_text server_name_ BUILD_VERSION)
  end.

Definition identity_lookup : provider := λ ctx req w,
  let query := req_query req in
  if negb (bool_decide (q_type query = RT_TXT)) then (Ok None, w)
  else if negb (q_class query =? CLASS_CH)%Z then (Ok None, w)
  else
    match translate_query_name (normalize_query_name (to_name (q_name query))) with
    | None => (Ok None, w)
    | Some canonical =>
        let client_ip := normalize_client_ip (req_src req) in
        let server_name_ := trim_fqdn_dot (name_display (cfg_server_name ctx)) in
        let client_mac := default UNKNOWN_CLIENT_MAC (lookup_client_mac_from_arp (get FS w) client_ip) in
        let '((now, _), w) := read_clock w in
        (Ok (Some (identity_reply canonical query now server_name_ (show_ip client_ip) client_mac)), w)
    end.

(** *** Reverse names of the server and of private networks *)

Record LocalPtrZoneProvider := { server_net : IpSet; server_names : list Name }.

(** [new]; [netifas] are the addresses of the interfaces. *)
Definition local_ptr_new (netifas : list IpAddr) : LocalPtrZoneProvider :=
  {| server_net := ipset_new (map (λ ip, match ip with IPv4 a => Net4 a 32 | IPv6 a => Net6 a 128 end) netifas);
     server_names := omap name_from_str ["smartdns."; "whoami."] |}.

Definition is_private_ip (a : IpAddr) : bool :=
  match a with IPv4 ip => is_private ip | IPv6 ip => is_unique_local ip end.

Definition local_ptr_lookup (p : LocalPtrZoneProvider) : provider := λ ctx req w,
  let query := req_query req in
  let name := to_name (q_name query) in
  if negb (bool_decide (q_type query = RT_PTR)) then (Ok None, w)
  else
    let own w :=
      let '((now, _), w) := read_clock w in
      (Ok (Some (from_rdata now query (RD_Other 12 (name_display (cfg_server_name ctx))))), w) in
    if bool_decide (name ∈ server_names p) then own w
    else
      match parse_arpa_name name with
      | Some net =>
          if ipmap_overlap_net (server_net p) net then own w
          else if is_private_ip (net_addr net) then
            let '((now, _), w) := read_clock w in
            (Ok (Some (set_queries (empty_response now) [query])), w)
          else (Ok None, w)
      | None => (Ok None, w)
      end.

(** *** Records of the domain rules *)

Definition filter_hints (no_ipv4_hint no_ipv6_hint : bool) (r : Record_) : Record_ :=
  match r_data r with
  | RD_Other code data =>
      if (code =? 65)%Z then
        let '(priority, target, params) := svcb_of data in
        let keep k := match k with Ipv4Hint => negb no_ipv4_hint | Ipv6Hint => negb no_ipv6_hint | OtherKey _ => true end in
        with_data r (RD_Other code (svcb_new (priority, target, List.filter (λ p, keep (fst p)) params)))
      else r
  | _ => r
  end.

(** [RuleZoneProvider::lookup] with the rest of the chain for an answer to filter:
    an answer, none, or an error, with the context and the world. *)
Definition rule_lookup (next : handler (DnsContext Name) DnsRequest DnsResponse LookupError W) ctx req (w : W)
  : result (option DnsResponse) LookupError * DnsContext Name * W :=
  let query := req_query req in
  let rule {A} (f : DomainRule Name → option A) := rule_get (λ n, f (node_rule n)) (ctx_domain_rule ctx) in
  if bool_decide (q_type query = RT_SRV) then
    match rule srv with
    | Some values =>
        let '((now, _), w) := read_clock w in
        (Ok (Some (new_with_max_ttl now query
           (map (λ v, with_class (record_of query (RD_Other 33 (srv_data v))) (q_class query)) values))), ctx, w)
    | None => (Ok None, ctx, w)
    end
  else if bool_decide (q_type query = RT_HTTPS) then
    match rule https with
    | Some HttpsSOA =>
        let '((now, _), w) := read_clock w in (Ok (Some (from_rdata now query default_soa)), ctx, w)
    | Some (HttpsFilter no_ipv4_hint no_ipv6_hint) =>
        let '(res, ctx, w) := next ctx req w in
        match res with
        | Ok lookup => (Ok (Some (set_answers lookup (map (filter_hints no_ipv4_hint no_ipv6_hint) (answers lookup)))), ctx, w)
        | Err err => (Err err, ctx, w)
        end
    | Some (HttpsRecordData d) =>
        let '((now, _), w) := read_clock w in (Ok (Some (from_rdata now query (RD_Other 65 (https_data d)))), ctx, w)
    | Some HttpsIgnore | None => (Ok None, ctx, w)
    end
  else if bool_decide (q_type query = RT_TXT) then
    match rule txt with
    | Some values =>
        let '((now, _), w) := read_clock w in
        (Ok (Some (new_with_max_ttl now query (map (λ v, record_of query (RD_Other 16 v)) values))), ctx, w)
    | None => (Ok None, ctx, w)
    end
  else (Ok None, ctx, w).

(** ** The middleware *)

(** [with_local_ptr]: the providers of the manager. *)
Definition zone_providers (local_ptr_enable : bool) (netifas : list IpAddr) : list provider :=
  (if local_ptr_enable then [local_ptr_lookup (local_ptr_new netifas)] else []) ++ [identity_lookup].

Definition zone_mw (providers : list provider) : chain_mw := λ next ctx req w,
  let '(res, w) := manager_lookup providers ctx req w in
  match res with
  | Err err => (Err err, ctx, w)
  | Ok (Some response) => (Ok response, ctx, w)
  | Ok None =>
      let '(res, ctx, w) := rule_lookup next ctx req w in
      match res with
      | Err err => (Err err, ctx, w)
      | Ok (Some response) => (Ok response, ctx, w)
      | Ok None => next ctx req w
      end
  end.
End providers.
