(* ===== verification/SetsMw.v ===== *)
(** * Firewall sets

    [DnsIpsetMiddleware] (src/dns_mw_ipset.rs) and [DnsNftsetMiddleware]
    (src/dns_mw_nftset.rs): the addresses of an answer are added to the sets of the
    rule of the name, by a task that runs after the answer was given.

    The commands a task issues are recorded in order; the probes of the addresses
    are those of Ping. *)

From S2P Require Import Prelude Dns AuditLog IpSet DomainMap DomainRule Context Middleware Ping Nom Hosts.

(** A call of the [ipset] program with its arguments, or of [nftset::add]. *)
Inductive SetAdd :=
| IpsetAdd (args : list string)
| NftAdd (family table name : string) (ip : IpAddr) (timeout : Z).

(** The tasks spawned so far, each with its commands. *)
Definition SetTasks : Type := list (list SetAdd).

Definition build_add_args (set : string) (ip : IpAddr) (timeout : Z) : list string :=
  ["add"; set; show_ip ip; "-exist"] ++ (if (0 <? timeout)%Z then ["timeout"; show_Z timeout] else []).

Definition is_ipv4 (ip : IpAddr) : bool := match ip with IPv4 _ => true | IPv6 _ => false end.

(** [add_addrs]: the addresses of the family of each set. *)
Definition add_addrs (nftsets : list (ConfigForIP NFTsetConfig)) (ips : list IpAddr) (timeout : Z) : list SetAdd :=
  nftsets ≫= λ nftset,
    match nftset with
    | V4 c => map (λ ip, NftAdd (family c) (table c) (nft_name c) ip timeout) (List.filter is_ipv4 ips)
    | V6 c => map (λ ip, NftAdd (family c) (table c) (nft_name c) ip timeout) (List.filter (negb ∘ is_ipv4) ips)
    | NoIP => []
    end.

Section middleware.
Context {Name W : Type} `{RD : RuleData, RM : RangeMaps, NW : Network, ST : !Stored W SetTasks}.
Abbreviation chain_mw := (middleware (DnsContext Name) DnsRequest DnsResponse LookupError W).
Implicit Types ctx : DnsContext Name.

(** Three times the TTL of the answer, if elements time out. *)
Definition set_timeout (enabled : bool) (lookup : DnsResponse) : Z :=
  if enabled then (default 0 (max_ttl lookup) * 3)%Z else 0%Z.

Definition unreachable (ip : IpAddr) : bool :=
  negb (is_ok (ping_fastest [PA_Icmp ip] (with_timeout_secs ping_options_default 2))).

Definition ipset_task (sets : option (list string)) (no_speed : option string) (ips : list IpAddr) (timeout : Z)
  : list SetAdd :=
  (default [] sets ≫= λ set, map (λ ip, IpsetAdd (build_add_args set ip timeout)) ips) ++
  match no_speed with
  | Some set => map (λ ip, IpsetAdd (build_add_args set ip timeout)) (List.filter unreachable ips)
  | None => []
  end.

Definition nftset_task (nftsets : list (ConfigForIP NFTsetConfig)) (no_speed : option (list (ConfigForIP NFTsetConfig)))
    (ips : list IpAddr) (timeout : Z) : list SetAdd :=
  add_addrs nftsets ips timeout ++
  match no_speed with
  | Some sets => List.filter unreachable ips ≫= λ ip, add_addrs sets [ip] timeout
  | None => []
  end.

(** The task spawned for an answer, if any. *)
Definition ipset_spawn ctx (res : result DnsResponse LookupError) : option (list SetAdd) :=
  if negb (so_is_background (server_opts ctx)) then
    match res, ctx_domain_rule ctx with
    | Ok lookup, Some rule =>
        let sets := node_get (λ n, ipsets (node_rule n)) rule in
        let no_speed := cf_ipset_no_speed (cfg ctx) in
        if bool_decide (is_Some sets) || bool_decide (is_Some no_speed) then
          if bool_decide (ip_addrs lookup = []) then None
          else Some (ipset_task sets no_speed (ip_addrs lookup) (set_timeout (ipset_timeout_enable (cfg ctx)) lookup))
        else None
    | _, _ => None
    end
  else None.

Definition nftset_spawn ctx (res : result DnsResponse LookupError) : option (list SetAdd) :=
  if negb (so_is_background (server_opts ctx)) then
    match res, ctx_domain_rule ctx with
    | Ok lookup, Some rule =>
        match node_get (λ n, nftset (node_rule n)) rule with
        | Some nftsets =>
            if bool_decide (ip_addrs lookup = []) then None
            else Some (nftset_task nftsets (cf_nftset_no_speed (cfg ctx)) (ip_addrs lookup)
                         (set_timeout (nftset_timeout_enable (cfg ctx)) lookup))
        | None => None
        end
    | _, _ => None
    end
  else None.

Definition spawn (task : option (list SetAdd)) (w : W) : W :=
  match task with Some t => put SetTasks (get SetTasks w ++ [t]) w | None => w end.

Definition ipset_mw : chain_mw := λ next ctx req w,
  let '(res, ctx, w) := next ctx req w in (res, ctx, spawn (ipset_spawn ctx res) w).
Definition nftset_mw : chain_mw := λ next ctx req w,
  let '(res, ctx, w) := next ctx req w in (res, ctx, spawn (nftset_spawn ctx res) w).

(** ** Properties *)

(** The answers of the rest of the chain pass through both stages as they are. *)
Lemma sets_keep_answer next ctx req w :
  fst (ipset_mw next ctx req w) = fst (next ctx req w) ∧ fst (nftset_mw next ctx req w) = fst (next ctx req w).
Proof. unfold ipset_mw, nftset_mw. by destruct (next ctx req w) as [[res ctx'] w']. Qed.

(** [-no-rule-ipset] of a listener. *)
Definition with_no_rule_ipset (v : option bool) ctx : DnsContext Name :=
  let o := server_opts ctx in
  {| cfg := cfg ctx;
     server_opts := {|
       so_group := so_group o; so_rule_group := so_rule_group o; so_no_rule_addr := so_no_rule_addr o;
       so_no_rule_nameserver := so_no_rule_nameserver o; so_no_rule_ipset := v;
       so_no_speed_check := so_no_speed_check o; so_no_cache := so_no_cache o;
       so_no_rule_soa := so_no_rule_soa o; so_no_dualstack_selection := so_no_dualstack_selection o;
       so_force_aaaa_soa := so_force_aaaa_soa o; so_force_https_soa := so_force_https_soa o;
       so_no_serve_expired := so_no_serve_expired o; so_is_background := so_is_background o |};
     ctx_domain_rule := ctx_domain_rule ctx; fastest_speed := fastest_speed ctx; ctx_source := ctx_source ctx;
     ctx_no_cache := ctx_no_cache ctx; server_group_name := server_group_name ctx |}.

Lemma elem_of_bind_2 {A B} (f : A → list B) l x y : x ∈ l → y ∈ f x → y ∈ (l ≫= f).
Proof. intros. apply list_elem_of_bind. eauto. Qed.

(** Addresses reach the sets of their rule: for a successful answer with addresses
    to a request that is not in the background, under a rule that names sets - the
    rule of the name or the one that encloses it - the task adds every address to
    every set, to the sets of nftables those of their family, with three times the
    largest TTL as the timeout where timeouts are on; a background request, a failure and an answer without
    addresses add nothing.  The option [-no-rule-ipset] of the listener changes
    none of this, for either kind of set. *)
Theorem ipset_adds ctx (res : result DnsResponse LookupError) (v : option bool) :
  let timeout (enabled : bool) lookup := if enabled then (default 0 (max_ttl lookup) * 3)%Z else 0%Z in
  (∀ lookup rule sets, res = Ok lookup → ctx_domain_rule ctx = Some rule →
     so_is_background (server_opts ctx) = false → node_get (λ n, ipsets (node_rule n)) rule = Some sets →
     ip_addrs lookup ≠ [] →
     ∃ task, ipset_spawn ctx res = Some task ∧
       ∀ set ip, set ∈ sets → ip ∈ ip_addrs lookup →
         IpsetAdd (build_add_args set ip (timeout (ipset_timeout_enable (cfg ctx)) lookup)) ∈ task) ∧
  (∀ lookup rule sets, res = Ok lookup → ctx_domain_rule ctx = Some rule →
     so_is_background (server_opts ctx) = false → node_get (λ n, nftset (node_rule n)) rule = Some sets →
     ip_addrs lookup ≠ [] →
     ∃ task, nftset_spawn ctx res = Some task ∧
       ∀ set ip, set ∈ sets → ip ∈ ip_addrs lookup →
         match set, ip with
         | V4 c, IPv4 _ | V6 c, IPv6 _ =>
             NftAdd (family c) (table c) (nft_name c) ip (timeout (nftset_timeout_enable (cfg ctx)) lookup) ∈ task
         | _, _ => True
         end) ∧
  (so_is_background (server_opts ctx) = true ∨ is_ok res = false ∨ (∃ lookup, res = Ok lookup ∧ ip_addrs lookup = []) →
     ipset_spawn ctx res = None ∧ nftset_spawn ctx res = None) ∧
  ipset_spawn (with_no_rule_ipset v ctx) res = ipset_spawn ctx res ∧
  nftset_spawn (with_no_rule_ipset v ctx) res = nftset_spawn ctx res.
Proof.
  cbv zeta. split_and!; [| | |done|done].
  - intros lookup rule sets -> Hrule Hbg Hsets Hne. unfold ipset_spawn. rewrite Hbg, Hrule, Hsets. cbn [negb].
    rewrite bool_decide_true by eauto. cbn [orb]. rewrite bool_decide_false by done. eexists. split; [done|].
    intros set ip Hset Hip. unfold ipset_task. apply elem_of_app. left. cbn [default from_option id].
    apply (elem_of_bind_2 _ sets set); [done|]. apply list_elem_of_fmap. by exists ip.
  - intros lookup rule sets -> Hrule Hbg Hsets Hne. unfold nftset_spawn. rewrite Hbg, Hrule, Hsets. cbn [negb].
    rewrite bool_decide_false by done. eexists. split; [done|].
    intros set ip Hset Hip. destruct set as [c|c|], ip as [a|a]; try done; unfold nftset_task, add_addrs; apply elem_of_app; left;
      (eapply elem_of_bind_2; [exact Hset|]); cbn; apply list_elem_of_fmap; eexists; (split; [done|]);
      by apply list_elem_of_In, filter_In; rewrite <- list_elem_of_In.
  - unfold ipset_spawn, nftset_spawn. intros [-> | [Hf | (lookup & -> & He)]]; [done| |].
    + destruct res; [done|]. by destruct (negb _).
    + rewrite He. destruct (negb _); [|done]. destruct (ctx_domain_rule ctx); [|done].
      rewrite !(bool_decide_true ([] = [])) by done. split; by case_match.
Qed.
End middleware.
