(* ===== verification/LocalStages.v ===== *)
(** * The local stages of the chain

    The part of [build_middleware] (src/app.rs) between the address and the cache
    middleware: leases, zones, hosts files and firewall sets, as stages of the
    chain of Chain.v, and what their order makes of requests for local names. *)

From S2P Require Import Prelude Float64 Dns AuditLog App Lru DnsCache CacheInv CacheProps CacheMiddleware.
From S2P Require Import IpSet DomainMap DomainRule Context AddressMw Middleware Search RewriteMw Dns64.
From S2P Require Import Ping DualStack Chain ChainProps NsStrategy NsMiddleware.
From S2P Require Import Nom NomProps ConfigText ConfigProps Text FileCache Hosts Leases LeaseProps Zones SetsMw.

(** A part of the upstream side's state is a part of the world. *)
#[export] Instance world_stored `{LY : Layout, LO : !LruOps Query DnsCacheEntry} {U T : Type} `{SU : !Stored U T}
  : Stored (World U) T := { get w := get T (w_up w); put t w := set_up w (put T t (w_up w)) }.

Section stages.
Context `{LY : Layout, LO : !LruOps Query DnsCacheEntry, HK : Hickory} {U FS : Type}.
Context {Name : Type} `{!NameOps Name, !Glob, !HashCode Name, NT : !NameText Name, RD : RuleData, EO : !EcsOps}.
Context `{NO : NetOps, RM : RangeMaps, CT : !ChainText, EX : !Executor Name (World U), NW : Network}.
Context `{FL : !Files FS, HO : !HostsOps Name, NS : !NameSyntax Name, NU : !NameUtf8 Name, NB : !NameBuild Name}.
Context `{AN : !ArpaNames Name, DT : Dates, ZE : !ZoneEnv Name, MO : MacOps}.
Context `{SF : !Stored U FS, SH : !Stored U (HostsCache Name), SL : !Stored U (LeaseCache Name), ST : !Stored U SetTasks}.
Context (default_query : Query) (fresh_id : Z).
(** The enumeration of the lease table, the addresses of the interfaces, and whether
    the program is built with nftables. *)
Context (order : list (WildcardName Name * ClientInfo Name) → list (WildcardName Name * ClientInfo Name)).
Context (netifas : list IpAddr) (nft : bool).
Abbreviation W := (World U).
Abbreviation chain_handler := (handler (DnsContext Name) DnsRequest DnsResponse LookupError W).
Abbreviation chain_mw := (middleware (DnsContext Name) DnsRequest DnsResponse LookupError W).
Abbreviation build := (build_middleware default_query fresh_id).
Implicit Types ctx : DnsContext Name.
Implicit Types c : RuntimeConfig Name.
Implicit Types w : W.
Implicit Types next : chain_handler.

(** The store of leases for the files that exist when the chain is built. *)
Definition lease_store c (fs : FS) : option (LanClientStore Name) :=
  let existing path := path ≫= λ p, if is_file fs p then Some p else None in
  match existing (cf_dnsmasq_lease_file c), existing (cf_odhcpd_lease_file c) with
  | Some dnsmasq, Some odhcpd => Some (store_with_odhcpd_file (store_new dnsmasq (cf_domain c)) odhcpd)
  | Some dnsmasq, None => Some (store_new dnsmasq (cf_domain c))
  | None, Some odhcpd => Some (store_from_odhcpd odhcpd (cf_domain c))
  | None, None => None
  end.

Definition lease_stage c (fs : FS) : list chain_mw :=
  match lease_store c fs with Some s => [dnsmasq_mw order s] | None => [] end.
Definition zone_stage c : chain_mw := zone_mw (zone_providers (local_ptr_enable c) netifas).
Definition host_stages c : list chain_mw :=
  opt_stage (resolv_hostanme c) hosts_mw ++ opt_stage nft nftset_mw ++
  opt_stage (bool_decide (is_Some (cf_ipset_no_speed c)) ||
             existsb (λ g, negb (bool_decide (length (ipset_rules (snd g)) = 0))) (rule_groups c)) ipset_mw.

Definition local_stages c (fs : FS) : list chain_mw := lease_stage c fs ++ [zone_stage c] ++ host_stages c.

(** The chain of the server, built while the files are [fs]. *)
Definition server_chain c (fs : FS) (ns : chain_mw) := build c (local_stages c fs) ns.

(** ** Stages before and after the zones *)

Definition before_leases c : list chain_mw :=
  opt_stage (force_no_cname c) force_no_cname_mw ++ opt_stage (debug_save_fail_packet c) fail_packet_mw ++
  [audit_mw (audit_soa c)] ++ opt_stage (has_cnames c) cname_mw ++
  match dns64_prefix c with Some p => [dns64_mw fresh_id p] | None => [] end ++
  [address_mw default_query].
Definition after_zone c (ns : chain_mw) : list chain_mw :=
  host_stages c ++ opt_stage (0 <? cache_size c)%Z cache_mw ++ [dualstack_mw] ++
  opt_stage (negb (ipmap_is_empty (bogus_nxdomain c))) bogus_mw ++ [ns].

Lemma server_chain_stages c fs ns :
  execute (server_chain c fs ns) =
  run default_handler (before_leases c ++ lease_stage c fs ++ zone_stage c :: after_zone c ns).
Proof.
  unfold server_chain. rewrite execute_stages. f_equal.
  unfold stages, inner_stages, before_leases, after_zone, local_stages. by rewrite <- !app_assoc.
Qed.

(** Two handlers that do the same for one request, while the upstream side and the
    local state are [u]. *)
Definition agree (u : U) ctx req (h1 h2 : chain_handler) : Prop := ∀ w, w_up w = u → h1 ctx req w = h2 ctx req w.
(** A stage that runs the rest of the chain for the request it got, if at all. *)
Definition forwards (u : U) ctx req (m : chain_mw) : Prop :=
  ∀ h1 h2, agree u ctx req h1 h2 → agree u ctx req (m h1) (m h2).

Lemma run_forwards u ctx req d1 d2 ms : Forall (forwards u ctx req) ms → agree u ctx req d1 d2 →
  agree u ctx req (run d1 ms) (run d2 ms).
Proof. induction 1 as [|m ms Hm _ IH]; intros Hd; [done|]. cbn. intros w Hw. apply Hm; [|done]. apply IH, Hd. Qed.

Lemma forwards_opt u ctx req b (m : chain_mw) : forwards u ctx req m → Forall (forwards u ctx req) (opt_stage b m).
Proof. destruct b; cbn; repeat constructor; auto. Qed.

Lemma clock_up w : w_up (snd (read_clock w)) = w_up w.
Proof. by destruct (read_clock_keeps w) as (_ & _ & _ & ?). Qed.

(** The stages before the leases hand on a request that no alias rule rewrites and
    that DNS64 does not concern. *)
Lemma outer_forwards u ctx req c :
  cname_of ctx = None → q_type (req_query req) ≠ RT_AAAA ∨ dns64_prefix c = None →
  Forall (forwards u ctx req) (before_leases c).
Proof.
  intros Hcname Hty. unfold before_leases. repeat apply Forall_app_2.
  - apply forwards_opt. intros h1 h2 Hh w Hw. unfold force_no_cname_mw. by rewrite Hh.
  - apply forwards_opt. intros h1 h2 Hh w Hw. unfold fail_packet_mw. by rewrite Hh.
  - constructor; [|constructor]. intros h1 h2 Hh w Hw. unfold audit_mw.
    pose proof (clock_up w) as H1. destruct (read_clock w) as [[] w1].
    pose proof (clock_up w1) as H2. destruct (read_clock w1) as [[] w2]. cbn in *. rewrite Hh by congruence. done.
  - apply forwards_opt. intros h1 h2 Hh w Hw. unfold cname_mw. rewrite Hcname. by apply Hh.
  - destruct (dns64_prefix c) as [p|]; constructor; [|constructor]. destruct Hty as [Hty|]; [|done].
    intros h1 h2 Hh w Hw. unfold dns64_mw. destruct (q_type (req_query req)); try done; by apply Hh.
  - constructor; [|constructor]. intros h1 h2 Hh w Hw. unfold address_mw. by rewrite Hh.
Qed.

Lemma lease_forwards u ctx req s : q_type (req_query req) = RT_PTR → forwards u ctx req (dnsmasq_mw order s).
Proof.
  intros Hty h1 h2 Hh w Hw. unfold dnsmasq_mw. cbv zeta. rewrite Hty. cbn [is_ip_addr].
  repeat (case_match; try done); simplify_eq; by apply Hh.
Qed.

(** The zones answer for a private reverse name by themselves. *)
Lemma zone_private c ctx req w net :
  local_ptr_enable c = true → q_type (req_query req) = RT_PTR →
  parse_arpa_name (to_name (q_name (req_query req))) = Some net → is_private_ip (net_addr net) = true →
  ∃ now d, (∀ next, zone_stage c next ctx req w = (Ok d, ctx, snd (read_clock w))) ∧
    (d = set_queries (empty_response now) [req_query req] ∨
     d = from_rdata now (req_query req) (RD_Other 12 (name_display (cfg_server_name ctx)))).
Proof.
  intros Hen Hty Harpa Hpriv.
  assert (Hptr : ∃ now d, local_ptr_lookup (local_ptr_new netifas) ctx req w = (Ok (Some d), snd (read_clock w)) ∧
    (d = set_queries (empty_response now) [req_query req] ∨
     d = from_rdata now (req_query req) (RD_Other 12 (name_display (cfg_server_name ctx))))).
  { unfold local_ptr_lookup. cbv zeta. rewrite Hty, Harpa, Hpriv. rewrite (bool_decide_true (RT_PTR = RT_PTR)) by done.
    cbn [negb]. destruct (read_clock w) as [[now wall] w']. exists now. repeat case_if; eexists; (split; [done|auto]). }
  destruct Hptr as (now & d & Hptr & Hd). exists now, d. split; [|done]. intros next.
  unfold zone_stage, zone_mw, zone_providers. rewrite Hen.
  cbn -[local_ptr_lookup identity_lookup rule_lookup local_ptr_new read_clock]. by rewrite Hptr.
Qed.

(** C37. Local names stay local, if there is no alias rule for the name and the request
    is not one for IPv6 addresses with DNS64 on.  An address request for a name in a
    lease, with the lease files not yet read, is answered by the chain cut off after
    the lease stage.  A reverse request for a private address is answered by the chain
    cut off after the zone stage, when [local-ptr-enable] is on, and the zones answer
    it with no record or with the name of the server.  So for both the hosts files,
    the firewall sets, the cache, the speed checks and the upstream servers play no
    part - for reverse requests also where [expand-ptr-from-address] asks for names
    from the hosts files. *)
Theorem local_names_stay_local c (fs : FS) (ns : chain_mw) ctx (req : DnsRequest) w :
  cname_of ctx = None → q_type (req_query req) ≠ RT_AAAA ∨ dns64_prefix c = None →
  let name := to_name (q_name (req_query req)) in
  (∀ s, lease_store c fs = Some s → is_ip_addr (q_type (req_query req)) = true →
     get (LeaseCache Name) (w_up w) = None →
     (∀ now, is_Some (fst (lookup order s now (get FS (w_up w))
        (default name (local_domain_base name (cf_local_domain (cfg ctx)))) (q_type (req_query req)) None))) →
     execute (server_chain c fs ns) ctx req w =
     run default_handler (before_leases c ++ lease_stage c fs) ctx req w) ∧
  (∀ net, local_ptr_enable c = true → q_type (req_query req) = RT_PTR →
     parse_arpa_name name = Some net → is_private_ip (net_addr net) = true →
     execute (server_chain c fs ns) ctx req w =
     run default_handler (before_leases c ++ lease_stage c fs ++ [zone_stage c]) ctx req w ∧
     ∀ w, ∃ now d, (∀ next, zone_stage c next ctx req w = (Ok d, ctx, snd (read_clock w))) ∧
       (d = set_queries (empty_response now) [req_query req] ∨
        d = from_rdata now (req_query req) (RD_Other 12 (name_display (cfg_server_name ctx))))).
Proof.
  intros Hcname Hty name. rewrite server_chain_stages. split.
  - intros s Hs Hip Hcold Hfound. rewrite !run_app. apply (run_forwards (w_up w)); [by apply outer_forwards| |done].
    unfold lease_stage. rewrite Hs. intros w1 Hw1. cbn [app run]. unfold dnsmasq_mw. cbv zeta. fold name.
    rewrite bool_decide_false by (intros E; by rewrite E in Hip). rewrite Hip.
    pose proof (clock_up w1) as Hup. destruct (read_clock w1) as [[now wall] w2]. cbn in Hup.
    cbn [get world_stored]. rewrite Hup, Hw1, Hcold. destruct (Hfound now) as [d Hd].
    destruct (lookup _ _ _ _ _ _ _) as [found cache]. cbn in Hd. by subst.
  - intros net Hen Hptr Harpa Hpriv. split; [|intros; by eapply zone_private].
    rewrite (app_assoc (before_leases c)), (app_assoc (before_leases c) _ [_]), !(run_app _ (before_leases c ++ _)).
    apply (run_forwards (w_up w)); [|intros w1 _; cbn [run]|done].
    + apply Forall_app. split; [by apply outer_forwards|]. unfold lease_stage.
      destruct (lease_store c fs); constructor; [|constructor]. by apply lease_forwards.
    + destruct (zone_private c ctx req w1 net Hen Hptr Harpa Hpriv) as (now & d & Hz & _). by rewrite !Hz.
Qed.
End stages.

(** ** A concrete server *)

Module Example.
Import ListName DomainRule.Example Ranges Context.Example ConfigProps.Example Hosts.Example LeaseProps.Example.

#[local] Instance layout : Layout := demo_layout.
#[local] Instance lru : LruOps Query DnsCacheEntry := ListLru.list_lru.
#[local] Instance hickory : Hickory := { rtype_to_string t := match t with RT_A => "A" | _ => "OTHER" end }.
#[local] Instance ecs : EcsOps := { subnet_addr _ := IPv4 0; subnet_source_prefix _ := 0%Z }.
#[local] Instance chain_text : ChainText := {
  rtype_is_dnssec _ := false; socket_text _ _ := "192.168.1.5:5353"; name_for_file n := n; encodes _ := true }.
#[export] Instance arpa : ArpaNames name := { parse_arpa_name n :=
  match fst n with
  | [d; c; b; a; "in-addr"; "arpa"] => (λ ip, Net4 ip 32) <$> ipv4_from_str (join "." [a; b; c; d])
  | _ => None
  end }.
#[export] Instance zone_env : ZoneEnv name := {
  host_name := None; program_name := (["smartdns"], false); BUILD_VERSION := "0.13.5";
  json_object l := join "," (map (λ p, fst p +:+ "=" +:+ snd p) l); srv_data _ := ""; https_data _ := "";
  svcb_of d := (1%Z, d, []); svcb_new '(_, d, _) := d }.
#[export] Instance macs : MacOps := {
  MacAddr_ := string; mac_from_str s := if length (split ":" s) =? 6 then Some s else None; mac_text := id;
  mac_zero := "00:00:00:00:00:00" }.
#[local] Instance net : Network := DualStack.Example.net.

(** The state of the local stages, and the number of requests sent upstream. *)
Record side := {
  sd_files : disk; sd_hosts : HostsCache name; sd_leases : LeaseCache name; sd_sets : SetTasks; sd_asked : nat }.
#[export] Instance side_files : Stored side disk := { get := sd_files; put d s :=
  {| sd_files := d; sd_hosts := sd_hosts s; sd_leases := sd_leases s; sd_sets := sd_sets s; sd_asked := sd_asked s |} }.
#[export] Instance side_hosts : Stored side (HostsCache name) := { get := sd_hosts; put h s :=
  {| sd_files := sd_files s; sd_hosts := h; sd_leases := sd_leases s; sd_sets := sd_sets s; sd_asked := sd_asked s |} }.
#[export] Instance side_leases : Stored side (LeaseCache name) := { get := sd_leases; put l s :=
  {| sd_files := sd_files s; sd_hosts := sd_hosts s; sd_leases := l; sd_sets := sd_sets s; sd_asked := sd_asked s |} }.
#[export] Instance side_sets : Stored side SetTasks := { get := sd_sets; put t s :=
  {| sd_files := sd_files s; sd_hosts := sd_hosts s; sd_leases := sd_leases s; sd_sets := t; sd_asked := sd_asked s |} }.

Abbreviation W := (World side).
Abbreviation chain_mw := (middleware (DnsContext name) DnsRequest DnsResponse LookupError W).
#[local] Instance one_by_one : Executor name W := {
  race next ctx req that_req w :=
    let '(this, ctx', w) := next ctx req w in
    let '(that, _, w) := next ctx that_req w in
    ({| this_at := 0; this_res := this; that_at := 0; that_res := that |}, DualStack.Example.pings, ctx', w) }.

(** An upstream with an IPv4 address for every name. *)
Definition upstream_ : chain_mw := λ _ ctx req w,
  let u := w_up w in
  (Ok (DualStack.Example.answer_of (req_query req) (RD_A 3221225993)), ctx,
   set_up w {| sd_files := sd_files u; sd_hosts := sd_hosts u; sd_leases := sd_leases u; sd_sets := sd_sets u;
               sd_asked := S (sd_asked u) |}).

(** A hosts file with a private address, and the leases. *)
Definition files : disk := fs ++ [("/etc/smartdns/hosts", (300%Z, text_of_lines ["192.168.1.5 printer"]))].
Definition home : RuntimeConfig name := config_with no_settings {|
  s_hosts := Some "/etc/smartdns/hosts"; s_expand_ptr := Some true; s_local_ptr := None;
  s_leases := Some "/tmp/dhcp.leases"; s_odhcpd := Some "/tmp/hosts/odhcpd"; s_domain := None; s_local_domain := None;
  s_server_name := None |}.
Definition world : W :=
  {| w_now := 0; w_wall := 0; w_ticks := []; w_packets := []; w_audit := audit_new true;
     w_up := {| sd_files := files; sd_hosts := None; sd_leases := None; sd_sets := []; sd_asked := 0 |};
     w_cache := {| cache := cache_new 100 true 0 5 0; prefetch_queue := Some []; notified := false |} |}.
Definition ctx : DnsContext name := ctx_of home None.
Definition server := server_chain (query_query "" RT_A) 1 id [IPv4 2130706433] false home files upstream_.

Definition answered (req : DnsRequest) : list RData * nat :=
  let '(res, _, w) := execute server ctx req world in
  (match res with Ok r => map r_data (answers r) | Err _ => [] end, sd_asked (w_up w)).

(** A leased name, a name of the hosts file, a name of neither, the reverse name of
    an address of the hosts file, and the same from the hosts stage alone. *)
Example answers_of_home :
  map answered [request "andy-pc." RT_A; request "printer.lan." RT_A; request "5.1.168.192.in-addr.arpa." RT_PTR] =
  [([RD_A 3232261136], 0); ([RD_A 3221225993], 1); ([], 0)] ∧
  map r_data (match fst (fst (hosts_mw (Search.default_handler) ctx (request "5.1.168.192.in-addr.arpa." RT_PTR) world)) with
              | Ok r => answers r | Err _ => [] end) = [RD_Other 12 "printer."].
Proof. split; vm_compute; reflexivity. Qed.

Lemma local_names_stay_local_witness :
  (execute server ctx (request "andy-pc." RT_A) world =
   run default_handler (before_leases (query_query "" RT_A) 1 home ++ lease_stage id home files)
     ctx (request "andy-pc." RT_A) world) ∧
  execute server ctx (request "5.1.168.192.in-addr.arpa." RT_PTR) world =
  run default_handler (before_leases (query_query "" RT_A) 1 home ++ lease_stage id home files ++
    [zone_stage [IPv4 2130706433] home]) ctx (request "5.1.168.192.in-addr.arpa." RT_PTR) world.
Proof.
  assert (Hc : cname_of ctx = None) by (vm_compute; reflexivity).
  assert (Hs : lease_store home files = Some store) by (vm_compute; reflexivity).
  assert (Hcold : get (LeaseCache name) (w_up world) = None) by reflexivity.
  assert (H1 : q_type (req_query (request "andy-pc." RT_A)) ≠ RT_AAAA ∨ dns64_prefix home = None) by (left; discriminate).
  assert (H2 : q_type (req_query (request "5.1.168.192.in-addr.arpa." RT_PTR)) ≠ RT_AAAA ∨ dns64_prefix home = None)
    by (left; discriminate).
  split.
  - apply (proj1 (local_names_stay_local (query_query "" RT_A) 1 id [IPv4 2130706433] false home files upstream_ ctx
      (request "andy-pc." RT_A) world Hc H1) store Hs eq_refl Hcold).
    intros now. exists (RD_A 3232261136). vm_compute. reflexivity.
  - refine (proj1 (proj2 (local_names_stay_local (query_query "" RT_A) 1 id [IPv4 2130706433] false home files upstream_ ctx
      (request "5.1.168.192.in-addr.arpa." RT_PTR) world Hc H2) (Net4 3232235781 32) eq_refl eq_refl _ _));
      vm_compute; reflexivity.
Defined.
End Example.
