(* ===== verification/Paths.v ===== *)
(** * Paths

    The functions of the standard library's [Path] (on Unix) that the configuration
    loader uses: components, [file_name], [parent], [join], [extension] and
    [file_stem].  Paths are
    compared by their components, so that [a//b] and [a/./b] are the path [a/b]. *)

From S2P Require Import Prelude DomainMap Nom ConfigText Text.

Definition is_absolute (p : string) : bool := starts_with "/" p.

(** [Path::components]: whether the path starts at the root, and the parts between
    slashes; a dot is kept only at the start of a relative path. *)
Definition normal_part (s : string) : bool := non_empty s && negb (bool_decide (s = ".")).
Definition components (p : string) : bool * list string :=
  (is_absolute p,
   match split "/" p with
   | first :: rest =>
       (if bool_decide (first = ".") then ["."] else List.filter normal_part [first]) ++ List.filter normal_part rest
   | [] => []
   end).
Definition path_eq (p q : string) : bool := bool_decide (components p = components q).

(** The path of some components. *)
Definition of_components (c : bool * list string) : string :=
  (if fst c then "/" else "") +:+ join "/" (snd c).

Definition file_name (p : string) : option string :=
  match last (snd (components p)) with
  | Some s => if bool_decide (s = ".") || bool_decide (s = "..") then None else Some s
  | None => None
  end.

Definition parent (p : string) : option string :=
  match snd (components p) with
  | [] => None
  | l => Some (of_components (fst (components p), removelast l))
  end.

Definition ends_with_slash (p : string) : bool := bool_decide (is_Some (strip_suffix "/" p)).
Definition path_join (dir p : string) : string :=
  if is_absolute p then p
  else if bool_decide (dir = "") || ends_with_slash dir then dir +:+ p
  else dir +:+ "/" +:+ p.

(** The text after the last dot of the file name, unless the name starts there. *)
Definition extension (p : string) : option string :=
  name ← file_name p;
  match split "." name with
  | [] | [_] => None
  | parts => if bool_decide (join "." (removelast parts) = "") then None else last parts
  end.

(** The file name without its extension. *)
Definition file_stem (p : string) : option string :=
  name ← file_name p;
  Some match split "." name with
       | [] | [_] => name
       | parts => let before := join "." (removelast parts) in if bool_decide (before = "") then name else before
       end.

(** A set of paths. *)
Definition path_in (p : string) (l : list string) : bool := existsb (path_eq p) l.
Definition path_insert (p : string) (l : list string) : list string := if path_in p l then l else l ++ [p].

Lemma path_eq_refl p : path_eq p p = true.
Proof. by apply bool_decide_eq_true. Qed.

Lemma path_in_insert p q l : path_in p (path_insert q l) = path_eq p q || path_in p l.
Proof.
  unfold path_insert. destruct (path_in q l) eqn:E.
  - destruct (path_eq p q) eqn:Epq; [|done]. apply bool_decide_eq_true in Epq.
    unfold path_in, path_eq in *. by rewrite Epq.
  - unfold path_in. rewrite existsb_app. cbn. rewrite orb_false_r. apply orb_comm.
Qed.

(** The file name of a file name is itself. *)
Example paths_examples :
  components "a//b/./c/" = (false, ["a"; "b"; "c"]) ∧ components "./a" = (false, ["."; "a"]) ∧
  file_name "/etc/smartdns/smartdns.conf" = Some "smartdns.conf" ∧ file_name "/" = None ∧ file_name "a/.." = None ∧
  parent "/etc/smartdns.conf" = Some "/etc" ∧ parent "smartdns.conf" = Some "" ∧ parent "/" = None ∧
  path_join "/etc" "a.conf" = "/etc/a.conf" ∧ path_join "" "a.conf" = "a.conf" ∧ path_join "/etc" "/a" = "/a" ∧
  extension "/etc/managed/address.conf" = Some "conf" ∧ extension "/etc/.conf" = None ∧ extension "a.b.c" = Some "c" ∧
  file_stem "/etc/smartdns" = Some "smartdns" ∧ file_stem "/etc/smartdns.d" = Some "smartdns" ∧ file_stem ".conf" = Some ".conf" ∧
  file_stem "" = None.
Proof. repeat split. Qed.
