(* ===== verification/ConfigItems.v ===== *)
(** * Settings

    The settings of a configuration: [Config] (src/config/mod.rs with its parts
    [CacheConfig], [LogConfig] and [AuditConfig]) and [ConfigItem]
    (src/config/parser/mod.rs), the meaning of one line.

    [Config] has some ninety fields.  It is a function from the name of a field to
    its value, so that one operation replaces the value of a field. *)

From S2P Require Import Prelude Dns AuditLog IpSet DomainMap DomainRule Context DnsUrl UpstreamApi.
From S2P Require Import Nom ConfigText.

(** ** Values *)

Inductive IpOrSet := INet (n : IpNet) | ISet (name : string).

(** Listeners (src/config/bind_addr.rs): one record for the seven kinds, which have
    the same fields; those without TLS have no [SslConfig]. *)
Inductive BindKind := BindUdp | BindTcp | BindTls | BindHttp | BindHttps | BindH3 | BindQuic.
Inductive BindAddr := Localhost | All | BindV4 (ip : Z) | BindV6 (ip : Z).
Record SslConfig := {
  ssl_server_name : option string; ssl_certificate : option string; ssl_certificate_key : option string;
  ssl_certificate_key_pass : option string }.
Record BindAddrConfig := {
  bind_kind : BindKind; bind_addr : BindAddr; bind_port : Z; bind_device : option string;
  bind_opts : ServerOpts; bind_ssl : option SslConfig; bind_enabled : option bool }.

(** Sources of domain sets (src/config/domain_set.rs): a file or a URL. *)
Inductive DomainSetProvider :=
| SetFile (name file : string)
| SetHttp (name url : string) (interval : option Z).
Record IpSetProvider := { ips_name : string; ips_file : string }.

Record ProxyConfig := {
  proxy_proto : string; proxy_server : string; proxy_username : option string; proxy_password : option string }.

Section config.
Context {Name : Type} `{RD : RuleData}.

Record GroupMatch := { gm_group : string; gm_domains : list (Domain Name); gm_clients : list Client }.

(** ** The fields *)

Inductive Field :=
| f_server_name | f_num_workers | f_mdns_lookup | f_resolv_hostname | f_hosts_file | f_expand_ptr_from_address
| f_local_ptr_enable | f_max_query_limit | f_socket_buff_size | f_user | f_domain | f_binds | f_bind_cert_file
| f_bind_cert_key_file | f_bind_cert_key_pass | f_tcp_idle_time | f_cache_size | f_cache_mem_size | f_cache_persist
| f_cache_file | f_cache_prefetch_domain | f_cache_serve_expired | f_cache_serve_expired_ttl
| f_cache_serve_expired_reply_ttl | f_cache_serve_expired_prefetch_time | f_cache_cache_negative
| f_cache_checkpoint_time | f_bind_cert_generate | f_bind_cert_root_key_file | f_bind_cert_san
| f_bind_cert_validity_days | f_data_dir | f_debug_save_fail_packet | f_debug_save_fail_packet_dir
| f_odhcpd_lease_file | f_local_domain | f_bogus_nxdomain | f_blacklist_ip | f_whitelist_ip | f_ignore_ip
| f_speed_check_mode | f_force_aaaa_soa | f_force_https_soa | f_force_no_cname | f_acl_enable | f_ip_rules
| f_force_qtype_soa | f_dualstack_ip_selection | f_dualstack_ip_selection_threshold | f_dualstack_ip_allow_force_aaaa
| f_dns64_prefix | f_edns_client_subnet | f_rr_ttl | f_rr_ttl_min | f_rr_ttl_max | f_rr_ttl_reply_max | f_local_ttl
| f_max_reply_ip_num | f_response_mode | f_log_console | f_log_level | f_log_file | f_log_size | f_log_num
| f_log_syslog | f_log_color | f_log_file_mode | f_log_filter | f_audit_enable | f_audit_file | f_audit_soa
| f_audit_syslog | f_audit_console | f_audit_size | f_audit_num | f_audit_file_mode | f_dnsmasq_lease_file
| f_ca_file | f_ca_path | f_nameservers | f_proxy_servers | f_nftsets | f_ipset_timeout_enable | f_ipset_no_speed
| f_nftset_no_speed | f_nftset_timeout_enable | f_nftset_debug | f_resolv_file | f_domain_set_providers | f_ip_sets
| f_ip_alias | f_client_rules.

#[export] Instance Field_eq_dec : EqDecision Field.
Proof. intros x y. unfold Decision. decide equality. Defined.

Definition field_type (f : Field) : Type :=
  match f with
  | f_binds
      => list BindAddrConfig
  | f_bind_cert_san
      => option (list string)
  | f_speed_check_mode
      => option (list SpeedCheckMode)
  | f_ip_rules
      => list IpRule
  | f_force_qtype_soa
      => list RecordType
  | f_dns64_prefix
      => option (Z * Z)
  | f_edns_client_subnet
      => option IpNet
  | f_response_mode
      => option ResponseMode
  | f_nameservers
      => list NameServerInfo
  | f_proxy_servers
      => gmap string ProxyConfig
  | f_nftsets
      => list (ConfigForDomain Name (list (ConfigForIP NFTsetConfig)))
  | f_nftset_no_speed
      => option (list (ConfigForIP NFTsetConfig))
  | f_domain_set_providers
      => gmap string (list DomainSetProvider)
  | f_ip_sets
      => gmap string (list IpNet)
  | f_ip_alias
      => list (IpOrSet * IpAlias)
  | f_client_rules
      => list ClientRule
  | f_server_name | f_domain | f_local_domain
      => option Name
  | f_bogus_nxdomain | f_blacklist_ip | f_whitelist_ip | f_ignore_ip
      => list IpOrSet
  | f_hosts_file | f_user | f_bind_cert_file | f_bind_cert_key_file | f_bind_cert_key_pass | f_cache_file
  | f_bind_cert_root_key_file | f_data_dir | f_debug_save_fail_packet_dir | f_odhcpd_lease_file | f_log_level
  | f_log_file | f_log_filter | f_audit_file | f_dnsmasq_lease_file | f_ca_file | f_ca_path | f_ipset_no_speed
  | f_resolv_file
      => option string
  | f_num_workers | f_max_query_limit | f_socket_buff_size | f_tcp_idle_time | f_cache_size | f_cache_mem_size
  | f_cache_serve_expired_ttl | f_cache_serve_expired_reply_ttl | f_cache_serve_expired_prefetch_time
  | f_cache_checkpoint_time | f_bind_cert_validity_days | f_dualstack_ip_selection_threshold | f_rr_ttl
  | f_rr_ttl_min | f_rr_ttl_max | f_rr_ttl_reply_max | f_local_ttl | f_max_reply_ip_num | f_log_size | f_log_num
  | f_log_file_mode | f_audit_size | f_audit_num | f_audit_file_mode
      => option Z
  | _ => option bool
  end.

Definition Config : Type := ∀ f : Field, field_type f.

Definition config_default : Config := λ f,
  match f with
  | f_binds | f_bogus_nxdomain | f_blacklist_ip | f_whitelist_ip | f_ignore_ip | f_ip_rules | f_force_qtype_soa
  | f_nameservers | f_nftsets | f_ip_alias | f_client_rules => []
  | f_proxy_servers | f_domain_set_providers | f_ip_sets => ∅
  | _ => None
  end.

(** Assignment to a field. *)
Definition modify (f : Field) (g : field_type f → field_type f) (c : Config) : Config := λ f',
  match decide (f = f') with left e => eq_rect f field_type (g (c f)) f' e | right _ => c f' end.
Definition assign (f : Field) (v : field_type f) : Config → Config := modify f (λ _, v).

Lemma modify_eq f g c : modify f g c f = g (c f).
Proof. unfold modify. destruct (decide (f = f)) as [e|]; [|done]. by rewrite <- (Eqdep_dec.eq_rect_eq_dec (λ x y, decide (x = y))). Qed.
Lemma modify_ne f f' g c : f ≠ f' → modify f g c f' = c f'.
Proof. intros. unfold modify. by destruct (decide (f = f')). Qed.

(** ** Lines *)

Inductive ConfigItem :=
| Address_ (v : ConfigForDomain Name AddressRuleValue) | AuditEnable (v : bool) | AuditFile (v : string)
| AuditFileMode (v : Z) | AuditNum (v : Z) | AuditSize (v : Z) | BindCertFile (v : string)
| BindCertKeyFile (v : string) | BindCertKeyPass (v : string) | BlacklistIp (v : IpOrSet)
| BogusNxDomain (v : IpOrSet) | CacheFile_ (v : string) | CachePersist (v : bool) | CacheSize (v : Z)
| CacheMemSize (v : Z) | CacheCheckpointTime (v : Z) | CaFile (v : string) | CaPath (v : string)
| ClientRule_ (v : ClientRule) | CNAME_ (v : ConfigForDomain Name (CNameRule Name))
| SrvRecord (v : ConfigForDomain Name SRV) | TxtRecord (v : ConfigForDomain Name string) | GroupBegin (v : string)
| GroupEnd | HttpsRecord (v : ConfigForDomain Name HttpsRecordRule) | ConfFile (v : string)
| DnsmasqLeaseFile (v : string) | Dns64_ (v : Z * Z) | Domain_ (v : Name)
| DomainRule_ (v : ConfigForDomain Name (DomainRule Name)) | DomainSetProvider_ (v : DomainSetProvider)
| DualstackIpAllowForceAAAA (v : bool) | DualstackIpSelection (v : bool) | DualstackIpSelectionThreshold (v : Z)
| EdnsClientSubnet (v : IpNet) | ExpandPtrFromAddress (v : bool) | ForceAAAASOA (v : bool) | ForceHTTPSSOA (v : bool)
| ForceNoCNAME (v : bool) | LocalPtrEnable (v : bool) | MaxQueryLimit (v : Z) | SocketBuffSize (v : Z)
| DataDir (v : string) | LocalDomain (v : option Name) | OdhcpdLeaseFile (v : string) | GroupMatch_ (v : GroupMatch)
| IpRule_ (v : IpRule) | IpSet_ (v : ConfigForDomain Name string) | IpSetTimeoutEnable (v : bool)
| IpSetNoSpeed (v : string) | AclEnable (v : bool) | BindCertGenerate (v : bool) | BindCertRootKeyFile (v : string)
| BindCertSan (v : list string) | BindCertValidityDays (v : Z) | LogSyslog (v : bool) | AuditSyslog (v : bool)
| NftsetNoSpeed (v : list (ConfigForIP NFTsetConfig)) | DebugSaveFailPacket (v : bool)
| DebugSaveFailPacketDir (v : string) | LogColor (v : bool) | AuditSoa (v : bool) | AuditConsole (v : bool)
| ForceQtypeSoa (v : RecordType) | ForwardRule_ (v : ConfigForDomain Name string) | HostsFile (v : string)
| IgnoreIp (v : IpOrSet) | Listener_ (v : BindAddrConfig) | LocalTtl (v : Z) | LogConsole (v : bool) | LogNum (v : Z)
| LogSize (v : Z) | LogLevel (v : string) | LogFile (v : string) | LogFileMode (v : Z) | LogFilter (v : string)
| MaxReplyIpNum (v : Z) | MdnsLookup (v : bool) | NftSet (v : ConfigForDomain Name (list (ConfigForIP NFTsetConfig)))
| NftsetTimeoutEnable (v : bool) | NftsetDebug (v : bool) | NumWorkers (v : Z) | PrefetchDomain (v : bool)
| ProxyConfig_ (name : string) (v : ProxyConfig) | ResolvHostname (v : bool) | ResponseMode_ (v : ResponseMode)
| ServeExpired (v : bool) | ServeExpiredPrefetchTime (v : Z) | ServeExpiredTtl (v : Z) | ServeExpiredReplyTtl (v : Z)
| Server_ (v : NameServerInfo) | ServerName_ (v : Name) | ResolvFile (v : string) | RrTtl (v : Z) | RrTtlMin (v : Z)
| RrTtlMax (v : Z) | RrTtlReplyMax (v : Z) | SpeedMode (v : option (list SpeedCheckMode)) | TcpIdleTime (v : Z)
| WhitelistIp (v : IpOrSet) | User (v : string) | IpSetProvider_ (v : IpSetProvider)
| IpAlias_ (ip : IpOrSet) (to_ : list IpAddr).
End config.
Arguments GroupMatch : clear implicits.
Arguments Config Name : clear implicits.
Arguments ConfigItem Name {RD}.

(** The values of the settings, parsed after their keyword; the inner [None] is a
    panic. *)
Class ItemValues (Name : Type) `{RuleData} := { item_value : string → parser (option (ConfigItem Name)) }.
