(* ===== verification/ConfigValues.v ===== *)
(** * Values of the settings

    The parsers of the values that follow the keywords of a configuration line
    (src/config/parser: bool.rs, path.rs, options.rs, client_rule.rs, domain_rule.rs
    and the like), and the table that gives each keyword its parser
    ([parse_line], src/config/parser/mod.rs).

    The texts of server URLs and proxies, byte sizes, glob patterns and the character
    classes of Unicode are arguments.  A value whose parser can panic is
    an [option]. *)

From S2P Require Import Prelude Dns AuditLog IpSet DomainMap DomainRule Context DnsUrl UpstreamApi.
From S2P Require Import Nom ConfigText Text ConfigItems.
From Stdlib Require Import Ascii.

(** ** Combinators *)

Definition value {A B} (v : B) (p : parser A) : parser B := pmap (λ _, v) p.
Definition alt {A} (ps : list (parser A)) : parser A := foldr orelse (λ _, None) ps.
Definition delimited {A B C} (p : parser A) (q : parser B) (r : parser C) : parser B := preceded p (terminated q r).
(** The text a parser consumes. *)
Definition recognize {A} (p : parser A) : parser string := λ s,
  '(r, _) ← p s; Some (r, String.substring 0 (String.length s - String.length r) s).
(** [many0]; a parser that consumes nothing ends it with an error. *)
Fixpoint many_loop {A} (fuel : nat) (p : parser A) (s : string) : option (string * list A) :=
  match fuel with
  | O => None
  | S fuel =>
      match p s with
      | None => Some (s, [])
      | Some (r, a) =>
          if bool_decide (String.length r = String.length s) then None
          else '(r, l) ← many_loop fuel p r; Some (r, a :: l)
      end
  end.
Definition many0 {A} (p : parser A) : parser (list A) := λ s, many_loop (S (String.length s)) p s.
Definition one_of (set : string) : parser ascii := λ s,
  match s with String c r => if in_set set c then Some (r, c) else None | EmptyString => None end.

(** [escaped(normal, '\', escapable)]: runs of normal text and escaped characters. *)
Fixpoint escaped_loop {A B} (fuel : nat) (normal : parser A) (escapable : parser B) (first : bool) (s : string)
  : option (string * unit) :=
  match fuel with
  | O => None
  | S fuel =>
      match s with
      | EmptyString => Some ("", ())
      | String c r =>
          match normal s with
          | Some (r', _) =>
              if bool_decide (String.length r' = String.length s) then Some (s, ())
              else escaped_loop fuel normal escapable false r'
          | None =>
              if Ascii.eqb c "\" then
                if bool_decide (r = "") then None
                else '(r', _) ← escapable r; escaped_loop fuel normal escapable false r'
              else if first then None else Some (s, ())
          end
      end
  end.
Definition escaped {A B} (normal : parser A) (escapable : parser B) : parser unit := λ s,
  escaped_loop (S (String.length s)) normal escapable true s.

Definition is_alpha (c : ascii) : bool :=
  ((65 <=? code c) && (code c <=? 90) || (97 <=? code c) && (code c <=? 122))%Z.
Definition alpha1 : parser string := take1 is_alpha.
Definition alphanumeric1 : parser string := take1 (λ c, is_alpha c || is_digit c).

(** The text before the next white space of Unicode. *)
Fixpoint word_span (s : string) : string * string :=
  match white s, s with
  | None, String c s' => let '(a, b) := word_span s' in (String c a, b)
  | _, _ => ("", s)
  end.
Definition take_word : parser string := λ s, let '(a, b) := word_span s in Some (b, a).
Definition take_word1 : parser string := verify non_empty take_word.

(** [u64], [u16] and [u8] of nom: a number that does not fit is an error. *)
Definition number (limit : Z) : parser Z :=
  verify (λ n, (n <? limit)%Z) (pmap (value_of 10 0) digit1).
Definition u64_ : parser Z := number (2 ^ 64).
Definition u16_ : parser Z := number (2 ^ 16).
Definition u8_ : parser Z := number (2 ^ 8).

(** ** Simple values *)

Definition parse_bool : parser bool :=
  orelse
    (value true (alt [tag_no_case "true"; tag_no_case "t"; tag_no_case "yes"; tag_no_case "y"; tag "1"]))
    (value false (alt [tag_no_case "false"; tag_no_case "f"; tag_no_case "no"; tag_no_case "n"; tag "0"])).

(** [String::parse] *)
Definition blank : string := String " " (String "009" (String cr (String lf ""))).
Definition parse_string : parser string := is_not blank.

Definition quote : ascii := "034".
Definition path_text : parser string :=
  alt [ delimited (char quote) (is_not (String quote "")) (char quote);
        recognize (pbind (opt (char "/")) (λ _,
          pbind (separated_list1 (char "/") (escaped (is_not (String lf (String " " (String "009" "\")))) (one_of " \")))
            (λ _, opt (char "/"))));
        recognize (pbind (opt (pbind alpha1 (λ _, tag ":\"))) (λ _,
          pbind (separated_list1 (char "\") (is_not "\")) (λ _, opt (char "\")))) ].
Definition parse_path : parser string := path_text.

(** [FileMode::from_str] (src/infra/file_mode.rs) on the octal digits and the
    letters of a prefix. *)
Definition octal_digit (c : ascii) : bool := ((48 <=? code c) && (code c <=? 55))%Z.
Definition drop_prefix (p s : string) : string := match tag p s with Some (r, _) => r | None => s end.
Definition file_mode_from_str (s : string) : option Z :=
  let s := drop_prefix "o" (drop_prefix "0o" (trim s)) in
  let n := value_of 8 0 s in
  if non_empty s && all_chars octal_digit s && (n <? 2 ^ 32)%Z then Some n else None.
Definition parse_file_mode : parser Z := pmap_opt file_mode_from_str (take1 (in_set "0o1234567")).

Definition parse_level : parser string :=
  alt [ value "TRACE" (tag_no_case "trace"); value "DEBUG" (tag_no_case "debug");
        value "INFO" (orelse (tag_no_case "info") (tag_no_case "notice")); value "WARN" (tag_no_case "warn");
        value "ERROR" (orelse (tag_no_case "error") (tag_no_case "fatal")) ].

Definition parse_response_mode : parser ResponseMode :=
  alt [ value FirstPing (tag_no_case "first-ping"); value FastestIp (tag_no_case "fastest-ip");
        value FastestResponse (tag_no_case "fastest-response") ].

(** A list whose elements are separated by commas among spaces. *)
Definition comma : parser ascii := delimited space0 (char ",") space0.

Definition parse_speed_mode : parser SpeedCheckMode :=
  let port default_ := pmap (default default_) (opt (preceded (char ":") u16_)) in
  alt [ value SpeedNone (tag_no_case "none"); value Ping (tag_no_case "ping");
        pmap Tcp (preceded (tag_no_case "tcp") (preceded (char ":") u16_));
        pmap Https (preceded (tag_no_case "https") (port 443%Z));
        pmap Http (preceded (tag_no_case "http") (port 80%Z)) ].
Definition parse_speed_modes : parser (list SpeedCheckMode) := separated_list1 comma parse_speed_mode.
Definition parse_speed_setting : parser (option (list SpeedCheckMode)) :=
  orelse (value None (tag_no_case "none")) (pmap Some parse_speed_modes).

Definition parse_san_list : parser (list string) :=
  pmap (λ v, map (trim_end_matches ".") (List.filter non_empty (map trim (split "," v)))) take_word1.

Definition parse_txt : parser string := λ s,
  if non_empty (trim s) then Some ("", trim s) else None.

(** Sets of nftables (nftset.rs). *)
Definition nft_word : parser string := take1 (λ c, is_alpha c || is_digit c || Ascii.eqb c "_").
Definition parse_nftset : parser NFTsetConfig :=
  pbind (alt [value "inet" (tag "inet"); value "ip6" (tag "ip6"); value "ip" (tag "ip")]) (λ f,
  pbind (preceded (char "#") nft_word) (λ t,
  pmap (λ n, {| family := f; table := t; nft_name := n |}) (preceded (char "#") nft_word))).
Definition of_family (l : list string) (c : NFTsetConfig) : bool := bool_decide (family c ∈ l).
Definition parse_nftset_for : parser (ConfigForIP NFTsetConfig) :=
  alt [ value NoIP (char "-"); pmap V4 (preceded (tag "#4:") (verify (of_family ["inet"; "ip"]) parse_nftset));
        pmap V6 (preceded (tag "#6:") (verify (of_family ["inet"; "ip6"]) parse_nftset)) ].
Definition parse_nftsets : parser (list (ConfigForIP NFTsetConfig)) :=
  separated_list1 (preceded space0 (preceded (char ",") space0)) parse_nftset_for.
Definition parse_nftset_list : parser (list (ConfigForIP NFTsetConfig)) := separated_list1 space1 parse_nftset_for.

(** ** Networks and clients *)

(** [IpNet::parse]; the inner [None] is a panic of the address parser. *)
Definition parse_net : parser (option IpNet) := λ s,
  match ip s with
  | None => None
  | Some (r, a) =>
      match opt (preceded (char "/") (pmap_opt parse_u8 digit1)) r with
      | None => None
      | Some (r, len) =>
          match a with
          | None => Some (r, None)
          | Some (IPv4 a) => let len := default 32%Z len in if (len <=? 32)%Z then Some (r, Some (Net4 a len)) else None
          | Some (IPv6 a) => let len := default 128%Z len in if (len <=? 128)%Z then Some (r, Some (Net6 a len)) else None
          end
      end
  end.
Definition parse_net6 : parser (option (Z * Z)) := λ s,
  '(r, a) ← ipv6 s; '(r, len) ← preceded (tag "/") (pmap_opt parse_u8 digit1) r;
  match a with
  | None => Some (r, None)
  | Some a => if (len <=? 128)%Z then Some (r, Some (a, len)) else None
  end.

Definition parse_ip_or_set : parser (option IpOrSet) :=
  orelse (pmap (λ n, Some (ISet n)) (preceded (tag_no_case "ip-set:") parse_string)) (pmap (fmap INet) parse_net).

Definition hextal : parser string := λ s,
  match s with
  | String a (String b r) => if is_hex_digit a && is_hex_digit b then Some (r, String a (String b "")) else None
  | _ => None
  end.
Definition mac_addr : parser string :=
  recognize (verify (λ l, bool_decide (length l = 6)) (separated_list1 (char ":") hextal)).

Definition parse_client : parser (option Client) :=
  orelse (pmap (fmap ClientNet) parse_net) (pmap (λ m, Some (MacAddr m)) mac_addr).

Definition parse_ip_alias : parser (option (IpOrSet * list IpAddr)) :=
  pbind parse_ip_or_set (λ ip_, pbind space1 (λ _,
    pmap (λ l, ip_ ← ip_; l ← mapM id l; Some (ip_, l)) (separated_list1 ip_sep ip))).

(** [IpRule::parse]: a network and flags. *)
Inductive ip_flag := FlagBlacklist | FlagWhitelist | FlagBogus | FlagIgnore.
#[export] Instance ip_flag_eq_dec : EqDecision ip_flag.
Proof. solve_decision. Defined.
Definition parse_ip_rule : parser (option IpRule) :=
  pbind parse_net (λ net,
    pmap (λ flags, net ← net; Some {|
        ir_net := net; ir_blacklist := bool_decide (FlagBlacklist ∈ flags); ir_whitelist := bool_decide (FlagWhitelist ∈ flags);
        ir_bogus_nxdomain := bool_decide (FlagBogus ∈ flags); ir_ignore := bool_decide (FlagIgnore ∈ flags) |})
      (many0 (preceded space1 (alt [ value FlagBlacklist (tag_no_case "-blacklist-ip"); value FlagWhitelist (tag_no_case "-whitelist-ip");
                                     value FlagBogus (tag_no_case "-bogus-nxdomain"); value FlagIgnore (tag_no_case "-ignore-ip") ])))).

(** ** Options (options.rs) *)

(** One or two dashes. *)
Definition dashes : parser string := λ s,
  match s with
  | String "-" (String "-" r) => Some (r, "--")
  | String "-" r => Some (r, "-")
  | _ => None
  end.
(** An equals sign, or spaces with a colon before them. *)
Definition option_sep : parser unit := orelse (tag "=") (value () (pbind (opt (char ":")) (λ _, space1))).
Definition opt_value {A B} (name : parser A) (v : parser B) : parser B :=
  preceded dashes (preceded name (preceded option_sep v)).
Definition opt_flag {A} (name : parser A) : parser bool := value true (preceded dashes name).

(** ** Texts of other crates and values not modelled here

    Byte sizes, glob patterns, URLs and the alphanumeric characters of Unicode; proxies
    (src/proxy.rs), which are read by the URL crate; the HTTPS and SRV records and client
    subnets of hickory. *)
Inductive SvcParam :=
| Alpn (l : list string) | SvcPort (n : Z) | Ipv4Hint (l : list Z) | Ipv6Hint (l : list Z) | EchConfigList (text : string).
Class ForeignValues (Name : Type) `{RuleData} := {
  byte_from_str : string → option Z;
  pattern_from_str : string → option string;
  url_from_str : string → option string;
  unicode_alphanumeric : string → option string;
  proxy_from_str : string → option ProxyConfig;
  https_new : Z → Name → list SvcParam → HTTPS;
  srv_new : Z → Z → Z → Name → SRV;
  subnet_of : IpNet → ClientSubnet;
  record_type_of : Z → RecordType;
}.

(** The last value that a list of options gives. *)
Definition last_of {A O} (l : list O) (f : O → option A) : option A := last (omap f l).

Section values.
Context {Name : Type} `{!NameOps Name, NS : !NameSyntax Name, RD : RuleData, FV : !ForeignValues Name, UC : !UrlCrate}.
Abbreviation item := (ConfigItem Name).

Definition parse_byte : parser Z :=
  pmap_opt byte_from_str (recognize (pbind digit1 (λ _, pbind (opt (pbind (char ".") (λ _, digit1)))
    (λ _, pbind space0 (λ _, alpha1))))).
Definition parse_pattern : parser string := pmap_opt pattern_from_str path_text.

(** *** Unknown options *)

(** The rest of the name of an option: dashes and alphanumeric characters. *)
Fixpoint name_rest (fuel : nat) (s : string) : string :=
  match fuel, s with
  | S fuel, String c r =>
      if Ascii.eqb c "-" || is_alpha c || is_digit c then name_rest fuel r
      else match unicode_alphanumeric s with Some r => name_rest fuel r | None => s end
  | _, _ => s
  end.
Definition any_name : parser string :=
  preceded dashes (recognize (pbind alpha1 (λ _ s, Some (name_rest (String.length s) s, ())))).
Definition unknown_value : parser string :=
  preceded option_sep (recognize (pbind (is_not ("-_ " +:+ String "009" "#")) (λ _, take_word))).
Definition unknown_option : parser (string * option string) :=
  pbind any_name (λ k, pmap (λ v, (k, v)) (opt unknown_value)).
Definition parse_options : parser (list (string * option string)) := separated_list0 space1 unknown_option.

(** *** Servers *)

(** [str::split_once] *)
Fixpoint split_once (sep s : string) : option (string * string) :=
  if String.prefix sep s then Some ("", String.substring (String.length sep) (String.length s) s)
  else match s with EmptyString => None | String c s' => (λ x, (String c (fst x), snd x)) <$> split_once sep s' end.
Definition ok_of {A E} (r : result A E) : option A := match r with Ok a => Some a | Err _ => None end.

(** The address of a server; without a scheme it has the one of its keyword, and an IPv6
    address needs no brackets. *)
Definition read_dns_url (default_proto url : string) : option DnsUrl :=
  match split_once "://" url with
  | None => if bool_decide (url ∈ ["system"; "dhcp"]) then ok_of (from_str url) else
      match from_str (default_proto +:+ "://" +:+ url) with
      | Ok u => Some u
      | Err _ => ok_of (from_str (default_proto +:+ "://" +:+ "[" +:+ url +:+ "]"))
      end
  | Some (a, b) =>
      match from_str (a +:+ "://" +:+ b) with
      | Ok u => Some u
      | Err _ => ok_of (from_str (a +:+ "://" +:+ "[" +:+ b +:+ "]"))
      end
  end.
Definition dns_url (default_proto : string) : parser DnsUrl := pmap_opt (read_dns_url default_proto) take_word1.

(** [u32::from_str_radix] and [from_str_or_hex] (src/third_ext/num.rs). *)
Definition u32_from_str_radix (base : Z) (is_dig : ascii → bool) (s : string) : option Z :=
  let ds := match s with String "+" r => r | _ => s end in
  if non_empty ds && all_chars is_dig ds && (value_of base 0 ds <? 2 ^ 32)%Z then Some (value_of base 0 ds) else None.
Definition from_str_or_hex (s : string) : option Z :=
  if String.prefix "0x" s then u32_from_str_radix 16 is_hex_digit (String.substring 2 (String.length s) s)
  else u32_from_str_radix 10 is_digit s.

Definition with_server (f : DnsUrl → DnsUrl) (i : NameServerInfo) : NameServerInfo := {|
  i_name := i_name i; i_server := f (i_server i); i_group := i_group i; i_blacklist_ip := i_blacklist_ip i;
  i_whitelist_ip := i_whitelist_ip i; i_check_edns := i_check_edns i; i_exclude_default_group := i_exclude_default_group i;
  i_proxy := i_proxy i; i_bootstrap_dns := i_bootstrap_dns i; i_resolve_group := i_resolve_group i; i_subnet := i_subnet i;
  i_so_mark := i_so_mark i; i_interface := i_interface i; i_enabled := i_enabled i |}.
Definition set_flags (black white edns excl boot : bool) (i : NameServerInfo) : NameServerInfo := {|
  i_name := i_name i; i_server := i_server i; i_group := i_group i; i_blacklist_ip := black || i_blacklist_ip i;
  i_whitelist_ip := white || i_whitelist_ip i; i_check_edns := edns || i_check_edns i;
  i_exclude_default_group := excl || i_exclude_default_group i;
  i_proxy := i_proxy i; i_bootstrap_dns := boot || i_bootstrap_dns i; i_resolve_group := i_resolve_group i; i_subnet := i_subnet i;
  i_so_mark := i_so_mark i; i_interface := i_interface i; i_enabled := i_enabled i |}.
Definition set_texts (groups : list string) (proxy interface : option string) (mark : option Z) (subnet : option IpNet)
    (i : NameServerInfo) : NameServerInfo := {|
  i_name := i_name i; i_server := i_server i; i_group := groups; i_blacklist_ip := i_blacklist_ip i;
  i_whitelist_ip := i_whitelist_ip i; i_check_edns := i_check_edns i; i_exclude_default_group := i_exclude_default_group i;
  i_proxy := proxy; i_bootstrap_dns := i_bootstrap_dns i; i_resolve_group := i_resolve_group i; i_subnet := subnet;
  i_so_mark := mark; i_interface := interface; i_enabled := i_enabled i |}.

(** One option of a server; [None] is a panic of the address parser. *)
Definition server_option (i : NameServerInfo) (kv : string * option string) : option NameServerInfo :=
  let k := text_lowercase (fst kv) in let v := snd kv in
  let key l := bool_decide (k ∈ l) in
  if key ["e"; "exclude-default-group"] then Some (set_flags false false false true false i)
  else if key ["blacklist-ip"] then Some (set_flags true false false false false i)
  else if key ["whitelist-ip"] then Some (set_flags false true false false false i)
  else if key ["check-edns"] then Some (set_flags false false true false false i)
  else if key ["b"; "bootstrap-dns"] then Some (set_flags false false false false true i)
  else if key ["set-mark"] then
    Some match v with Some m => set_texts (i_group i) (i_proxy i) (i_interface i) (from_str_or_hex m) (i_subnet i) i | None => i end
  else if key ["g"; "group"] then
    Some match v with Some g => set_texts (i_group i ++ [g]) (i_proxy i) (i_interface i) (i_so_mark i) (i_subnet i) i | None => i end
  else if key ["p"; "proxy"] then Some (set_texts (i_group i) v (i_interface i) (i_so_mark i) (i_subnet i) i)
  else if key ["interface"] then Some (set_texts (i_group i) (i_proxy i) v (i_so_mark i) (i_subnet i) i)
  else if key ["subnet"] then
    match v with
    | Some s =>
        match parse_net s with
        | Some (_, None) => None
        | Some (_, n) => Some (set_texts (i_group i) (i_proxy i) (i_interface i) (i_so_mark i) n i)
        | None => Some (set_texts (i_group i) (i_proxy i) (i_interface i) (i_so_mark i) None i)
        end
    | None => Some i
    end
  else if key ["host-name"] then
    Some match v with
         | Some h => with_server (if bool_decide (h = "-") then with_params (set_sni_off true) else set_host h) i
         | None => i
         end
  else if key ["k"; "no-check-certificate"] then Some (with_server (with_params (set_ssl_verify false)) i)
  else if key ["tls-host-verify"] then
    Some match v with
         | Some h =>
             match host_ip (du_host (i_server i)) with
             | Some a => with_server (λ u, set_host h (set_ip a u)) i
             | None => i
             end
         | None => i
         end
  else Some i.
Definition server_options (l : list (string * option string)) (u : DnsUrl) : option NameServerInfo :=
  fold_left (λ i kv, i ≫= λ i, server_option i kv) l (Some (server_of u)).

(** [NameServerInfo::parse] behind its keyword. *)
Definition server_value (default_proto : string) : parser (option NameServerInfo) :=
  pbind (dns_url default_proto) (λ u,
    pmap (λ l, server_options (default [] l) u) (opt (preceded space1 parse_options))).

(** *** Values for domains *)

Definition for_domain {A} (p : parser (option A)) : parser (option (ConfigForDomain Name A)) :=
  pbind (pmap (default (DName (Default name_root))) (opt (delimited (char "/") parse_domain (char "/")))) (λ d,
    pmap (fmap (λ c, {| domain := d; config := c |})) (preceded space0 p)).
Definition some_value {A} (p : parser A) : parser (option A) := pmap Some p.

Definition parse_cname : parser (CNameRule Name) := orelse (value CNameIgnore (char "-")) (pmap CNameValue parse_name).
Definition parse_srv : parser SRV :=
  pbind parse_name (λ target, pbind (preceded comma u16_) (λ port, pbind (preceded comma u16_) (λ priority,
    pmap (λ weight, srv_new priority weight port target) (preceded comma u16_)))).

(** [SVCB::parse]: parts in any order, with nothing between two commas where nothing is
    given; of two targets or priorities the last counts. *)
Inductive SvcbPart := PParam (p : SvcParam) | PTarget (n : Name) | PPriority (n : Z) | PNothing.

Definition param_key (name : string) : parser unit := terminated (tag_no_case name) (delimited space0 (char "=") space0).
Definition spaced {A} (p : parser A) : parser A := delimited space0 p space0.
Definition quoted {A} (p : parser A) : parser A := delimited (char quote) p (char quote).
(** The text before the next comma, quote or white space of Unicode. *)
Fixpoint alpn_span (s : string) : string * string :=
  match white s, s with
  | None, String c s' =>
      if Ascii.eqb c "," || Ascii.eqb c quote then ("", s) else let '(a, b) := alpn_span s' in (String c a, b)
  | _, _ => ("", s)
  end.
Definition alpn_id : parser string := verify non_empty (λ s, let '(a, b) := alpn_span s in Some (b, a)).
Definition alpn_part : parser (option SvcbPart) :=
  pmap (Some ∘ PParam ∘ Alpn) (preceded (param_key "alpn") (quoted (separated_list1 (char ",") (spaced alpn_id)))).
Definition port_part : parser (option SvcbPart) := pmap (Some ∘ PParam ∘ SvcPort) (preceded (param_key "port") u16_).
Definition hints {A} (p : parser A) : parser (list A) :=
  orelse (quoted (separated_list1 (char ",") (spaced p))) (separated_list1 (char ",") (spaced p)).
Definition ipv4hint_part : parser (option SvcbPart) :=
  pmap (Some ∘ PParam ∘ Ipv4Hint) (preceded (param_key "ipv4hint") (hints ipv4)).
Definition ipv6hint_part : parser (option SvcbPart) :=
  pmap (λ l, PParam ∘ Ipv6Hint <$> mapM id l) (preceded (param_key "ipv6hint") (hints ipv6)).
Definition ech_part : parser (option SvcbPart) :=
  pmap (Some ∘ PParam ∘ EchConfigList) (preceded (param_key "ech") (quoted (is_not (String quote "")))).
Definition svcb_part : parser (option SvcbPart) :=
  alt [ alpn_part; port_part; ipv4hint_part; ipv6hint_part; ech_part;
        pmap (Some ∘ PTarget) (preceded (param_key "target") parse_name);
        pmap (Some ∘ PPriority) (preceded (param_key "priority") u16_); value (Some PNothing) space0 ].
Definition svcb_of (l : list SvcbPart) : HTTPS :=
  https_new (default 0%Z (last_of l (λ p, match p with PPriority n => Some n | _ => None end)))
    (default name_root (last_of l (λ p, match p with PTarget n => Some n | _ => None end)))
    (omap (λ p, match p with PParam p => Some p | _ => None end) l).
Definition https_value : parser (option HTTPS) :=
  pmap (λ l, svcb_of <$> mapM id l) (separated_list0 (char ",") (spaced svcb_part)).

Definition parse_https_rule : parser (option HttpsRecordRule) :=
  alt [ value (Some HttpsSOA) (char "#"); value (Some HttpsIgnore) (char "-");
        pmap (λ l, Some (HttpsFilter (bool_decide (4 ∈ l)) (bool_decide (6 ∈ l))))
          (separated_list1 (char ",")
            (delimited space0 (orelse (value 4 (tag_no_case "noipv4hint")) (value 6 (tag_no_case "noipv6hint"))) space0));
        pmap (fmap HttpsRecordData) https_value ].
Definition parse_forward : parser (ConfigForDomain Name string) :=
  pbind (delimited (char "/") parse_domain (char "/")) (λ d, pmap (λ s, {| domain := d; config := s |}) parse_string).

(** [DomainRule::parse]: the options of [domain-rules]. *)
Inductive DomainOption :=
| OSpeed (l : list SpeedCheckMode) | OAddress (v : AddressRuleValue) | ONameserver (g : string) | ODualstack (b : bool)
| OCname (c : CNameRule Name) | OSubnet (n : IpNet) | ONoCache (b : bool) | ONoServeExpired (b : bool)
| OResponseMode (m : ResponseMode) | OTtlMin (n : Z) | OTtlMax (n : Z) | OTtl (n : Z) | OUnknown.

Definition domain_option : parser (option DomainOption) :=
  alt [ pmap (Some ∘ OSpeed) (opt_value (orelse (tag "speed-check-mode") (tag "c")) parse_speed_modes);
        pmap (fmap OAddress) (opt_value (orelse (tag_no_case "address") (tag "a")) parse_value);
        pmap (Some ∘ ONameserver) (opt_value (orelse (tag_no_case "nameserver") (tag "n")) alphanumeric1);
        pmap (Some ∘ ODualstack) (opt_flag (orelse (tag_no_case "dualstack-ip-selection") (tag "d")));
        pmap (Some ∘ OCname) (opt_value (tag_no_case "cname") parse_cname);
        pmap (fmap OSubnet) (opt_value (tag_no_case "subnet") parse_net);
        pmap (Some ∘ ONoCache) (opt_flag (tag_no_case "no-cache"));
        pmap (Some ∘ ONoServeExpired) (opt_flag (tag_no_case "no-serve-expired"));
        pmap (Some ∘ OResponseMode) (opt_value (orelse (tag_no_case "response-mode") (tag "r")) parse_response_mode);
        pmap (Some ∘ OTtlMin) (opt_value (tag_no_case "rr-ttl-min") u64_);
        pmap (Some ∘ OTtlMax) (opt_value (tag_no_case "rr-ttl-max") u64_);
        pmap (Some ∘ OTtl) (opt_value (tag_no_case "rr-ttl") u64_);
        pmap (λ _, Some OUnknown) unknown_option ].

(** The rule of some options: of one given twice the last counts, except that the
    modes of speed checks add up. *)
Definition rule_of_options (l : list DomainOption) : DomainRule Name :=
  let speeds := omap (M := list) (λ o, match o with OSpeed m => Some m | _ => None end) l in {|
  nameserver := last_of l (λ o, match o with ONameserver g => Some g | _ => None end);
  address := last_of l (λ o, match o with OAddress v => Some v | _ => None end);
  cname := last_of l (λ o, match o with OCname c => Some c | _ => None end);
  srv := None; https := None; txt := None;
  speed_check_mode := match speeds with [] => None | _ => Some (concat speeds) end;
  dualstack_ip_selection := last_of l (λ o, match o with ODualstack b => Some b | _ => None end);
  response_mode := last_of l (λ o, match o with OResponseMode m => Some m | _ => None end);
  no_cache := last_of l (λ o, match o with ONoCache b => Some b | _ => None end);
  no_serve_expired := last_of l (λ o, match o with ONoServeExpired b => Some b | _ => None end);
  nftset := None; ipsets := None;
  rr_ttl := last_of l (λ o, match o with OTtl n => Some n | _ => None end);
  rr_ttl_min := last_of l (λ o, match o with OTtlMin n => Some n | _ => None end);
  rr_ttl_max := last_of l (λ o, match o with OTtlMax n => Some n | _ => None end);
  subnet := last_of l (λ o, match o with OSubnet n => Some (subnet_of n) | _ => None end) |}.
Definition parse_domain_rule : parser (option (DomainRule Name)) :=
  pmap (λ l, rule_of_options <$> mapM id l) (separated_list1 space1 domain_option).

(** *** Clients and groups *)

Definition parse_client_rule : parser (option ClientRule) :=
  pbind parse_client (λ c,
    pmap (λ groups, (λ c, {| client := c; cr_group := default "" (last (default [] groups)) |}) <$> c)
      (opt (preceded space1 (separated_list1 space1 (opt_value (orelse (tag_no_case "group") (tag "g")) parse_string))))).

Definition parse_local_domain : parser (option Name) := orelse (value None (char "-")) (pmap Some parse_name).

(** [GroupMatch::parse]: pairs of an option and its value; [None] is an error, the
    inner [None] a panic. *)
Fixpoint group_options (fuel : nat) (tokens : list string) (group : option string) (ds : list (Domain Name)) (cs : list Client)
  : option (option (option string * list (Domain Name) * list Client)) :=
  match fuel, tokens with
  | _, [] => Some (Some (group, ds, cs))
  | S fuel, key :: v :: tokens =>
      if bool_decide (key ∈ ["-g"; "--group"; "-group"]) then group_options fuel tokens (Some v) ds cs
      else if bool_decide (key ∈ ["-d"; "--domain"; "-domain"]) then
        '(_, d) ← parse_domain v; group_options fuel tokens group (ds ++ [d]) cs
      else if bool_decide (key ∈ ["-c"; "--client-ip"; "-client-ip"]) then
        '(_, c) ← parse_client v;
        match c with Some c => group_options fuel tokens group ds (cs ++ [c]) | None => Some None end
      else None
  | _, _ => None
  end.
Definition parse_group_match : parser (option (GroupMatch Name)) := λ s,
  let tokens := split_whitespace s in
  o ← group_options (length tokens) tokens None [] [];
  match o with
  | None => Some ("", None)
  | Some (group, ds, cs) =>
      g ← group;
      match ds, cs with
      | [], [] => None
      | _, _ => Some ("", Some {| gm_group := g; gm_domains := ds; gm_clients := cs |})
      end
  end.

(** *** Sets from files *)

Inductive SetOption := SName (n : string) | SFile (f : string) | SUrl (u : string) | SInterval (n : Z) | SType.
Definition set_options {A} (others : list (parser SetOption)) (make : list SetOption → option A) : parser A :=
  pmap_opt make (separated_list1 space1 (alt (
    [pmap SName (opt_value (orelse (tag_no_case "name") (tag_no_case "n")) parse_string)] ++ others ++
    [value SType (opt_value (orelse (tag_no_case "type") (tag_no_case "t")) (tag_no_case "list"))]))).
Definition file_option : parser SetOption := pmap SFile (opt_value (orelse (tag_no_case "file") (tag_no_case "f")) parse_path).
Definition name_of_set (l : list SetOption) : option string :=
  last_of l (λ o, match o with SName n => Some n | _ => None end).
Definition file_of_set (l : list SetOption) : option string :=
  last_of l (λ o, match o with SFile f => Some f | _ => None end).

Definition parse_ip_set : parser IpSetProvider :=
  set_options [file_option] (λ l, n ← name_of_set l; f ← file_of_set l; Some {| ips_name := n; ips_file := f |}).
Definition parse_domain_set : parser DomainSetProvider :=
  orelse
    (set_options [file_option] (λ l, n ← name_of_set l; f ← file_of_set l; Some (SetFile n f)))
    (set_options
      [ pmap SUrl (opt_value (orelse (tag_no_case "url") (tag_no_case "u")) (pmap_opt url_from_str parse_string));
        pmap SInterval (opt_value (orelse (tag_no_case "interval") (tag_no_case "i")) u64_) ]
      (λ l, n ← name_of_set l; u ← last_of l (λ o, match o with SUrl u => Some u | _ => None end);
            Some (SetHttp n u (last_of l (λ o, match o with SInterval i => Some i | _ => None end))))).

Inductive ProxyOption := PName (n : string) | PConfig (c : ProxyConfig).
Definition parse_proxy : parser (string * ProxyConfig) :=
  pmap_opt (λ l, n ← last_of l (λ o, match o with PName n => Some n | _ => None end);
                 c ← last_of l (λ o, match o with PConfig c => Some c | _ => None end); Some (n, c))
    (separated_list1 space1 (orelse
      (pmap PName (opt_value (orelse (tag_no_case "name") (tag_no_case "n")) parse_string))
      (pmap_opt (λ s, PConfig <$> proxy_from_str s) parse_string))).

(** *** Listeners (bind_addr.rs) *)

Definition parse_bind_addr : parser (option BindAddr) :=
  alt [ value (Some Localhost) (tag_no_case "localhost"); pmap (Some ∘ BindV4) ipv4;
        delimited (char "[") (pmap (fmap BindV6) ipv6) (char "]"); value (Some All) (char "*") ].

Definition set_opt (o : ServerOpts) (k : string) (v : option string) : option ServerOpts :=
  let is_ s := bool_decide (k = s) in
  let flag {A} (s : string) (old : A) (new : A) := if is_ s then new else old in
  if bool_decide (k ∈ ["group"; "no-rule-addr"; "no-rule-nameserver"; "no-rule-ipset"; "no-speed-check"; "no-cache"; "no-rule-soa";
                       "no-serve-expired"; "no-dualstack-selection"; "force-aaaa-soa"; "force-https-soa"]) then
    Some {|
      so_group := flag "group" (so_group o) v; so_rule_group := so_rule_group o;
      so_no_rule_addr := flag "no-rule-addr" (so_no_rule_addr o) (Some true);
      so_no_rule_nameserver := flag "no-rule-nameserver" (so_no_rule_nameserver o) (Some true);
      so_no_rule_ipset := flag "no-rule-ipset" (so_no_rule_ipset o) (Some true);
      so_no_speed_check := flag "no-speed-check" (so_no_speed_check o) (Some true);
      so_no_cache := flag "no-cache" (so_no_cache o) (Some true);
      so_no_rule_soa := flag "no-rule-soa" (so_no_rule_soa o) (Some true);
      so_no_dualstack_selection := flag "no-dualstack-selection" (so_no_dualstack_selection o) (Some true);
      so_force_aaaa_soa := flag "force-aaaa-soa" (so_force_aaaa_soa o) (Some true);
      so_force_https_soa := flag "force-https-soa" (so_force_https_soa o) (Some true);
      so_no_serve_expired := flag "no-serve-expired" (so_no_serve_expired o) (Some true);
      so_is_background := so_is_background o |}
  else None.
Definition parse_server_opts (l : list (string * option string)) : list (string * option string) * ServerOpts :=
  foldl (λ '(rest, o) '(k, v),
    match set_opt o (text_lowercase k) v with Some o => (rest, o) | None => (rest ++ [(k, v)], o) end) ([], opts_default) l.

Definition ssl_default : SslConfig := {|
  ssl_server_name := None; ssl_certificate := None; ssl_certificate_key := None; ssl_certificate_key_pass := None |}.
Definition parse_ssl_config (l : list (string * option string)) : SslConfig :=
  foldl (λ c '(k, v),
    let k := text_lowercase k in {|
      ssl_server_name := if bool_decide (k = "server-name") then v else ssl_server_name c;
      ssl_certificate := if bool_decide (k = "ssl-certificate") then v else ssl_certificate c;
      ssl_certificate_key := if bool_decide (k = "ssl-certificate-key") then v else ssl_certificate_key c;
      ssl_certificate_key_pass := ssl_certificate_key_pass c |}) ssl_default l.
Definition has_ssl (k : BindKind) : bool := match k with BindTcp | BindUdp | BindHttp => false | _ => true end.

(** A listener after its keyword. *)
Definition parse_listener (kind : BindKind) : parser (option BindAddrConfig) :=
  pbind (pmap (default (Some (BindV4 0))) (opt parse_bind_addr)) (λ addr,
  pbind (preceded (char ":") (pmap_opt (λ s, let n := value_of 10 0 s in if (n <? 65536)%Z then Some n else None) digit1)) (λ port,
  pbind (opt (preceded (char "@") take_word)) (λ device,
  pmap (λ options, (λ addr,
    let '(rest, opts) := parse_server_opts (default [] options) in {|
      bind_kind := kind; bind_addr := addr; bind_port := port; bind_device := device; bind_opts := opts;
      bind_ssl := if has_ssl kind then Some (parse_ssl_config rest) else None; bind_enabled := None |}) <$> addr)
    (opt (preceded space1 parse_options))))).

(** ** The keywords *)

Definition plain {A} (f : A → item) (p : parser A) : parser (option item) := pmap (λ v, Some (f v)) p.

Definition value_table : list (string * parser (option item)) :=
  [ ("audit-enable", plain AuditEnable parse_bool);
    ("audit-file-mode", plain AuditFileMode parse_file_mode);
    ("audit-file", plain AuditFile parse_path);
    ("audit-num", plain AuditNum u64_);
    ("audit-size", plain AuditSize parse_byte);
    ("bind-cert-file", plain BindCertFile parse_path);
    ("bind-cert-key-file", plain BindCertKeyFile parse_path);
    ("bind-cert-key-pass", plain BindCertKeyPass parse_string);
    ("bogus-nxdomain", pmap (fmap BogusNxDomain) parse_ip_or_set);
    ("blacklist-ip", pmap (fmap BlacklistIp) parse_ip_or_set);
    ("cache-file", plain CacheFile_ parse_path);
    ("cache-persist", plain CachePersist parse_bool);
    ("cache-size", plain CacheSize u64_);
    ("cache-mem-size", plain CacheMemSize u64_);
    ("cache-checkpoint-time", plain CacheCheckpointTime u64_);
    ("ca-file", plain CaFile parse_path);
    ("ca-path", plain CaPath parse_path);
    ("client-rules", pmap (fmap ClientRule_) parse_client_rule);
    ("client-rule", pmap (fmap ClientRule_) parse_client_rule);
    ("conf-file", plain ConfFile parse_path);
    ("domain-rules", pmap (fmap DomainRule_) (for_domain parse_domain_rule));
    ("domain-rule", pmap (fmap DomainRule_) (for_domain parse_domain_rule));
    ("domain-set", plain DomainSetProvider_ parse_domain_set);
    ("dnsmasq-lease-file", plain DnsmasqLeaseFile parse_path);
    ("dns64", pmap (fmap Dns64_) parse_net6);
    ("dualstack-ip-allow-force-aaaa", plain DualstackIpAllowForceAAAA parse_bool);
    ("dualstack-ip-selection", plain DualstackIpSelection parse_bool);
    ("dualstack-ip-selection-threshold", plain DualstackIpSelectionThreshold u64_);
    ("edns-client-subnet", pmap (fmap EdnsClientSubnet) parse_net);
    ("expand-ptr-from-address", plain ExpandPtrFromAddress parse_bool);
    ("force-aaaa-soa", plain ForceAAAASOA parse_bool);
    ("force-https-soa", plain ForceHTTPSSOA parse_bool);
    ("force-qtype-soa", plain ForceQtypeSoa (pmap record_type_of u16_));
    ("response", plain ResponseMode_ parse_response_mode);
    ("group-begin", plain GroupBegin parse_string);
    ("prefetch-domain", plain PrefetchDomain parse_bool);
    ("cname", pmap (fmap CNAME_) (for_domain (some_value parse_cname)));
    ("num-workers", plain NumWorkers u64_);
    ("domain", plain Domain_ parse_name);
    ("hosts-file", plain HostsFile parse_pattern);
    ("force-no-cname", plain ForceNoCNAME parse_bool);
    ("local-ptr-enable", plain LocalPtrEnable parse_bool);
    ("max-query-limit", plain MaxQueryLimit u64_);
    ("nftset-timeout", plain NftsetTimeoutEnable parse_bool);
    ("nftset-debug", plain NftsetDebug parse_bool);
    ("socket-buff-size", plain SocketBuffSize u64_);
    ("data-dir", plain DataDir parse_path);
    ("log-color", plain LogColor parse_bool);
    ("audit-soa", plain AuditSoa parse_bool);
    ("audit-console", plain AuditConsole parse_bool);
    ("local-domain", plain LocalDomain parse_local_domain);
    ("odhcpd-lease-file", plain OdhcpdLeaseFile parse_path);
    ("group-match", pmap (fmap GroupMatch_) parse_group_match);
    ("ip-rules", pmap (fmap IpRule_) parse_ip_rule);
    ("ipset", pmap (fmap IpSet_) (for_domain (some_value take_word1)));
    ("ipset-timeout", plain IpSetTimeoutEnable parse_bool);
    ("ipset-no-speed", plain IpSetNoSpeed parse_string);
    ("acl-enable", plain AclEnable parse_bool);
    ("bind-cert-generate", plain BindCertGenerate parse_bool);
    ("bind-cert-root-key-file", plain BindCertRootKeyFile parse_path);
    ("bind-cert-san", plain BindCertSan parse_san_list);
    ("bind-cert-validity-days", plain BindCertValidityDays u64_);
    ("log-syslog", plain LogSyslog parse_bool);
    ("audit-syslog", plain AuditSyslog parse_bool);
    ("nftset-no-speed", plain NftsetNoSpeed parse_nftset_list);
    ("debug-save-fail-packet", plain DebugSaveFailPacket parse_bool);
    ("debug-save-fail-packet-dir", plain DebugSaveFailPacketDir parse_path);
    ("https-record", pmap (fmap HttpsRecord) (for_domain parse_https_rule));
    ("ignore-ip", pmap (fmap IgnoreIp) parse_ip_or_set);
    ("local-ttl", plain LocalTtl u64_);
    ("log-console", plain LogConsole parse_bool);
    ("log-file-mode", plain LogFileMode parse_file_mode);
    ("log-file", plain LogFile parse_path);
    ("log-filter", plain LogFilter parse_string);
    ("log-level", plain LogLevel parse_level);
    ("log-num", plain LogNum u64_);
    ("log-size", plain LogSize parse_byte);
    ("max-reply-ip-num", plain MaxReplyIpNum u8_);
    ("mdns-lookup", plain MdnsLookup parse_bool);
    ("nameserver", plain ForwardRule_ parse_forward);
    ("proxy-server", plain (λ x, ProxyConfig_ (fst x) (snd x)) parse_proxy);
    ("rr-ttl-reply-max", plain RrTtlReplyMax u64_);
    ("rr-ttl-min", plain RrTtlMin u64_);
    ("rr-ttl-max", plain RrTtlMax u64_);
    ("rr-ttl", plain RrTtl u64_);
    ("resolv-file", plain ResolvFile parse_path);
    ("resolv-hostanme", plain ResolvHostname parse_bool);
    ("response-mode", plain ResponseMode_ parse_response_mode);
    ("server-name", plain ServerName_ parse_name);
    ("speed-check-mode", plain SpeedMode parse_speed_setting);
    ("serve-expired-reply-ttl", plain ServeExpiredReplyTtl u64_);
    ("serve-expired-ttl", plain ServeExpiredTtl u64_);
    ("serve-expired-prefetch-time", plain ServeExpiredPrefetchTime u64_);
    ("serve-expired", plain ServeExpired parse_bool);
    ("srv-record", pmap (fmap SrvRecord) (for_domain (some_value parse_srv)));
    ("txt-record", pmap (fmap TxtRecord) (for_domain (some_value parse_txt)));
    ("resolv-hostname", plain ResolvHostname parse_bool);
    ("tcp-idle-time", plain TcpIdleTime u64_);
    ("nftset", pmap (fmap NftSet) (for_domain (some_value parse_nftsets)));
    ("user", plain User parse_string);
    ("whitelist-ip", pmap (fmap WhitelistIp) parse_ip_or_set);
    ("ip-set", plain IpSetProvider_ parse_ip_set);
    ("ip-alias", pmap (fmap (λ x, IpAlias_ (fst x) (snd x))) parse_ip_alias);
    ("bind-tcp", pmap (fmap Listener_) (parse_listener BindTcp));
    ("bind-tls", pmap (fmap Listener_) (parse_listener BindTls));
    ("bind-quic", pmap (fmap Listener_) (parse_listener BindQuic));
    ("bind-https", pmap (fmap Listener_) (parse_listener BindHttps));
    ("bind-http", pmap (fmap Listener_) (parse_listener BindHttp));
    ("bind-h3", pmap (fmap Listener_) (parse_listener BindH3));
    ("bind-udp", pmap (fmap Listener_) (parse_listener BindUdp));
    ("bind", pmap (fmap Listener_) (parse_listener BindUdp));
    ("server-udp", pmap (fmap Server_) (server_value "udp"));
    ("server-tcp", pmap (fmap Server_) (server_value "tcp"));
    ("server-tls", pmap (fmap Server_) (server_value "tls"));
    ("server-https", pmap (fmap Server_) (server_value "https"));
    ("server-h3", pmap (fmap Server_) (server_value "h3"));
    ("server-http3", pmap (fmap Server_) (server_value "h3"));
    ("server-quic", pmap (fmap Server_) (server_value "quic"));
    ("server", pmap (fmap Server_) (server_value "udp")) ].

#[export] Instance item_values : ItemValues Name := {
  item_value keyword :=
    match List.find (λ x, bool_decide (fst x = keyword)) value_table with Some (_, p) => p | None => λ _, None end }.

(** Every keyword but [group-end], which has no value, has its parser. *)
Lemma value_table_keywords : map fst value_table = List.filter (λ k, negb (bool_decide (k = "group-end"))) keywords.
Proof. vm_compute. reflexivity. Qed.
End values.
