(* ===== verification/ConfigLoad.v ===== *)
(** * Loading the configuration

    [RuntimeConfigBuilder] (src/dns_conf.rs): the meaning of one line ([config]), the
    files with the files they include ([load_file], [load_managed_dir]), how paths are
    found ([resolve_filepath]), and what the collected settings become ([build]).

    Lines are parsed by [parse_line] of ConfigText; the values of the settings other
    than [address] are an argument of it.  Inclusion can recurse without end, so
    loading has fuel, the depth of nested files. *)

From S2P Require Import Prelude Dns AuditLog IpSet DomainMap DomainRule Context DnsUrl UpstreamApi.
From S2P Require Import Nom ConfigText Text FileCache Hosts Paths ConfigItems ConfigValues.

#[export] Instance Domain_eq_dec {Name} `{EqDecision Name} : EqDecision (Domain Name).
Proof. solve_decision. Defined.

(** The results of code that may panic or not return. *)
Inductive outcome (A : Type) := Returns (a : A) | Panics | OutOfFuel.
Arguments Returns {A} a.
Arguments Panics {A}.
Arguments OutOfFuel {A}.
Definition obind {A B} (o : outcome A) (k : A → outcome B) : outcome B :=
  match o with Returns a => k a | Panics => Panics | OutOfFuel => OutOfFuel end.
Notation "'let!' x ':=' e 'in' k" := (obind e (λ x, k)) (at level 10, x pattern, e at level 100, k at level 200) : rust_scope.
Local Open Scope rust_scope.

(** The directories of a file system: whether a path exists and is a directory, and
    the paths in a directory ([None] when it cannot be listed). *)
Class Dirs (FS : Type) := {
  path_exists : FS → string → bool;
  is_dir : FS → string → bool;
  read_dir : FS → string → option (list string);
}.
(** The process: its working directory, the directory of the program, its network
    interfaces with their addresses, and the answers to HTTP requests. *)
Class ProcessEnv := {
  current_dir : option string;
  exe_dir : option string;
  interfaces : option (list (string * IpAddr));
  http_get : string → option string;
}.

Section load.
Context {Name FS : Type} `{!NameOps Name, NS : !NameSyntax Name, !Glob, !HashCode Name, RD : RuleData, NO : NetOps, RM : RangeMaps}.
Context `{FL : !Files FS, DI : !Dirs FS, PE : ProcessEnv, IV : !ItemValues Name, UC : !UrlCrate, !HashRule Name}.
(** The orders in which the set of directories, the table of rule groups and the
    rules of a group are enumerated. *)
Context (dir_order : list string → list string).
Context (group_order : gmap string (RuleGroup Name) → list (string * RuleGroup Name)).
Context (rule_order : list (WildcardName Name * DomainRule Name) → list (WildcardName Name * DomainRule Name)).
Context (fs : FS).
Abbreviation RuleGroup := (RuleGroup Name).
Abbreviation item := (ConfigItem Name).

(** [parse_config]: the meaning of a line, if it has one; [None] is a panic.  The
    printing of settings is not used here. *)
#[local] Instance item_settings : Settings := {
  Setting := item; setting_value := item_value; group_end := GroupEnd; show_setting _ := "" }.

Definition parse_config (line : string) : option (option item) :=
  match parse_line line with
  | Some (_, Some l) =>
      Some match l with
           | ConfigText.Config (Address rule) _ => Some (Address_ rule)
           | ConfigText.Config (Other i) _ => Some i
           | _ => None
           end
  | Some (_, None) => None
  | None => Some None
  end.

(** ** The builder *)

Record Builder := {
  conf_dir : option string;
  conf_file : option string;
  bconfig : Config Name;
  bgroups : gmap string RuleGroup;
  rule_group_stack : list (string * RuleGroup);  (* the top first *)
  loaded_files : list string;
  dirs : list string;
}.

Definition group_empty : RuleGroup := {|
  forward_rules := []; address_rules := []; domain_rules := []; cnames := []; srv_records := [];
  https_records := []; txt_records := []; ipset_rules := [] |}.

Definition builder : Builder := {|
  conf_dir := None; conf_file := None; bconfig := config_default; bgroups := ∅; rule_group_stack := [];
  loaded_files := []; dirs := [] |}.

Definition with_config (f : Config Name → Config Name) (b : Builder) : Builder := {|
  conf_dir := conf_dir b; conf_file := conf_file b; bconfig := f (bconfig b); bgroups := bgroups b;
  rule_group_stack := rule_group_stack b; loaded_files := loaded_files b; dirs := dirs b |}.
Definition with_groups (g : gmap string RuleGroup) (s : list (string * RuleGroup)) (b : Builder) : Builder := {|
  conf_dir := conf_dir b; conf_file := conf_file b; bconfig := bconfig b; bgroups := g; rule_group_stack := s;
  loaded_files := loaded_files b; dirs := dirs b |}.
Definition with_files (file : option string) (loaded ds : list string) (b : Builder) : Builder := {|
  conf_dir := conf_dir b; conf_file := file; bconfig := bconfig b; bgroups := bgroups b;
  rule_group_stack := rule_group_stack b; loaded_files := loaded; dirs := ds |}.
Definition with_conf_dir (dir : string) (b : Builder) : Builder := {|
  conf_dir := Some dir; conf_file := conf_file b; bconfig := bconfig b; bgroups := bgroups b;
  rule_group_stack := rule_group_stack b; loaded_files := loaded_files b; dirs := dirs b |}.
Definition with_conf_file (file : string) (b : Builder) : Builder := with_files (Some file) (loaded_files b) (dirs b) b.

(** ** Paths *)

Definition exists_file (p : string) : option string := if is_file fs p then Some p else None.

(** The places where [resolve_filepath] looks for a path before it tries the file
    name alone. *)
Definition resolve_near (base : option string) (p : string) : option string :=
  or_else (exists_file p)
    (if is_absolute p then None
     else
       match base ≫= λ b, (λ dir, (b, dir)) <$> parent b with
       | None => None
       | Some (b, dir) =>
           or_else (exists_file (path_join dir p))
             (or_else (if bool_decide (file_name b = Some "smartdns.conf")
                       then exists_file (path_join (path_join dir "smartdns.d") p) else None)
                (or_else (current_dir ≫= λ d, exists_file (path_join d p))
                   (exe_dir ≫= λ d, exists_file (path_join d p))))
       end).

(** [resolve_filepath]: the recursive call is for a file name, which is its own file
    name. *)
Definition resolve_filepath (base : option string) (p : string) : string :=
  match resolve_near base p with
  | Some q => q
  | None =>
      match file_name p with
      | Some n => if path_eq n p then p else default p (resolve_near base n)
      | None => p
      end
  end.

(** The method of the builder: the directories of the included files are tried
    last. *)
Definition resolve (b : Builder) (p : string) : string :=
  let path := resolve_filepath (conf_file b) p in
  if path_exists fs path then path
  else
    match file_name path with
    | Some name => default path (List.find (is_file fs) (map (λ d, path_join d name) (dir_order (dirs b))))
    | None => path
    end.

(** ** Values read from other files *)

Definition read_to_string (p : string) : option string :=
  text ← read_bytes fs p; if utf8_valid text then Some text else None.
Definition text_lines (s : string) : list string := omap id (lines s).

Definition parse_ip_set_file (text : string) : option (list IpNet) :=
  mapM id (omap (λ line, snd <$> parse_net (trim_start line)) (text_lines text)).

Definition read_to_domain_set (text : string) (set : list (WildcardName Name)) : list (WildcardName Name) :=
  foldl (λ set line,
    let line := trim_start line in
    if starts_with "#" line then set
    else
      match head (split " " line) ≫= parse_wildcard_name with
      | Some (_, n) => if bool_decide (n ∈ set) then set else set ++ [n]
      | None => set
      end) set (text_lines text).

Definition set_name (p : DomainSetProvider) : string := match p with SetFile n _ | SetHttp n _ _ => n end.
Definition get_domain_set (p : DomainSetProvider) : option (list (WildcardName Name)) :=
  match p with
  | SetFile _ file => (λ text, read_to_domain_set text []) <$> read_to_string file
  | SetHttp _ url _ => (λ text, read_to_domain_set text []) <$> http_get url
  end.

(** ** Rule groups *)

Definition push_forward (v : ConfigForDomain Name string) (g : RuleGroup) : RuleGroup := {|
  forward_rules := forward_rules g ++ [v]; address_rules := address_rules g; domain_rules := domain_rules g; cnames := cnames g;
  srv_records := srv_records g; https_records := https_records g; txt_records := txt_records g; ipset_rules := ipset_rules g |}.
Definition push_address (v : ConfigForDomain Name AddressRuleValue) (g : RuleGroup) : RuleGroup := {|
  forward_rules := forward_rules g; address_rules := address_rules g ++ [v]; domain_rules := domain_rules g; cnames := cnames g;
  srv_records := srv_records g; https_records := https_records g; txt_records := txt_records g; ipset_rules := ipset_rules g |}.
Definition push_domain_rule (v : ConfigForDomain Name (DomainRule Name)) (g : RuleGroup) : RuleGroup := {|
  forward_rules := forward_rules g; address_rules := address_rules g; domain_rules := domain_rules g ++ [v]; cnames := cnames g;
  srv_records := srv_records g; https_records := https_records g; txt_records := txt_records g; ipset_rules := ipset_rules g |}.
Definition push_cname (v : ConfigForDomain Name (CNameRule Name)) (g : RuleGroup) : RuleGroup := {|
  forward_rules := forward_rules g; address_rules := address_rules g; domain_rules := domain_rules g; cnames := cnames g ++ [v];
  srv_records := srv_records g; https_records := https_records g; txt_records := txt_records g; ipset_rules := ipset_rules g |}.
Definition push_srv_rule (v : ConfigForDomain Name SRV) (g : RuleGroup) : RuleGroup := {|
  forward_rules := forward_rules g; address_rules := address_rules g; domain_rules := domain_rules g; cnames := cnames g;
  srv_records := srv_records g ++ [v]; https_records := https_records g; txt_records := txt_records g; ipset_rules := ipset_rules g |}.
Definition push_https_rule (v : ConfigForDomain Name HttpsRecordRule) (g : RuleGroup) : RuleGroup := {|
  forward_rules := forward_rules g; address_rules := address_rules g; domain_rules := domain_rules g; cnames := cnames g;
  srv_records := srv_records g; https_records := https_records g ++ [v]; txt_records := txt_records g; ipset_rules := ipset_rules g |}.
Definition push_txt_rule (v : ConfigForDomain Name string) (g : RuleGroup) : RuleGroup := {|
  forward_rules := forward_rules g; address_rules := address_rules g; domain_rules := domain_rules g; cnames := cnames g;
  srv_records := srv_records g; https_records := https_records g; txt_records := txt_records g ++ [v]; ipset_rules := ipset_rules g |}.
Definition push_ipset_rule (v : ConfigForDomain Name string) (g : RuleGroup) : RuleGroup := {|
  forward_rules := forward_rules g; address_rules := address_rules g; domain_rules := domain_rules g; cnames := cnames g;
  srv_records := srv_records g; https_records := https_records g; txt_records := txt_records g; ipset_rules := ipset_rules g ++ [v] |}.

(** The group on top of the stack, after a line has made sure that there is one. *)
Definition ensure_group (b : Builder) : Builder :=
  match rule_group_stack b with
  | [] => with_groups (bgroups b) [(DEFAULT_GROUP, group_empty)] b
  | _ => b
  end.
Definition on_top (f : RuleGroup → RuleGroup) (b : Builder) : Builder :=
  match rule_group_stack b with
  | (name, g) :: s => with_groups (bgroups b) ((name, f g) :: s) b
  | [] => b
  end.
Definition merge_into (name : string) (g : RuleGroup) (gs : gmap string RuleGroup) : gmap string RuleGroup :=
  <[name := merge (default group_empty (gs !! name)) g]> gs.
Definition pop_group (b : Builder) : Builder :=
  match rule_group_stack b with
  | (name, g) :: s => with_groups (merge_into name g (bgroups b)) s b
  | [] => b
  end.

(** ** Lines and files *)

Section config.
Context (load : Builder → string → outcome (result unit unit * Builder)).

Definition apply_item (i : item) (b : Builder) : outcome Builder :=
  match i with
  | AuditEnable v => Returns (with_config (assign f_audit_enable (Some v)) b)
  | AuditFile v => Returns (with_config (assign f_audit_file (Some v)) b)
  | AuditFileMode v => Returns (with_config (assign f_audit_file_mode (Some v)) b)
  | AuditNum v => Returns (with_config (assign f_audit_num (Some v)) b)
  | AuditSize v => Returns (with_config (assign f_audit_size (Some v)) b)
  | BindCertFile v => Returns (with_config (assign f_bind_cert_file (Some (resolve b v))) b)
  | BindCertKeyFile v => Returns (with_config (assign f_bind_cert_key_file (Some (resolve b v))) b)
  | BindCertKeyPass v => Returns (with_config (assign f_bind_cert_key_pass (Some v)) b)
  | CacheFile_ v => Returns (with_config (assign f_cache_file (Some v)) b)
  | CachePersist v => Returns (with_config (assign f_cache_persist (Some v)) b)
  | CacheCheckpointTime v => Returns (with_config (assign f_cache_checkpoint_time (Some v)) b)
  | CNAME_ v => Returns (on_top (push_cname v) b)
  | Dns64_ v => Returns (with_config (assign f_dns64_prefix (Some v)) b)
  | ExpandPtrFromAddress v => Returns (with_config (assign f_expand_ptr_from_address (Some v)) b)
  | NftSet v => Returns (with_config (modify f_nftsets (λ l, l ++ [v])) b)
  | HttpsRecord v => Returns (on_top (push_https_rule v) b)
  | Server_ server => Returns (with_config (modify f_nameservers (λ l, l ++ [server])) b)
  | ResponseMode_ v => Returns (with_config (assign f_response_mode (Some v)) b)
  | ResolvHostname v => Returns (with_config (assign f_resolv_hostname (Some v)) b)
  | ServeExpired v => Returns (with_config (assign f_cache_serve_expired (Some v)) b)
  | PrefetchDomain v => Returns (with_config (assign f_cache_prefetch_domain (Some v)) b)
  | ForceAAAASOA v => Returns (with_config (assign f_force_aaaa_soa (Some v)) b)
  | ForceHTTPSSOA v => Returns (with_config (assign f_force_https_soa (Some v)) b)
  | DualstackIpAllowForceAAAA v => Returns (with_config (assign f_dualstack_ip_allow_force_aaaa (Some v)) b)
  | DualstackIpSelection v => Returns (with_config (assign f_dualstack_ip_selection (Some v)) b)
  | ServerName_ v => Returns (with_config (assign f_server_name (Some v)) b)
  | NumWorkers v => Returns (with_config (assign f_num_workers (Some v)) b)
  | Domain_ v => Returns (with_config (assign f_domain (Some v)) b)
  | SpeedMode v => Returns (with_config (assign f_speed_check_mode v) b)
  | ServeExpiredTtl v => Returns (with_config (assign f_cache_serve_expired_ttl (Some v)) b)
  | ServeExpiredReplyTtl v => Returns (with_config (assign f_cache_serve_expired_reply_ttl (Some v)) b)
  | ServeExpiredPrefetchTime v => Returns (with_config (assign f_cache_serve_expired_prefetch_time (Some v)) b)
  | ForceNoCNAME v => Returns (with_config (assign f_force_no_cname (Some v)) b)
  | LocalPtrEnable v => Returns (with_config (assign f_local_ptr_enable (Some v)) b)
  | MaxQueryLimit v => Returns (with_config (assign f_max_query_limit (Some v)) b)
  | NftsetTimeoutEnable v => Returns (with_config (assign f_nftset_timeout_enable (Some v)) b)
  | NftsetDebug v => Returns (with_config (assign f_nftset_debug (Some v)) b)
  | SocketBuffSize v => Returns (with_config (assign f_socket_buff_size (Some v)) b)
  | DataDir v => Returns (with_config (assign f_data_dir (Some (resolve b v))) b)
  | LocalDomain v => Returns (with_config (assign f_local_domain v) b)
  | OdhcpdLeaseFile v => Returns (with_config (assign f_odhcpd_lease_file (Some (resolve b v))) b)
  | IpRule_ v => Returns (with_config (modify f_ip_rules (λ l, l ++ [v])) b)
  | IpSet_ v => Returns (on_top (push_ipset_rule v) b)
  | IpSetTimeoutEnable v => Returns (with_config (assign f_ipset_timeout_enable (Some v)) b)
  | IpSetNoSpeed v => Returns (with_config (assign f_ipset_no_speed (Some v)) b)
  | AclEnable v => Returns (with_config (assign f_acl_enable (Some v)) b)
  | GroupMatch_ v =>
      Returns (with_config (modify f_client_rules (λ l, l ++ map (λ c, {| client := c; cr_group := gm_group v |}) (gm_clients v)))
        (on_top (λ g, foldl (λ g d, push_forward {| domain := d; config := gm_group v |} g) g (gm_domains v)) b))
  | DebugSaveFailPacket v => Returns (with_config (assign f_debug_save_fail_packet (Some v)) b)
  | BindCertGenerate v => Returns (with_config (assign f_bind_cert_generate (Some v)) b)
  | BindCertRootKeyFile v => Returns (with_config (assign f_bind_cert_root_key_file (Some (resolve b v))) b)
  | BindCertSan v => Returns (with_config (assign f_bind_cert_san (Some v)) b)
  | BindCertValidityDays v => Returns (with_config (assign f_bind_cert_validity_days (Some v)) b)
  | LogSyslog v => Returns (with_config (assign f_log_syslog (Some v)) b)
  | AuditSyslog v => Returns (with_config (assign f_audit_syslog (Some v)) b)
  | NftsetNoSpeed v => Returns (with_config (assign f_nftset_no_speed (Some v)) b)
  | DebugSaveFailPacketDir v => Returns (with_config (assign f_debug_save_fail_packet_dir (Some (resolve b v))) b)
  | LogColor v => Returns (with_config (assign f_log_color (Some v)) b)
  | AuditSoa v => Returns (with_config (assign f_audit_soa (Some v)) b)
  | AuditConsole v => Returns (with_config (assign f_audit_console (Some v)) b)
  | CacheSize v => Returns (with_config (assign f_cache_size (Some v)) b)
  | CacheMemSize v => Returns (with_config (assign f_cache_mem_size (Some v)) b)
  | ForceQtypeSoa v => Returns (with_config (modify f_force_qtype_soa (λ l, if bool_decide (v ∈ l) then l else l ++ [v])) b)
  | DualstackIpSelectionThreshold v => Returns (with_config (assign f_dualstack_ip_selection_threshold (Some v)) b)
  | RrTtl v => Returns (with_config (assign f_rr_ttl (Some v)) b)
  | RrTtlMin v => Returns (with_config (assign f_rr_ttl_min (Some v)) b)
  | RrTtlMax v => Returns (with_config (assign f_rr_ttl_max (Some v)) b)
  | RrTtlReplyMax v => Returns (with_config (assign f_rr_ttl_reply_max (Some v)) b)
  | Listener_ v => Returns (with_config (modify f_binds (λ l, l ++ [v])) b)
  | LocalTtl v => Returns (with_config (assign f_local_ttl (Some v)) b)
  | LogConsole v => Returns (with_config (assign f_log_console (Some v)) b)
  | LogNum v => Returns (with_config (assign f_log_num (Some v)) b)
  | LogLevel v => Returns (with_config (assign f_log_level (Some v)) b)
  | LogFile v => Returns (with_config (assign f_log_file (Some v)) b)
  | LogFileMode v => Returns (with_config (assign f_log_file_mode (Some v)) b)
  | LogFilter v => Returns (with_config (assign f_log_filter (Some v)) b)
  | LogSize v => Returns (with_config (assign f_log_size (Some v)) b)
  | MaxReplyIpNum v => Returns (with_config (assign f_max_reply_ip_num (Some v)) b)
  | BlacklistIp v => Returns (with_config (modify f_blacklist_ip (λ l, l ++ [v])) b)
  | BogusNxDomain v => Returns (with_config (modify f_bogus_nxdomain (λ l, l ++ [v])) b)
  | WhitelistIp v => Returns (with_config (modify f_whitelist_ip (λ l, l ++ [v])) b)
  | IgnoreIp v => Returns (with_config (modify f_ignore_ip (λ l, l ++ [v])) b)
  | CaFile v => Returns (with_config (assign f_ca_file (Some v)) b)
  | CaPath v => Returns (with_config (assign f_ca_path (Some v)) b)
  | ConfFile v =>
      if path_in v (loaded_files b) then Returns b
      else
        let! (_, b) := load b v in
        let ds := match parent v with Some dir => path_insert dir (dirs b) | None => dirs b end in
        Returns (with_files (conf_file b) (path_insert v (loaded_files b)) ds b)
  | DnsmasqLeaseFile v => Returns (with_config (assign f_dnsmasq_lease_file (Some v)) b)
  | ResolvFile v => Returns (with_config (assign f_resolv_file (Some v)) b)
  | SrvRecord v => Returns (on_top (push_srv_rule v) b)
  | TxtRecord v => Returns (on_top (push_txt_rule v) b)
  | DomainRule_ v => Returns (on_top (push_domain_rule v) b)
  | ForwardRule_ v => Returns (on_top (push_forward v) b)
  | User v => Returns (with_config (assign f_user (Some v)) b)
  | TcpIdleTime v => Returns (with_config (assign f_tcp_idle_time (Some v)) b)
  | EdnsClientSubnet v => Returns (with_config (assign f_edns_client_subnet (Some v)) b)
  | Address_ v => Returns (on_top (push_address v) b)
  | DomainSetProvider_ v =>
      let v := match v with SetFile name file => SetFile name (resolve b file) | SetHttp _ _ _ => v end in
      Returns (with_config (modify f_domain_set_providers (λ m, <[set_name v := default [] (m !! set_name v) ++ [v]]> m)) b)
  | ProxyConfig_ name v => Returns (with_config (modify f_proxy_servers <[name := v]>) b)
  | HostsFile v => Returns (with_config (assign f_hosts_file (Some v)) b)
  | IpSetProvider_ p =>
      match read_to_string (resolve_filepath (conf_file b) (ips_file p)) with
      | Some text =>
          match parse_ip_set_file text with
          | Some nets =>
              Returns (with_config (modify f_ip_sets (λ m, <[ips_name p := default [] (m !! ips_name p) ++ nets]> m)) b)
          | None => Panics
          end
      | None => Returns b
      end
  | MdnsLookup v => Returns (with_config (assign f_mdns_lookup (Some v)) b)
  | IpAlias_ ip to_ =>  (* a new allocation *)
      Returns (with_config (modify f_ip_alias (λ l, l ++ [(ip, {| alias_ptr := Z.of_nat (length l); alias_ips := to_ |})])) b)
  | GroupBegin v => Returns (with_groups (bgroups b) ((v, group_empty) :: rule_group_stack b) b)
  | GroupEnd => Returns (pop_group b)
  | ClientRule_ r =>
      let g := if bool_decide (cr_group r = "") then from_option fst DEFAULT_GROUP (head (rule_group_stack b)) else cr_group r in
      Returns (with_config (modify f_client_rules (λ l, l ++ [{| client := client r; cr_group := g |}])) b)
  end.

Definition config (b : Builder) (line : string) : outcome Builder :=
  let b := ensure_group b in
  match parse_config line with
  | Some (Some i) => apply_item i b
  | Some None => Returns b
  | None => Panics
  end.

Fixpoint config_lines (b : Builder) (ls : list string) : outcome Builder :=
  match ls with [] => Returns b | l :: ls => let! b := config b l in config_lines b ls end.
End config.

(** [lines().map_while(Result::ok)]: the lines before the first that is no text. *)
Fixpoint map_while_ok (ls : list (option string)) : list string :=
  match ls with Some l :: ls => l :: map_while_ok ls | _ => [] end.

Fixpoint load_file (fuel : nat) (b : Builder) (path : string) : outcome (result unit unit * Builder) :=
  match fuel with
  | O => OutOfFuel
  | S fuel =>
      let path := resolve b path in
      if path_exists fs path then
        match read_bytes fs path with
        | None => Returns (Err (), b)
        | Some text =>
            let b := match conf_file b with None => with_files (Some path) (loaded_files b) (dirs b) b | Some _ => b end in
            let! b := config_lines (load_file fuel) b (map_while_ok (lines text)) in
            Returns (Ok (), b)
        end
      else Returns (Ok (), b)
  end.

(** [with]: a line given on its own. *)
Definition with_line (fuel : nat) (line : string) (b : Builder) : outcome Builder := config (load_file fuel) b (trim line).

Fixpoint load_files (fuel : nat) (b : Builder) (paths : list string) : outcome Builder :=
  match paths with
  | [] => Returns b
  | p :: ps =>
      if bool_decide (extension p = Some "conf") then let! (_, b) := load_file fuel b p in load_files fuel b ps
      else load_files fuel b ps
  end.
(** [load_managed_dir]; a directory that was just created is empty. *)
Definition load_managed_dir (fuel : nat) (b : Builder) (managed_dir : string) : outcome Builder :=
  load_files fuel b (default [] (read_dir fs managed_dir)).

(** ** Building *)

(** The groups still open are closed from the top of the stack. *)
Definition close_groups (b : Builder) : gmap string RuleGroup :=
  foldl (λ gs '(name, g), merge_into name g gs) (bgroups b) (rule_group_stack b).

Definition get_ip_set (c : Config Name) (ip : IpOrSet) : list IpNet :=
  match ip with
  | INet net => [net]
  | ISet name => default [] ((c f_ip_sets : gmap string (list IpNet)) !! name)
  end.
Definition make_ip_set (c : Config Name) (l : list IpOrSet) : IpSet := ipset_new (l ≫= get_ip_set c).
Definition make_ip_alias (c : Config Name) : IpMap IpAlias :=
  ipmap_from_iter ((c f_ip_alias : list (IpOrSet * IpAlias)) ≫= λ '(ip, to_), map (λ net, (net, to_)) (get_ip_set c ip)).

(** [dedup_by]: of consecutive aliases of one domain the first is kept. *)
Fixpoint dedup_from (prev : ConfigForDomain Name (CNameRule Name)) (l : list (ConfigForDomain Name (CNameRule Name)))
  : list (ConfigForDomain Name (CNameRule Name)) :=
  match l with
  | [] => []
  | x :: l => if bool_decide (domain x = domain prev) then dedup_from prev l else x :: dedup_from x l
  end.
Definition dedup_cnames (l : list (ConfigForDomain Name (CNameRule Name))) : list (ConfigForDomain Name (CNameRule Name)) :=
  match l with [] => [] | x :: l => x :: dedup_from x l end.
Definition with_cnames (g : RuleGroup) : RuleGroup := {|
  forward_rules := forward_rules g; address_rules := address_rules g; domain_rules := domain_rules g;
  cnames := dedup_cnames (cnames g); srv_records := srv_records g; https_records := https_records g;
  txt_records := txt_records g; ipset_rules := ipset_rules g |}.

Definition domain_sets (c : Config Name) : gmap string (list (WildcardName Name)) :=
  (λ providers : list DomainSetProvider,
     foldl (λ set p,
       match get_domain_set p with
       | Some s => set ++ List.filter (λ n, negb (bool_decide (n ∈ set))) s
       | None => set
       end) [] providers) <$> (c f_domain_set_providers : gmap string (list DomainSetProvider)).

(** The group that resolves the name of a server. *)
Definition with_resolve_group (g : option string) (i : NameServerInfo) : NameServerInfo := {|
  i_name := i_name i; i_server := i_server i; i_group := i_group i; i_blacklist_ip := i_blacklist_ip i;
  i_whitelist_ip := i_whitelist_ip i; i_check_edns := i_check_edns i; i_exclude_default_group := i_exclude_default_group i;
  i_proxy := i_proxy i; i_bootstrap_dns := i_bootstrap_dns i; i_resolve_group := g; i_subnet := i_subnet i;
  i_so_mark := i_so_mark i; i_interface := i_interface i; i_enabled := i_enabled i |}.
Definition set_resolve_group (rules : DomainMap Name (DomainRuleTreeNode Name)) (s : NameServerInfo) : NameServerInfo :=
  match DnsUrl.ip (i_server s) with
  | Some _ => s
  | None =>
      match name_from_str (host_display (du_host (i_server s))) ≫= find rules with
      | Some rule => with_resolve_group (node_get (λ n, nameserver (node_rule n)) rule) s
      | None => s
      end
  end.

(** *** Listeners *)

Definition bind_default : BindAddrConfig := {|
  bind_kind := BindUdp; bind_addr := BindV6 0; bind_port := 53; bind_device := None; bind_opts := opts_default;
  bind_ssl := None; bind_enabled := None |}.
Definition set_bind_addr (a : BindAddr) (l : BindAddrConfig) : BindAddrConfig := {|
  bind_kind := bind_kind l; bind_addr := a; bind_port := bind_port l; bind_device := bind_device l;
  bind_opts := bind_opts l; bind_ssl := bind_ssl l; bind_enabled := bind_enabled l |}.
Definition bind_addr_of (ip : IpAddr) : BindAddr := match ip with IPv4 a => BindV4 a | IPv6 a => BindV6 a end.

Definition is_link_local (a : Z) : bool := (Z.land (Z.shiftr a 112) 65472 =? 65152)%Z.
(** Whether an address of the device fits what the listener asks for. *)
Definition device_fits (a : BindAddr) (ip : IpAddr) : bool :=
  match a, ip with
  | (Localhost | All), _ => true
  | BindV4 _, IPv4 _ => true
  | BindV6 _, IPv6 a => negb (is_link_local a)
  | _, _ => false
  end.
Definition find_device_address (netifas : list (string * IpAddr)) (l : BindAddrConfig) : BindAddrConfig :=
  match bind_device l with
  | None => l
  | Some device =>
      let ips := map snd (List.filter (λ x, bool_decide (fst x = device)) netifas) in
      match List.find (device_fits (bind_addr l)) ips with
      | Some ip => set_bind_addr (bind_addr_of ip) l
      | None => l
      end
  end.

Definition SocketAddr : Type := IpAddr * Z.
Definition sock_addr (l : BindAddrConfig) : SocketAddr :=
  (match bind_addr l with
   | Localhost => IPv4 2130706433 | All => IPv4 0 | BindV4 ip => IPv4 ip | BindV6 ip => IPv6 ip
   end, bind_port l).
Definition over_udp (l : BindAddrConfig) : bool :=
  match bind_kind l with BindUdp | BindQuic | BindH3 => true | _ => false end.

(** The indices of the listeners whose address a later one of the same transport
    has, from the last. *)
Fixpoint duplicates (udp_addr tcp_addr : list SocketAddr) (ls : list (nat * BindAddrConfig)) : list nat :=
  match ls with
  | [] => []
  | (idx, l) :: ls =>
      let addr := sock_addr l in
      if over_udp l then
        if bool_decide (addr ∈ udp_addr) then idx :: duplicates udp_addr tcp_addr ls
        else duplicates (addr :: udp_addr) tcp_addr ls
      else
        if bool_decide (addr ∈ tcp_addr) then idx :: duplicates udp_addr tcp_addr ls
        else duplicates udp_addr (addr :: tcp_addr) ls
  end.
Definition dedup_binds (l : list BindAddrConfig) : list BindAddrConfig :=
  foldl (λ l idx, delete idx l) l (duplicates [] [] (rev (imap pair l))).

Definition build_binds (l : list BindAddrConfig) : list BindAddrConfig :=
  let l := match l with [] => [bind_default] | _ => l end in
  dedup_binds (match interfaces with Some netifas => map (find_device_address netifas) l | None => l end).

(** *** The result *)

(** The configuration, with the listeners and the upstream servers. *)
Record Built := { built : RuntimeConfig Name; built_binds : list BindAddrConfig; built_servers : list NameServerInfo }.

Definition runtime_config (c : Config Name) (groups : gmap string RuleGroup) : RuntimeConfig Name :=
  let groups := group_order (with_cnames <$> groups) in {|
  cf_rr_ttl := c f_rr_ttl; cf_rr_ttl_min := c f_rr_ttl_min; cf_rr_ttl_max := c f_rr_ttl_max;
  cf_rr_ttl_reply_max := c f_rr_ttl_reply_max; cf_local_ttl := c f_local_ttl;
  cf_max_reply_ip_num := c f_max_reply_ip_num; cf_force_aaaa_soa := c f_force_aaaa_soa;
  cf_force_https_soa := c f_force_https_soa; force_qtype_soa := c f_force_qtype_soa;
  domain_rule_group_map := create_groups rule_order (domain_sets c) (c f_nftsets) groups;
  rule_groups := groups; client_rules := c f_client_rules; cf_acl_enable := c f_acl_enable;
  bogus_nxdomain := make_ip_set c (c f_bogus_nxdomain); ignore_ip := make_ip_set c (c f_ignore_ip);
  blacklist_ip := make_ip_set c (c f_blacklist_ip); whitelist_ip := make_ip_set c (c f_whitelist_ip);
  ip_alias := make_ip_alias c; ip_rules := c f_ip_rules; cf_response_mode := c f_response_mode;
  cf_speed_check_mode := c f_speed_check_mode; cf_dualstack_ip_selection := c f_dualstack_ip_selection;
  cf_dualstack_ip_selection_threshold := c f_dualstack_ip_selection_threshold;
  cf_dualstack_ip_allow_force_aaaa := c f_dualstack_ip_allow_force_aaaa; cf_local_domain := c f_local_domain;
  cf_mdns_lookup := c f_mdns_lookup; dns64_prefix := c f_dns64_prefix; cf_force_no_cname := c f_force_no_cname;
  cf_debug_save_fail_packet := c f_debug_save_fail_packet; cf_audit_soa := c f_audit_soa;
  cf_cache_size := c f_cache_size; cf_serve_expired := c f_cache_serve_expired;
  cf_serve_expired_prefetch_time := c f_cache_serve_expired_prefetch_time;
  cf_cache_negative := c f_cache_cache_negative; cf_prefetch_domain := c f_cache_prefetch_domain;
  cf_server_name := c f_server_name; cf_domain := c f_domain; cf_hosts_file := c f_hosts_file;
  cf_resolv_hostname := c f_resolv_hostname; cf_expand_ptr_from_address := c f_expand_ptr_from_address;
  cf_local_ptr_enable := c f_local_ptr_enable; cf_dnsmasq_lease_file := c f_dnsmasq_lease_file;
  cf_odhcpd_lease_file := c f_odhcpd_lease_file; cf_ipset_timeout_enable := c f_ipset_timeout_enable;
  cf_ipset_no_speed := c f_ipset_no_speed; cf_nftset_timeout_enable := c f_nftset_timeout_enable;
  cf_nftset_no_speed := c f_nftset_no_speed |}.

(** What the collected settings become. *)
Definition finish (b : Builder) : Built :=
  let c := bconfig b in
  let rt := runtime_config c (close_groups b) in
  let default_rules := default dm_new (domain_rule_group_map rt !! DEFAULT_GROUP) in
  {| built := rt; built_binds := build_binds (c f_binds);
     built_servers := map (set_resolve_group default_rules) (c f_nameservers) |}.

Definition build (fuel : nat) (b : Builder) : outcome (result Built unit) :=
  let! (r, b) :=
    match conf_file b with
    | Some file => if path_in file (loaded_files b) then Returns (Ok (), b) else load_file fuel b file
    | None => Returns (Ok (), b)
    end in
  match r with
  | Err e => Returns (Err e)
  | Ok _ =>
      let! b :=
        match conf_dir b with
        | Some dir => load_managed_dir fuel b (path_join dir "managed")
        | None => Returns b
        end in
      Returns (Ok (finish b))
  end.

(** [reload_new]: the files are read again by a new builder. *)
Definition reload_new (fuel : nat) (dir file : option string) : outcome (result Built unit) :=
  build fuel {| conf_dir := dir; conf_file := file; bconfig := config_default; bgroups := ∅; rule_group_stack := [];
                loaded_files := []; dirs := [] |}.

(** ** Starting *)

(** [RuntimeConfig::load], with the paths that are tried when none is given; a file
    that cannot be found or read is a panic. *)
Definition NAME : string := "SmartDNS".
Definition CONF_PATH : string := "/etc/smartdns/smartdns.conf".
Definition candidate_path : list string :=
  [ CONF_PATH; "/etc/smartdns.conf"; "/etc/smartdns/smartdns.conf"; "/usr/local/etc/smartdns.conf";
    "/usr/local/etc/smartdns/smartdns.conf" ].
Definition main_file (path : string) : string :=
  if is_dir fs path then path_join path (to_ascii_lowercase NAME +:+ ".conf") else path.
(** A configuration file in a directory named after the program makes it the
    configuration directory, unless one is given. *)
Definition implied_dir (path : string) : option string :=
  dir ← parent path;
  if bool_decide (to_ascii_lowercase <$> file_stem dir = Some (to_ascii_lowercase NAME)) then Some dir else None.

Definition load (fuel : nat) (dir path : option string) : outcome Built :=
  let b := match dir with Some d => with_conf_dir d builder | None => builder end in
  let start :=
    match path with
    | Some conf =>
        let path := main_file conf in
        let implied := match dir with None => implied_dir path | Some _ => None end in
        Some (path, match implied with Some d => with_conf_dir d b | None => b end)
    | None => (λ path, (path, b)) <$> List.find (path_exists fs) candidate_path
    end in
  match start with
  | None => Panics
  | Some (path, b) =>
      let! r := build fuel (with_conf_file path b) in
      match r with Ok cfg => Returns cfg | Err _ => Panics end
  end.
End load.
Arguments Builder Name {RD}.
Arguments Built Name {RD RM}.
