(* ===== verification/ConfigValueProps.v ===== *)
(** * Properties of configuration lines

    Each keyword finds its value whatever the order in which keywords are tried, what
    becomes of numbers and switches, and which options of [domain-rules] are
    misread. *)

From S2P Require Import Prelude Dns AuditLog IpSet DomainMap DomainRule Context DnsUrl UpstreamApi.
From S2P Require Import Nom NomProps ConfigText ConfigProps Text FileCache Hosts Paths ConfigItems ConfigValues ConfigLoad.
From Stdlib Require Import Ascii.

(** ** Keywords *)

(** The characters of keywords. *)
Definition keyword_char (c : ascii) : bool := Ascii.eqb (to_lower c) c && negb (is_space c).

(** A keyword before a space is matched by itself alone: a longer keyword meets the
    space, a shorter one is not followed by it. *)
Lemma keyword_match {A} (p : parser A) k k' s : all_chars keyword_char k = true → all_chars keyword_char k' = true →
  preceded (tag_no_case k') (preceded space1 p) (k +:+ " " +:+ s) =
  if bool_decide (k' = k) then preceded space1 p (" " +:+ s) else None.
Proof.
  unfold preceded. revert k. induction k' as [|c' k' IH]; intros k Hk Hk'.
  - destruct k as [|c k]; [done|]. rewrite bool_decide_false by done. cbn [all_chars] in Hk.
    apply andb_true_iff in Hk as [Hc _]. unfold keyword_char in Hc. apply andb_true_iff in Hc as [_ Hc%negb_true_iff].
    rewrite string_app_cons. cbn [tag_no_case mbind option_bind]. unfold space1. by rewrite take1_stop by (unfold stops; by rewrite Hc).
  - cbn [all_chars] in Hk'. apply andb_true_iff in Hk' as [Hc' Hk']. unfold keyword_char in Hc'.
    apply andb_true_iff in Hc' as [_ Hc'%negb_true_iff]. destruct k as [|c k].
    + rewrite bool_decide_false by done. rewrite string_app_nil, string_app_cons. cbn [tag_no_case].
      destruct (Ascii.eqb (to_lower " ") c') eqn:E; [|done]. apply Ascii.eqb_eq in E. subst c'. by vm_compute in Hc'.
    + cbn [all_chars] in Hk. apply andb_true_iff in Hk as [Hc Hk]. unfold keyword_char in Hc.
      apply andb_true_iff in Hc as [Hlow%Ascii.eqb_eq _]. rewrite string_app_cons. cbn [tag_no_case]. rewrite Hlow.
      destruct (Ascii.eqb_spec c c') as [->|Hne].
      * rewrite IH by done. by rewrite (bool_decide_ext (k' = k) (String c' k' = String c' k)) by naive_solver.
      * rewrite bool_decide_false; [done|]. congruence.
Qed.

Section lines.
Context {Name : Type} `{!NameOps Name, NS : !NameSyntax Name}.

Lemma keywords_ok k : k ∈ keywords → all_chars keyword_char k = true ∧
  (k ≠ "group-end" → tag_no_case "group-end" k = None) ∧ tag_no_case "address" k = None.
Proof.
  intros Hk. assert (Hall : forallb (λ k, all_chars keyword_char k &&
    (bool_decide (k = "group-end") || bool_decide (tag_no_case "group-end" k = None)) &&
    bool_decide (tag_no_case "address" k = None)) keywords = true) by (vm_compute; reflexivity).
  rewrite forallb_forall in Hall. specialize (Hall k (proj1 (list_elem_of_In _ _) Hk)).
  rewrite !andb_true_iff, orb_true_iff, !bool_decide_eq_true in Hall. naive_solver.
Qed.

Lemma keywords_first k : k ∈ keywords → ∃ c k', k = String c k' ∧ is_space c = false ∧ Ascii.eqb c "#" = false.
Proof.
  intros Hk. assert (Hall : forallb (λ k, match k with String c _ => negb (is_space c) && negb (Ascii.eqb c "#") | EmptyString => false end)
    keywords = true) by (vm_compute; reflexivity).
  rewrite forallb_forall in Hall. specialize (Hall k (proj1 (list_elem_of_In _ _) Hk)).
  destruct k as [|c k']; [done|]. apply andb_true_iff in Hall as [H1%negb_true_iff H2%negb_true_iff]. by exists c, k'.
Qed.

(** No setting hides another: after its keyword and a space, a line is read by the
    parser of that keyword and by no other. *)
Lemma group_keyword `{ST : Settings} k s : k ∈ keywords → k ≠ "group-end" →
  group_ (Name := Name) (k +:+ " " +:+ s) = pmap (fmap Other) (preceded space1 (setting_value k)) (" " +:+ s).
Proof.
  intros Hk Hne. destruct (keywords_ok k Hk) as (Hc & He & Ha). specialize (He Hne).
  set (line := k +:+ " " +:+ s). set (x := pmap _ _ (" " +:+ s)).
  assert (Hitem : ∀ k', k' ∈ keywords → setting_item (Name := Name) k' line = if bool_decide (k' = k) then x else None).
  { intros k' Hk'. unfold setting_item. destruct (decide (k' = "group-end")) as [->|Hne'].
    - rewrite !bool_decide_true, bool_decide_false by done. unfold pmap, line. by rewrite string_app_cons, tag_no_case_app.
    - rewrite (bool_decide_false (k' = "group-end")) by done. unfold pmap at 1, line.
      destruct (keywords_ok k' Hk') as (Hc' & _ & _). rewrite keyword_match by done.
      case_bool_decide as E; [by subst|done]. }
  assert (Hadd : address_item (Name := Name) line = None).
  { unfold address_item, pmap, preceded, line. by rewrite string_app_cons, tag_no_case_app. }
  unfold group_, orelse at 1. rewrite Hadd.
  assert (Hfold : ∀ l, (∀ y, y ∈ l → y ∈ keywords) →
    foldr (λ k, orelse (setting_item (Name := Name) k)) (λ _, None) l line = if bool_decide (k ∈ l) then x else None).
  { induction l as [|y l IH]; intros Hl; [done|]. cbn [foldr]. unfold orelse at 1. rewrite Hitem by (apply Hl; left).
    rewrite IH by (intros; apply Hl; by right). repeat case_bool_decide; subst; try (by destruct x); exfalso; rewrite elem_of_cons in *; naive_solver. }
  rewrite Hfold by done. by rewrite bool_decide_true.
Qed.

(** ** Lines *)

Context `{!Glob, RD : RuleData, FV : !ForeignValues Name, UC : !UrlCrate}.
Abbreviation item := (ConfigItem Name).

(** A line of a keyword and a value is what the parser of the keyword makes of the
    value; nothing, if it makes nothing of it. *)
Lemma setting_line (k t : string) : k ∈ keywords → k ≠ "group-end" → stops is_space t = true →
  parse_config (k +:+ " " +:+ t) =
  match item_value k t with Some (_, Some i) => Some (Some i) | Some (_, None) => None | None => Some None end.
Proof.
  intros Hk Hne Ht.
  assert (Hg : group_ (ST := item_settings) (Name := Name) (k +:+ " " +:+ t) = pmap (fmap Other) (setting_value k) t).
  { rewrite group_keyword by done. unfold pmap, preceded.
    assert (Hs : space1 (" " +:+ t) = Some (t, " ")) by by apply (take1_app is_space " "). by rewrite Hs. }
  destruct (keywords_first k Hk) as (c0 & k0 & Ek & Hsp & Hh).
  assert (Hs0 : space0 (k +:+ " " +:+ t) = Some (k +:+ " " +:+ t, "")).
  { apply space0_stop. rewrite Ek, string_app_cons. unfold stops. by rewrite Hsp. }
  assert (Hline : ∀ r, ∃ c, orelse (pmap Some line_comment) (pmap (λ _, None) space0) r = Some c).
  { intros r. unfold orelse. case_match; [by eexists|]. unfold pmap, space0, take0. destruct (span is_space r). by eexists. }
  unfold parse_config, parse_line, orelse at 1, parse_config_line, pbind, preceded. rewrite Hs0. cbn [mbind option_bind].
  assert (Hg' : group_ (ST := item_settings) (Name := Name) (k +:+ " " +:+ t) =
    match item_value k t with Some (r, x) => Some (r, Other (ST := item_settings) <$> x) | None => None end).
  { rewrite Hg. unfold pmap. change (setting_value k t) with (item_value k t). by destruct (item_value k t) as [[]|]. }
  rewrite Hg'. clear Hg Hg'.
  destruct (item_value k t) as [[r [i|]]|]; cbn [mbind option_bind fmap option_fmap option_map].
  - destruct (Hline r) as [[r' c] Hr]. unfold pmap at 1. by rewrite Hr.
  - destruct (Hline r) as [[r' c] Hr]. unfold pmap at 1. by rewrite Hr.
  - unfold orelse at 1, pmap at 1, comment, comment_text, preceded. unfold pmap at 1, pbind. rewrite Hs0. cbn [mbind option_bind].
    assert (Hhash : char "#" (k +:+ " " +:+ t) = None).
    { rewrite Ek, string_app_cons. cbn [char]. by rewrite Hh. }
    rewrite Hhash. cbn [mbind option_bind]. unfold orelse, pmap. rewrite Hs0.
    destruct (eof (k +:+ " " +:+ t)) as [[? ?]|]; done.
Qed.

(** ** Numbers and switches *)

Definition number_settings : list (string * (Z → item)) :=
  [ ("audit-num", AuditNum); ("cache-size", CacheSize); ("cache-mem-size", CacheMemSize);
    ("cache-checkpoint-time", CacheCheckpointTime); ("dualstack-ip-selection-threshold", DualstackIpSelectionThreshold);
    ("num-workers", NumWorkers); ("max-query-limit", MaxQueryLimit); ("socket-buff-size", SocketBuffSize);
    ("bind-cert-validity-days", BindCertValidityDays); ("local-ttl", LocalTtl); ("log-num", LogNum);
    ("rr-ttl-reply-max", RrTtlReplyMax); ("rr-ttl-min", RrTtlMin); ("rr-ttl-max", RrTtlMax); ("rr-ttl", RrTtl);
    ("serve-expired-reply-ttl", ServeExpiredReplyTtl); ("serve-expired-ttl", ServeExpiredTtl);
    ("serve-expired-prefetch-time", ServeExpiredPrefetchTime); ("tcp-idle-time", TcpIdleTime) ].
Definition bool_settings : list (string * (bool → item)) :=
  [ ("audit-enable", AuditEnable); ("cache-persist", CachePersist); ("dualstack-ip-allow-force-aaaa", DualstackIpAllowForceAAAA);
    ("dualstack-ip-selection", DualstackIpSelection); ("expand-ptr-from-address", ExpandPtrFromAddress);
    ("force-aaaa-soa", ForceAAAASOA); ("force-https-soa", ForceHTTPSSOA); ("prefetch-domain", PrefetchDomain);
    ("force-no-cname", ForceNoCNAME); ("local-ptr-enable", LocalPtrEnable); ("nftset-timeout", NftsetTimeoutEnable);
    ("nftset-debug", NftsetDebug); ("log-color", LogColor); ("audit-soa", AuditSoa); ("audit-console", AuditConsole);
    ("ipset-timeout", IpSetTimeoutEnable); ("acl-enable", AclEnable); ("bind-cert-generate", BindCertGenerate);
    ("log-syslog", LogSyslog); ("audit-syslog", AuditSyslog); ("debug-save-fail-packet", DebugSaveFailPacket);
    ("log-console", LogConsole); ("mdns-lookup", MdnsLookup); ("resolv-hostanme", ResolvHostname);
    ("serve-expired", ServeExpired); ("resolv-hostname", ResolvHostname) ].

(** The keywords of a table, whose values have the parser [p]. *)
Definition read_by {A} (p : parser A) (l : list (string * (A → item))) : Prop :=
  Forall (λ x, bool_decide (fst x ∈ keywords) = true ∧ bool_decide (fst x = "group-end") = false ∧
    item_value (fst x) = plain (snd x) p) l.
Lemma number_settings_read : read_by u64_ number_settings.
Proof. repeat (constructor; [split_and!; reflexivity|]). constructor. Qed.
Lemma bool_settings_read : read_by parse_bool bool_settings.
Proof. repeat (constructor; [split_and!; reflexivity|]). constructor. Qed.

(** A line of such a setting has the value the parser reads at its start, and no
    meaning if there is none. *)
Lemma read_by_line {A} (p : parser A) l k c t : read_by p l → (k, c) ∈ l → stops is_space t = true →
  parse_config (k +:+ " " +:+ t) = Some (match p t with Some (_, v) => Some (c v) | None => None end).
Proof.
  intros Hl Hin Ht. unfold read_by in Hl. rewrite Forall_forall in Hl.
  destruct (Hl _ Hin) as (H1%bool_decide_eq_true & H2%bool_decide_eq_false & H3). cbn [fst snd] in H1, H2, H3.
  rewrite setting_line by done. rewrite H3. unfold plain, pmap. by destruct (p t) as [[]|].
Qed.

Lemma digit_not_space d : is_digit d = true → is_space d = false.
Proof. by destruct d as [[] [] [] [] [] [] [] []]. Qed.

Lemma u64_decimal n r : (0 <= n)%Z → stops is_digit r = true →
  u64_ (decimal n +:+ r) = if (n <? 2 ^ 64)%Z then Some (r, n) else None.
Proof.
  intros Hn Hr. destruct (decimal_ok n Hn) as (H1 & H2 & H3).
  unfold u64_, number, verify, pmap, digit1. rewrite take1_app by done. cbn [mbind option_bind]. by rewrite H3.
Qed.

(** A switch is on or off by its first character. *)
Definition switch_value (x : ascii) : option bool :=
  if bool_decide (to_lower x ∈ ["t"; "y"; "1"]%char) then Some true
  else if bool_decide (to_lower x ∈ ["f"; "n"; "0"]%char) then Some false else None.
Lemma tag_no_case_cons c t y s :
  tag_no_case (String c t) (String y s) = if Ascii.eqb (to_lower y) c then tag_no_case t s else None.
Proof. done. Qed.
Lemma tag_cons c t y s : tag (String c t) (String y s) = if Ascii.eqb y c then tag t s else None.
Proof. done. Qed.
Lemma parse_bool_first x r : fmap snd (parse_bool (String x r)) = switch_value x.
Proof.
  assert (H1 : Ascii.eqb x "1" = Ascii.eqb (to_lower x) "1") by by destruct x as [[] [] [] [] [] [] [] []].
  assert (H0 : Ascii.eqb x "0" = Ascii.eqb (to_lower x) "0") by by destruct x as [[] [] [] [] [] [] [] []].
  unfold parse_bool, alt, value. cbn [foldr]. unfold orelse, pmap. rewrite !tag_no_case_cons, !tag_cons, H0, H1. unfold switch_value.
  generalize (to_lower x) as y. clear. intros y.
  destruct (Ascii.eqb_spec y "t") as [->|]; [by destruct (tag_no_case "rue" r) as [[]|]|]. destruct (Ascii.eqb_spec y "y") as [->|]; [by destruct (tag_no_case "es" r) as [[]|]|].
  destruct (Ascii.eqb_spec y "1") as [->|]; [done|]. destruct (Ascii.eqb_spec y "f") as [->|]; [by destruct (tag_no_case "alse" r) as [[]|]|].
  destruct (Ascii.eqb_spec y "n") as [->|]; [by destruct (tag_no_case "o" r) as [[]|]|]. destruct (Ascii.eqb_spec y "0") as [->|]; [done|].
  by rewrite !bool_decide_false by (rewrite !elem_of_cons, elem_of_nil; naive_solver).
Qed.

(** Numbers and switches: every setting of a number takes the number that follows
    its keyword if it fits in 64 bits, whatever comes behind it, and every switch is
    set by the first character of its value - t, y or 1 for on, f, n or 0 for off, in
    either case.  Lines whose number does not fit or whose switch is anything else,
    [on] and [off] among them, have no meaning: they are ignored. *)
Theorem settings_read (n : Z) (x : ascii) (r : string) : (0 <= n)%Z → stops is_digit r = true → is_space x = false →
  (∀ k c, (k, c) ∈ number_settings →
    parse_config (k +:+ " " +:+ decimal n +:+ r) = Some (if (n <? 2 ^ 64)%Z then Some (c n) else None)) ∧
  (∀ k c, (k, c) ∈ bool_settings →
    parse_config (k +:+ " " +:+ String x r) = Some (c <$> switch_value x)).
Proof.
  intros Hn Hr Hx. split; intros k c Hin.
  - rewrite (read_by_line u64_ number_settings k c); [|apply number_settings_read|done|].
    + rewrite u64_decimal by done. by destruct (n <? 2 ^ 64)%Z.
    + destruct (decimal_ok n Hn) as (H1 & H2 & _). destruct (decimal n) as [|d s]; [done|]. rewrite string_app_cons.
      cbn [all_chars] in H1. apply andb_true_iff in H1 as [H1 _].
      unfold stops. apply negb_true_iff. by apply digit_not_space.
  - rewrite (read_by_line parse_bool bool_settings k c); [|apply bool_settings_read|done|unfold stops; by rewrite Hx].
    f_equal. rewrite <- (parse_bool_first x r). by destruct (parse_bool (String x r)) as [[]|].
Qed.
(** ** Options of domain rules *)

Definition is_alphanumeric (c : ascii) : bool := is_alpha c || is_digit c.

Lemma char_hit c x : char c (String c x) = Some (x, c).
Proof. cbn. by rewrite Ascii.eqb_refl. Qed.

(** A line of a keyword and a value for a domain. *)
Lemma for_domain_line {A} (k : string) (C : ConfigForDomain Name A → item) (p : parser (option A)) (d : Domain Name) (t t' r b : string)
    (v : option A) :
  k ∈ keywords → k ≠ "group-end" → item_value k = pmap (fmap C) (for_domain p) → domain_ok d = true →
  space0 t = Some (t', b) → p t' = Some (r, v) →
  parse_config (k +:+ " " +:+ String "/" (show_domain d +:+ String "/" t)) =
  match v with Some c => Some (Some (C {| domain := d; DomainRule.config := c |})) | None => None end.
Proof.
  intros Hk Hne Hv Hd Hs Hp. rewrite setting_line by done. rewrite Hv.
  unfold for_domain, delimited, preceded, terminated, pbind, pmap, opt.
  rewrite char_hit. cbn [mbind option_bind]. rewrite parse_domain_show by done. cbn [mbind option_bind]. rewrite char_hit.
  cbn [mbind option_bind from_option id]. rewrite Hs. cbn [mbind option_bind]. rewrite Hp. by destruct v.
Qed.

(** A line of [domain-rules] for a domain, whose options are read up to [r]. *)
Lemma domain_rules_line (d : Domain Name) (t r : string) (l : list (option DomainOption)) :
  domain_ok d = true → separated_list1 space1 domain_option (String "-" t) = Some (r, l) →
  parse_config ("domain-rules /" +:+ show_domain d +:+ "/ -" +:+ t) =
  match mapM id l with
  | Some l => Some (Some (DomainRule_ {| domain := d; DomainRule.config := rule_of_options l |}))
  | None => None
  end.
Proof.
  intros Hd Hl. etrans; [apply (for_domain_line "domain-rules" DomainRule_ parse_domain_rule d (" -" +:+ t) (String "-" t) r " "
    (rule_of_options <$> mapM id l))|]; [vm_compute; set_solver|done..| |by destruct (mapM id l)].
  unfold parse_domain_rule, pmap. by rewrite Hl.
Qed.

(** What follows a first option, if no further option can be read. *)
Lemma one_option {A} (p : parser A) s r a : p s = Some (r, a) →
  (space1 r = None ∨ ∃ r', space1 r = Some (r', " ") ∧ p r' = None) →
  separated_list1 space1 p s = Some (r, [a]).
Proof.
  intros Hp Hr. unfold separated_list1. rewrite Hp. cbn [mbind option_bind sep_tail].
  destruct Hr as [->|(r' & -> & ->)]; done.
Qed.

Lemma alt_skip {A} (p : parser A) ps s : p s = None → alt (p :: ps) s = alt ps s.
Proof. intros Hp. unfold alt. cbn [foldr]. unfold orelse at 1. by rewrite Hp. Qed.
Lemma alt_hit {A} (p : parser A) ps s x : p s = Some x → alt (p :: ps) s = Some x.
Proof. intros Hp. unfold alt. cbn [foldr]. unfold orelse at 1. by rewrite Hp. Qed.
Lemma alt_none {A} (ps : list (parser A)) s : Forall (λ p, p s = None) ps → alt ps s = None.
Proof. induction 1; [done|]. etrans; [by apply alt_skip|done]. Qed.

Lemma alphanumeric_not_space c : is_alphanumeric c = true → is_space c = false.
Proof. by destruct c as [[] [] [] [] [] [] [] []]. Qed.
Lemma nameserver_option s r g : stops is_space s = true → alphanumeric1 s = Some (r, g) →
  domain_option (String "-" ("nameserver " +:+ s)) = Some (r, Some (ONameserver g)).
Proof.
  intros Hsp Hs. unfold domain_option. do 2 rewrite alt_skip by reflexivity. apply alt_hit.
  assert (Ho : opt_value (orelse (tag_no_case "nameserver") (tag "n")) alphanumeric1 (String "-" ("nameserver " +:+ s)) =
    preceded option_sep alphanumeric1 (" " +:+ s)) by reflexivity.
  assert (Hone : space1 (" " +:+ s) = Some (s, " ")) by by apply (take1_app is_space " ").
  assert (Hsep : option_sep (" " +:+ s) = Some (s, ())).
  { unfold option_sep, orelse, value, pmap, pbind, opt. change (tag "=" (" " +:+ s)) with (@None (string * ())).
    change (char ":" (" " +:+ s)) with (@None (string * ascii)). cbn [mbind option_bind]. by rewrite Hone. }
  unfold pmap. rewrite Ho. unfold preceded. rewrite Hsep. cbn [mbind option_bind]. by rewrite Hs.
Qed.

Lemma dashes_none x s : x ≠ "-"%char → dashes (String x s) = None.
Proof. by destruct x as [[] [] [] [] [] [] [] []]. Qed.
Lemma no_option x s : x ≠ "-"%char → domain_option (String x s) = None.
Proof.
  intros Hx. apply alt_none.
  repeat (constructor; [unfold pmap, unknown_option, any_name, pbind, opt_value, opt_flag, value, preceded, pmap; by rewrite dashes_none|]).
  constructor.
Qed.

(** Options of [domain-rules] that are misread: the name of a server group ends at
    its first character that is neither a letter nor a digit, so queries go to
    another group, or to none, than the one named; and [-dualstack-ip-selection no]
    turns the selection on, as it is read as a flag - what follows it, with all
    further options, is dropped. *)
Theorem domain_rules_misread (d : Domain Name) (g rest value : string) (c x : ascii) : domain_ok d = true →
  all_chars is_alphanumeric g = true → g ≠ "" → is_alphanumeric c = false → is_space c = false →
  x ≠ "-"%char → is_space x = false →
  (∃ rule, parse_config ("domain-rules /" +:+ show_domain d +:+ "/ -nameserver " +:+ g +:+ String c rest) =
    Some (Some (DomainRule_ {| domain := d; DomainRule.config := rule |})) ∧ nameserver rule = Some g) ∧
  (∃ rule, parse_config ("domain-rules /" +:+ show_domain d +:+ "/ -dualstack-ip-selection " +:+ String x value) =
    Some (Some (DomainRule_ {| domain := d; DomainRule.config := rule |})) ∧ dualstack_ip_selection rule = Some true).
Proof.
  intros Hd Hg Hne Hc Hcs Hx Hxs. split; eexists.
  - change ("/ -nameserver " +:+ ?z) with ("/ -" +:+ "nameserver " +:+ z).
    rewrite (domain_rules_line d ("nameserver " +:+ g +:+ String c rest) (String c rest) [Some (ONameserver g)]); [done|done|].
    apply one_option; [|left; unfold space1; apply take1_stop; unfold stops; by rewrite Hcs].
    assert (Ht : alphanumeric1 (g +:+ String c rest) = Some (String c rest, g)).
    { apply (take1_app is_alphanumeric); [done..|unfold stops; by rewrite Hc]. }
    apply nameserver_option; [|done]. destruct g as [|x0 g]; [done|]. rewrite string_app_cons. cbn [all_chars] in Hg.
    apply andb_true_iff in Hg as [Hg _]. unfold stops. by rewrite alphanumeric_not_space.
  - change ("/ -dualstack-ip-selection " +:+ ?z) with ("/ -" +:+ "dualstack-ip-selection " +:+ z).
    rewrite (domain_rules_line d ("dualstack-ip-selection " +:+ String x value) (" " +:+ String x value) [Some (ODualstack true)]); [done|done|].
    apply one_option; [reflexivity|]. right. exists (String x value).
    split; [apply (take1_app is_space " "); [done..|unfold stops; by rewrite Hxs]|by apply no_option].
Qed.
End lines.

(** ** Concrete lines *)

Module Example.
Import ListName ConfigProps.Example DomainRule.Example SimpleUrl.

#[export] Instance foreign : ForeignValues name := {
  byte_from_str s := snd <$> u64_ s; pattern_from_str := Some;
  url_from_str s := if String.prefix "http" s then Some s else None;
  unicode_alphanumeric _ := None; proxy_from_str _ := None;
  https_new _ n _ := name_display n; srv_new _ _ _ := name_display; subnet_of _ := "0.0.0.0/0"; record_type_of := RT_Other }.

(** [cache-size 512n] sets 512; [serve-expired on] sets nothing. *)
Lemma settings_read_witness :
  decimal 512 = "512" ∧ parse_config "cache-size 512n" = Some (Some (CacheSize 512)) ∧
  parse_config "serve-expired on" = Some (@None (ConfigItem name)).
Proof.
  assert (H0 : (0 <= 512)%Z) by lia. assert (Hr : stops is_digit "n" = true) by reflexivity.
  assert (Hx : is_space "o" = false) by reflexivity.
  destruct (settings_read (Name := name) 512 "o" "n" H0 Hr Hx) as [Hn Hb]. split_and!.
  - reflexivity.
  - apply (Hn "cache-size" CacheSize). do 1 right. left.
  - apply (Hb "serve-expired" ServeExpired). do 24 right. left.
Defined.

(** Rules for [example.com]. *)
Lemma domain_rules_misread_witness :
  (∃ rule, parse_config "domain-rules /example.com/ -nameserver office-vpn" =
    Some (Some (DomainRule_ {| domain := DName (Default (["example"; "com"], false)); DomainRule.config := rule |})) ∧
    nameserver rule = Some "office") ∧
  (∃ rule, parse_config "domain-rules /example.com/ -dualstack-ip-selection no" =
    Some (Some (DomainRule_ {| domain := DName (Default (["example"; "com"], false)); DomainRule.config := rule |})) ∧
    dualstack_ip_selection rule = Some true).
Proof.
  assert (Hd : domain_ok (DName (Default (["example"; "com"], false))) = true) by reflexivity.
  assert (Hg : all_chars is_alphanumeric "office" = true) by reflexivity. assert (Hne : "office"%string ≠ "") by discriminate.
  assert (Hc : is_alphanumeric "-" = false) by reflexivity. assert (Hs : is_space "-" = false) by reflexivity.
  assert (Hx : "n"%char ≠ "-"%char) by discriminate. assert (Hxs : is_space "n" = false) by reflexivity.
  exact (domain_rules_misread _ "office" "vpn" "o" "-" "n" Hd Hg Hne Hc Hs Hx Hxs).
Defined.
End Example.
