(* ===== verification/ServerLine.v ===== *)
(** * Server lines

    What a line [server .. -option ..] of a configuration file sets
    (src/config/parser/nameserver.rs): the options given, the name and the address of the
    server; and an option that cannot be given. *)

From S2P Require Import Prelude Dns AuditLog IpSet DomainMap DomainRule Context DnsUrl DnsUrlProps UpstreamApi.
From S2P Require Import Nom NomProps ConfigText ConfigProps Text FileCache Hosts Paths ConfigItems ConfigValues ConfigLoad ConfigValueProps.
From Stdlib Require Import Ascii.

Section servers.
Context {Name : Type} `{!NameOps Name, NS : !NameSyntax Name}.
Context `{!Glob, RD : RuleData, FV : !ForeignValues Name, UC : !UrlCrate}.

(** ** What options set *)

Abbreviation option_list := (list (string * option string)).
Definition named (keys : list string) (kv : string * option string) : bool := bool_decide (text_lowercase (fst kv) ∈ keys).
(** Whether an option is given, its values, and the last of them. *)
Definition given (keys : list string) (l : option_list) : bool := existsb (named keys) l.
Definition values (keys : list string) (l : option_list) : list string := omap (λ kv, if named keys kv then snd kv else None) l.
Definition last_given (keys : list string) (l : option_list) (old : option string) : option string :=
  foldl (λ o kv, if named keys kv then snd kv else o) old l.

Definition is_excluded := given ["e"; "exclude-default-group"].
Definition unchecked := given ["k"; "no-check-certificate"].

(** What an option leaves as it was. *)
Record settings_of (l : option_list) (i j : NameServerInfo) : Prop := {
  so_group : i_group j = i_group i ++ values ["g"; "group"] l;
  so_exclude : i_exclude_default_group j = is_excluded l || i_exclude_default_group i;
  so_bootstrap : i_bootstrap_dns j = given ["b"; "bootstrap-dns"] l || i_bootstrap_dns i;
  so_blacklist : i_blacklist_ip j = given ["blacklist-ip"] l || i_blacklist_ip i;
  so_whitelist : i_whitelist_ip j = given ["whitelist-ip"] l || i_whitelist_ip i;
  so_edns : i_check_edns j = given ["check-edns"] l || i_check_edns i;
  so_proxy : i_proxy j = last_given ["p"; "proxy"] l (i_proxy i);
  so_interface : i_interface j = last_given ["interface"] l (i_interface i);
  so_proto : proto (i_server j) = proto (i_server i);
  so_port : du_port (i_server j) = du_port (i_server i);
  so_ip : DnsUrl.ip (i_server j) = DnsUrl.ip (i_server i);
  so_verify : ssl_verify (params (i_server j)) = negb (unchecked l) && ssl_verify (params (i_server i));
}.

(** The address parser does not panic on the subnet. *)
Definition no_panic (kv : string * option string) : Prop :=
  named ["subnet"] kv = true → ∀ s r, snd kv = Some s → parse_net s ≠ Some (r, None).
Definition valid_host (i : NameServerInfo) : Prop := ∀ a, host_ip (du_host (i_server i)) = Some a → ip_valid a = true.

Lemma set_host_valid h i : valid_host (with_server (set_host h) i).
Proof. by intros a. Qed.
Lemma ssl_verify_other k v p : k ≠ "ssl_verify" → ssl_verify (set_param k v p) = ssl_verify p.
Proof. intros Hk. unfold ssl_verify, get_param, set_param. by rewrite lookup_insert_ne. Qed.
Lemma ssl_verify_off p : ssl_verify (set_ssl_verify false p) = false.
Proof. unfold ssl_verify, get_param, set_ssl_verify, set_param. by rewrite lookup_insert_eq. Qed.
Lemma set_host_verify h u : ssl_verify (params (set_host h u)) = ssl_verify (params u).
Proof. unfold set_host. destruct (host_ip (du_host u)); cbn; [by rewrite ssl_verify_other|done]. Qed.
Lemma set_ip_ip a u : host_ip (du_host u) = Some a → DnsUrl.ip (set_ip a u) = DnsUrl.ip u.
Proof. intros E. unfold DnsUrl.ip. cbn [set_ip with_params du_host]. by rewrite E. Qed.
Lemma ip_other_param k v u : k ≠ "ip" → DnsUrl.ip (with_params (set_param k v) u) = DnsUrl.ip u.
Proof. intros Hk. unfold DnsUrl.ip, get_param, set_param. cbn. by rewrite lookup_insert_ne. Qed.

Lemma set_host_proto h u : proto (set_host h u) = proto u.
Proof. unfold set_host. by destruct (host_ip (du_host u)). Qed.
Lemma set_host_port h u : du_port (set_host h u) = du_port u.
Proof. unfold set_host. by destruct (host_ip (du_host u)). Qed.

(** One option, whose name is [k]. *)
Lemma named_key keys key v k : text_lowercase key = k → named keys (key, v) = bool_decide (k ∈ keys).
Proof. by intros <-. Qed.
Ltac settle Hk :=
  split; unfold is_excluded, unchecked, given, values, last_given;
  cbn [existsb omap list_omap foldl snd]; rewrite ?(named_key _ _ _ _ Hk); cbn -[set_host set_ip with_params DnsUrl.ip ssl_verify];
  rewrite ?orb_false_r, ?app_nil_r, ?andb_true_r, ?set_host_proto, ?set_host_port; try done.
Ltac is_key E := apply bool_decide_eq_true in E; rewrite ?elem_of_cons, elem_of_nil in E.
Lemma server_option_sets i kv : valid_host i → no_panic kv → ∃ j, server_option i kv = Some j ∧ settings_of [kv] i j ∧ valid_host j.
Proof.
  intros Hv Hp. unfold server_option. destruct kv as [key v]. cbn [fst snd].
  destruct (bool_decide (_ ∈ ["e"; _])) eqn:E1.
  { is_key E1. eexists. split; [reflexivity|]. split; [|done]. destruct E1 as [Hk|[Hk|[]]]; settle Hk. }
  destruct (bool_decide (_ ∈ ["blacklist-ip"])) eqn:E2.
  { is_key E2. eexists. split; [reflexivity|]. split; [|done]. destruct E2 as [Hk|[]]; settle Hk. }
  destruct (bool_decide (_ ∈ ["whitelist-ip"])) eqn:E3.
  { is_key E3. eexists. split; [reflexivity|]. split; [|done]. destruct E3 as [Hk|[]]; settle Hk. }
  destruct (bool_decide (_ ∈ ["check-edns"])) eqn:E4.
  { is_key E4. eexists. split; [reflexivity|]. split; [|done]. destruct E4 as [Hk|[]]; settle Hk. }
  destruct (bool_decide (_ ∈ ["b"; _])) eqn:E5.
  { is_key E5. eexists. split; [reflexivity|]. split; [|done]. destruct E5 as [Hk|[Hk|[]]]; settle Hk. }
  destruct (bool_decide (_ ∈ ["set-mark"])) eqn:E6.
  { is_key E6. eexists. split; [reflexivity|]. destruct v; (split; [|done]); destruct E6 as [Hk|[]]; settle Hk. }
  destruct (bool_decide (_ ∈ ["g"; _])) eqn:E7.
  { is_key E7. eexists. split; [reflexivity|]. destruct v; (split; [|done]); destruct E7 as [Hk|[Hk|[]]]; settle Hk. }
  destruct (bool_decide (_ ∈ ["p"; _])) eqn:E8.
  { is_key E8. eexists. split; [reflexivity|]. split; [|done]. destruct E8 as [Hk|[Hk|[]]]; settle Hk. }
  destruct (bool_decide (_ ∈ ["interface"])) eqn:E9.
  { is_key E9. eexists. split; [reflexivity|]. split; [|done]. destruct E9 as [Hk|[]]; settle Hk. }
  destruct (bool_decide (_ ∈ ["subnet"])) eqn:E10.
  { unfold no_panic, named in Hp. cbn [fst snd] in Hp. specialize (Hp E10). is_key E10. destruct E10 as [Hk|[]].
    destruct v as [t|]; [|eexists; split; [reflexivity|]; split; [settle Hk|done]].
    destruct (parse_net t) as [[r [n|]]|] eqn:En; [|by destruct (Hp t r)|]; eexists; (split; [reflexivity|]); (split; [settle Hk|done]). }
  destruct (bool_decide (_ ∈ ["host-name"])) eqn:E11.
  { is_key E11. eexists. split; [reflexivity|]. destruct E11 as [Hk|[]]. destruct v as [h|]; [|split; [settle Hk|done]].
    destruct (bool_decide (h = "-")); (split; [settle Hk|]); try done.
    - by apply ip_other_param.
    - by apply ssl_verify_other.
    - by apply set_host_ip.
    - apply set_host_verify. }
  destruct (bool_decide (_ ∈ ["k"; _])) eqn:E12.
  { is_key E12. eexists. split; [reflexivity|]. split; [|done]. destruct E12 as [Hk|[Hk|[]]]; settle Hk;
      try (by apply ip_other_param); apply ssl_verify_off. }
  destruct (bool_decide (_ ∈ ["tls-host-verify"])) eqn:E13.
  { is_key E13. eexists. split; [reflexivity|]. destruct E13 as [Hk|[]]. destruct v as [h|]; [|split; [settle Hk|done]].
    destruct (host_ip (du_host (i_server i))) as [a|] eqn:Ea; (split; [settle Hk|]); try done.
    - rewrite set_host_ip; [by apply set_ip_ip|]. intros b Hb. apply Hv. rewrite <-Hb. done.
    - rewrite set_host_verify. by apply ssl_verify_other. }
  eexists. split; [reflexivity|]. split; [|done].
  set (all := ["e"; "exclude-default-group"; "blacklist-ip"; "whitelist-ip"; "check-edns"; "b"; "bootstrap-dns"; "g"; "group";
    "p"; "proxy"; "interface"; "k"; "no-check-certificate"]).
  assert (Hall : text_lowercase key ∉ all).
  { repeat match goal with E : bool_decide (_ ∈ _) = false |- _ => rewrite bool_decide_eq_false in E; rewrite !not_elem_of_cons in E end.
    unfold all. rewrite !not_elem_of_cons.
    pose proof (not_elem_of_nil (text_lowercase key)). tauto. }
  assert (Hno : ∀ keys, forallb (λ x, bool_decide (x ∈ all)) keys = true → named keys (key, v) = false).
  { intros keys Hkeys. apply bool_decide_eq_false. cbn [fst]. intros Hin. apply Hall. rewrite forallb_forall in Hkeys.
    apply list_elem_of_In, Hkeys, bool_decide_eq_true in Hin. done. }
  split; unfold is_excluded, unchecked, given, values, last_given; cbn -[named DnsUrl.ip ssl_verify];
    rewrite ?Hno by reflexivity; rewrite ?app_nil_r; done.
Qed.

Lemma settings_cons kv l i j k : settings_of [kv] i j → settings_of l j k → settings_of (kv :: l) i k.
Proof.
  intros [] []. unfold is_excluded, unchecked, given, values, last_given in *.
  split; unfold is_excluded, unchecked, given, values, last_given; cbn -[named] in *; rewrite ?orb_false_r in *; try congruence;
    repeat match goal with E : _ = _ |- _ => rewrite E end; rewrite ?orb_assoc; try done.
  - rewrite <-app_assoc. f_equal. by destruct (if named _ kv then snd kv else None).
  - f_equal. apply orb_comm.
  - f_equal. apply orb_comm.
  - f_equal. apply orb_comm.
  - f_equal. apply orb_comm.
  - f_equal. apply orb_comm.
  - rewrite andb_assoc. f_equal. by rewrite negb_orb, andb_comm.
Qed.

Lemma settings_nil i : settings_of [] i i.
Proof. split; cbn; by rewrite ?app_nil_r. Qed.
Lemma options_fold l : Forall no_panic l → ∀ i, valid_host i →
  ∃ j, fold_left (λ i kv, i ≫= λ i, server_option i kv) l (Some i) = Some j ∧ settings_of l i j.
Proof.
  induction 1 as [|kv l Hkv Hl IH]; intros i Hi; [exists i; auto using settings_nil|].
  destruct (server_option_sets i kv Hi Hkv) as (j & Hj & Hij & Hvj). destruct (IH j Hvj) as (k & Hk & Hjk).
  exists k. cbn. rewrite Hj. split; [done|by eapply settings_cons].
Qed.

(** ** The text of options *)

Definition key_ok (k : string) : Prop :=
  ∃ c r, k = String c r ∧ is_alpha c = true ∧ all_chars (λ c, Ascii.eqb c "-" || is_alpha c || is_digit c) r = true.
Definition value_start (c : ascii) : bool := negb (in_set ("-_ " +:+ String "009" "#") c).
Definition value_ok (v : string) : Prop := ∃ c r, v = String c r ∧ value_start c = true ∧ all_chars printable v = true.
Definition option_ok (kv : string * option string) : Prop := key_ok (fst kv) ∧ ∀ v, snd kv = Some v → value_ok v.
Definition show_option (kv : string * option string) : string :=
  "-" +:+ fst kv +:+ match snd kv with Some v => " " +:+ v | None => "" end.

(** What follows an option: the end of the line or the next option. *)
Definition next_option (r : string) : Prop := r = "" ∨ ∃ r', r = " -" +:+ r'.
Context (space_not_alphanumeric : ∀ r, unicode_alphanumeric (String " " r) = None).

Lemma name_rest_app w r : all_chars (λ c, Ascii.eqb c "-" || is_alpha c || is_digit c) w = true →
  r = "" ∨ (∃ r', r = String " " r') → ∀ fuel, (String.length (w +:+ r) <= fuel)%nat → name_rest fuel (w +:+ r) = r.
Proof.
  intros Hw Hr. induction w as [|c w IH]; intros fuel Hf.
  - rewrite string_app_nil in *. destruct fuel, Hr as [->|[r' ->]]; try done; cbn in Hf; try lia. cbn. by rewrite space_not_alphanumeric.
  - rewrite string_app_cons in *. cbn [all_chars] in Hw. apply andb_true_iff in Hw as [Hc Hw]. cbn in Hf.
    destruct fuel as [|fuel]; [lia|]. cbn [name_rest]. rewrite Hc. apply IH; [done|]. lia.
Qed.
Lemma substring_app a r : String.substring 0 (String.length (a +:+ r) - String.length r) (a +:+ r) = a.
Proof.
  rewrite string_length_app. replace (_ + _ - _)%nat with (String.length a) by lia.
  induction a as [|c a IH]; [by destruct r|]. rewrite string_app_cons. cbn. by rewrite IH.
Qed.
Lemma recognize_app {A} (p : parser A) a r x : p (a +:+ r) = Some (r, x) → recognize p (a +:+ r) = Some (r, a).
Proof. intros Hp. unfold recognize. rewrite Hp. cbn. by rewrite substring_app. Qed.
Lemma next_option_start r : next_option r → r = "" ∨ (∃ r', r = String " " r').
Proof. intros [->|[r' ->]]; [by left|right]. by eexists. Qed.

Lemma span_pieces p s : ∃ a b, s = a +:+ b ∧ all_chars p a = true ∧ stops p b = true.
Proof. destruct (span p s) as [a b] eqn:E. exists a, b. by apply span_split. Qed.
Lemma any_name_show k r : key_ok k → r = "" ∨ (∃ r', r = String " " r') → any_name ("-" +:+ k +:+ r) = Some (r, k).
Proof.
  intros (c & w & -> & Hc & Hw) Hr. unfold any_name, preceded.
  assert (Hd : dashes ("-" +:+ String c w +:+ r) = Some (String c w +:+ r, "-")).
  { rewrite !string_app_cons, string_app_nil. by destruct c as [[] [] [] [] [] [] [] []]. }
  rewrite Hd. cbn [mbind option_bind]. apply (recognize_app _ _ _ ()).
  destruct (span_pieces is_alpha w) as (a & b & -> & Ha & Hb). unfold pbind, alpha1.
  rewrite <-string_app_cons, string_app_assoc, (take1_app is_alpha (String c a)).
  - cbn -[name_rest]. rewrite name_rest_app; [done| |done|done]. rewrite all_chars_app in Hw. by apply andb_true_iff in Hw as [_ ->].
  - cbn [all_chars]. by rewrite Hc.
  - done.
  - destruct b as [|x b]; [|done]. rewrite string_app_nil. by destruct Hr as [->|[r' ->]].
Qed.

Lemma word_span_app v r : all_chars printable v = true → r = "" ∨ (∃ r', r = String " " r') → word_span (v +:+ r) = (v, r).
Proof.
  intros Hv Hr. induction v as [|c v IH].
  - rewrite string_app_nil. by destruct Hr as [->|[r' ->]].
  - cbn [all_chars] in Hv. apply andb_true_iff in Hv as [Hc Hv]. rewrite string_app_cons. cbn [word_span].
    by rewrite white_printable, IH.
Qed.
Lemma unknown_value_show v r : value_ok v → r = "" ∨ (∃ r', r = String " " r') → unknown_value (" " +:+ v +:+ r) = Some (r, v).
Proof.
  intros (c & w & -> & Hc & Hv) Hr. unfold unknown_value, preceded.
  assert (Hs : option_sep (" " +:+ String c w +:+ r) = Some (String c w +:+ r, ())).
  { rewrite !string_app_cons, string_app_nil.
    assert (Hsp : space1 (String " " (String c (w +:+ r))) = Some (String c (w +:+ r), " ")).
    { apply (take1_app is_space " "); [done..|]. unfold stops. cbn [all_chars] in Hv. apply andb_true_iff in Hv as [Hp _].
      destruct c as [[] [] [] [] [] [] [] []]; try done; by vm_compute in Hp. }
    unfold option_sep, orelse. change (tag "=" (String " " _)) with (@None (string * ())). cbv iota.
    unfold value, pbind, pmap, opt. change (char ":" (String " " _)) with (@None (string * ascii)). cbv iota beta. cbn [mbind option_bind]. by rewrite Hsp. }
  rewrite Hs. cbn [mbind option_bind]. destruct (span_pieces value_start (String c w)) as (a & b & E & Ha & Hb).
  assert (Hne : a ≠ "") by (intros ->; rewrite string_app_nil in E; subst b; cbn in Hb; by rewrite Hc in Hb).
  rewrite E in *. rewrite all_chars_app in Hv. apply andb_true_iff in Hv as [_ Hvb].
  apply (recognize_app _ _ _ b). unfold pbind. rewrite string_app_assoc. unfold is_not. rewrite take1_app; [|done|done|].
  - cbn [mbind option_bind]. unfold take_word. by rewrite word_span_app.
  - destruct b as [|x b]; [|done]. rewrite string_app_nil. by destruct Hr as [->|[r' ->]].
Qed.

Lemma unknown_value_none r : next_option r → unknown_value r = None.
Proof.
  intros [->|[r' ->]]; [done|]. unfold unknown_value, preceded.
  assert (Hs : option_sep (" -" +:+ r') = Some (String "-" r', ())) by (rewrite !string_app_cons, string_app_nil; done).
  rewrite Hs. done.
Qed.
Lemma unknown_option_show kv r : option_ok kv → next_option r → unknown_option (show_option kv +:+ r) = Some (r, kv).
Proof.
  intros [Hk Hv] Hr. destruct kv as [k v]. unfold unknown_option, show_option, pbind. cbn [fst snd] in *. rewrite !string_app_assoc.
  pose proof (next_option_start r Hr) as Hr'. destruct v as [v|].
  - rewrite any_name_show; [|done|right; by eexists]. cbn [mbind option_bind]. unfold pmap, opt.
    rewrite string_app_assoc, unknown_value_show by auto. done.
  - rewrite string_app_nil. rewrite any_name_show by done. cbn [mbind option_bind]. unfold pmap, opt. by rewrite unknown_value_none.
Qed.

Lemma options_show kv l : Forall option_ok (kv :: l) → parse_options (join " " (map show_option (kv :: l))) = Some ("", kv :: l).
Proof.
  intros Hl. unfold parse_options, separated_list0.
  pose proof (separated_list1_show space1 unknown_option show_option " " option_ok next_option) as Hsep.
  rewrite <-(string_app_nil_r (join _ _)). rewrite Hsep; [done|..].
  - intros x r Hx Hr. by apply unknown_option_show.
  - intros x r Hx. exists " ". apply (take1_app is_space " "); [done..|]. done.
  - intros x r _. right. unfold show_option. rewrite !string_app_assoc. by eexists.
  - done.
  - split; [by left|done].
  - pose proof (join_length " " (map show_option (kv :: l)) ltac:(simpl; lia)) as Hlen. rewrite length_map in Hlen.
    rewrite string_length_app. cbn [length] in Hlen. lia.
Qed.

(** ** Lines *)

Definition server_keywords : list (string * string) :=
  [("server-udp", "udp"); ("server-tcp", "tcp"); ("server-tls", "tls"); ("server-https", "https"); ("server-h3", "h3");
   ("server-http3", "h3"); ("server-quic", "quic"); ("server", "udp")].
Definition show_options (l : option_list) : string := foldr (λ kv s, " " +:+ show_option kv +:+ s) "" l.
Lemma server_keywords_ok : Forall (λ x, bool_decide (fst x ∈ keywords) = true ∧ bool_decide (fst x = "group-end") = false ∧
  item_value (fst x) = pmap (fmap Server_) (server_value (snd x))) server_keywords.
Proof. repeat (constructor; [split_and!; reflexivity|]). constructor. Qed.

Lemma printable_not_space c : printable c = true → is_space c = false.
Proof. by destruct c as [[] [] [] [] [] [] [] []]. Qed.
Lemma show_options_join kv l : show_options (kv :: l) = " " +:+ join " " (map show_option (kv :: l)).
Proof. unfold show_options. cbn [foldr]. f_equal. rewrite <-(string_app_nil_r (join _ _)). symmetry. apply join_foldr. Qed.
Lemma server_value_show p url l u i : all_chars printable url = true → url ≠ "" → Forall option_ok l → read_dns_url p url = Some u →
  server_options l u = Some i → server_value p (url +:+ show_options l) = Some ("", Some i).
Proof.
  intros Hurl Hne Hl Hu Hi. unfold server_value, pbind, dns_url, pmap_opt, take_word1, verify, take_word.
  rewrite word_span_app; [|done|destruct l; [by left|right]; rewrite show_options_join; by eexists].
  cbn [mbind option_bind]. assert (Hn : non_empty url = true) by by apply negb_true_iff, bool_decide_eq_false.
  rewrite Hn. cbn [mbind option_bind]. rewrite Hu. unfold pmap, opt. destruct l as [|kv l].
  - change (preceded space1 parse_options (show_options [])) with (@None (string * option_list)).
    exact (f_equal (λ x, Some ("", x)) Hi).
  - rewrite show_options_join. unfold preceded.
    assert (Hs : space1 (" " +:+ join " " (map show_option (kv :: l))) = Some (join " " (map show_option (kv :: l)), " ")).
    { apply (take1_app is_space " "); [done..|]. rewrite <-(string_app_nil_r (join _ _)), join_foldr. done. }
    cbn [mbind option_bind]. rewrite Hs. cbn [mbind option_bind]. rewrite options_show by done. exact (f_equal (λ x, Some ("", x)) Hi).
Qed.

(** C11. A line of a server with options in any order, each name in any case: the server joins
    the groups of its [-g] options in their order, every flag is set exactly when its option
    is given, the proxy and the interface are those of the last such option, and neither
    [-host-name] nor [-tls-host-verify] changes the address, the port or the protocol of
    the server. *)
Theorem server_line kw p url l u : (kw, p) ∈ server_keywords → all_chars printable url = true → url ≠ "" →
  read_dns_url p url = Some u → valid_host (server_of u) → Forall option_ok l → Forall no_panic l →
  ∃ i, parse_config (kw +:+ " " +:+ url +:+ show_options l) = Some (Some (Server_ i)) ∧ settings_of l (server_of u) i.
Proof.
  intros Hkw Hurl Hne Hu Hv Hl Hp. destruct (options_fold l Hp (server_of u) Hv) as (i & Hi & Hs). exists i. split; [|done].
  pose proof server_keywords_ok as Hall. rewrite Forall_forall in Hall.
  destruct (Hall _ Hkw) as (H1%bool_decide_eq_true & H2%bool_decide_eq_false & H3). cbn [fst snd] in *.
  rewrite setting_line; [|done|done|].
  - rewrite H3. unfold pmap. by rewrite (server_value_show p url l u i).
  - destruct url as [|c url]; [done|]. rewrite string_app_cons. unfold stops. cbn [all_chars] in Hurl.
    apply andb_true_iff in Hurl as [Hc _]. by rewrite printable_not_space.
Qed.

(** ** [-host-name -] *)

(** No option has the value [-], so that a server line never turns the server name
    indication off: [sni] is the one of the address. *)
Lemma unknown_value_start s r v : unknown_value s = Some (r, v) → v ≠ "-".
Proof.
  unfold unknown_value, preceded. destruct (option_sep s) as [[s1 []]|]; [|done]. cbn [mbind option_bind].
  unfold recognize, pbind, is_not, take1. destruct s1 as [|c s1]; [done|]. cbn [span].
  destruct (negb (in_set ("-_ " +:+ String "009" "#") c)) eqn:Hc; [|by rewrite bool_decide_true]. destruct (span _ s1) as [a b]. cbn [mbind option_bind].
  rewrite bool_decide_false by done. cbn [mbind option_bind]. destruct (take_word b) as [[r' w]|]; [|done]. cbn [mbind option_bind].
  intros [= _ <-]. cbn -[Nat.sub]. destruct (S (String.length s1) - String.length r')%nat; [done|]. intros [= -> _]. by vm_compute in Hc.
Qed.
Lemma unknown_option_value s r k v : unknown_option s = Some (r, (k, Some v)) → v ≠ "-".
Proof.
  unfold unknown_option, pbind. destruct (any_name s) as [[s1 k1]|]; [|done]. cbn [mbind option_bind]. unfold pmap, opt.
  destruct (unknown_value s1) as [[s2 v2]|] eqn:E; cbn; intros [= ? ? ?]; subst. by eapply unknown_value_start.
Qed.
Lemma sep_tail_all {A B} (P : A → Prop) fuel (sep : parser B) (p : parser A) s :
  (∀ s r a, p s = Some (r, a) → P a) → Forall P (snd (sep_tail fuel sep p s)).
Proof.
  intros Hp. revert s. induction fuel as [|fuel IH]; intros s; [constructor|]. cbn.
  destruct (sep s) as [[s1 ?]|]; [|constructor]. destruct (p s1) as [[s2 a]|] eqn:E; [|constructor].
  specialize (IH s2). destruct (sep_tail fuel sep p s2). constructor; [by eapply Hp|done].
Qed.
Lemma parse_options_values s r l : parse_options s = Some (r, l) → Forall (λ kv, snd kv ≠ Some "-") l.
Proof.
  assert (Hp : ∀ s r kv, unknown_option s = Some (r, kv) → snd kv ≠ Some "-").
  { intros s' r' [k [v|]] Hu; [|done]. cbn. intros [= ->]. by eapply unknown_option_value in Hu. }
  unfold parse_options, separated_list0, separated_list1. destruct (unknown_option s) as [[s1 kv]|] eqn:E; cbn [mbind option_bind].
  - pose proof (sep_tail_all _ (S (String.length s)) space1 unknown_option s1 Hp) as Ht.
    destruct (sep_tail _ _ _ _). intros [= <- <-]. constructor; [by eapply Hp|done].
  - intros [= <- <-]. constructor.
Qed.

Definition sni_of (i : NameServerInfo) : option string := params (i_server i) !! "sni".
Lemma sni_set_host h u : params (set_host h u) !! "sni" = params u !! "sni".
Proof. unfold set_host. destruct (host_ip (du_host u)); [|done]. cbn. unfold set_param. by rewrite lookup_insert_ne. Qed.
Lemma server_option_sni i kv j : snd kv ≠ Some "-" → server_option i kv = Some j → sni_of j = sni_of i.
Proof.
  intros Hv. destruct kv as [k v]. cbn [snd] in Hv. unfold server_option, sni_of. cbn [fst snd]. repeat case_match; intros [= <-]; try done;
    cbn -[set_host]; rewrite ?sni_set_host; cbn; unfold set_sni_off, set_ssl_verify, set_param; rewrite ?lookup_insert_ne; try done.
  exfalso. apply Hv. by rewrite bool_decide_eq_true in *; subst.
Qed.

Theorem sni_never_turned_off p s r i : server_value p s = Some (r, Some i) →
  ∃ w u, take_word1 s = Some w ∧ read_dns_url p (snd w) = Some u ∧ params (i_server i) !! "sni" = params u !! "sni".
Proof.
  unfold server_value, pbind, dns_url, pmap_opt. destruct (take_word1 s) as [[s1 w]|]; [|done]. cbn [mbind option_bind].
  destruct (read_dns_url p w) as [u|] eqn:Hu; [|done]. cbn [mbind option_bind]. unfold pmap, opt.
  intros Hi. exists (s1, w), u. split; [done|]. split; [done|].
  assert (∃ l, Forall (λ kv, snd kv ≠ Some "-") l ∧ server_options l u = Some i) as (l & Hl & Hf).
  { destruct (preceded space1 parse_options s1) as [[s2 l]|] eqn:El; cbn in Hi; injection Hi as _ Hi.
    - exists l. split; [|done]. unfold preceded in El. destruct (space1 s1) as [[s3 ?]|]; [|done]. by eapply parse_options_values.
    - exists []. split; [constructor|]. cbn. congruence. }
  unfold server_options in Hf. change (params u !! "sni") with (sni_of (server_of u)). change (_ !! "sni") with (sni_of i) at 1.
  clear Hi Hu. revert Hf. generalize (server_of u). induction Hl as [|kv l Hkv Hl IH]; intros j; cbn; [by intros [= ->]|].
  destruct (server_option j kv) as [k|] eqn:Ek.
  - intros Hf. rewrite (IH k Hf). by eapply server_option_sni.
  - intros Hf. exfalso. clear -Hf. induction l; [done|]. by apply IHl.
Qed.
End servers.

(** ** Concrete lines *)

Module Example.
Import ListName ConfigProps.Example DomainRule.Example ConfigValueProps.Example SimpleUrl.

Lemma server_line_witness :
  ∃ i, parse_config "server-tls 1.1.1.1 -Host-Name cloudflare-dns.com -g secure -E -k" = Some (Some (@Server_ name _ i)) ∧
    i_group i = ["secure"] ∧ i_exclude_default_group i = true ∧ DnsUrl.ip (i_server i) = Some (IPv4 16843009) ∧
    ssl_verify (params (i_server i)) = false.
Proof.
  set (u := {| du_name := "1.1.1.1"; proto := CTls; du_host := HIpv4 16843009; du_port := None; params := ∅; options := ∅ |}).
  set (l := [("Host-Name", Some "cloudflare-dns.com"); ("g", Some "secure"); ("E", None); ("k", None)]).
  assert (Hkw : ("server-tls", "tls") ∈ server_keywords) by (unfold server_keywords; set_solver).
  assert (Hu : read_dns_url "tls" "1.1.1.1" = Some u) by (vm_compute; reflexivity).
  assert (Hv : valid_host (server_of u)) by (intros a [= <-]; reflexivity).
  assert (Hsp : ∀ r, unicode_alphanumeric (Name := name) (String " " r) = None) by done.
  assert (Hl : Forall option_ok l).
  { repeat constructor; cbn; try (by intros); try (eexists _, _; split_and!; vm_compute; reflexivity).
    all: intros v [= <-]; eexists _, _; split_and!; vm_compute; reflexivity. }
  assert (Hp : Forall no_panic l) by (repeat constructor; intros Hn; vm_compute in Hn; discriminate).
  destruct (server_line (Name := name) Hsp "server-tls" "tls" "1.1.1.1" l u Hkw eq_refl ltac:(done) Hu Hv Hl Hp) as (i & Hi & [Hg He _ _ _ _ _ _ _ _ Hip Hver]).
  exists i. split; [exact Hi|]. rewrite Hg, He, Hip, Hver. split_and!; vm_compute; reflexivity.
Defined.

(** [-host-name -] is read as an option without a value. *)
Lemma sni_never_turned_off_witness :
  ∃ r i w u, server_value (Name := name) "tls" "1.1.1.1 -host-name -" = Some (r, Some i) ∧ take_word1 "1.1.1.1 -host-name -" = Some w ∧
    read_dns_url "tls" (snd w) = Some u ∧ params (i_server i) !! "sni" = params u !! "sni" ∧ sni_off (params (i_server i)) = false.
Proof.
  set (u := {| du_name := "1.1.1.1"; proto := CTls; du_host := HIpv4 16843009; du_port := None; params := ∅; options := ∅ |}).
  assert (H : server_value (Name := name) "tls" "1.1.1.1 -host-name -" = Some (" -", Some (server_of u))) by (vm_compute; reflexivity).
  destruct (sni_never_turned_off (Name := name) "tls" "1.1.1.1 -host-name -" " -" (server_of u) H) as (w & u' & H1 & H2 & H3).
  exists " -", (server_of u), w, u'. split_and!; [exact H|exact H1|exact H2|exact H3|vm_compute; reflexivity].
Defined.
End Example.
