(* ===== verification/ConfigLoadProps.v ===== *)
(** * Properties of configuration loading

    What reaches which rule group, which listeners remain, when loading returns, and
    what no configuration can set. *)

From S2P Require Import Prelude Dns AuditLog IpSet DomainMap DomainRule Context DnsUrl UpstreamApi.
From S2P Require Import Nom NomProps ConfigText ConfigProps Text FileCache Hosts Paths ConfigItems ConfigValues ConfigLoad ConfigValueProps.

(** ** Listeners *)

(** What a listener occupies: an address and port of one of the two transports. *)
Definition occupies (l : BindAddrConfig) : bool * SocketAddr := (over_udp l, sock_addr l).

(** The listeners without those that a later one replaces. *)
Fixpoint keep_last (l : list BindAddrConfig) : list BindAddrConfig :=
  match l with
  | [] => []
  | x :: l => if bool_decide (occupies x ∈ map occupies l) then keep_last l else x :: keep_last l
  end.

Lemma occupies_eq x y : occupies x = occupies y ↔ over_udp x = over_udp y ∧ sock_addr x = sock_addr y.
Proof. apply pair_eq. Qed.

Lemma if_decide_ext {A} (P Q : Prop) `{Decision P, Decision Q} (a b : A) : (P ↔ Q) →
  (if bool_decide P then a else b) = (if bool_decide Q then a else b).
Proof. intros HPQ. by rewrite (bool_decide_ext P Q HPQ). Qed.

Lemma duplicates_snoc udp tcp ls i x :
  duplicates udp tcp (ls ++ [(i, x)]) = duplicates udp tcp ls ++
    (if bool_decide (sock_addr x ∈ (if over_udp x then udp else tcp) ∨ occupies x ∈ map (occupies ∘ snd) ls) then [i] else []).
Proof.
  revert udp tcp. induction ls as [|[j y] ls IH]; intros udp tcp; cbn [duplicates app map].
  - destruct (over_udp x); repeat case_bool_decide; try done; set_solver.
  - assert (Hin : occupies x ∈ (occupies ∘ snd) (j, y) :: map (occupies ∘ snd) ls ↔
      over_udp x = over_udp y ∧ sock_addr x = sock_addr y ∨ occupies x ∈ map (occupies ∘ snd) ls).
    { rewrite elem_of_cons. cbn. by rewrite occupies_eq. }
    rewrite (bool_decide_ext _ _ (or_iff_compat_l _ Hin)).
    destruct (over_udp y) eqn:Ey; case_bool_decide as Hy; rewrite IH; cbn [app]; repeat f_equal;
      apply if_decide_ext; clear -Hy; destruct (over_udp x); rewrite ?elem_of_cons;
      generalize (occupies x ∈ map (occupies ∘ snd) ls) as O; intros O; split; intros;
      destruct_or?; destruct_and?; auto; try congruence; left; by match goal with E : sock_addr x = _ |- _ => rewrite E end.
Qed.

Lemma dedup_suffix pre l :
  foldl (λ l idx, delete idx l) (pre ++ l) (duplicates [] [] (rev (imap (λ i, pair (length pre + i)) l))) = pre ++ keep_last l.
Proof.
  revert pre. induction l as [|x l IH]; intros pre; [done|]. cbn [imap rev keep_last].
  rewrite duplicates_snoc, foldl_app. rewrite Nat.add_0_r.
  replace (imap ((λ i, pair (length pre + i)) ∘ S) l) with (imap (λ i, pair (length (pre ++ [x]) + i)) l).
  2: { apply imap_ext. intros i y _. cbn. rewrite length_app. cbn. f_equal. lia. }
  replace (pre ++ x :: l) with ((pre ++ [x]) ++ l) by by rewrite <- app_assoc. rewrite IH.
  rewrite map_rev, <- app_assoc. cbn [app].
  assert (Hsnd : map (occupies ∘ snd) (imap (λ i, pair (length (pre ++ [x]) + i)) l) = map occupies l).
  { transitivity (map occupies (map snd (imap (λ i, pair (length (pre ++ [x]) + i)) l))); [by rewrite map_map|]. f_equal. clear. generalize (length (pre ++ [x])) as n.
    induction l as [|y l IH]; intros n; [done|]. cbn. f_equal.
    transitivity (map snd (imap (λ i, pair (S n + i)) l)); [|apply IH].
    f_equal. apply imap_ext. intros i z _. cbn. f_equal. lia. }
  rewrite Hsnd. rewrite (bool_decide_ext _ (occupies x ∈ map occupies l)).
  2: { rewrite !list_elem_of_In, <- in_rev. destruct (over_udp x); cbn; tauto. }
  case_bool_decide; cbn; [|done]. clear. by rewrite delete_middle.
Qed.

Lemma dedup_binds_keep_last l : dedup_binds l = keep_last l.
Proof. unfold dedup_binds. exact (dedup_suffix [] l). Qed.

Lemma keep_last_incl l : sublist (keep_last l) l.
Proof. induction l as [|x l IH]; cbn; [done|]. case_bool_decide; by constructor. Qed.

Lemma keep_last_unique l : NoDup (map occupies (keep_last l)).
Proof.
  induction l as [|x l IH]; cbn; [constructor|]. case_bool_decide as Hx; [done|]. cbn. constructor; [|done].
  intros Hin. apply Hx. apply list_elem_of_fmap in Hin as (y & Hy & Hin). rewrite Hy. apply list_elem_of_fmap_2.
  eapply elem_of_submseteq; [exact Hin|]. apply sublist_submseteq, keep_last_incl.
Qed.

Lemma keep_last_last pre y post : occupies y ∉ map occupies post → y ∈ keep_last (pre ++ y :: post).
Proof.
  intros Hy. induction pre as [|x pre IH]; cbn.
  - rewrite bool_decide_false by done. by left.
  - case_bool_decide; [done|by right].
Qed.

Section binds.
Context `{PE : ProcessEnv}.

(** The listeners as they are configured: one on the default port if there is none,
    with the addresses of their devices. *)
Definition configured_binds (l : list BindAddrConfig) : list BindAddrConfig :=
  let l := match l with [] => [bind_default] | _ => l end in
  match interfaces with Some netifas => map (find_device_address netifas) l | None => l end.

(** C12. Listeners never collide: whatever is configured, no two of the listeners the
    server starts have the same address, port and transport; they are some of the
    configured ones in their order; and for every configured one, the last that has
    its address is started - so there is always a listener. *)
Theorem listeners_unique (l : list BindAddrConfig) :
  let r := build_binds l in
  NoDup (map occupies r) ∧ sublist r (configured_binds l) ∧ r ≠ [] ∧
  ∀ pre y post, configured_binds l = pre ++ y :: post → occupies y ∉ map occupies post → y ∈ r.
Proof.
  assert (Hr : build_binds l = keep_last (configured_binds l)) by apply dedup_binds_keep_last.
  cbv zeta. rewrite Hr. split_and!.
  - apply keep_last_unique.
  - apply keep_last_incl.
  - assert (Hne : configured_binds l ≠ []).
    { unfold configured_binds. destruct l, interfaces; done. }
    destruct (configured_binds l) as [|y post _] using rev_ind; [done|].
    intros E. pose proof (keep_last_last post y [] ltac:(set_solver)) as Hin. rewrite E in Hin. by apply elem_of_nil in Hin.
  - intros pre y post E Hy. rewrite E. by apply keep_last_last.
Qed.
End binds.

(** ** Rule groups *)

Section groups.
Context {Name FS : Type} `{!NameOps Name, NS : !NameSyntax Name, !Glob, !HashCode Name, RD : RuleData, NO : NetOps, RM : RangeMaps}.
Context `{FL : !Files FS, DI : !Dirs FS, PE : ProcessEnv, IV : !ItemValues Name, UC : !UrlCrate, HR : !HashRule Name}.
Context (dir_order : list string → list string) (fs : FS).
Abbreviation RuleGroup := (RuleGroup Name).
Abbreviation item := (ConfigItem Name).
Implicit Types g : RuleGroup.

(** Groups with the same rules, in some order. *)
Definition group_perm (g1 g2 : RuleGroup) : Prop :=
  forward_rules g1 ≡ₚ forward_rules g2 ∧ address_rules g1 ≡ₚ address_rules g2 ∧ domain_rules g1 ≡ₚ domain_rules g2 ∧
  cnames g1 ≡ₚ cnames g2 ∧ srv_records g1 ≡ₚ srv_records g2 ∧ https_records g1 ≡ₚ https_records g2 ∧
  txt_records g1 ≡ₚ txt_records g2 ∧ ipset_rules g1 ≡ₚ ipset_rules g2.

#[export] Instance group_perm_equiv : Equivalence group_perm.
Proof.
  unfold group_perm. split.
  - intros g. by split_and!.
  - intros g1 g2 (?&?&?&?&?&?&?&?). split_and!; by symmetry.
  - intros g1 g2 g3 (?&?&?&?&?&?&?&?) (?&?&?&?&?&?&?&?). split_and!; by etrans.
Qed.
#[export] Instance merge_proper : Proper (group_perm ==> group_perm ==> group_perm) (merge (Name := Name)).
Proof. intros g1 g2 (?&?&?&?&?&?&?&?) h1 h2 (?&?&?&?&?&?&?&?). unfold group_perm; cbn. split_and!; by apply Permutation_app. Qed.

Lemma group_ext g1 g2 :
  forward_rules g1 = forward_rules g2 → address_rules g1 = address_rules g2 → domain_rules g1 = domain_rules g2 →
  cnames g1 = cnames g2 → srv_records g1 = srv_records g2 → https_records g1 = https_records g2 →
  txt_records g1 = txt_records g2 → ipset_rules g1 = ipset_rules g2 → g1 = g2.
Proof. destruct g1, g2; cbn. congruence. Qed.

Lemma merge_assoc g1 g2 g3 : merge g1 (merge g2 g3) = merge (merge g1 g2) g3.
Proof. apply group_ext; cbn; apply app_assoc. Qed.
Lemma merge_comm g1 g2 : group_perm (merge g1 g2) (merge g2 g1).
Proof. unfold group_perm; cbn. split_and!; apply Permutation_app_comm. Qed.
Lemma merge_empty_l g : merge group_empty g = g.
Proof. by apply group_ext. Qed.
Lemma merge_empty_r g : merge g group_empty = g.
Proof. apply group_ext; cbn; apply app_nil_r. Qed.

(** What a line adds to the group it stands in. *)
Definition rules_of (i : item) : RuleGroup :=
  match i with
  | ForwardRule_ v => push_forward v group_empty
  | GroupMatch_ v => foldr (λ d, merge (push_forward {| domain := d; DomainRule.config := gm_group v |} group_empty)) group_empty (gm_domains v)
  | Address_ v => push_address v group_empty
  | DomainRule_ v => push_domain_rule v group_empty
  | CNAME_ v => push_cname v group_empty
  | SrvRecord v => push_srv_rule v group_empty
  | HttpsRecord v => push_https_rule v group_empty
  | TxtRecord v => push_txt_rule v group_empty
  | IpSet_ v => push_ipset_rule v group_empty
  | _ => group_empty
  end.

(** The rules that lines put into group [name], when the groups [open_] are open, the
    innermost first; outside all groups it is the default group. *)
Definition opened (open_ : list string) : list string := match open_ with [] => [DEFAULT_GROUP] | _ => open_ end.
Fixpoint attributed (open_ : list string) (name : string) (its : list (option item)) : RuleGroup :=
  match its with
  | [] => group_empty
  | None :: its => attributed (opened open_) name its
  | Some (GroupBegin v) :: its => attributed (v :: opened open_) name its
  | Some GroupEnd :: its => attributed (tail (opened open_)) name its
  | Some i :: its =>
      merge (if bool_decide (head (opened open_) = Some name) then rules_of i else group_empty)
        (attributed (opened open_) name its)
  end.

(** No group is opened inside one of its name. *)
Fixpoint nested_apart (open_ : list string) (its : list (option item)) : Prop :=
  match its with
  | [] => True
  | Some (GroupBegin v) :: its => v ∉ opened open_ ∧ nested_apart (v :: opened open_) its
  | Some GroupEnd :: its => nested_apart (tail (opened open_)) its
  | _ :: its => nested_apart (opened open_) its
  end.

(** *** One line *)

(** The groups of a builder: those closed, and the open ones. *)
Definition Groups : Type := gmap string RuleGroup * list (string * RuleGroup).
Definition groups_of (b : Builder Name) : Groups := (bgroups b, rule_group_stack b).
Definition step_groups (i : item) (st : Groups) : Groups :=
  match i with
  | GroupBegin v => (fst st, (v, group_empty) :: snd st)
  | GroupEnd => match snd st with (n, g) :: s => (merge_into n g (fst st), s) | [] => st end
  | _ => match snd st with (n, g) :: s => (fst st, (n, merge g (rules_of i)) :: s) | [] => st end
  end.
Definition ensured (st : Groups) : Groups :=
  match snd st with [] => (fst st, [(DEFAULT_GROUP, group_empty)]) | _ => st end.

(** Lines that do not include files and whose own file, if any, can be read without
    a panic. *)
Definition harmless (i : item) : Prop :=
  match i with
  | ConfFile _ => False
  | IpSetProvider_ p =>
      ∀ base text, read_to_string fs (resolve_filepath fs base (ips_file p)) = Some text → is_Some (parse_ip_set_file text)
  | _ => True
  end.

Lemma push_forwards v (ds : list (Domain Name)) g :
  foldl (λ g d, push_forward {| domain := d; DomainRule.config := v |} g) g ds =
  merge g (foldr (λ d, merge (push_forward {| domain := d; DomainRule.config := v |} group_empty)) group_empty ds).
Proof.
  revert g. induction ds as [|d ds IH]; intros g; cbn; [by rewrite merge_empty_r|].
  rewrite IH, merge_assoc. f_equal. apply group_ext; cbn; by rewrite ?app_nil_r.
Qed.

Lemma apply_item_groups load i b : harmless i →
  ∃ b', apply_item dir_order fs load i b = Returns b' ∧ groups_of b' = step_groups i (groups_of b) ∧
        loaded_files b' = loaded_files b.
Proof.
  unfold groups_of, step_groups. intros Hi.
  destruct i; try done; cbn [apply_item];
    try (eexists; split_and!; [reflexivity| |reflexivity]; cbn;
         by (destruct (rule_group_stack b) as [|[n g] s]; [|rewrite merge_empty_r])).
  all: try (eexists; split; [reflexivity|]; unfold on_top, pop_group; destruct (rule_group_stack b) as [|[n g] s] eqn:E;
    cbn; rewrite ?E; split; try done; repeat f_equal; by (apply group_ext; cbn; rewrite ?app_nil_r)).
  - eexists. split; [reflexivity|]. unfold on_top. destruct (rule_group_stack b) as [|[n g] s] eqn:E; cbn; rewrite ?E; [done|].
    split; [|done]. by rewrite push_forwards.
  - cbn in Hi. destruct (read_to_string fs _) as [text|] eqn:E.
    + destruct (Hi _ _ E) as [nets ->]. eexists. split; [reflexivity|]. cbn.
      destruct (rule_group_stack b) as [|[n g] s]; [done|]. by rewrite merge_empty_r.
    + eexists. split; [reflexivity|]. cbn. destruct (rule_group_stack b) as [|[n g] s]; [done|]. by rewrite merge_empty_r.
Qed.

(** *** The rules of a group, closed and open *)

Definition open_rules (name : string) (s : list (string * RuleGroup)) : RuleGroup :=
  foldr (λ '(n, g) acc, if bool_decide (n = name) then merge g acc else acc) group_empty s.
Lemma open_rules_cons name n g s :
  open_rules name ((n, g) :: s) = if bool_decide (n = name) then merge g (open_rules name s) else open_rules name s.
Proof. done. Qed.
Definition total (name : string) (st : Groups) : RuleGroup :=
  merge (default group_empty (fst st !! name)) (open_rules name (snd st)).
Abbreviation open_names st := (map fst (snd (st : Groups))).

Lemma merge_into_total name n g m s :
  total name (merge_into n g m, s) = total name (m, (n, g) :: s).
Proof.
  unfold total, merge_into; cbn. case_bool_decide as E; [subst n; by rewrite lookup_insert_eq, merge_assoc|].
  by rewrite lookup_insert_ne.
Qed.

Lemma close_groups_total name (b : Builder Name) :
  default group_empty (close_groups b !! name) = total name (groups_of b).
Proof.
  unfold close_groups, groups_of. generalize (bgroups b) as m. induction (rule_group_stack b) as [|[n g] s IH]; intros m; cbn.
  - unfold total; cbn. by rewrite merge_empty_r.
  - rewrite IH. apply merge_into_total.
Qed.

Lemma open_rules_none name s : name ∉ map fst s → open_rules name s = group_empty.
Proof. induction s as [|[n g] s IH]; cbn; [done|]. intros Hn. rewrite bool_decide_false by set_solver. apply IH. set_solver. Qed.

Lemma ensured_total name st : total name (ensured st) = total name st ∧ open_names (ensured st) = opened (open_names st).
Proof.
  destruct st as [m [|[n g] s]]; unfold ensured, total; cbn; [|done]. split; [|done]. by case_bool_decide.
Qed.

(** The names of the open groups after a line. *)
Definition step_open (i : item) (open_ : list string) : list string :=
  match i with GroupBegin v => v :: open_ | GroupEnd => tail open_ | _ => open_ end.

Lemma step_open_names i st : open_names (step_groups i st) = step_open i (open_names st).
Proof. destruct st as [m [|[n g] s]]; by destruct i. Qed.

Lemma step_total name i st : snd st ≠ [] →
  let added := if bool_decide (head (open_names st) = Some name) then rules_of i else group_empty in
  group_perm (total name (step_groups i st)) (merge (total name st) added) ∧
  (NoDup (open_names st) → total name (step_groups i st) = merge (total name st) added).
Proof.
  destruct st as [m [|[n g] s]]; [done|intros _; cbn [snd fst map head]].
  assert (Hbe : step_groups i (m, (n, g) :: s) = (m, (n, merge g (rules_of i)) :: s) ∨
    rules_of i = group_empty ∧ total name (step_groups i (m, (n, g) :: s)) = total name (m, (n, g) :: s)).
  { destruct i; try (by left); right; split; try done; [|apply merge_into_total].
    unfold total; cbn. by destruct (bool_decide (_ = name)) at 1. }
  destruct Hbe as [->|[Hr ->]].
  - unfold total. cbn [fst snd]. rewrite !open_rules_cons. destruct (decide (n = name)) as [->|Hn].
    + rewrite !bool_decide_true by done. rewrite <- !merge_assoc. split.
      * do 2 (apply merge_proper; [done|]). apply merge_comm.
      * intros Hd. apply NoDup_cons_1_1 in Hd. rewrite open_rules_none by done. by rewrite merge_empty_l, merge_empty_r.
    + rewrite !bool_decide_false by congruence. by rewrite !merge_empty_r.
  - rewrite Hr. cbv zeta. assert (Hif : (if bool_decide (Some n = Some name) then group_empty else group_empty) = group_empty :> RuleGroup)
      by by case_bool_decide. by rewrite Hif, merge_empty_r.
Qed.

(** *** Any number of lines *)

Fixpoint run_groups (its : list (option item)) (st : Groups) : Groups :=
  match its with
  | [] => st
  | None :: its => run_groups its (ensured st)
  | Some i :: its => run_groups its (step_groups i (ensured st))
  end.

Lemma attributed_step open_ name i its :
  attributed open_ name (Some i :: its) =
  merge (if bool_decide (head (opened open_) = Some name) then rules_of i else group_empty)
    (attributed (step_open i (opened open_)) name its).
Proof. destruct i; try done; cbn; case_bool_decide; by rewrite merge_empty_l. Qed.

Lemma nested_apart_step open_ i its : NoDup (opened open_) → nested_apart open_ (Some i :: its) →
  NoDup (step_open i (opened open_)) ∧ nested_apart (step_open i (opened open_)) its.
Proof.
  intros Hd. destruct i; try done; cbn; [intros []; split; [by constructor|done]|].
  intros ?. split; [|done]. destruct (opened open_); [done|]. by apply NoDup_cons_1_2 in Hd.
Qed.

Lemma opened_nodup open_ : NoDup open_ → NoDup (opened open_).
Proof. intros. destruct open_; [apply NoDup_singleton|done]. Qed.

Lemma run_total name its st :
  group_perm (total name (run_groups its st)) (merge (total name st) (attributed (open_names st) name its)) ∧
  (NoDup (open_names st) → nested_apart (open_names st) its →
   total name (run_groups its st) = merge (total name st) (attributed (open_names st) name its)).
Proof.
  revert st. induction its as [|[i|] its IH]; intros st; cbn [run_groups].
  - cbn. by rewrite merge_empty_r.
  - destruct (ensured_total name st) as [Ht Hn].
    destruct (step_total name i (ensured st)) as [Hp He]; [by destruct st as [? []]|].
    destruct (IH (step_groups i (ensured st))) as [IHp IHe]. rewrite step_open_names, Hn in IHp, IHe.
    rewrite attributed_step, <- Ht, <- Hn, merge_assoc. split.
    + rewrite IHp. by apply merge_proper; [|rewrite Hn].
    + intros Hd Hna. destruct (nested_apart_step _ _ _ (opened_nodup _ Hd) Hna) as [Hd' Hna'].
      rewrite (IHe Hd' Hna'), He, Hn; [done|]. rewrite Hn. by apply opened_nodup.
  - destruct (ensured_total name st) as [Ht Hn]. destruct (IH (ensured st)) as [IHp IHe].
    cbn [attributed nested_apart]. rewrite Hn in IHp, IHe. rewrite Ht in IHp, IHe. split; [done|].
    intros Hd Hna. apply IHe; [by apply opened_nodup|done].
Qed.

Lemma config_groups load b line i : parse_config line = Some i → (∀ j, i = Some j → harmless j) →
  ∃ b', config dir_order fs load b line = Returns b' ∧ groups_of b' = run_groups [i] (groups_of b) ∧
        loaded_files b' = loaded_files b.
Proof.
  intros Hp Hi. unfold config. rewrite Hp.
  assert (He : groups_of (ensure_group b) = ensured (groups_of b) ∧ loaded_files (ensure_group b) = loaded_files b).
  { unfold ensure_group, groups_of, ensured. cbn. by destruct (rule_group_stack b) eqn:E; cbn; rewrite ?E. }
  destruct He as [He Hl]. destruct i as [j|].
  - destruct (apply_item_groups load j (ensure_group b) (Hi j eq_refl)) as (b' & H1 & H2 & H3).
    exists b'. rewrite H1, H2, H3, He, Hl. done.
  - by exists (ensure_group b).
Qed.

Lemma config_lines_groups load b ls its : mapM parse_config ls = Some its → Forall harmless (omap id its) →
  ∃ b', config_lines dir_order fs load b ls = Returns b' ∧ groups_of b' = run_groups its (groups_of b) ∧
        loaded_files b' = loaded_files b.
Proof.
  revert b its. induction ls as [|l ls IH]; intros b its Hp Hh.
  - injection Hp as <-. by exists b.
  - cbn in Hp. apply bind_Some in Hp as (i & Hl & Hp). apply bind_Some in Hp as (its' & Hls & Hp). injection Hp as <-.
    destruct (config_groups load b l i Hl) as (b1 & H1 & H2 & H3).
    { intros j ->. cbn in Hh. by apply Forall_inv in Hh. }
    destruct (IH b1 its' Hls) as (b2 & H4 & H5 & H6).
    { destruct i; cbn in Hh; [by apply Forall_inv_tail in Hh|done]. }
    exists b2. cbn [config_lines]. rewrite H1. cbn [obind]. split; [done|]. split; [|congruence].
    rewrite H5, H2. destruct i as [j|]; reflexivity.
Qed.

(** The rules of the groups after some lines. *)
Lemma closed_rules (b : Builder Name) its name : groups_of b = run_groups its (groups_of builder) →
  group_perm (default group_empty (close_groups b !! name)) (attributed [] name its) ∧
  (nested_apart [] its → default group_empty (close_groups b !! name) = attributed [] name its).
Proof.
  intros Hb. rewrite close_groups_total, Hb.
  destruct (run_total name its (groups_of builder)) as [Hperm Heq]. cbn in Hperm, Heq.
  assert (Hz : ∀ g, merge (total name (∅, [])) g = g).
  { intros g. unfold total. cbn. rewrite lookup_empty. cbn. apply merge_empty_l. }
  unfold groups_of in *. cbn in *. rewrite Hz in Hperm, Heq. split; [done|].
  intros Hna. apply Heq; [constructor|done].
Qed.

(** A line leaves a group behind, the default one at least. *)
Lemma closed_some (b : Builder Name) its : groups_of b = run_groups its (groups_of builder) → its ≠ [] → close_groups b ≠ ∅.
Proof.
  assert (Hsome : ∀ its (st : Groups), (fst st ≠ ∅ ∨ snd st ≠ []) → fst (run_groups its st) ≠ ∅ ∨ snd (run_groups its st) ≠ []).
  { intros l. induction l as [|i l IH]; intros st Hst; [done|].
    assert (He : snd (ensured st) ≠ []) by (unfold ensured; destruct st as [m [|]]; done).
    destruct i as [i|]; cbn [run_groups]; apply IH; [|by right]. destruct (ensured st) as [m [|[n g] s]]; [done|].
    destruct i; cbn; try (by right). left. unfold merge_into. apply insert_non_empty. }
  assert (Hfold : ∀ s (m : gmap string RuleGroup), m ≠ ∅ ∨ s ≠ [] → foldl (λ m '(n, g), merge_into n g m) m s ≠ ∅).
  { intros s. induction s as [|[n g] s IH]; intros m Hm; cbn; [by destruct Hm|]. apply IH. left. apply insert_non_empty. }
  intros Hb Hne. unfold close_groups. apply Hfold. change (bgroups b) with (fst (groups_of b)).
  change (rule_group_stack b) with (snd (groups_of b)). rewrite Hb. destruct its as [|i its]; [done|].
  destruct i as [i|]; cbn [run_groups]; apply Hsome; [|by right]. cbn. destruct i; cbn; (by right) || (left; apply insert_non_empty).
Qed.

(** C9. Rules stay in their groups: the lines of a configuration - any number of nested,
    unclosed or superfluous group marks among them - leave in every group exactly the
    rules that stand inside it and inside no inner group, those outside all groups in
    the default group; none is lost, doubled or moved.  They keep their order, on
    which the rule that wins depends, if no group is opened inside one of its own
    name. *)
Theorem rules_grouped load (ls : list string) (its : list (option item)) :
  mapM parse_config ls = Some its → Forall harmless (omap id its) →
  ∃ b, config_lines dir_order fs load builder ls = Returns b ∧ ∀ name,
    group_perm (default group_empty (close_groups b !! name)) (attributed [] name its) ∧
    (nested_apart [] its → default group_empty (close_groups b !! name) = attributed [] name its).
Proof.
  intros Hp Hh. destruct (config_lines_groups load builder ls its Hp Hh) as (b & H1 & H2 & _).
  exists b. split; [done|]. intros name. by apply closed_rules.
Qed.

(** ** Included files *)

Abbreviation resolve := (resolve dir_order fs).
Abbreviation load_file := (load_file dir_order fs).
Abbreviation build group_order rule_order := (build dir_order group_order rule_order fs).

(** A line of the file at a path. *)
Definition line_of (p line : string) : Prop :=
  ∃ text, read_bytes fs p = Some text ∧ line ∈ map_while_ok (lines text).

(** Files whose lines are harmless or include a file of lower rank, wherever it is
    found. *)
Definition ranked (rank : string → nat) : Prop := ∀ p line, line_of p line →
  ∃ i, parse_config line = Some i ∧
    ∀ j, i = Some j → harmless j ∨ ∃ v, j = ConfFile v ∧ ∀ b : Builder Name, rank (resolve b v) < rank p.

Lemma config_lines_return rank load (p : string) ls b :
  (∀ (b : Builder Name) v, rank (resolve b v) < rank p → ∃ x, load b v = Returns x) →
  (∀ line, line ∈ ls → ∃ i, parse_config line = Some i ∧
    ∀ j, i = Some j → harmless j ∨ ∃ v, j = ConfFile v ∧ ∀ b : Builder Name, rank (resolve b v) < rank p) →
  ∃ b', config_lines dir_order fs load b ls = Returns b'.
Proof.
  intros Hload. revert b. induction ls as [|l ls IH]; intros b Hls; [by eexists|]. cbn [config_lines].
  assert (Hl : ∃ b', config dir_order fs load b l = Returns b').
  { destruct (Hls l) as (i & Hp & Hi); [by left|]. destruct i as [j|]; [destruct (Hi j eq_refl) as [Hh|(v & -> & Hv)]|].
    - destruct (config_groups load b l (Some j) Hp) as (b' & -> & _); [by intros ? [= <-]|by eexists].
    - unfold config. rewrite Hp. cbn [apply_item]. case_match; [by eexists|].
      destruct (Hload (ensure_group b) v (Hv _)) as [[r b'] ->]. by eexists.
    - destruct (config_groups load b l None Hp) as (b' & -> & _); [done|by eexists]. }
  destruct Hl as [b' ->]. cbn [obind]. apply IH. intros line Hline. apply Hls. by right.
Qed.

Lemma load_file_returns rank fuel b path : ranked rank → rank (resolve b path) < fuel →
  ∃ r b', load_file fuel b path = Returns (r, b') ∧
    (r = Err () ↔ path_exists fs (resolve b path) = true ∧ read_bytes fs (resolve b path) = None).
Proof.
  intros Hrank. revert b path. induction fuel as [|fuel IH]; intros b path Hlt; [lia|]. cbn [ConfigLoad.load_file].
  destruct (path_exists fs (resolve b path)) eqn:Ex; [|by do 2 eexists; split; [done|naive_solver]].
  destruct (read_bytes fs (resolve b path)) as [text|] eqn:Et; [|by do 2 eexists; split].
  destruct (config_lines_return rank (load_file fuel) (resolve b path) (map_while_ok (lines text))
    (match conf_file b with None => with_files (Some (resolve b path)) (loaded_files b) (dirs b) b | Some _ => b end)) as [b' ->].
  - intros b1 v Hv. destruct (IH b1 v) as (r & b2 & -> & _); [lia|by eexists].
  - intros line Hline. apply Hrank. by exists text.
  - do 2 eexists. split; [done|]. naive_solver.
Qed.

Lemma load_files_return rank fuel b paths : ranked rank → (∀ p, rank p < fuel) →
  ∃ b', load_files dir_order fs fuel b paths = Returns b'.
Proof.
  intros Hrank Hfuel. revert b. induction paths as [|p ps IH]; intros b; [by eexists|]. cbn [load_files].
  case_bool_decide; [|apply IH]. destruct (load_file_returns rank fuel b p Hrank (Hfuel _)) as (r & b' & -> & _). apply IH.
Qed.

(** The builder for a main file and a configuration directory. *)
Definition start (dir : option string) (file : string) : Builder Name :=
  with_conf_file file (match dir with Some d => with_conf_dir d builder | None => builder end).
Lemma start_files dir file :
  conf_file (start dir file) = Some file ∧ loaded_files (start dir file) = [] ∧ bconfig (start dir file) = config_default.
Proof. by destruct dir. Qed.

(** C10. Loading returns: if the files can be ranked such that every included file ranks
    below the one that includes it - there is no circle - and no line panics, then
    loading a configuration with its included and managed files returns, with nested
    files to the depth of the ranks; it is an error only if the main file is there
    but cannot be read. *)
Theorem load_returns group_order rule_order (rank : string → nat) (fuel : nat) (dir : option string) (file : string) :
  ranked rank → (∀ p, rank p < fuel) →
  let b := start dir file in
  ∃ r, build group_order rule_order fuel b = Returns r ∧
    (r = Err () ↔ path_exists fs (resolve b file) = true ∧ read_bytes fs (resolve b file) = None).
Proof.
  intros Hrank Hfuel b. unfold ConfigLoad.build.
  destruct (start_files dir file) as (Hfile & Hloaded & _). fold b in Hfile, Hloaded. rewrite Hfile, Hloaded. cbn [path_in existsb].
  destruct (load_file_returns rank fuel b file Hrank (Hfuel _)) as (r & b' & -> & Hr). cbn [obind].
  destruct r as [[]|[]]; [|eexists; split; [done|]; naive_solver]. destruct (conf_dir b') as [d|].
  - destruct (load_files_return rank fuel b' (default [] (read_dir fs (path_join d "managed"))) Hrank Hfuel) as [b2 Hb2].
    unfold load_managed_dir. rewrite Hb2. eexists. split; [done|]. naive_solver.
  - eexists. split; [done|]. naive_solver.
Qed.

(** A circle of files: each is there, and its first line that is not harmless
    includes one of them. *)
Definition circle (C : string → Prop) : Prop := ∀ p, C p →
  is_file fs p = true ∧ path_exists fs p = true ∧
  ∃ text pre line post its q, read_bytes fs p = Some text ∧ map_while_ok (lines text) = pre ++ line :: post ∧
    mapM parse_config pre = Some its ∧ Forall harmless (omap id its) ∧
    parse_config line = Some (Some (ConfFile q)) ∧ C q.

Lemma resolve_file (b : Builder Name) p : is_file fs p = true → path_exists fs p = true → resolve b p = p.
Proof. intros H1 H2. unfold ConfigLoad.resolve, resolve_filepath, resolve_near, exists_file. rewrite H1. cbn. by rewrite H2. Qed.

Lemma config_lines_app load b ls1 ls2 :
  config_lines dir_order fs load b (ls1 ++ ls2) =
  obind (config_lines dir_order fs load b ls1) (λ b, config_lines dir_order fs load b ls2).
Proof. revert b. induction ls1 as [|l ls1 IH]; intros b; cbn; [done|]. destruct (config dir_order fs load b l); cbn; [apply IH|done|done]. Qed.

Lemma circle_diverges C fuel b p : circle C → (∀ q, C q → path_in q (loaded_files b) = false) → C p →
  load_file fuel b p = OutOfFuel.
Proof.
  intros HC. revert b p. induction fuel as [|fuel IH]; intros b p Hnew Hp; [done|]. cbn [ConfigLoad.load_file].
  destruct (HC p Hp) as (Hf & He & text & pre & line & post & its & q & Ht & Hlines & Hpre & Hh & Hline & Hq).
  rewrite resolve_file by done. rewrite He, Ht, Hlines, config_lines_app.
  set (b0 := match conf_file b with None => _ | Some _ => b end).
  assert (Hb0 : loaded_files b0 = loaded_files b) by (subst b0; by destruct (conf_file b)).
  destruct (config_lines_groups (load_file fuel) b0 pre its Hpre Hh) as (b1 & -> & _ & Hb1). cbn [obind config_lines].
  unfold config. rewrite Hline. cbn [apply_item].
  assert (Hl : loaded_files (ensure_group b1) = loaded_files b).
  { rewrite <- Hb0, <- Hb1. unfold ensure_group. by destruct (rule_group_stack b1). }
  rewrite Hl, Hnew by done. rewrite IH; [done| |done]. intros q' Hq'. rewrite Hl. by apply Hnew.
Qed.

(** C38. Circles are not noticed: a path counts as loaded only after its file was read to
    the end, so a configuration file that includes itself, or files that include one
    another, are loaded again and again; loading does not return, whatever the depth
    allowed for nested files. *)
Theorem conf_file_circle group_order rule_order (C : string → Prop) (fuel : nat) (dir : option string) (file : string) :
  circle C → C file →
  build group_order rule_order fuel (start dir file) = OutOfFuel.
Proof.
  intros HC Hfile. unfold ConfigLoad.build. destruct (start_files dir file) as (-> & Hl & _). rewrite Hl. cbn [path_in existsb].
  by rewrite (circle_diverges C) by (done || by intros; rewrite Hl).
Qed.

(** ** What no line sets *)

Definition negative_unset (b : Builder Name) : Prop := bconfig b f_cache_cache_negative = None.

Lemma apply_item_unset load i b b' : (∀ b p r b', negative_unset b → load b p = Returns (r, b') → negative_unset b') →
  negative_unset b → apply_item dir_order fs load i b = Returns b' → negative_unset b'.
Proof.
  intros Hload Hb. unfold negative_unset in *.
  assert (Hm : ∀ f (h : field_type f → field_type f), f ≠ f_cache_cache_negative → modify f h (bconfig b) f_cache_cache_negative = None)
    by (intros; by rewrite modify_ne).
  assert (Ht : ∀ f, bconfig (on_top f b) = bconfig b) by (intros f; unfold on_top; by destruct (rule_group_stack b) as [|[]]).
  assert (Hp : bconfig (pop_group b) = bconfig b) by (unfold pop_group; by destruct (rule_group_stack b) as [|[]]).
  destruct i; cbn [apply_item]; try (intros [= <-]; cbn; rewrite ?Ht, ?Hp; (done || by apply Hm)).
  - case_match; [intros [= <-]; done|]. destruct (load b v) as [[r b1]| |] eqn:E; cbn [obind]; [|done|done].
    intros [= <-]. cbn. by eapply Hload.
  - repeat case_match; try done; intros [= <-]; [by apply Hm|done].
Qed.

Lemma config_lines_unset load ls b b' : (∀ b p r b', negative_unset b → load b p = Returns (r, b') → negative_unset b') →
  negative_unset b → config_lines dir_order fs load b ls = Returns b' → negative_unset b'.
Proof.
  intros Hload. revert b. induction ls as [|l ls IH]; intros b Hb; cbn [config_lines]; [by intros [= <-]|].
  destruct (config dir_order fs load b l) as [b1| |] eqn:E; cbn [obind]; [|done|done]. intros H1. eapply IH; [|exact H1].
  assert (He : negative_unset (ensure_group b)) by (unfold negative_unset, ensure_group; by destruct (rule_group_stack b)).
  unfold config in E. repeat case_match; simplify_eq; [by eapply apply_item_unset|done].
Qed.

Lemma load_file_unset fuel b p r b' : negative_unset b → load_file fuel b p = Returns (r, b') → negative_unset b'.
Proof.
  revert b p r b'. induction fuel as [|fuel IH]; intros b p r b' Hb; cbn [ConfigLoad.load_file]; [done|].
  case_match; [|by intros [= <- <-]]. case_match; [|by intros [= <- <-]].
  destruct (config_lines _ _ _ _ _) as [b1| |] eqn:E; cbn [obind]; [|done|done]. intros [= <- <-].
  eapply config_lines_unset; [exact IH| |exact E]. by case_match.
Qed.

Lemma load_files_unset fuel ps b b' : negative_unset b → load_files dir_order fs fuel b ps = Returns b' → negative_unset b'.
Proof.
  revert b. induction ps as [|p ps IH]; intros b Hb; cbn [load_files]; [by intros [= <-]|]. case_bool_decide; [|by apply IH].
  destruct (load_file fuel b p) as [[r b1]| |] eqn:E; cbn [obind]; [|done|done]. apply IH. by eapply load_file_unset.
Qed.

(** Every line can be read: the last alternative of a line, the empty line, takes
    what the others do not. *)
Lemma parse_line_total (ST : Settings) line : ∃ x, parse_line (Name := Name) line = Some x.
Proof.
  unfold parse_line, orelse. do 3 (case_match; [by eexists|]). unfold pmap, space0, take0.
  destruct (span is_space line). by eexists.
Qed.

(** Unknown settings are ignored without a word: no line of any file is an error, so
    the report of an unknown line is never made; a line in which no setting can be
    read counts as empty.  One that is documented is among them: [cache-negative]
    followed by any value means nothing, in any state of the loader, and whatever the
    files say, a configuration that was loaded has negative caching on. *)
Theorem negative_caching_always_on group_order rule_order (fuel : nat) (dir : option string) (file : string) (r : Built Name) :
  build group_order rule_order fuel (start dir file) = Returns (Ok r) →
  cfg_cache_negative (built r) = true ∧
  (∀ load b value, config dir_order fs load b ("cache-negative " +:+ value) = Returns (ensure_group b)) ∧
  (∀ (ST : Settings) line, parse_line (Name := Name) line ≠ None).
Proof.
  intros Hb. split_and!.
  - unfold ConfigLoad.build in Hb. destruct (start_files dir file) as (Hf & Hl & Hc). rewrite Hf, Hl in Hb. cbn [path_in existsb] in Hb.
    assert (H0 : negative_unset (start dir file)) by (unfold negative_unset; by rewrite Hc).
    destruct (load_file fuel (start dir file) file) as [[x b1]| |] eqn:E; cbn [obind] in Hb; try done.
    apply load_file_unset in E as H1; [|done]. destruct x; [|done].
    assert (Hfin : ∀ b2, negative_unset b2 → cfg_cache_negative (built (finish group_order rule_order fs b2)) = true).
    { intros b2 H2. unfold finish, cfg_cache_negative, negative_unset in *. cbn. by rewrite H2. }
    destruct (conf_dir b1) as [d|].
    + unfold load_managed_dir in Hb. destruct (load_files _ _ _ _ _) as [b2| |] eqn:E2; cbn [obind] in Hb; simplify_eq.
      by eapply Hfin, load_files_unset.
    + cbn [obind] in Hb. simplify_eq. by apply Hfin.
  - intros load b value. unfold config. by replace (parse_config ("cache-negative " +:+ value)) with (Some (@None item)).
  - intros ST line E. destruct (parse_line_total ST line) as [x Hx]. congruence.
Qed.
End groups.

(** ** Concrete files *)

Module Example.
Import ListName ConfigProps.Example DomainRule.Example IpSet.Ranges Hosts.Example ConfigValueProps.Example SimpleUrl.

#[export] Instance disk_dirs : Dirs disk := {
  path_exists d p := bool_decide (is_Some (file_at d p)) || existsb (λ f, bool_decide (parent (fst f) = Some p)) d;
  is_dir d p := existsb (λ f, bool_decide (parent (fst f) = Some p)) d;
  read_dir d p := Some (filter (λ q, parent q = Some p) (map fst d)) }.
#[export] Instance process : ProcessEnv := {
  current_dir := Some "/root"; exe_dir := Some "/usr/sbin"; interfaces := None; http_get _ := None }.

Definition text_of (ls : list string) : string := join (String lf "") ls.
Definition main : string := "/etc/smartdns.conf".
Definition extra : string := "/etc/extra.conf".
Definition group_lines : list string :=
  [ "address /a/1.2.3.4"; "group-begin work"; "address /b/#"; "group-begin home"; "address /c/-"; "group-end";
    "nameserver /d/office"; "group-end"; "cache-negative no"; "group-end"; "address /e/#6" ].
Definition files : disk := [ (main, (0%Z, text_of (group_lines ++ ["conf-file /etc/extra.conf"]))); (extra, (0%Z, "cname /x/y")) ].

Definition same_order (l : list string) : list string := l.
Definition table_order (m : gmap string (RuleGroup name)) : list (string * RuleGroup name) := map_to_list m.
Definition as_given (l : list (WildcardName name * DomainRule name)) : list (WildcardName name * DomainRule name) := l.
Definition load_nothing (b : Builder name) (path : string) : outcome (result unit unit * Builder name) := Returns (Ok (), b).

(** The domains of the address rules of a group. *)
Definition addresses (g : RuleGroup name) : list (Domain name) := map domain (address_rules g).
Definition plain_domain (l : string) : Domain name := DName (Default ([l], false)).

(** Groups nested in one another, and one end too many. *)
Lemma rules_grouped_witness : ∃ b,
  config_lines same_order files load_nothing builder group_lines = Returns b ∧
  addresses (default group_empty (close_groups b !! "work")) = [plain_domain "b"] ∧
  addresses (default group_empty (close_groups b !! "home")) = [plain_domain "c"] ∧
  addresses (default group_empty (close_groups b !! DEFAULT_GROUP)) = [plain_domain "a"; plain_domain "e"] ∧
  map domain (forward_rules (default group_empty (close_groups b !! "work"))) = [plain_domain "d"].
Proof.
  eassert (Hp : mapM parse_config group_lines = Some _) by (vm_compute; reflexivity).
  match type of Hp with _ = Some ?l => set (its := l) in Hp end.
  assert (Hh : Forall (harmless files) (omap id its)) by (repeat constructor).
  destruct (rules_grouped same_order files load_nothing group_lines its Hp Hh) as (b & Hb & Hg).
  assert (Hn : nested_apart [] its) by (cbn [nested_apart opened tail its]; repeat split; by apply (bool_decide_unpack _)).
  exists b. split; [done|]. rewrite !(proj2 (Hg _) Hn). repeat split; vm_compute; reflexivity.
Defined.

Definition rank (p : string) : nat := if bool_decide (p = main) then 1 else 0.
Lemma rank_below p : rank p < 2.
Proof. unfold rank. case_bool_decide; lia. Qed.

(** All lines are harmless but the last of the main file. *)
Definition line_harmless (line : string) : Prop :=
  match parse_config line with
  | Some (Some j) => harmless files (Name := name) j
  | Some None => True
  | None => False
  end.
Lemma group_lines_harmless : Forall line_harmless group_lines.
Proof. repeat (constructor; [vm_compute; exact I|]). constructor. Qed.
Lemma files_lines p line : line_of files p line →
  (p = main ∧ (line ∈ group_lines ∨ line = "conf-file /etc/extra.conf")) ∨ (p = extra ∧ line = "cname /x/y").
Proof.
  intros (text & Ht & Hin). unfold read_bytes, disk_files, file_at, files in Ht. cbn [List.find fst] in Ht.
  destruct (bool_decide_reflect (main = p)) as [<-|]; [|destruct (bool_decide_reflect (extra = p)) as [<-|]; [|done]].
  - left. split; [done|]. apply (inj Some) in Ht. subst text.
    replace (map_while_ok _) with (group_lines ++ ["conf-file /etc/extra.conf"]) in Hin by (vm_compute; reflexivity).
    rewrite elem_of_app, list_elem_of_singleton in Hin. done.
  - right. split; [done|]. apply (inj Some) in Ht. subst text. by apply list_elem_of_singleton.
Qed.
Lemma line_harmless_ranked p line : line_harmless line → ∃ i, parse_config line = Some i ∧
  ∀ j, i = Some j → harmless files j ∨ ∃ v, j = ConfFile v ∧ ∀ b : Builder name, rank (resolve same_order files b v) < rank p.
Proof. unfold line_harmless. destruct (parse_config line) as [i|]; [|done]. intros Hi. exists i. split; [done|]. intros j ->. by left. Qed.
Lemma files_ranked : ranked same_order files (Name := name) rank.
Proof.
  intros p line [[-> [Hin| ->]]|[-> ->]]%files_lines.
  - apply line_harmless_ranked. eapply Forall_forall; [apply group_lines_harmless|done].
  - exists (Some (ConfFile extra)). split; [vm_compute; reflexivity|]. intros j [= <-]. right. exists extra. split; [done|].
    intros b. rewrite resolve_file by reflexivity. vm_compute. lia.
  - apply line_harmless_ranked. vm_compute. exact I.
Qed.

(** The main file and the one it includes are loaded. *)
Lemma load_returns_witness : ∃ r,
  build same_order table_order as_given files 2 (start None main) = Returns (Ok r).
Proof.
  destruct (load_returns same_order files table_order as_given rank 2 None main files_ranked rank_below) as (r & Hr & Herr).
  destruct r as [r|[]]; [by exists r|]. destruct (proj1 Herr eq_refl) as [_ Hnone]. vm_compute in Hnone. discriminate.
Defined.

(** Two files that include one another. *)
Definition ring : disk :=
  [ (main, (0%Z, text_of ["cache-size 0"; "conf-file /etc/extra.conf"])); (extra, (0%Z, "conf-file /etc/smartdns.conf")) ].
Lemma ring_circle : circle ring (Name := name) (λ p, p = main ∨ p = extra).
Proof.
  intros p [->| ->]; (split; [reflexivity|split; [reflexivity|]]).
  - eexists _, ["cache-size 0"], "conf-file /etc/extra.conf", [], _, extra.
    split_and!; [reflexivity|vm_compute; reflexivity|vm_compute; reflexivity|by repeat constructor|vm_compute; reflexivity|by right].
  - eexists _, [], "conf-file /etc/smartdns.conf", [], [], main.
    split_and!; [reflexivity|vm_compute; reflexivity|reflexivity|constructor|vm_compute; reflexivity|by left].
Qed.
Lemma conf_file_circle_witness : build same_order table_order as_given ring 1000 (start None main) = OutOfFuel.
Proof. exact (conf_file_circle same_order ring table_order as_given _ 1000 None main ring_circle (or_introl eq_refl)). Defined.

(** The main file asks for no negative caching. *)
Lemma negative_caching_witness : ∃ r, "cache-negative no" ∈ group_lines ∧
  build same_order table_order as_given files 2 (start None main) = Returns (Ok r) ∧ cfg_cache_negative (built r) = true.
Proof.
  eassert (Hb : build same_order table_order as_given files 2 (start None main) = Returns (Ok _)) by (vm_compute; reflexivity).
  eexists. split; [by do 8 right; left|]. split; [exact Hb|].
  exact (proj1 (negative_caching_always_on same_order files table_order as_given 2 None main _ Hb)).
Defined.
End Example.
