(* ===== verification/ConfigApi.v ===== *)
(** * Forward rules and listeners in the API

    The handlers of src/api/forward.rs and src/api/listener.rs on a loaded
    configuration, what they serialise, and what the dashboard's page of forward rules
    makes of it. *)

From S2P Require Import Prelude DnsUrl Jsx WebApi WebRules Dns AuditLog IpSet DomainMap DomainRule Context CacheApi UpstreamApi ApiContract.
From S2P Require Import Nom NomProps ConfigText ConfigProps Text FileCache Hosts Paths ConfigItems ConfigValues ConfigLoad ConfigValueProps ConfigLoadProps.

(** ** The handlers *)

Section handlers.
Context {Name : Type} `{!NameOps Name, NS : !NameSyntax Name, RD : RuleData, RM : RangeMaps}.

Record ForwardRuleGroup := { frg_name : string; frg_count : Z; frg_forwards : list (ConfigForDomain Name string) }.

Definition forward_rule_group (g : string * RuleGroup Name) : ForwardRuleGroup :=
  {| frg_name := fst g; frg_count := Z.of_nat (length (forward_rules (snd g))); frg_forwards := forward_rules (snd g) |}.
Definition forwards (c : RuntimeConfig Name) : DataListPayload ForwardRuleGroup :=
  payload_of (map forward_rule_group (rule_groups c)).

Definition serialize_ForwardRule (r : ConfigForDomain Name string) : json :=
  JObj [("domain", JStr (show_domain (domain r))); ("nameserver", JStr (DomainRule.config r))].
Definition serialize_ForwardRuleGroup (g : ForwardRuleGroup) : json :=
  JObj [("name", JStr (frg_name g)); ("count", JInt (frg_count g)); ("forwards", JArr (map serialize_ForwardRule (frg_forwards g)))].
Definition forwards_document (c : RuntimeConfig Name) : json := serialize_payload serialize_ForwardRuleGroup (forwards c).

(** The interfaces of the dashboard. *)
Definition decode_ForwardEntry (j : json) : option ForwardEntry :=
  n ← WebApi.field "name" as_string j; c ← WebApi.field "count" as_int j; f ← jget "forwards" j;
  Some {| fw_name := n; fw_count := c; WebApi.forwards := f |}.
Definition decode_ForwardsResponse (j : json) : option ForwardsResponse :=
  c ← WebApi.field "count" as_int j; d ← WebApi.field "data" (as_list decode_ForwardEntry) j;
  Some {| fws_count := c; fws_data := d |}.

(** Listeners: [BindAddr] is printed, the options and the certificate are flattened
    into the object, absent values left out. *)
Definition listeners (r : Built Name) : DataListPayload ConfigItems.BindAddrConfig := payload_of (built_binds r).
End handlers.
Arguments ForwardRuleGroup : clear implicits.

Definition bind_addr_display (a : BindAddr) : string :=
  match a with
  | Localhost => "localhost"
  | All => "*"
  | BindV4 ip => show_ipv4 ip
  | BindV6 ip => "[" +:+ show_ipv6 ip +:+ "]"
  end.
Definition kind_name (k : BindKind) : string :=
  match k with
  | BindUdp => "udp" | BindTcp => "tcp" | BindTls => "tls" | BindHttp => "http" | BindHttps => "https" | BindH3 => "h3"
  | BindQuic => "quic"
  end.

Definition opt_field {A} (f : A → json) (k : string) (o : option A) : list (string * json) :=
  from_option (λ a, [(k, f a)]) [] o.
Definition serialize_ServerOpts (o : ServerOpts) : list (string * json) :=
  opt_field JStr "group" (so_group o) ++ opt_field JStr "rule_group" (so_rule_group o) ++
  opt_field JBool "no_rule_addr" (so_no_rule_addr o) ++ opt_field JBool "no_rule_nameserver" (so_no_rule_nameserver o) ++
  opt_field JBool "no_rule_ipset" (so_no_rule_ipset o) ++ opt_field JBool "no_speed_check" (so_no_speed_check o) ++
  opt_field JBool "no_cache" (so_no_cache o) ++ opt_field JBool "no_rule_soa" (so_no_rule_soa o) ++
  opt_field JBool "no_dualstack_selection" (so_no_dualstack_selection o) ++ opt_field JBool "force_aaaa_soa" (so_force_aaaa_soa o) ++
  opt_field JBool "force_https_soa" (so_force_https_soa o) ++ opt_field JBool "no_serve_expired" (so_no_serve_expired o) ++
  [("is_background", JBool (so_is_background o))].
Definition serialize_SslConfig (c : SslConfig) : list (string * json) :=
  opt_field JStr "server_name" (ssl_server_name c) ++ opt_field JStr "certificate" (ssl_certificate c) ++
  opt_field JStr "certificate_key" (ssl_certificate_key c) ++ opt_field JStr "certificate_key_pass" (ssl_certificate_key_pass c).
Definition serialize_listener (b : ConfigItems.BindAddrConfig) : json :=
  serialize_BindAddrConfig
    {| ba_type := kind_name (bind_kind b); ba_addr := bind_addr_display (bind_addr b); ba_port := bind_port b; ba_device := bind_device b |}
    (serialize_ServerOpts (bind_opts b) ++ from_option serialize_SslConfig [] (bind_ssl b) ++ opt_field JBool "enabled" (bind_enabled b)).
Definition listeners_document {Name} `{RuleData, RangeMaps} (r : Built Name) : json := serialize_payload serialize_listener (listeners r).

(** ** The page of forward rules *)

Section page.
Context {Name FS : Type} `{!NameOps Name, NS : !NameSyntax Name, !Glob, !HashCode Name, RD : RuleData, NO : NetOps, RM : RangeMaps}.
Context `{FL : !Files FS, DI : !Dirs FS, PE : ProcessEnv, IV : !ItemValues Name, UC : !UrlCrate, HR : !HashRule Name}.
Context (dir_order : list string → list string) (fs : FS).
Context (group_order : gmap string (RuleGroup Name) → list (string * RuleGroup Name)).
Context (rule_order : list (WildcardName Name * DomainRule Name) → list (WildcardName Name * DomainRule Name)).
(** The enumeration of a hash map: all its entries, in some order. *)
Context (Hgroups : ∀ m, group_order m ≡ₚ map_to_list m).

(** What the dashboard has for a rule group. *)
Definition forward_entry (g : string * RuleGroup Name) : ForwardEntry :=
  {| fw_name := fst g; fw_count := Z.of_nat (length (forward_rules (snd g)));
     WebApi.forwards := JArr (map serialize_ForwardRule (forward_rules (snd g))) |}.

Lemma decode_forwards (c : RuntimeConfig Name) :
  decode_ForwardsResponse (forwards_document c) =
  Some {| fws_count := Z.of_nat (length (rule_groups c)); fws_data := map forward_entry (rule_groups c) |}.
Proof.
  unfold decode_ForwardsResponse, forwards_document, serialize_payload, forwards, payload_of, WebApi.field. simpl.
  rewrite map_map. rewrite (mapM_map _ decode_ForwardEntry forward_entry) by done. simpl. by rewrite length_map.
Qed.

Lemma with_cnames_forward (g : RuleGroup Name) : forward_rules (with_cnames g) = forward_rules g.
Proof. done. Qed.

(** C39. From the text to the page: whatever the rules of a configuration are, the page of
    forward rules gets one card for every rule group, each group once, with the rules
    that stand in the group in their order, and no group with rules is missing.  But
    the number in its heading is the number of groups, not of rules, and as any line
    of the configuration opens the default group, the notice that there are no rules
    is never shown. *)
Theorem forwards_listed load (ls : list string) (its : list (option (ConfigItem Name))) :
  mapM parse_config ls = Some its → Forall (harmless fs) (omap id its) → nested_apart [] its →
  ∃ b resp, config_lines dir_order fs load builder ls = Returns b ∧
    decode_ForwardsResponse (forwards_document (built (finish group_order rule_order fs b))) = Some resp ∧
    NoDup (map fw_name (fws_data resp)) ∧
    (∀ e, e ∈ fws_data resp →
      let rules := forward_rules (attributed [] (fw_name e) its) in
      fw_count e = Z.of_nat (length rules) ∧ WebApi.forwards e = JArr (map serialize_ForwardRule rules)) ∧
    (∀ name, forward_rules (attributed [] name its) ≠ [] → name ∈ map fw_name (fws_data resp)) ∧
    fws_count resp = Z.of_nat (length (fws_data resp)) ∧ (its ≠ [] → fws_data resp ≠ []).
Proof.
  intros Hp Hh Hn. destruct (config_lines_groups dir_order fs load builder ls its Hp Hh) as (b & H1 & H2 & _).
  set (gs := with_cnames <$> close_groups b).
  assert (Hrules : ∀ name, forward_rules (default group_empty (close_groups b !! name)) = forward_rules (attributed [] name its)).
  { intros name. f_equal. by apply (closed_rules b its name H2). }
  exists b. rewrite decode_forwards. change (rule_groups (built (finish group_order rule_order fs b))) with (group_order gs).
  eexists. split; [done|]. split; [reflexivity|]. cbn [fws_data fws_count].
  assert (Hnames : map fw_name (map forward_entry (group_order gs)) ≡ₚ (map_to_list gs).*1).
  { rewrite map_map. change (λ x, fw_name (forward_entry x)) with (@fst string (RuleGroup Name)). by rewrite Hgroups. }
  split_and!.
  - rewrite Hnames. apply NoDup_fst_map_to_list.
  - intros e He. apply list_elem_of_fmap in He as ([name g] & -> & Hg). rewrite Hgroups in Hg.
    apply elem_of_map_to_list in Hg. unfold gs in Hg. rewrite lookup_fmap in Hg. apply fmap_Some in Hg as (g0 & Hg0 & ->).
    cbn. rewrite <- Hrules, Hg0. done.
  - intros name Hne. rewrite Hnames, list_elem_of_fmap. rewrite <- Hrules in Hne.
    destruct (close_groups b !! name) as [g|] eqn:Hg; [|done]. exists (name, with_cnames g). split; [done|].
    apply elem_of_map_to_list. unfold gs. by rewrite lookup_fmap, Hg.
  - by rewrite length_map.
  - intros Hne Hempty. apply (closed_some b its H2 Hne). apply map_eq_nil in Hempty.
    pose proof (Hgroups gs) as Hperm. rewrite Hempty in Hperm. apply Permutation_nil_l in Hperm.
    symmetry in Hperm. apply map_to_list_empty_iff in Hperm. by apply fmap_empty_iff in Hperm.
Qed.
End page.

(** ** Listeners *)

(** Addresses of their width. *)
Definition bind_addr_ok (a : BindAddr) : Prop :=
  match a with BindV4 ip => (0 <= ip < 2 ^ 32)%Z | BindV6 ip => (0 <= ip < 2 ^ 128)%Z | _ => True end.

Lemma show_ipv4_first ip : (0 <= ip < 2 ^ 32)%Z → ∃ c s, show_ipv4 ip = String c s ∧ is_digit c = true.
Proof.
  intros Hip. unfold show_ipv4. pose proof (to_be_range 256 4 ip ltac:(lia)) as Hr.
  destruct (to_be 256 4 ip) as [|x l] eqn:E; [pose proof (to_be_length 256 4 ip) as Hl; by rewrite E in Hl|].
  apply Forall_inv in Hr. destruct (show_u8_chars x ltac:(lia)) as [Hc Hne].
  destruct (show_u8 x) as [|c s] eqn:Es; [done|]. cbn [all_chars] in Hc. apply andb_true_iff in Hc as [Hc _].
  destruct l as [|y l]; cbn [map join]; rewrite Es; [by exists c, s|]. rewrite string_app_cons. by do 2 eexists.
Qed.

(** The address in the document is the one of the configuration: where a listener's
    address is printed, the parser of listeners reads it back. *)
Lemma bind_addr_roundtrip a r : bind_addr_ok a →
  parse_bind_addr (bind_addr_display a +:+ String ":" r) = Some (String ":" r, Some a).
Proof.
  intros Ha. unfold parse_bind_addr, bind_addr_display. destruct a as [| |ip|ip].
  - by apply alt_hit.
  - do 3 rewrite alt_skip by reflexivity. by apply alt_hit.
  - rewrite alt_skip. { apply alt_hit. unfold pmap. by rewrite ipv4_show. }
    destruct (show_ipv4_first ip Ha) as (c & s & -> & Hc). unfold value, pmap. rewrite string_app_cons, tag_no_case_cons.
    destruct (Ascii.eqb_spec (to_lower c) "l") as [E|]; [|done]. exfalso. by destruct c as [[] [] [] [] [] [] [] []].
  - do 2 rewrite alt_skip by reflexivity. apply alt_hit. rewrite !string_app_assoc. unfold delimited, preceded, terminated.
    rewrite string_app_cons. cbn [char mbind option_bind]. rewrite Ascii.eqb_refl. cbn [mbind option_bind].
    rewrite string_app_nil. unfold pmap at 1. by rewrite ipv6_show.
Qed.

Definition bind_keyword (k : BindKind) : string :=
  match k with
  | BindUdp => "bind" | BindTcp => "bind-tcp" | BindTls => "bind-tls" | BindHttp => "bind-http" | BindHttps => "bind-https"
  | BindH3 => "bind-h3" | BindQuic => "bind-quic"
  end.

Section lines.
Context {Name : Type} `{!NameOps Name, NS : !NameSyntax Name, !Glob, RD : RuleData, FV : !ForeignValues Name, UC : !UrlCrate}.

Lemma bind_keyword_value k :
  bind_keyword k ∈ keywords ∧ bind_keyword k ≠ "group-end" ∧
  item_value (Name := Name) (bind_keyword k) = pmap (fmap (Listener_ (Name := Name))) (parse_listener k).
Proof. destruct k; (split; [apply (bool_decide_unpack _); vm_compute; exact I|]); by split. Qed.

Lemma display_first a r : bind_addr_ok a → stops is_space (bind_addr_display a +:+ r) = true.
Proof.
  intros Ha. destruct a as [| |ip|ip]; try done. cbn [bind_addr_display].
  destruct (show_ipv4_first ip Ha) as (c & s & -> & Hc). rewrite string_app_cons. unfold stops. by rewrite digit_not_space.
Qed.

(** A listener as it is written: its keyword, its address as the API prints it and its
    port give the listener with that transport, address and port and no options; a
    port that is no port makes the line meaningless, so that the server does not
    listen there. *)
Theorem listener_line (k : BindKind) (a : BindAddr) (port : Z) : bind_addr_ok a → (0 <= port)%Z →
  parse_config (bind_keyword k +:+ " " +:+ bind_addr_display a +:+ ":" +:+ decimal port) =
  Some (if (port <? 65536)%Z then
          Some (Listener_ (Name := Name) {| bind_kind := k; bind_addr := a; bind_port := port; bind_device := None;
            bind_opts := opts_default; bind_ssl := if has_ssl k then Some ssl_default else None; bind_enabled := None |})
        else None).
Proof.
  intros Ha Hport. destruct (bind_keyword_value k) as (Hk & Hne & Hv).
  rewrite setting_line; [|done|done|by apply display_first]. rewrite Hv. unfold parse_listener, pbind, opt, pmap.
  change (":" +:+ decimal port) with (String ":" (decimal port)).
  rewrite bind_addr_roundtrip by done. cbn [mbind option_bind from_option id].
  destruct (decimal_ok port Hport) as (H1 & H2 & H3).
  assert (Hd : digit1 (decimal port) = Some ("", decimal port)).
  { rewrite <- (string_app_nil_r (decimal port)) at 1. by apply take1_app. }
  match goal with |- context [preceded (char ":") ?p (String ":" ?s)] =>
    assert (Hp : preceded (char ":") p (String ":" s) = if (port <? 65536)%Z then Some ("", port) else None) end.
  { unfold preceded. change (char ":" (String ":" ?x)) with (Some (x, ":"%char)). cbn [mbind option_bind].
    unfold pmap_opt. rewrite Hd. cbn [mbind option_bind]. rewrite H3. by destruct (port <? 65536)%Z. }
  rewrite Hp. by destruct (port <? 65536)%Z.
Qed.
End lines.

(** ** Concrete documents *)

Module Example.
Import ListName ConfigProps.Example DomainRule.Example IpSet.Ranges Hosts.Example ConfigValueProps.Example ConfigLoadProps.Example SimpleUrl.

Lemma table_order_all m : table_order m ≡ₚ map_to_list m.
Proof. done. Qed.

(** Three groups, one forward rule: the heading says three. *)
Lemma forwards_listed_witness : ∃ b resp, config_lines same_order files load_nothing builder group_lines = Returns b ∧
  decode_ForwardsResponse (forwards_document (built (finish table_order as_given files b))) = Some resp ∧
  "work" ∈ map fw_name (fws_data resp) ∧ fws_data resp ≠ [] ∧ NoDup (map fw_name (fws_data resp)).
Proof.
  eassert (Hp : mapM parse_config group_lines = Some _) by (vm_compute; reflexivity).
  match type of Hp with _ = Some ?l => set (its := l) in Hp end.
  assert (Hh : Forall (harmless files) (omap id its)) by (repeat constructor).
  assert (Hn : nested_apart [] its) by (cbn [nested_apart opened tail its]; repeat split; by apply (bool_decide_unpack _)).
  assert (Hw : forward_rules (attributed [] "work" its) ≠ []) by (vm_compute; discriminate).
  assert (Hne : its ≠ []) by discriminate.
  destruct (forwards_listed same_order files table_order as_given table_order_all load_nothing group_lines its Hp Hh Hn)
    as (b & resp & H1 & H2 & H3 & _ & H5 & _ & H7).
  exists b, resp. split; [exact H1|]. split; [exact H2|]. split; [exact (H5 "work" Hw)|]. split; [exact (H7 Hne)|exact H3].
Defined.

(** [bind-tls [::1]:853] *)
Lemma listener_line_witness :
  parse_config "bind-tls [::1]:853" = Some (Some (Listener_ (Name := name) {| bind_kind := BindTls; bind_addr := BindV6 1; bind_port := 853;
    bind_device := None; bind_opts := opts_default; bind_ssl := Some ssl_default; bind_enabled := None |})).
Proof.
  assert (Ha : bind_addr_ok (BindV6 1)) by (cbn; lia). assert (Hp : (0 <= 853)%Z) by lia.
  exact (listener_line (Name := name) BindTls (BindV6 1) 853 Ha Hp).
Defined.
End Example.
