(* ===== verification/LogFile.v ===== *)
(** * Rotated log files

    [MappedFile] (src/infra/mapped_file.rs): the file that logs and audit records are
    appended to, its backups, and the file system as far as it uses it.

    A path is its directory and its file name.  A file system maps the paths of
    regular files to their contents; the directory of a relative path without a parent
    is the empty text, in which files can be made but which cannot be listed.  An open
    file is written at its end, and bytes written to a file that was removed meanwhile
    are lost; on a regular file a write takes all bytes.  Operations that fail leave
    the changes made before. *)

From S2P Require Import Prelude DomainMap Nom ConfigText Text Paths.

(** ** The file system *)

Abbreviation fpath := (string * string)%type.
Record Disk := { files : gmap fpath string; dirs : gset string }.

(** Computations on the file system that may fail. *)
Definition io (A : Type) : Type := Disk → Disk * option A.
Definition io_ret {A} (a : A) : io A := λ d, (d, Some a).
Definition io_err {A} : io A := λ d, (d, None).
Definition io_bind {A B} (e : io A) (k : A → io B) : io B := λ d,
  let '(d, r) := e d in match r with Some a => k a d | None => (d, None) end.
Notation "'let*' x ':=' e 'in' k" := (io_bind e (λ x, k)) (at level 10, x pattern, e at level 100, k at level 200) : rust_scope.
Local Open Scope rust_scope.

Definition set_files (f : gmap fpath string → gmap fpath string) (d : Disk) : Disk := {| files := f (files d); dirs := dirs d |}.
Definition can_create (d : Disk) (p : fpath) : bool := bool_decide (fst p = "") || bool_decide (fst p ∈ dirs d).
Definition exists_ (d : Disk) (p : fpath) : bool := bool_decide (is_Some (files d !! p)).
Definition bytes (s : string) : Z := Z.of_nat (String.length s).

(** [File::options().create(true).write(true)], with [truncate] or [append]. *)
Definition open_file (truncate : bool) (p : fpath) : io unit := λ d,
  match files d !! p with
  | Some s => (set_files <[p := if truncate then "" else s]> d, Some ())
  | None => if can_create d p then (set_files <[p := ""]> d, Some ()) else (d, None)
  end.
Definition write_at_end (p : fpath) (s : string) : io Z := λ d,
  (match files d !! p with Some t => set_files <[p := t +:+ s]> d | None => d end, Some (bytes s)).
Definition copy (p q : fpath) : io unit := λ d,
  match files d !! p with
  | Some s => if can_create d q then (set_files <[q := s]> d, Some ()) else (d, None)
  | None => (d, None)
  end.
Definition remove_file (p : fpath) : io unit := λ d,
  if exists_ d p then (set_files (delete p) d, Some ()) else (d, None).
Fixpoint remove_all (ps : list fpath) : io unit :=
  match ps with [] => io_ret () | p :: ps => let* _ := remove_file p in remove_all ps end.
Definition read_dir (dir : string) : io (list string) := λ d,
  (d, if bool_decide (dir ∈ dirs d) then Some (map snd (filter (λ p, fst p = dir) (map fst (map_to_list (files d))))) else None).
Definition metadata_len (d : Disk) (p : fpath) : option Z := bytes <$> files d !! p.

(** ** [MappedFile] *)

Record MappedFile := {
  num : option nat;
  size : Z;
  path : fpath;
  file : bool;               (* whether the file is open *)
  len_ : Z;
  mode : option Z;
  peamble_bytes : option string;
}.
Definition set_file (open_ : bool) (l : Z) (f : MappedFile) : MappedFile := {|
  num := num f; size := size f; path := path f; file := open_; len_ := l; mode := mode f; peamble_bytes := peamble_bytes f |}.

Definition open (p : fpath) (size : Z) (num : option nat) (mode : option Z) : MappedFile := {|
  num := num; size := size; path := p; file := false; len_ := 0; mode := mode; peamble_bytes := None |}.
Definition set_peamble (b : option string) (f : MappedFile) : MappedFile := {|
  num := num f; size := size f; path := path f; file := file f; len_ := len_ f; mode := mode f; peamble_bytes := b |}.
Definition set_num (n : option nat) (f : MappedFile) : MappedFile := {|
  num := n; size := size f; path := path f; file := file f; len_ := len_ f; mode := mode f; peamble_bytes := peamble_bytes f |}.

Definition len (f : MappedFile) (d : Disk) : Z :=
  if (0 <? len_ f)%Z || file f then len_ f else default 0%Z (metadata_len d (path f)).
Definition is_full (f : MappedFile) (d : Disk) : bool := (size f <=? len f d)%Z.

(** The files of the directory that have the extension and whose name starts with the
    stem of the name, the last in the order of names first. *)
Definition is_mapped (base : string) (ext : option string) (name : string) : bool :=
  bool_decide (extension name = ext) && String.prefix base name.
Definition name_cmp_desc (a b : string) : comparison := String.compare b a.
Definition mapped_files (f : MappedFile) : io (list fpath) :=
  match file_stem (snd (path f)) with
  | Some base =>
      let* names := read_dir (fst (path f)) in
      io_ret (map (pair (fst (path f)))
        (sort_by name_cmp_desc (List.filter (is_mapped base (extension (snd (path f)))) names)))
  | None => io_ret []
  end.

(** [with_extension] of a file name. *)
Definition with_extension (name ext : string) : string := default name (file_stem name) +:+ "." +:+ ext.

(** The name of a backup made at the time [now], as it is formatted. *)
Definition backup_name (name now : string) : option string :=
  base ← file_stem name;
  let new := base +:+ "-" +:+ now in
  Some (match extension name with Some ext => with_extension new ext | None => new end).

Definition backup_files (f : MappedFile) (now : string) : io unit :=
  let* _ := match backup_name (snd (path f)) now with
            | Some new => copy (path f) (fst (path f), new)
            | None => io_ret ()
            end in
  let* fs := mapped_files f in
  match num f with
  | Some n => if bool_decide (n <= length fs) then remove_all (drop n fs) else io_ret ()
  | None => io_ret ()
  end.

(** Opening the file that was closed; an empty one gets the preamble. *)
Definition open_active (trunc : bool) (f : MappedFile) : io MappedFile :=
  let* _ := open_file trunc (path f) in
  λ d,
    let l := default 0%Z (metadata_len d (path f)) in
    match peamble_bytes f with
    | Some b => if (l =? 0)%Z then (let* n := write_at_end (path f) b in io_ret (set_file true n f)) d
                else io_ret (set_file true l f) d
    | None => io_ret (set_file true l f) d
    end.
Definition get_active_file (f : MappedFile) (now : string) : io MappedFile :=
  let* _ := λ d, if is_full f d then backup_files f now d else io_ret () d in
  if file f then io_ret f
  else λ d, open_active (exists_ d (path f) && is_full f d) f d.

(** [flush]: a full file is closed. *)
Definition flush (f : MappedFile) (d : Disk) : MappedFile :=
  if file f then
    let closed := set_file false (len_ f) f in
    if is_full closed d then closed else set_file true (len_ f) f
  else f.

(** [write] of a buffer at the time [now]; an error leaves the state of the file as
    it was. *)
Definition write (f : MappedFile) (now buf : string) : io (MappedFile * Z) :=
  let* f := get_active_file f now in
  let* n := write_at_end (path f) buf in
  λ d,
    let f := set_file (file f) (len_ f + n) f in
    (d, Some (if is_full f d then flush f d else f, n)).

(** [create_dir_all] on the directory of the file. *)
Definition create_dir (dir : string) (d : Disk) : Disk :=
  if bool_decide (dir = "") then d else {| files := files d; dirs := {[ dir ]} ∪ dirs d |}.
Definition touch (f : MappedFile) (now : string) : io MappedFile := λ d,
  get_active_file f now (if exists_ d (path f) then d else create_dir (fst (path f)) d).
(** [remove_files]: the file is closed even if the others cannot be removed. *)
Definition remove_files (f : MappedFile) : MappedFile * io unit :=
  (set_file false (len_ f) f, let* fs := mapped_files f in remove_all fs).

(** A sequence of writes, each with its time; a failed one is reported and the next
    is tried. *)
Fixpoint writes (f : MappedFile) (ws : list (string * string)) (d : Disk) : MappedFile * Disk * list (option Z) :=
  match ws with
  | [] => (f, d, [])
  | (now, buf) :: ws =>
      let '(d, r) := write f now buf d in
      let '(f', n) := match r with Some (f', n) => (f', Some n) | None => (f, None) end in
      let '(f'', d', ns) := writes f' ws d in (f'', d', n :: ns)
  end.
