(* ===== verification/LogFileProps.v ===== *)
(** * Properties of rotated log files

    What a sequence of writes leaves on the disk, against an abstract log of segments;
    and when rotation loses what it should keep. *)

From S2P Require Import Prelude DomainMap Nom NomProps ConfigText Text Paths LogFile.
From Stdlib Require Import Ascii.

(** ** Names and their order *)

(** The characters of stems, extensions and times. *)
Definition name_char (c : ascii) : bool := negb (Ascii.eqb c ".") && negb (Ascii.eqb c "/").
Abbreviation plain_part s := (all_chars name_char s = true).

Definition active (base ext : string) : string := base +:+ "." +:+ ext.
Definition backup (base ext now : string) : string := base +:+ "-" +:+ now +:+ "." +:+ ext.

Lemma plain_no_dot s : plain_part s → all_chars (λ c, negb (Ascii.eqb c ".")) s = true.
Proof. apply all_chars_impl. intros c [H _]%andb_true_iff. done. Qed.
Lemma plain_no_slash s : plain_part s → all_chars (λ c, negb (Ascii.eqb c "/")) s = true.
Proof. apply all_chars_impl. intros c [_ H]%andb_true_iff. done. Qed.

Lemma file_name_plain (s : string) : all_chars (λ c, negb (Ascii.eqb c "/")) s = true → s ≠ "" → s ≠ "." → s ≠ ".." →
  file_name s = Some s.
Proof.
  intros Hs H1 H2 H3. unfold file_name, components. cbn [snd].
  assert (Hsp : split "/" s = [s]) by (apply (split_join "/" [s]); [done|by repeat constructor]).
  assert (Hn : normal_part s = true) by (unfold normal_part, non_empty; by rewrite !bool_decide_false).
  rewrite Hsp, (bool_decide_false (s = ".")) by done. cbn [List.filter]. rewrite Hn. cbn [app last].
  by rewrite !bool_decide_false.
Qed.

Lemma string_app_eq_nil (a b : string) : a +:+ b = "" → a = "" ∧ b = "".
Proof. destruct a; [done|]. rewrite string_app_cons. done. Qed.

Lemma dotted_name x z : plain_part x → all_chars (λ c, negb (Ascii.eqb c "/")) z = true → x ≠ "" →
  file_name (x +:+ "." +:+ z) = Some (x +:+ "." +:+ z).
Proof.
  intros Hx Hz Hne. destruct x as [|c x]; [done|]. cbn [all_chars] in Hx. apply andb_true_iff in Hx as [Hc Hx].
  apply file_name_plain.
  - rewrite string_app_cons. cbn [all_chars]. apply andb_true_iff in Hc as [_ ->]. rewrite !all_chars_app.
    by rewrite (plain_no_slash x), Hz.
  - by rewrite string_app_cons.
  - rewrite string_app_cons. intros [= -> _]. done.
  - rewrite string_app_cons. intros [= -> _]. done.
Qed.

(** The stem and the extension of a name of two parts. *)
Lemma name_parts x ext : plain_part x → plain_part ext → x ≠ "" →
  file_stem (x +:+ "." +:+ ext) = Some x ∧ extension (x +:+ "." +:+ ext) = Some ext.
Proof.
  intros Hx He Hne.
  assert (Hs : split "." (x +:+ "." +:+ ext) = [x; ext]).
  { apply (split_join "." [x; ext]); [done|]. repeat constructor; by apply plain_no_dot. }
  unfold file_stem, extension. rewrite dotted_name; [|done| |done]; [|by apply plain_no_slash].
  cbn [mbind option_bind]. rewrite Hs. cbn [removelast join last]. by rewrite bool_decide_false.
Qed.

Lemma stem_plain x : plain_part x → x ≠ "" → file_stem x = Some x.
Proof.
  intros Hx Hne. assert (Hs : split "." x = [x]).
  { apply (split_join "." [x]); [done|]. repeat constructor; by apply plain_no_dot. }
  unfold file_stem. rewrite file_name_plain; [cbn; by rewrite Hs|by apply plain_no_slash|done|by intros ->..].
Qed.

Lemma ascii_compare_refl c : Ascii.compare c c = Eq.
Proof. apply N.compare_refl. Qed.
Lemma compare_refl s : String.compare s s = Eq.
Proof. induction s as [|c s IH]; [done|]. cbn. by rewrite ascii_compare_refl. Qed.
Lemma compare_app p a b : String.compare (p +:+ a) (p +:+ b) = String.compare a b.
Proof.
  induction p as [|c p IH]; [done|]. rewrite !string_app_cons. cbn [String.compare].
  by rewrite ascii_compare_refl.
Qed.
Lemma compare_same_length a b x y : String.length a = String.length b → String.compare a b = Lt →
  String.compare (a +:+ x) (b +:+ y) = Lt.
Proof.
  revert b. induction a as [|c a IH]; intros [|c' b] Hl Hab; try done. rewrite !string_app_cons. cbn [String.compare] in *.
  destruct (Ascii.compare c c') eqn:E; [|done|done]. apply IH; [|done]. cbn in Hl. lia.
Qed.

(** The newest backup comes first, the active file before all. *)
Definition newer (a b : string) : Prop := String.compare b a = Lt.
Lemma newer_active base ext now : newer (active base ext) (backup base ext now).
Proof. unfold newer, active, backup. by rewrite compare_app. Qed.
Lemma newer_backup base ext s t : String.length s = String.length t → newer s t → newer (backup base ext s) (backup base ext t).
Proof.
  unfold newer, backup. intros Hl Hst. rewrite compare_app. change ("-" +:+ ?z) with (String "-" z). cbn [String.compare].
  change (Ascii.compare "-" "-") with Eq. cbv iota. by apply compare_same_length.
Qed.

#[export] Instance newer_trans : Transitive newer.
Proof.
  intros a b c. unfold newer. revert a b. induction c as [|x c IH]; intros [|y a] [|z b]; cbn; try done.
  destruct (Ascii.compare x z) eqn:E1, (Ascii.compare z y) eqn:E2; try done;
    repeat match goal with H : Ascii.compare _ _ = Eq |- _ => apply Ascii.compare_eq_iff in H; subst end;
    rewrite ?E1, ?E2, ?ascii_compare_refl; try done.
  - eauto.
  - assert (Ascii.compare x y = Lt) as ->; [|done]. unfold Ascii.compare in *. apply N.compare_lt_iff.
    by etrans; apply N.compare_lt_iff.
Qed.
Lemma newer_irrefl a : ¬ newer a a.
Proof. unfold newer. by rewrite compare_refl. Qed.

(** The order of [mapped_files]. *)
Definition not_older (a b : string) : Prop := String.compare b a ≠ Gt.
Lemma not_older_cases a b : not_older a b ↔ a = b ∨ newer a b.
Proof.
  unfold not_older, newer. destruct (String.compare b a) eqn:E.
  - apply String.compare_eq_iff in E. naive_solver.
  - naive_solver.
  - split; [done|]. intros [->|]; [by rewrite compare_refl in E|done].
Qed.
Lemma compare_gt_lt a b : String.compare a b = Gt → String.compare b a = Lt.
Proof. rewrite String.compare_antisym. by destruct (String.compare b a). Qed.
#[export] Instance not_older_trans : Transitive not_older.
Proof. intros a b c. rewrite !not_older_cases. intros [->|H1] [->|H2]; auto. right. by etrans. Qed.
#[export] Instance not_older_antisymm : AntiSymm (=) not_older.
Proof.
  intros a b. rewrite !not_older_cases. intros [?|H1] [?|H2]; auto. exfalso. eapply newer_irrefl. by etrans.
Qed.

Lemma prefix_app a b : String.prefix a (a +:+ b) = true.
Proof.
  induction a as [|c a IH]; [by destruct b|]. rewrite string_app_cons. cbn. by destruct (ascii_dec c c).
Qed.

Lemma bytes_app a b : bytes (a +:+ b) = (bytes a + bytes b)%Z.
Proof. unfold bytes. induction a as [|c a IH]; [done|]. rewrite string_app_cons. cbn [String.length]. lia. Qed.
Lemma bytes_nil s : bytes s = 0%Z ↔ s = "".
Proof. destruct s; unfold bytes; cbn; naive_solver lia. Qed.
Lemma bytes_nonneg s : (0 <= bytes s)%Z.
Proof. unfold bytes. lia. Qed.

(** ** The mapped files of a disk *)

Lemma newest_NoDup (l : list string) : StronglySorted newer l → NoDup l.
Proof.
  induction 1 as [|x l Hs IH Hx]; constructor; [|done]. intros Hin.
  eapply Forall_forall in Hin; [|done]. by apply newer_irrefl in Hin.
Qed.
Lemma read_dir_names dir d : dir ∈ dirs d → ∃ names, read_dir dir d = (d, Some names) ∧ NoDup names ∧
  ∀ name, name ∈ names ↔ is_Some (files d !! (dir, name)).
Proof.
  intros Hd. unfold read_dir. rewrite bool_decide_true by done. eexists. split; [done|]. split.
  - apply NoDup_fmap_2_strong.
    + intros [? x] [? y]. rewrite !list_elem_of_filter. cbn. naive_solver.
    + apply NoDup_filter, NoDup_fst_map_to_list.
  - intros name. rewrite list_elem_of_fmap. setoid_rewrite list_elem_of_filter. split.
    + intros ([dir' x] & -> & Hdir & ([? s] & Hs & Hin)%list_elem_of_fmap). cbn in *. subst.
      apply elem_of_map_to_list in Hin. by eexists.
    + intros [s Hs]. exists (dir, name). split_and!; [done..|]. apply list_elem_of_fmap. exists (dir, name, s).
      split; [done|]. by apply elem_of_map_to_list.
Qed.

(** The list is the mapped files of the directory, the last name first. *)
Lemma mapped_files_list dirn base e d f name :
  path f = (dirn, name) → file_stem name = Some base → extension name = e → dirn ∈ dirs d →
  ∃ l, mapped_files f d = (d, Some (pair dirn <$> l)) ∧ StronglySorted newer l ∧
    ∀ x, x ∈ l ↔ is_mapped base e x ∧ is_Some (files d !! (dirn, x)).
Proof.
  intros Hp Hst Hex Hd. unfold mapped_files. rewrite Hp. cbn [fst snd]. rewrite Hst, Hex.
  destruct (read_dir_names dirn d Hd) as (names & Hr & Hnd & Hin). unfold io_bind, io_ret. rewrite Hr.
  eexists. split; [done|]. set (l := List.filter _ names).
  assert (Hl : NoDup (sort_by name_cmp_desc l)).
  { rewrite sort_by_perm. apply NoDup_ListNoDup, List.NoDup_filter, NoDup_ListNoDup, Hnd. }
  split.
  - assert (Hs : StronglySorted not_older (sort_by name_cmp_desc l)).
    { apply Sorted_StronglySorted; [apply _|]. apply sort_by_sorted; unfold name_cmp_desc, not_older; [done|].
      intros a b E%compare_gt_lt. congruence. }
    induction Hs as [|x k Hk IH Hx]; [constructor|]. apply NoDup_cons in Hl as [Hnx Hl]. constructor; [auto|].
    rewrite Forall_forall in *. intros y Hy. destruct (proj1 (not_older_cases x y) (Hx y Hy)) as [->|]; done.
  - intros x. rewrite sort_by_perm. unfold l. rewrite list_elem_of_In, filter_In, <-list_elem_of_In, Hin, Is_true_true. naive_solver.
Qed.
Section rotation.
Context (dirn base ext : string) (Hbase : plain_part base) (Hne : base ≠ "") (Hext : plain_part ext).

Abbreviation act := (active base ext).
Abbreviation bak := (backup base ext).
Abbreviation mapped := (is_mapped base (Some ext)).

Lemma stem_active : file_stem act = Some base.
Proof. by apply name_parts. Qed.
Lemma ext_active : extension act = Some ext.
Proof. by apply name_parts. Qed.
Lemma dash_plain now : plain_part now → plain_part (base +:+ "-" +:+ now).
Proof. intros. by rewrite !all_chars_app, Hbase, H. Qed.
Lemma dash_ne now : base +:+ "-" +:+ now ≠ "".
Proof. by intros [? ?]%string_app_eq_nil. Qed.
Lemma bak_parts now : bak now = (base +:+ "-" +:+ now) +:+ "." +:+ ext.
Proof. unfold backup. by rewrite <-!string_app_assoc. Qed.
Lemma mapped_active : mapped act.
Proof. unfold is_mapped. rewrite ext_active, bool_decide_true by done. apply Is_true_true, prefix_app. Qed.
Lemma mapped_backup now : plain_part now → mapped (bak now).
Proof.
  intros Hn. unfold is_mapped. replace (String.prefix _ _) with true by (symmetry; apply prefix_app). rewrite bak_parts, andb_true_r.
  apply bool_decide_spec, name_parts; auto using dash_plain, dash_ne.
Qed.
Lemma backup_name_active now : plain_part now → backup_name act now = Some (bak now).
Proof.
  intros Hn. unfold backup_name. rewrite stem_active, ext_active. cbn. unfold with_extension. rewrite stem_plain, bak_parts; [done|by apply dash_plain|apply dash_ne].
Qed.

(** The disk [d] differs from [d0] only in the mapped files, which are those of [m]. *)
Definition in_log (p : fpath) : bool := bool_decide (fst p = dirn) && mapped (snd p).
Record shows (d0 d : Disk) (m : gmap string string) : Prop := {
  shows_dirs : dirs d = dirs d0;
  shows_dir : dirn ∈ dirs d;
  shows_files p : files d !! p = if in_log p then m !! snd p else files d0 !! p;
  shows_names name : is_Some (m !! name) → mapped name;
}.

Lemma in_log_name name : mapped name → in_log (dirn, name) = true.
Proof. intros H. unfold in_log. cbn. rewrite bool_decide_true by done. by apply Is_true_true. Qed.
Lemma shows_lookup d0 d m name : shows d0 d m → mapped name → files d !! (dirn, name) = m !! name.
Proof. intros Hs Hn. by rewrite (shows_files _ _ _ Hs), in_log_name. Qed.
Lemma shows_insert d0 d m name s : shows d0 d m → mapped name → shows d0 (set_files <[(dirn, name) := s]> d) (<[name := s]> m).
Proof.
  intros Hs Hn. split; try apply Hs.
  - intros [dir x]. cbn. rewrite lookup_insert. case_decide as Hp.
    + simplify_eq. by rewrite in_log_name, lookup_insert_eq.
    + rewrite (shows_files _ _ _ Hs). destruct (in_log (dir, x)) eqn:E; [|done]. cbn.
      rewrite lookup_insert_ne; [done|]. intros ->. apply andb_true_iff in E as [E%bool_decide_eq_true _]. cbn in E. congruence.
  - intros x. rewrite lookup_insert. case_decide; [by intros; simplify_eq|]. apply Hs.
Qed.
Lemma shows_delete d0 d m name : shows d0 d m → mapped name → shows d0 (set_files (delete (dirn, name)) d) (delete name m).
Proof.
  intros Hs Hn. split; try apply Hs.
  - intros [dir x]. cbn. rewrite lookup_delete. case_decide as Hp.
    + simplify_eq. by rewrite in_log_name, lookup_delete_eq.
    + rewrite (shows_files _ _ _ Hs). destruct (in_log (dir, x)) eqn:E; [|done]. cbn.
      rewrite lookup_delete_ne; [done|]. intros ->. apply andb_true_iff in E as [E%bool_decide_eq_true _]. cbn in E. congruence.
  - intros x. rewrite lookup_delete. case_decide; [by intros [? ?]|]. apply Hs.
Qed.
Lemma shows_can_create d0 d m name : shows d0 d m → can_create d (dirn, name) = true.
Proof. intros Hs. unfold can_create. cbn. rewrite (bool_decide_true (_ ∈ _)) by apply Hs. by rewrite orb_true_r. Qed.

(** Kept files, the newest first. *)
Definition newest_first (kept : list (string * string)) : Prop := StronglySorted newer kept.*1.

Lemma mapped_files_spec d f : path f = (dirn, act) → dirn ∈ dirs d →
  ∃ l, mapped_files f d = (d, Some (pair dirn <$> l)) ∧ StronglySorted newer l ∧
    ∀ x, x ∈ l ↔ mapped x ∧ is_Some (files d !! (dirn, x)).
Proof. intros Hp Hd. eapply mapped_files_list; [done|apply stem_active|apply ext_active|done]. Qed.
Lemma newest_unique l k : StronglySorted newer l → StronglySorted newer k → (∀ x, x ∈ l ↔ x ∈ k) → l = k.
Proof.
  intros Hl Hk E. eapply (StronglySorted_unique_strong newer); [|done|done|].
  - intros x y _ _ Hxy Hyx. exfalso. eapply newer_irrefl. by etrans.
  - by apply NoDup_Permutation; [apply newest_NoDup..|].
Qed.

Lemma mapped_files_shown d0 d f kept :
  path f = (dirn, act) → shows d0 d (list_to_map kept) → newest_first kept →
  mapped_files f d = (d, Some (pair dirn <$> kept.*1)).
Proof.
  intros Hp Hs Hk. destruct (mapped_files_spec d f Hp) as (l & Hl & Hsort & Hin); [apply Hs|]. rewrite Hl. do 3 f_equal.
  apply newest_unique; [done|done|]. intros x. rewrite Hin. split.
  - intros [Hm [s Hx]]. rewrite (shows_lookup _ _ _ _ Hs) in Hx by done.
    apply elem_of_list_to_map_2 in Hx. apply list_elem_of_fmap. by exists (x, s).
  - intros ([x' s] & -> & Hx)%list_elem_of_fmap. cbn. apply elem_of_list_to_map_1 in Hx; [|by apply newest_NoDup].
    assert (Hm : mapped x') by (eapply shows_names; [done|by eexists]). split; [done|].
    rewrite (shows_lookup _ _ _ _ Hs) by done. by eexists.
Qed.

(** Removing the files after the first ones. *)
Lemma remove_all_shown d0 k1 k2 : NoDup (k1 ++ k2).*1 → ∀ d, shows d0 d (list_to_map (k1 ++ k2)) →
  ∃ d', remove_all (pair dirn <$> k2.*1) d = (d', Some ()) ∧ shows d0 d' (list_to_map k1).
Proof.
  induction k2 as [|[x s] k2 IH]; intros Hnd d Hs; [rewrite app_nil_r in Hs; by eexists|].
  assert (Hp : k1 ++ (x, s) :: k2 ≡ₚ (x, s) :: k1 ++ k2) by by rewrite Permutation_middle.
  assert (Hm : (list_to_map (k1 ++ (x, s) :: k2) : gmap string string) = <[x := s]> (list_to_map (k1 ++ k2)))
    by (by apply (list_to_map_proper _ _ Hnd) in Hp).
  rewrite Hp in Hnd. apply NoDup_cons in Hnd as [Hx Hnd].
  assert (Hmap : mapped x) by (eapply shows_names; [done|]; rewrite Hm; by rewrite lookup_insert_eq).
  cbn. unfold io_bind, remove_file, exists_. rewrite bool_decide_true.
  - apply IH; [done|]. apply (shows_delete _ _ _ x) in Hs; [|done]. rewrite Hm, delete_insert_id in Hs; [done|].
    by apply not_elem_of_list_to_map_1.
  - rewrite (shows_lookup _ _ _ _ Hs), Hm, lookup_insert_eq by done. by eexists.
Qed.

(** ** A write against the abstract log *)

Context (n : nat) (sz : Z) (pre : option string) (Hn : 1 <= n) (Hsz : (0 < sz)%Z).

(** The segments of a log, the newest first: a chunk goes to the newest one until it is
    full, then to a new one after the preamble. *)
Definition step (segs : list string) (b : string) : list string :=
  match segs with
  | cur :: old => if (sz <=? bytes cur)%Z then (default "" pre +:+ b) :: segs else (cur +:+ b) :: old
  | [] => [default "" pre +:+ b]
  end.

Record configured (f : MappedFile) : Prop := {
  conf_path : path f = (dirn, act); conf_num : num f = Some n; conf_size : size f = sz; conf_pre : peamble_bytes f = pre }.

Context (tl : nat).
Definition stamp (t : string) : Prop := plain_part t ∧ String.length t = tl.

(** The active file and its backups. *)
Definition kept_files (cur : string) (old stamps : list string) : list (string * string) :=
  (act, cur) :: zip (bak <$> stamps) (take (n - 1) old).
Record keeps (d0 d : Disk) (cur : string) (old stamps : list string) : Prop := {
  keeps_shows : shows d0 d (list_to_map (kept_files cur old stamps));
  keeps_length : length stamps = length (take (n - 1) old);
  keeps_stamps : Forall stamp stamps;
  keeps_sorted : StronglySorted newer stamps;
  keeps_pre : cur = "" → default "" pre = "";
}.

Lemma backups_sorted stamps : Forall stamp stamps → StronglySorted newer stamps → StronglySorted newer (act :: (bak <$> stamps)).
Proof.
  intros Hs Hsorted. constructor.
  - induction Hsorted as [|t l Hl IH Ht]; [constructor|]. apply Forall_cons in Hs as [[_ Hlen] Hs]. constructor; [auto|].
    apply Forall_fmap. rewrite Forall_forall in *. intros u Hu. apply newer_backup; [|auto].
    destruct (Hs u Hu) as [_ ?]. congruence.
  - apply Forall_fmap, Forall_forall. intros. apply newer_active.
Qed.
Lemma kept_names d0 d cur old stamps : keeps d0 d cur old stamps → (kept_files cur old stamps).*1 = act :: (bak <$> stamps).
Proof. intros H. cbn. f_equal. apply fst_zip. rewrite length_fmap. pose proof (keeps_length _ _ _ _ _ H). lia. Qed.
Lemma keeps_newest_first d0 d cur old stamps : keeps d0 d cur old stamps → newest_first (kept_files cur old stamps).
Proof. intros H. unfold newest_first. rewrite (kept_names _ _ _ _ _ H). by apply backups_sorted; apply H. Qed.

Lemma shows_set d0 d c c' r :
  shows d0 d (list_to_map ((act, c) :: r)) → shows d0 (set_files <[(dirn, act) := c']> d) (list_to_map ((act, c') :: r)).
Proof. intros H. apply (shows_insert _ _ _ act c') in H; [|apply mapped_active]. cbn in *. by rewrite insert_insert_eq in H. Qed.
Lemma shows_active d0 d c r : shows d0 d (list_to_map ((act, c) :: r)) → files d !! (dirn, act) = Some c.
Proof. intros H. rewrite (shows_lookup _ _ _ _ H mapped_active). apply lookup_insert_eq. Qed.

(** What a rotation keeps: the file itself and the newest backups. *)
Lemma kept_rotated cur old stamps now :
  take n ((act, cur) :: (bak now, cur) :: zip (bak <$> stamps) (take (n - 1) old))
  = kept_files cur (cur :: old) (take (n - 1) (now :: stamps)).
Proof.
  unfold kept_files. destruct n as [|[|m]]; [lia|done|]. cbn [take Nat.sub zip_with fmap list_fmap]. do 2 f_equal.
  rewrite zip_with_take, take_take, <-fmap_take. do 2 f_equal. lia.
Qed.

Lemma backup_files_keeps d0 d f cur old stamps now :
  configured f → keeps d0 d cur old stamps → stamp now → Forall (newer now) stamps →
  ∃ d', backup_files f now d = (d', Some ()) ∧
    shows d0 d' (list_to_map (kept_files cur (cur :: old) (take (n - 1) (now :: stamps)))).
Proof.
  intros Hf Hk Hnow Hlt. pose proof (keeps_shows _ _ _ _ _ Hk) as Hs.
  set (d1 := set_files <[(dirn, bak now) := cur]> d).
  set (kept := (act, cur) :: (bak now, cur) :: zip (bak <$> stamps) (take (n - 1) old)).
  assert (Hsort : newest_first kept).
  { unfold newest_first, kept. cbn. rewrite fst_zip by (rewrite length_fmap; pose proof (keeps_length _ _ _ _ _ Hk); lia).
    change (bak now :: (bak <$> stamps)) with (bak <$> now :: stamps). apply backups_sorted; constructor; by try apply Hk. }
  assert (Hs1 : shows d0 d1 (list_to_map kept)).
  { apply (shows_insert _ _ _ (bak now) cur) in Hs; [|by apply mapped_backup, Hnow]. cbn in *.
    rewrite insert_insert_ne in Hs; [done|]. intros E. pose proof (newer_active base ext now) as Hact. rewrite E in Hact.
    by apply newer_irrefl in Hact. }
  unfold backup_files. rewrite (conf_path _ Hf), (conf_num _ Hf). cbn [fst snd].
  rewrite backup_name_active by apply Hnow. unfold io_bind at 1, copy. cbv beta. rewrite (shows_active _ _ _ _ Hs).
  rewrite (shows_can_create _ _ _ _ Hs). fold d1. cbv beta iota. unfold io_bind.
  rewrite (mapped_files_shown d0 d1 f kept); [|apply Hf|done|done].
  rewrite <-kept_rotated. fold kept. rewrite !length_fmap. rewrite <-!fmap_drop.
  case_bool_decide as Hlen.
  - apply remove_all_shown; rewrite take_drop; [by apply newest_NoDup|done].
  - rewrite take_ge by lia. by eexists.
Qed.

(** The file is open on the newest segment. *)
Record opened (f : MappedFile) (cur : string) : Prop := {
  opened_conf : configured f; opened_file : file f = true; opened_len : len_ f = bytes cur }.
Lemma set_file_configured b l f : configured f → configured (set_file b l f).
Proof. intros [? ? ? ?]. by split. Qed.

(** The state of the file between writes. *)
Inductive holds (d0 d : Disk) (f : MappedFile) : list string → list string → Prop :=
  | holds_none : configured f → file f = false → len_ f = 0%Z → shows d0 d ∅ → holds d0 d f [] []
  | holds_some cur old stamps :
      configured f → keeps d0 d cur old stamps → len f d = bytes cur → (file f = true → (bytes cur < sz)%Z) →
      holds d0 d f (cur :: old) stamps.

Lemma open_active_shown d0 d d1 f trunc c r :
  configured f → open_file trunc (dirn, act) d = (d1, Some ()) → shows d0 d1 (list_to_map ((act, c) :: r)) →
  let c' := if bool_decide (c = "") then default "" pre else c in
  ∃ f' d', open_active trunc f d = (d', Some f') ∧ opened f' c' ∧ shows d0 d' (list_to_map ((act, c') :: r)).
Proof.
  intros Hf Ho Hs. unfold open_active, io_bind at 1. rewrite (conf_path _ Hf), Ho, (conf_pre _ Hf).
  unfold metadata_len. rewrite (shows_active _ _ _ _ Hs). cbn [fmap option_fmap option_map default].
  case_bool_decide as Hc; destruct pre as [b|]; cbn [default].
  - subst. eexists _, _. split; [done|]. split; [by split; [apply set_file_configured|..]|].
    unfold write_at_end. rewrite (shows_active _ _ _ _ Hs). by apply (shows_set _ _ _ b) in Hs.
  - subst. eexists _, _. split; [done|]. split; [by split; [apply set_file_configured|..]|done].
  - change (id (bytes c)) with (bytes c). assert ((bytes c =? 0)%Z = false) as -> by (by rewrite Z.eqb_neq, bytes_nil).
    eexists _, _. split; [done|]. split; [by split; [apply set_file_configured|..]|done].
  - eexists _, _. split; [done|]. split; [by split; [apply set_file_configured|..]|done].
Qed.

Lemma get_active_file_eq f now d d' :
  (if is_full f d then backup_files f now d else (d, Some ())) = (d', Some ()) →
  get_active_file f now d = if file f then (d', Some f) else open_active (exists_ d' (path f) && is_full f d') f d'.
Proof.
  intros H. unfold get_active_file, io_bind at 1. unfold io_ret at 1. rewrite H. by destruct (file f).
Qed.

Lemma is_full_open f d cur : opened f cur → is_full f d = (sz <=? bytes cur)%Z.
Proof.
  intros Ho. unfold is_full, len. rewrite (opened_file _ _ Ho), orb_true_r, (opened_len _ _ Ho).
  by rewrite (conf_size _ (opened_conf _ _ Ho)).
Qed.

(** The file is ready for the next chunk: there was none, it was full, or it had room. *)
Definition ready d0 d f segs stamps now : Prop :=
  ∃ f' d' cur old stamps', get_active_file f now d = (d', Some f') ∧ opened f' cur ∧ keeps d0 d' cur old stamps' ∧
    stamps' ⊆ now :: stamps ∧ ∀ b, step segs b = (cur +:+ b) :: old.

Lemma ready_none d0 d f now : configured f → file f = false → len_ f = 0%Z → shows d0 d ∅ → ready d0 d f [] [] now.
Proof.
  intros Hf Hfile Hlen Hs.
  assert (Hnone : files d !! (dirn, act) = None) by by rewrite (shows_lookup _ _ _ _ Hs mapped_active).
  assert (Hfull : is_full f d = false).
  { unfold is_full, len. rewrite Hfile, Hlen, (conf_path _ Hf), (conf_size _ Hf). unfold metadata_len. rewrite Hnone. cbn. lia. }
  unfold ready. rewrite (get_active_file_eq _ _ _ d) by by rewrite Hfull. rewrite Hfile, Hfull, andb_false_r.
  destruct (open_active_shown d0 d (set_files <[(dirn, act) := ""]> d) f false "" []) as (f' & d' & Ho & Hop & Hs'); [done|..].
  - unfold open_file. rewrite Hnone, (shows_can_create _ _ _ _ Hs). done.
  - apply shows_insert; [done|apply mapped_active].
  - rewrite bool_decide_true in * by done. eexists f', d', _, [], []. split; [done|]. split; [done|].
    split; [|split; [apply list_subseteq_nil|done]]. split; [done|by rewrite take_nil|constructor..|done].
Qed.

Lemma ready_full d0 d f cur old stamps now :
  configured f → keeps d0 d cur old stamps → file f = false → len f d = bytes cur → (sz <=? bytes cur)%Z = true →
  stamp now → Forall (newer now) stamps → ready d0 d f (cur :: old) stamps now.
Proof.
  intros Hf Hk Hfile Hlen Hc Hnow Hlt. pose proof (keeps_shows _ _ _ _ _ Hk) as Hs.
  assert (Hfull : is_full f d = true) by (unfold is_full; by rewrite Hlen, (conf_size _ Hf)).
  destruct (backup_files_keeps d0 d f cur old stamps now) as (d1 & Hb & Hs1); [done..|].
  assert (Hfull1 : exists_ d1 (path f) && is_full f d1 = true).
  { unfold exists_, is_full, len, metadata_len in *. rewrite Hfile, (conf_path _ Hf) in *.
    rewrite (shows_active _ _ _ _ Hs1). rewrite (shows_active _ _ _ _ Hs) in Hfull. by rewrite bool_decide_true by by eexists. }
  unfold ready. rewrite (get_active_file_eq _ _ _ d1) by by rewrite Hfull. rewrite Hfile, Hfull1.
  destruct (open_active_shown d0 d1 (set_files <[(dirn, act) := ""]> d1) f true ""
    (zip (bak <$> take (n - 1) (now :: stamps)) (take (n - 1) (cur :: old)))) as (f' & d' & Ho & Hop & Hs'); [done|..].
  - unfold open_file. by rewrite (shows_active _ _ _ _ Hs1).
  - by eapply shows_set.
  - rewrite bool_decide_true in * by done.
    eexists f', d', _, (cur :: old), (take (n - 1) (now :: stamps)). split; [done|]. split; [done|].
    split; [split; [done|..]|split; [apply subseteq_take|intros b; unfold step; by rewrite Hc]].
    + rewrite !length_take. cbn. pose proof (keeps_length _ _ _ _ _ Hk) as Hkl. rewrite length_take in Hkl. lia.
    + apply Forall_take. constructor; [done|apply Hk].
    + eapply StronglySorted_app_1_l. rewrite take_drop. constructor; [apply Hk|done].
    + done.
Qed.

Lemma ready_room d0 d f cur old stamps now :
  configured f → keeps d0 d cur old stamps → len f d = bytes cur → (sz <=? bytes cur)%Z = false →
  ready d0 d f (cur :: old) stamps now.
Proof.
  intros Hf Hk Hlen Hc. pose proof (keeps_shows _ _ _ _ _ Hk) as Hs.
  assert (Hfull : is_full f d = false) by (unfold is_full; by rewrite Hlen, (conf_size _ Hf)).
  unfold ready. rewrite (get_active_file_eq _ _ _ d) by by rewrite Hfull. rewrite Hfull, andb_false_r.
  assert (Hstep : ∀ b, step (cur :: old) b = (cur +:+ b) :: old) by (intros b; unfold step; by rewrite Hc).
  destruct (file f) eqn:Hfile.
  - exists f, d, cur, old, stamps. split; [done|]. split; [split; [done|done|]|split; [done|split; [set_solver|done]]].
    unfold len in Hlen. by rewrite Hfile, orb_true_r in Hlen.
  - destruct (open_active_shown d0 d (set_files <[(dirn, act) := cur]> d) f false cur
      (zip (bak <$> stamps) (take (n - 1) old))) as (f' & d' & Ho & Hop & Hs'); [done|..].
    + unfold open_file. by rewrite (shows_active _ _ _ _ Hs).
    + by eapply shows_set.
    + assert (Hcc : (if bool_decide (cur = "") then default "" pre else cur) = cur).
      { case_bool_decide as E; [|done]. by rewrite (keeps_pre _ _ _ _ _ Hk E). }
      rewrite Hcc in *. exists f', d', cur, old, stamps. split; [done|]. split; [done|].
      split; [split; try apply Hk; done|split; [set_solver|done]].
Qed.

Lemma holds_ready d0 d f segs stamps now : holds d0 d f segs stamps → stamp now → Forall (newer now) stamps →
  ready d0 d f segs stamps now.
Proof.
  intros [Hf Hfile Hlen Hs|cur old stamps' Hf Hk Hlen Hopen] Hnow Hlt; [by apply ready_none|].
  destruct (sz <=? bytes cur)%Z eqn:Hc; [|by apply ready_room]. apply ready_full; try done.
  destruct (file f); [specialize (Hopen eq_refl); lia|done].
Qed.

Lemma len_closed f d l : (0 < l)%Z → len (set_file false l f) d = l.
Proof. intros Hl. unfold len. cbn. by rewrite (proj2 (Z.ltb_lt 0 l)). Qed.
Lemma flush_full f d cur : opened f cur → (sz <=? bytes cur)%Z = true → flush f d = set_file false (bytes cur) f.
Proof.
  intros Ho Hc. unfold flush. rewrite (opened_file _ _ Ho), (opened_len _ _ Ho). unfold is_full.
  rewrite len_closed by lia. cbn [size set_file]. by rewrite (conf_size _ (opened_conf _ _ Ho)), Hc.
Qed.

(** A write appends its chunk and closes the file when it is full. *)
Lemma write_holds d0 d f segs stamps now b : holds d0 d f segs stamps → stamp now → Forall (newer now) stamps →
  ∃ f' d' stamps', write f now b d = (d', Some (f', bytes b)) ∧ holds d0 d' f' (step segs b) stamps' ∧ stamps' ⊆ now :: stamps.
Proof.
  intros Hh Hnow Hlt. destruct (holds_ready _ _ _ _ _ _ Hh Hnow Hlt) as (f1 & d1 & cur & old & st & Hg & Ho & Hk & Hst & ->).
  pose proof (keeps_shows _ _ _ _ _ Hk) as Hs. set (d2 := set_files <[(dirn, act) := cur +:+ b]> d1).
  set (f2 := set_file true (len_ f1 + bytes b) f1).
  assert (Ho2 : opened f2 (cur +:+ b)).
  { split; [apply set_file_configured, Ho|done|]. cbn. by rewrite bytes_app, (opened_len _ _ Ho). }
  assert (Hk2 : keeps d0 d2 (cur +:+ b) old st).
  { split; try apply Hk; [by eapply shows_set|]. intros [E _]%string_app_eq_nil. by apply Hk. }
  assert (Hw : write f now b d = (d2, Some (if is_full f2 d2 then flush f2 d2 else f2, bytes b))).
  { unfold write, io_bind. rewrite Hg. unfold write_at_end. rewrite (conf_path _ (opened_conf _ _ Ho)), (shows_active _ _ _ _ Hs).
    by rewrite (opened_file _ _ Ho). }
  eexists _, d2, st. split; [exact Hw|]. split; [|done].
  assert (Hl2 : len f2 d2 = bytes (cur +:+ b)) by (unfold len; cbn; rewrite orb_true_r; apply Ho2).
  pose proof (is_full_open f2 d2 _ Ho2) as Hfull2. destruct (is_full f2 d2).
  - rewrite (flush_full _ _ _ Ho2) by done. constructor; [apply set_file_configured, Ho2|done| |done]. apply len_closed. lia.
  - constructor; [apply Ho2|done|done|]. lia.
Qed.

(** Writes at increasing times. *)
Definition in_order (ws : list (string * string)) : Prop := Forall stamp ws.*1 ∧ StronglySorted (flip newer) ws.*1.

Lemma writes_holds d0 ws : in_order ws → ∀ d f segs stamps, holds d0 d f segs stamps →
  Forall (λ w, Forall (newer w) stamps) ws.*1 →
  ∃ f' d' stamps', writes f ws d = (f', d', (λ w, Some (bytes w.2)) <$> ws) ∧ holds d0 d' f' (foldl step segs ws.*2) stamps' ∧
    stamps' ⊆ ws.*1 ++ stamps.
Proof.
  unfold in_order. induction ws as [|[now b] ws IH]; intros [Hst Hs] d f segs stamps Hh Hlt.
  - eexists f, d, stamps. split; [done|]. split; [done|]. set_solver.
  - cbn in *. apply Forall_cons in Hst as [Hnow Hst]. apply StronglySorted_cons in Hs as [Hnext Hs].
    apply Forall_cons in Hlt as [Hltn Hlt].
    destruct (write_holds d0 d f segs stamps now b) as (f1 & d1 & st1 & Hw & Hh1 & Hsub1); [done..|]. rewrite Hw.
    destruct (IH (conj Hst Hs) d1 f1 (step segs b) st1) as (f2 & d2 & st2 & Hw2 & Hh2 & Hsub2); [done|..].
    + rewrite Forall_forall in *. intros w Hin. apply Forall_forall. intros t [->|Ht]%Hsub1%elem_of_cons.
      * by apply Hnext.
      * by eapply (proj1 (Forall_forall _ _)), Ht; apply Hlt.
    + rewrite Hw2. eexists _, _, st2. split; [done|]. split; [done|]. set_solver.
Qed.

(** A program that is started again opens the files it left. *)
Definition log_file (mode : option Z) : MappedFile := set_peamble pre (open (dirn, act) sz (Some n) mode).
Fixpoint sessions (f : MappedFile) (wss : list (list (string * string))) (d : Disk) : Disk * list (option Z) :=
  match wss with
  | [] => (d, [])
  | ws :: wss =>
      let '(_, d, rs) := writes f ws d in
      let '(d, rs') := sessions f wss d in (d, rs ++ rs')
  end.

Lemma log_file_configured md : configured (log_file md).
Proof. done. Qed.
Lemma reopen_holds md d0 d f segs stamps : holds d0 d f segs stamps → holds d0 d (log_file md) segs stamps.
Proof.
  intros [Hf Hfile Hlen Hs|cur old stamps' Hf Hk Hlen Hopen]; [by constructor|].
  constructor; try done. unfold len. cbn. unfold metadata_len. by rewrite (shows_active _ _ _ _ (keeps_shows _ _ _ _ _ Hk)).
Qed.

Lemma sessions_holds md d0 wss : in_order (concat wss) → ∀ d segs stamps, holds d0 d (log_file md) segs stamps →
  Forall (λ w, Forall (newer w) stamps) (concat wss).*1 →
  ∃ d' stamps', sessions (log_file md) wss d = (d', (λ w, Some (bytes w.2)) <$> concat wss) ∧
    holds d0 d' (log_file md) (foldl step segs (concat wss).*2) stamps'.
Proof.
  induction wss as [|ws wss IH]; intros Ho d segs stamps Hh Hlt; [by eexists _, _|].
  unfold in_order in *. cbn [concat] in *. rewrite !fmap_app in *. rewrite Forall_app, StronglySorted_app in Ho.
  destruct Ho as ([Ht1 Ht2] & Hlt12 & Hs1 & Hs2). apply Forall_app in Hlt as [Hl1 Hl2].
  destruct (writes_holds d0 ws (conj Ht1 Hs1) d _ segs stamps Hh Hl1) as (f1 & d1 & st1 & Hw & Hh1 & Hsub).
  cbn. rewrite Hw. destruct (IH (conj Ht2 Hs2) d1 (foldl step segs ws.*2) st1) as (d2 & st2 & Hw2 & Hh2).
  - by eapply reopen_holds.
  - rewrite Forall_forall in *. intros w Hin. apply Forall_forall. intros t [Ht|Ht]%Hsub%elem_of_app; [by apply Hlt12|].
    by eapply (proj1 (Forall_forall _ _)), Ht; apply Hl2.
  - rewrite Hw2. eexists _, st2. rewrite foldl_app. done.
Qed.

(** What a reader of the directory finds. *)
Lemma holds_contents d0 d f segs stamps : holds d0 d f segs stamps → (∀ name, mapped name → files d0 !! (dirn, name) = None) →
  ∃ ps, mapped_files f d = (d, Some ps) ∧ ((files d !!.) <$> ps) = Some <$> take n segs ∧
    ∀ p, p ∉ ps → files d !! p = files d0 !! p.
Proof.
  intros Hh Hnone.
  assert (∃ kept, path f = (dirn, act) ∧ shows d0 d (list_to_map kept) ∧ newest_first kept ∧ kept.*2 = take n segs)
    as (kept & Hp & Hs & Hk & <-).
  { destruct Hh as [Hf ? ? Hs|cur old stamps Hf Hk ? ?].
    - exists []. rewrite take_nil. split; [apply Hf|]. split; [done|]. split; [constructor|done].
    - exists (kept_files cur old stamps). split; [apply Hf|]. split; [apply Hk|]. split; [by eapply keeps_newest_first|].
      unfold kept_files. cbn. rewrite snd_zip by (rewrite length_fmap, (keeps_length _ _ _ _ _ Hk); done).
      destruct n; [lia|]. cbn. by rewrite Nat.sub_0_r. }
  exists (pair dirn <$> kept.*1). split; [by eapply mapped_files_shown|]. pose proof (newest_NoDup _ Hk) as Hnd. split.
  - rewrite <-!list_fmap_compose. apply list_fmap_ext. intros i [x s] Hi%list_elem_of_lookup_2. cbn.
    apply elem_of_list_to_map_1 in Hi; [|done]. rewrite (shows_lookup _ _ _ _ Hs); [done|]. eapply shows_names; [done|by eexists].
  - intros [dir x] Hx. rewrite (shows_files _ _ _ Hs). destruct (in_log (dir, x)) eqn:E; [|done]. cbn.
    apply andb_true_iff in E as [E1%bool_decide_eq_true E2%Is_true_true]. cbn in *. subst dir. rewrite Hnone by done.
    apply not_elem_of_list_to_map_1. contradict Hx. by apply list_elem_of_fmap_2.
Qed.
End rotation.

(** ** What rotation keeps *)

Lemma log_contents dirn base ext n sz pre mode tl d wss :
  plain_part base → base ≠ "" → plain_part ext → 1 <= n → (0 < sz)%Z →
  dirn ∈ dirs d → (∀ name, is_mapped base (Some ext) name → files d !! (dirn, name) = None) →
  in_order tl (concat wss) →
  let f := log_file dirn base ext n sz pre mode in
  let '(d', rs) := sessions f wss d in
  rs = (λ w, Some (bytes w.2)) <$> concat wss ∧
  ∃ ps, mapped_files f d' = (d', Some ps) ∧
    ((files d' !!.) <$> ps) = Some <$> take n (foldl (step sz pre) [] (concat wss).*2) ∧
    ∀ p, p ∉ ps → files d' !! p = files d !! p.
Proof.
  intros Hb Hne He Hn Hsz Hd Hnone Ho f.
  assert (Hh : holds dirn base ext n sz pre tl d d f [] []).
  { constructor; try done. split; [done|done| |by intros ? [? ?%lookup_empty_Some]]. intros [dir x]. unfold in_log. cbn.
    case_bool_decide as E; [|done]. subst. cbn. destruct (is_mapped base (Some ext) x) eqn:Em; [|done]. apply Hnone. by rewrite Em. }
  destruct (sessions_holds dirn base ext Hb Hne He n sz pre Hn Hsz tl mode d wss Ho d [] [] Hh) as (d' & st & Hs & Hh').
  { apply Forall_forall. intros. constructor. }
  fold f in Hs, Hh'. rewrite Hs. split; [done|]. eapply holds_contents; [exact Hb|exact Hne|exact He|exact Hn|exact Hh'|exact Hnone].
Qed.

(** C27. Chunks written by any number of runs of the program, at increasing times, to a log
    with room for [n] files, under these conditions: stem and extension are plain, without
    dots, the directory is there, and before the first run no file in it is taken for one
    of the log's - none has the extension and a name that begins with the stem.  Then every
    write takes its whole chunk, and in the end the mapped files are the newest [n] segments
    of the abstract log, the newest first, and no other file of the disk has changed. *)
Theorem log_rotation dirn base ext n sz pre mode tl d wss :
  plain_part base → base ≠ "" → plain_part ext → 1 <= n → (0 < sz)%Z →
  dirn ∈ dirs d → (∀ name, is_mapped base (Some ext) name → files d !! (dirn, name) = None) →
  in_order tl (concat wss) →
  let f := log_file dirn base ext n sz pre mode in
  let '(d', rs) := sessions f wss d in
  rs = (λ w, Some (bytes w.2)) <$> concat wss ∧
  ∃ ps, mapped_files f d' = (d', Some ps) ∧
    ((files d' !!.) <$> ps) = Some <$> take n (foldl (step sz pre) [] (concat wss).*2) ∧
    ∀ p, p ∉ ps → files d' !! p = files d !! p.
Proof. apply log_contents. Qed.

Lemma log_rotation_witness :
  let d := {| files := {[ ("/var/log", "other.log") := "x" ]}; dirs := {[ "/var/log" ]} |} in
  let f := log_file "/var/log" "smartdns" "log" 2 4 (Some "#") None in
  let wss := [[("1", "abc"); ("2", "ef")]; [("3", "g"); ("4", "i")]] in
  ∃ ps, let d' := fst (sessions f wss d) in
    mapped_files f d' = (d', Some ps) ∧ ((files d' !!.) <$> ps) = [Some "#i"; Some "#efg"].
Proof.
  intros d f wss.
  assert (Hs : ∀ x, is_mapped "smartdns" (Some "log") x → files d !! ("/var/log", x) = None).
  { intros x Hx. destruct (decide (x = "other.log")) as [->|E]; [done|]. apply lookup_singleton_None. congruence. }
  assert (Ho : in_order 1 (concat wss)) by (split; repeat constructor).
  pose proof (log_rotation "/var/log" "smartdns" "log" 2 4 (Some "#") None 1 d wss eq_refl ltac:(done) eq_refl
    ltac:(lia) eq_refl ltac:(set_solver) Hs Ho) as H.
  fold f in H. cbv zeta in H. destruct (sessions f wss d) as [d' rs]. destruct H as (_ & ps & H1 & H2 & _). by exists ps.
Defined.

(** *** The abstract log *)

Abbreviation texts := (foldr String.append "").

Lemma texts_app l k : texts (l ++ k) = texts l +:+ texts k.
Proof. induction l as [|x l IH]; [done|]. cbn. by rewrite IH, string_app_assoc. Qed.
Lemma bytes_texts_ge sz l : (0 <= sz)%Z → Forall (λ s, (sz <= bytes s)%Z) l → (Z.of_nat (length l) * sz <= bytes (texts l))%Z.
Proof. intros Hsz. induction 1 as [|x l Hx Hl IH]; cbn; [done|]. rewrite bytes_app. cbn [length]. nia. Qed.
Lemma bytes_texts_reverse l : bytes (texts (reverse l)) = bytes (texts l).
Proof. induction l as [|x l IH]; [done|]. rewrite reverse_cons, texts_app, !bytes_app, IH. cbn [foldr]. rewrite string_app_nil_r, bytes_app. lia. Qed.

(** No chunk is lost or split by the abstract log, and only full segments are left. *)
Lemma step_texts sz bs segs : texts (reverse (foldl (step sz None) segs bs)) = texts (reverse segs) +:+ texts bs.
Proof.
  revert segs. induction bs as [|b bs IH]; intros segs; cbn [foldl foldr]; [by rewrite string_app_nil_r|]. rewrite IH.
  destruct segs as [|cur old]; [by cbn; rewrite !string_app_nil, string_app_nil_r|]. unfold step. destruct (sz <=? bytes cur)%Z.
  - rewrite (reverse_cons (cur :: old)), texts_app. cbn [foldr]. by rewrite string_app_assoc, string_app_nil_r.
  - rewrite !reverse_cons, !texts_app. cbn [foldr]. by rewrite !string_app_nil_r, !string_app_assoc.
Qed.
Lemma step_full sz pre bs segs : Forall (λ s, (sz <= bytes s)%Z) (tail segs) →
  Forall (λ s, (sz <= bytes s)%Z) (tail (foldl (step sz pre) segs bs)).
Proof.
  revert segs. induction bs as [|b bs IH]; intros segs H; cbn; [done|]. apply IH.
  destruct segs as [|cur old]; [done|]. unfold step. destruct (sz <=? bytes cur)%Z eqn:E; [|done].
  constructor; [lia|done].
Qed.

(** Without a preamble, the mapped files, oldest first, hold the end of everything that
    was ever written; there are at most [n] of them, and if anything was dropped they
    hold at least the [n - 1] full segments before the newest one. *)
Theorem log_keeps_tail dirn base ext n sz mode tl d wss :
  plain_part base → base ≠ "" → plain_part ext → 1 <= n → (0 < sz)%Z →
  dirn ∈ dirs d → (∀ name, is_mapped base (Some ext) name → files d !! (dirn, name) = None) →
  in_order tl (concat wss) →
  let f := log_file dirn base ext n sz None mode in
  let d' := fst (sessions f wss d) in
  ∃ ps lost, mapped_files f d' = (d', Some ps) ∧ length ps <= n ∧
    let kept := texts (reverse ((λ p, default "" (files d' !! p)) <$> ps)) in
    texts (concat wss).*2 = lost +:+ kept ∧ (lost = "" ∨ (Z.of_nat (n - 1) * sz <= bytes kept)%Z).
Proof.
  intros Hb Hne He Hn Hsz Hd Hnone Ho f d'.
  pose proof (log_contents dirn base ext n sz None mode tl d wss Hb Hne He Hn Hsz Hd Hnone Ho) as H. cbv zeta in H. fold f in H.
  unfold d'. destruct (sessions f wss d) as [d1 rs]. destruct H as (_ & ps & Hm & Hc & _). cbn [fst].
  set (segs := foldl (step sz None) [] (concat wss).*2) in *.
  assert (Hk : ((λ p, default "" (files d1 !! p)) <$> ps) = take n segs).
  { transitivity (default "" <$> ((files d1 !!.) <$> ps)); [by rewrite <-list_fmap_compose|].
    rewrite Hc, <-list_fmap_compose. apply list_fmap_id. }
  exists ps, (texts (reverse (drop n segs))). split; [done|]. split.
  { apply (f_equal length) in Hc. rewrite !length_fmap in Hc. rewrite Hc. apply firstn_le_length. }
  cbv zeta. rewrite Hk, <-texts_app, <-reverse_app, take_drop. split; [symmetry; apply step_texts|].
  destruct (decide (length segs <= n)); [left; by rewrite drop_ge|right].
  rewrite bytes_texts_reverse. pose proof (step_full sz None (concat wss).*2 [] ltac:(done)) as Hfull. fold segs in Hfull.
  destruct n as [|m]; [lia|]. destruct segs as [|cur old]; [cbn in *; lia|]. cbn [take foldr tail length] in *. rewrite bytes_app.
  apply (Forall_take _ m), bytes_texts_ge in Hfull; [|lia]. rewrite length_take in Hfull.
  pose proof (bytes_nonneg cur). replace (m `min` length old) with m in Hfull by lia. cbn. rewrite Nat.sub_0_r. lia.
Qed.

Lemma log_keeps_tail_witness :
  let d := {| files := ∅; dirs := {[ "/var/log" ]} |} in
  let f := log_file "/var/log" "smartdns" "log" 2 4 None None in
  let wss := [[("1", "abcd"); ("2", "ef")]; [("3", "gh"); ("4", "i")]] in
  let d' := fst (sessions f wss d) in
  ∃ ps lost, mapped_files f d' = (d', Some ps) ∧ length ps <= 2 ∧ "abcdefghi" = lost +:+ "efghi".
Proof.
  intros d f wss d'.
  assert (Hs : ∀ x, is_mapped "smartdns" (Some "log") x → files d !! ("/var/log", x) = None) by done.
  assert (Ho : in_order 1 (concat wss)) by (split; repeat constructor).
  destruct (log_keeps_tail "/var/log" "smartdns" "log" 2 4 None 1 d wss eq_refl ltac:(done) eq_refl
    ltac:(lia) eq_refl ltac:(set_solver) Hs Ho) as (ps & lost & Hm & Hlen & Ht & _).
  exists ps, lost. split; [exact Hm|]. split; [exact Hlen|].
  assert (E : mapped_files f d' = (d', Some [("/var/log", "smartdns.log"); ("/var/log", "smartdns-4.log")])) by (vm_compute; reflexivity).
  pose proof (eq_trans (eq_sym Hm) E) as E'. apply (f_equal snd) in E'. injection E' as ->. exact Ht.
Defined.
