(* ===== verification/LogFileFaults.v ===== *)
(** * When rotation loses segments

    Three situations in which [MappedFile] (src/infra/mapped_file.rs) does not keep the
    backups it was asked for: files of another log whose names extend its stem, a stem
    with a dot, and a path without a directory. *)

From S2P Require Import Prelude DomainMap Nom NomProps ConfigText Text Paths LogFile LogFileProps.

(** ** Removing files *)

Lemma remove_all_ok dirn names : NoDup names → ∀ d, (∀ x, x ∈ names → is_Some (files d !! (dirn, x))) →
  ∃ d', remove_all (pair dirn <$> names) d = (d', Some ()) ∧ dirs d' = dirs d ∧
    ∀ p, files d' !! p = if bool_decide (p ∈ pair dirn <$> names) then None else files d !! p.
Proof.
  induction 1 as [|x names Hx Hnd IH]; intros d Hd; [by exists d|].
  cbn. unfold io_bind, remove_file, exists_. rewrite bool_decide_true by (apply Hd; set_solver).
  destruct (IH (set_files (delete (dirn, x)) d)) as (d' & Hr & Hdirs & Hf).
  - intros y Hy. cbn. rewrite lookup_delete_ne by set_solver. apply Hd. set_solver.
  - exists d'. split; [done|]. split; [done|]. intros p. rewrite Hf. cbn. rewrite lookup_delete.
    repeat case_bool_decide; repeat case_decide; set_solver.
Qed.

(** In a sorted list the elements after at least [n] others are beyond the first [n]. *)
Lemma newest_beyond l k x n : StronglySorted newer l → x ∈ l → NoDup k → (∀ y, y ∈ k → y ∈ l ∧ newer y x) → n <= length k →
  x ∈ drop n l.
Proof.
  intros Hl Hx Hk Hy Hn. rewrite <-(take_drop n l) in Hx. apply elem_of_app in Hx as [Hx|]; [|done]. exfalso.
  apply list_elem_of_split in Hx as (l1 & l2 & Hl12).
  assert (Hsub : k ⊆ l1).
  { intros y [Hyl Hyx]%Hy. rewrite <-(take_drop n l), Hl12, <-app_assoc in Hyl, Hl. apply elem_of_app in Hyl as [|Hyl]; [done|].
    exfalso. apply StronglySorted_app_1_r in Hl. cbn in *. apply elem_of_cons in Hyl as [->|Hyl]; [by eapply newer_irrefl|].
    apply StronglySorted_cons in Hl as [Hl _]. eapply Forall_forall in Hyl; [|exact Hl]. eapply newer_irrefl. by etrans. }
  pose proof (submseteq_length _ _ (NoDup_submseteq _ _ Hk Hsub)) as Hlen.
  pose proof (firstn_le_length n l) as Ht. rewrite Hl12, length_app in Ht. cbn in Ht. lia.
Qed.

(** ** A full file *)

(** A write to a closed full file, once its backups are made, starts it again. *)
Lemma write_restarts f d d1 now b cur :
  file f = false → len_ f = 0%Z → (0 < size f)%Z → files d !! path f = Some cur → (size f <= bytes cur)%Z →
  backup_files f now d = (d1, Some ()) → fst (path f) ∈ dirs d1 → (files d1 !! path f = Some cur ∨ files d1 !! path f = None) →
  ∃ f', write f now b d = (set_files <[path f := default "" (peamble_bytes f) +:+ b]> d1, Some (f', bytes b)).
Proof.
  intros Hfile Hlen Hsz Hcur Hfull Hb Hdir Hd1.
  assert (Hlend : ∀ d, len f d = default 0%Z (metadata_len d (path f))) by (intros; unfold len; by rewrite Hfile, Hlen).
  assert (Hg : get_active_file f now d = open_active (exists_ d1 (path f) && is_full f d1) f d1).
  { rewrite (get_active_file_eq _ _ _ d1); [by rewrite Hfile|]. rewrite <-Hb. unfold is_full. rewrite Hlend. unfold metadata_len.
    rewrite Hcur. cbn. by rewrite (proj2 (Z.leb_le _ _)). }
  assert (Ho : open_file (exists_ d1 (path f) && is_full f d1) (path f) d1 = (set_files <[path f := ""]> d1, Some ())).
  { unfold open_file, exists_, is_full. rewrite Hlend. unfold metadata_len. destruct Hd1 as [->| ->]; cbn.
    - by rewrite (proj2 (Z.leb_le _ _)).
    - unfold can_create. by rewrite (bool_decide_true (_ ∈ _)), orb_true_r. }
  unfold write, io_bind. rewrite Hg. unfold open_active, io_bind. rewrite Ho. cbv iota. unfold metadata_len, io_ret.
  cbn [files set_files]. rewrite lookup_insert_eq. cbn [fmap option_fmap option_map default from_option id].
  change (bytes "" =? 0)%Z with true. cbv iota. unfold write_at_end, set_files.
  destruct (peamble_bytes f) as [p|]; cbn [files dirs path set_file from_option id];
    repeat (rewrite ?lookup_insert_eq, ?insert_insert_eq, ?string_app_nil; cbn [files dirs path set_file]); by eexists.
Qed.

(** A rotation of any directory: the file is copied, and the mapped files after the first
    [n] are removed. *)
Lemma backup_files_spec dirn base ext f n d now cur :
  plain_part base → base ≠ "" → plain_part ext → plain_part now → dirn ∈ dirs d →
  path f = (dirn, active base ext) → num f = Some n → files d !! (dirn, active base ext) = Some cur →
  let d1 := set_files <[(dirn, backup base ext now) := cur]> d in
  ∃ l d2, backup_files f now d = (d2, Some ()) ∧ dirs d2 = dirs d ∧ StronglySorted newer l ∧
    (∀ x, x ∈ l ↔ is_mapped base (Some ext) x ∧ is_Some (files d1 !! (dirn, x))) ∧
    ∀ p, files d2 !! p = if bool_decide (p ∈ pair dirn <$> drop n l) then None else files d1 !! p.
Proof.
  intros Hb Hne He Hnow Hd Hp Hnum Hcur d1.
  destruct (mapped_files_spec dirn base ext Hb Hne He d1 f) as (l & Hl & Hsort & Hin); [done|done|].
  destruct (remove_all_ok dirn (drop n l)) with (d := d1) as (d2 & Hr & Hdirs & Hf2).
  { eapply newest_NoDup, StronglySorted_app_1_r. by rewrite take_drop. }
  { intros x Hx. apply Hin. rewrite <-(take_drop n l). set_solver. }
  exists l, d2. split; [|done]. unfold backup_files. rewrite Hp, Hnum. cbn [fst snd]. rewrite backup_name_active by done.
  unfold io_bind at 1, copy. rewrite Hcur. unfold can_create. cbn [fst]. rewrite (bool_decide_true (dirn ∈ _)), orb_true_r by done.
  cbv iota. unfold io_bind. fold d1. rewrite Hl, length_fmap, <-fmap_drop. case_bool_decide as Hlen; [done|].
  rewrite drop_ge in Hr by lia. done.
Qed.

(** C40. Names that extend the stem are taken for backups, here [smartdns-audit.log] beside
    [smartdns.log].  If the directory has [n - 1] of them that come before the new backup,
    a rotation removes the segment it has just saved, and every older backup with it: no
    file is added, and what the file held is gone. *)
Theorem rotation_eats_backup dirn base ext n sz pre mode d now b cur others :
  plain_part base → base ≠ "" → plain_part ext → plain_part now → 1 <= n → (0 < sz)%Z → dirn ∈ dirs d →
  files d !! (dirn, active base ext) = Some cur → (sz <= bytes cur)%Z →
  NoDup others → n <= S (length others) →
  (∀ x, x ∈ others → is_mapped base (Some ext) x ∧ is_Some (files d !! (dirn, x)) ∧
     newer x (backup base ext now) ∧ x ≠ active base ext) →
  ∃ f' d', write (log_file dirn base ext n sz pre mode) now b d = (d', Some (f', bytes b)) ∧
    files d' !! (dirn, active base ext) = Some (default "" pre +:+ b) ∧ files d' !! (dirn, backup base ext now) = None ∧
    dom (files d') ⊆ dom (files d).
Proof.
  intros Hb Hne He Hnow Hn Hsz Hd Hcur Hfull Hnd Hlen Hoth.
  set (f := log_file dirn base ext n sz pre mode). set (act := active base ext) in *. set (bak := backup base ext now) in *.
  assert (Hab : newer act bak) by apply newer_active.
  assert (Hne' : (dirn, bak) ≠ (dirn, act)) by (intros E%(f_equal snd); cbn in E; rewrite E in Hab; by apply newer_irrefl in Hab).
  destruct (backup_files_spec dirn base ext f n d now cur) as (l & d2 & Hbk & Hdirs & Hsort & Hin & Hf2); [done..|].
  fold bak act in Hin, Hf2. cbn in Hin, Hf2.
  assert (Hold : ∀ x, is_mapped base (Some ext) x → is_Some (files d !! (dirn, x)) → x ∈ l).
  { intros x Hm Hx. apply Hin. split; [done|]. rewrite lookup_insert. case_decide; [by eexists|done]. }
  assert (Hbak : bak ∈ drop n l).
  { apply (newest_beyond _ (act :: others)); [done| | |..]; [|constructor; [by intros (_ & _ & _ & ?)%Hoth|done]| |done].
    - apply Hin. split; [by apply mapped_backup|]. rewrite lookup_insert_eq. by eexists.
    - intros y [->|(Hm & Hy & Hyb & _)%Hoth]%elem_of_cons; (split; [apply Hold|]);
        first [done|by apply mapped_active|by eexists]. }
  destruct (write_restarts f d d2 now b cur) as (f' & Hw); [done..|by rewrite Hdirs| |].
  { cbn. rewrite Hf2. case_bool_decide; [by right|left]. by rewrite lookup_insert_ne. }
  eexists f', _. split; [exact Hw|]. cbn. rewrite lookup_insert_eq. split; [done|]. split.
  - rewrite lookup_insert_ne by done. by rewrite Hf2, bool_decide_true by by apply list_elem_of_fmap_2.
  - rewrite dom_insert. intros p [->%elem_of_singleton|[s Hp]%elem_of_dom]%elem_of_union; [by apply elem_of_dom|].
    rewrite Hf2 in Hp. case_bool_decide as Hin'; [done|]. rewrite lookup_insert_ne in Hp; [by apply elem_of_dom|].
    intros <-. apply Hin'. by apply list_elem_of_fmap_2.
Qed.

Lemma rotation_eats_backup_witness :
  let d := {| files := {[ ("/var/log", "smartdns.log") := "abcd"; ("/var/log", "smartdns-audit.log") := "x" ]}; dirs := {[ "/var/log" ]} |} in
  ∃ f' d', write (log_file "/var/log" "smartdns" "log" 2 4 None None) "20250101-000000000000000" "ef" d = (d', Some (f', 2%Z)) ∧
    files d' !! ("/var/log", "smartdns-20250101-000000000000000.log") = None.
Proof.
  intros d.
  assert (H : ∀ x, x ∈ ["smartdns-audit.log"] → is_mapped "smartdns" (Some "log") x ∧ is_Some (files d !! ("/var/log", x)) ∧
    newer x (backup "smartdns" "log" "20250101-000000000000000") ∧ x ≠ active "smartdns" "log").
  { intros x ->%list_elem_of_singleton. by split_and!; [vm_compute| eexists; vm_compute|vm_compute|]. }
  destruct (rotation_eats_backup "/var/log" "smartdns" "log" 2 4 None None d "20250101-000000000000000" "ef" "abcd" ["smartdns-audit.log"]
    eq_refl ltac:(done) eq_refl eq_refl ltac:(lia) eq_refl ltac:(set_solver) ltac:(vm_compute; reflexivity) ltac:(vm_compute; done)
    ltac:(apply NoDup_singleton) ltac:(cbn; lia) H) as (f' & d' & Hw & _ & Hn & _).
  exists f', d'. split; [exact Hw|exact Hn].
Defined.

(** ** A stem with a dot *)

Lemma prefix_app_same p a b : String.prefix (p +:+ a) (p +:+ b) = String.prefix a b.
Proof. induction p as [|c p IH]; [done|]. rewrite !string_app_cons. cbn. by destruct (Ascii.ascii_dec c c). Qed.
Lemma dotted_parts x y ext : plain_part x → plain_part y → plain_part ext → x ≠ "" →
  file_stem (x +:+ "." +:+ y +:+ "." +:+ ext) = Some (x +:+ "." +:+ y) ∧ extension (x +:+ "." +:+ y +:+ "." +:+ ext) = Some ext.
Proof.
  intros Hx Hy He Hne. assert (Hs : split "." (x +:+ "." +:+ y +:+ "." +:+ ext) = [x; y; ext]).
  { apply (split_join "." [x; y; ext]); [done|]. repeat constructor; by apply plain_no_dot. }
  unfold file_stem, extension. rewrite dotted_name; [|done|by rewrite !all_chars_app, (plain_no_slash y), (plain_no_slash ext)|done]. cbn [mbind option_bind]. rewrite Hs. cbn [removelast join last].
  rewrite bool_decide_false; [done|]. by intros [? ?]%string_app_eq_nil.
Qed.

(** The backup of [x.y.ext] is named [x.ext], whatever the time: [with_extension] takes the
    end of the stem, with the time, for an extension.  Each rotation replaces that file, the
    log of [x] if there is one, and none is kept as a backup. *)
Theorem dotted_log_overwrites dirn x y ext n sz pre mode d now b cur :
  plain_part x → x ≠ "" → plain_part y → plain_part ext → plain_part now → 1 <= n → (0 < sz)%Z → dirn ∈ dirs d →
  String.prefix y ext = false →
  let name := x +:+ "." +:+ y +:+ "." +:+ ext in
  (∀ z, is_mapped (x +:+ "." +:+ y) (Some ext) z → is_Some (files d !! (dirn, z)) → z = name) →
  files d !! (dirn, name) = Some cur → (sz <= bytes cur)%Z →
  let f := set_peamble pre (open (dirn, name) sz (Some n) mode) in
  ∃ f' d', write f now b d = (d', Some (f', bytes b)) ∧
    files d' = <[(dirn, name) := default "" pre +:+ b]> (<[(dirn, x +:+ "." +:+ ext) := cur]> (files d)).
Proof.
  intros Hx Hne Hy He Hnow Hn Hsz Hd Hpre name Hothers Hcur Hfull f.
  assert (Hstem : file_stem name = Some (x +:+ "." +:+ y) ∧ extension name = Some ext) by by apply dotted_parts.
  destruct Hstem as [Hstem Hex].
  assert (Hback : backup_name name now = Some (x +:+ "." +:+ ext)).
  { unfold backup_name. rewrite Hstem, Hex. cbn. unfold with_extension.
    replace ((x +:+ "." +:+ y) +:+ "-" +:+ now) with (x +:+ "." +:+ (y +:+ "-" +:+ now)) by by rewrite !string_app_assoc.
    rewrite (proj1 (name_parts x (y +:+ "-" +:+ now) Hx ltac:(by rewrite !all_chars_app, Hy, Hnow) Hne)). done. }
  assert (Hm : is_mapped (x +:+ "." +:+ y) (Some ext) name).
  { unfold is_mapped. rewrite Hex, bool_decide_true by done. unfold name.
    replace (x +:+ "." +:+ y +:+ "." +:+ ext) with ((x +:+ "." +:+ y) +:+ "." +:+ ext) by by rewrite !string_app_assoc.
    apply Is_true_true, prefix_app. }
  assert (Hnm : ¬ is_mapped (x +:+ "." +:+ y) (Some ext) (x +:+ "." +:+ ext)).
  { intros [_ H]%andb_prop_elim. rewrite 2!prefix_app_same, Hpre in H. done. }
  assert (Hne' : (dirn, x +:+ "." +:+ ext) ≠ (dirn, name)) by (intros E%(f_equal snd); cbn in E; by rewrite E in Hnm).
  set (d1 := set_files <[(dirn, x +:+ "." +:+ ext) := cur]> d).
  destruct (mapped_files_list dirn _ _ d1 f name eq_refl Hstem Hex Hd) as (l & Hl & Hsort & Hin).
  assert (l = [name]) as ->.
  { apply newest_unique; [done|by repeat constructor|]. intros z. rewrite Hin, list_elem_of_singleton. cbn. split.
    - intros [Hz Hs]. rewrite lookup_insert in Hs. case_decide as E; [|by apply Hothers].
      apply (f_equal snd) in E. cbn in E. by subst z.
    - intros ->. split; [done|]. rewrite lookup_insert_ne by done. by eexists. }
  assert (Hb : backup_files f now d = (d1, Some ())).
  { unfold backup_files. change (path f) with (dirn, name). change (num f) with (Some n). cbn [fst snd]. rewrite Hback.
    unfold io_bind at 1, copy. rewrite Hcur. unfold can_create. cbn [fst]. rewrite (bool_decide_true (dirn ∈ _)), orb_true_r by done.
    cbv iota. unfold io_bind. fold d1. rewrite Hl. cbv iota. rewrite drop_ge by (cbn; lia). by case_bool_decide. }
  destruct (write_restarts f d d1 now b cur) as (f' & Hw); [done..| |].
  { left. cbn. by rewrite lookup_insert_ne. }
  by eexists f', _.
Qed.

Lemma dotted_log_overwrites_witness :
  let d := {| files := {[ ("/var/log", "smartdns.audit.log") := "abcd"; ("/var/log", "smartdns.log") := "x" ]}; dirs := {[ "/var/log" ]} |} in
  ∃ f' d', write (set_peamble None (open ("/var/log", "smartdns.audit.log") 4 (Some 2) None)) "20250101" "ef" d = (d', Some (f', 2%Z)) ∧
    files d' = <[("/var/log", "smartdns.audit.log") := "ef"]> (<[("/var/log", "smartdns.log") := "abcd"]> (files d)).
Proof.
  intros d.
  assert (H : ∀ z, is_mapped "smartdns.audit" (Some "log") z → is_Some (files d !! ("/var/log", z)) → z = "smartdns.audit.log").
  { intros z Hz [s Hs]. unfold d in Hs. cbn [files] in Hs. apply lookup_insert_Some in Hs as [[E _]|[_ Hs]]; [congruence|].
    apply lookup_singleton_Some in Hs as [E _]. assert (z = "smartdns.log") as -> by congruence. done. }
  exact (dotted_log_overwrites "/var/log" "smartdns" "audit" "log" 2 4 None None d "20250101" "ef" "abcd"
    eq_refl ltac:(done) eq_refl eq_refl eq_refl ltac:(lia) eq_refl ltac:(set_solver) eq_refl H eq_refl ltac:(vm_compute; done)).
Defined.

(** ** A path without a directory *)

(** [read_dir] of the empty parent of such a path fails, so that a full file is copied to a
    new backup by every write and never started again: all writes fail, and the copies
    pile up. *)
Theorem relative_log_fails base ext n sz pre mode d ws cur :
  plain_part base → base ≠ "" → plain_part ext → "" ∉ dirs d →
  files d !! ("", active base ext) = Some cur → (0 < sz <= bytes cur)%Z → Forall (λ t, plain_part t) ws.*1 →
  let f := log_file "" base ext n sz pre mode in
  ∃ d', writes f ws d = (f, d', replicate (length ws) None) ∧
    files d' = list_to_map ((λ w, (("", backup base ext w.1), cur)) <$> reverse ws) ∪ files d.
Proof.
  intros Hb Hne He Hdir Hcur Hsz Hst f. revert d Hdir Hcur. induction ws as [|[now b] ws IH]; intros d Hdir Hcur.
  - exists d. split; [done|]. cbn. by rewrite (left_id_L ∅ (∪)).
  - cbn in Hst. apply Forall_cons in Hst as [Hnow Hst].
    set (d1 := set_files <[("", backup base ext now) := cur]> d).
    assert (Hw : write f now b d = (d1, None)).
    { assert (Hfull : is_full f d = true).
      { unfold is_full, len. cbn. unfold metadata_len. rewrite Hcur. cbn. lia. }
      assert (Hbk : backup_files f now d = (d1, None)).
      { unfold backup_files. change (path f) with ("", active base ext). cbn [fst snd]. rewrite backup_name_active by done.
        unfold io_bind at 1, copy. rewrite Hcur. cbn [can_create fst]. unfold can_create. cbn [fst].
        rewrite bool_decide_true by done. cbn [orb]. cbv iota. unfold io_bind, mapped_files. cbn [path f log_file set_peamble open fst snd].
        rewrite stem_active by done. unfold io_bind, read_dir. by rewrite bool_decide_false. }
      unfold write, io_bind at 1, get_active_file, io_bind at 1. by rewrite Hfull, Hbk. }
    destruct (IH Hst d1) as (d2 & Hws & Hf); [done|..].
    { cbn. by rewrite lookup_insert; case_decide as E; [|done]. }
    exists d2. split; [cbn; by rewrite Hw, Hws|]. rewrite Hf, reverse_cons, fmap_app, list_to_map_app, <-(assoc_L (∪)).
    cbn [files d1 set_files]. by rewrite insert_union_singleton_l.
Qed.

Lemma relative_log_fails_witness :
  let d := {| files := {[ ("", "smartdns.log") := "abcd" ]}; dirs := {[ "/var/log" ]} |} in
  let f := log_file "" "smartdns" "log" 2 4 None None in
  ∃ d', writes f [("1", "x"); ("2", "y")] d = (f, d', [None; None]) ∧ stdpp.base.size (files d') = 3.
Proof.
  intros d f.
  destruct (relative_log_fails "smartdns" "log" 2 4 None None d [("1", "x"); ("2", "y")] "abcd" eq_refl ltac:(done) eq_refl
    ltac:(set_solver) eq_refl ltac:(vm_compute; done) ltac:(by repeat constructor)) as (d' & Hw & Hf).
  exists d'. split; [exact Hw|]. rewrite Hf. vm_compute. reflexivity.
Defined.
