(* ===== verification/HttpsRecord.v ===== *)
(** * HTTPS records

    What a line [https-record /domain/ ..] sets (src/config/parser/svcb.rs): the priority,
    the target and the parameters that are written, in their order. *)

From S2P Require Import Prelude Dns AuditLog IpSet DomainMap DomainRule Context DnsUrl UpstreamApi.
From S2P Require Import Nom NomProps ConfigText ConfigProps Text FileCache Hosts Paths ConfigItems ConfigValues ConfigLoad ConfigValueProps.
From Stdlib Require Import Ascii.

Definition in_quotes (s : string) : string := String quote (s +:+ String quote "").

(** ** Texts *)

(** A parameter behind its key; the texts of other keys do not start with it. *)
Lemma keyed_read {A} (p : parser A) k t : k ∈ ["alpn"; "port"; "ipv4hint"; "ipv6hint"; "ech"; "target"; "priority"] →
  stops is_space t = true → preceded (param_key k) p (k +:+ String "=" t) = p t.
Proof.
  intros Hk Ht. assert (H : param_key k (k +:+ String "=" t) = Some (t, ())).
  { assert (Htag : tag_no_case k (k +:+ String "=" t) = Some (String "=" t, ())).
    { set_unfold in Hk. by repeat destruct Hk as [->|Hk]. }
    unfold param_key, terminated, delimited, preceded, terminated. rewrite Htag. cbn [mbind option_bind].
    rewrite space0_stop by done. cbn [mbind option_bind]. rewrite char_hit. cbn [mbind option_bind]. by rewrite space0_stop. }
  unfold preceded. by rewrite H.
Qed.

Lemma in_quotes_read {A} (p : parser A) t r x : p (t +:+ String quote r) = Some (String quote r, x) →
  quoted p (in_quotes t +:+ r) = Some (r, x).
Proof.
  intros Hp. unfold quoted, delimited, preceded, terminated, in_quotes. rewrite string_app_cons, char_hit. cbn [mbind option_bind].
  rewrite string_app_assoc, string_app_cons, string_app_nil, Hp. cbn [mbind option_bind]. by rewrite char_hit.
Qed.

Lemma number_decimal limit n r : (0 <= n < limit)%Z → stops is_digit r = true → number limit (decimal n +:+ r) = Some (r, n).
Proof.
  intros Hn Hr. destruct (decimal_ok n ltac:(lia)) as (H1 & H2 & H3). unfold number, verify, pmap, digit1.
  rewrite take1_app by done. cbn [mbind option_bind]. rewrite H3. by rewrite (proj2 (Z.ltb_lt _ _)) by lia.
Qed.

Definition alpn_char (c : ascii) : bool := printable c && negb (Ascii.eqb c ",") && negb (Ascii.eqb c quote).

Lemma alpn_id_show s r : s ≠ "" → all_chars alpn_char s = true →
  stops (λ c, negb (Ascii.eqb c "," || Ascii.eqb c quote)) r = true → alpn_id (s +:+ r) = Some (r, s).
Proof.
  intros Hne Hs Hr. assert (Hspan : alpn_span (s +:+ r) = (s, r)).
  { clear Hne. induction s as [|c s IH].
    - rewrite string_app_nil. destruct r as [|c r]; [done|]. cbn [alpn_span stops] in *. rewrite negb_involutive in Hr. rewrite Hr. by destruct (white _).
    - cbn [all_chars] in Hs. apply andb_true_iff in Hs as [Hs Hs']. unfold alpn_char in Hs.
      rewrite !andb_true_iff, !negb_true_iff in Hs. destruct Hs as [[H1 H2] H3].
      rewrite string_app_cons. cbn [alpn_span]. rewrite white_printable by done. rewrite H2, H3. cbn [orb]. by rewrite IH. }
  unfold alpn_id, verify. rewrite Hspan. cbn [mbind option_bind]. unfold non_empty. by rewrite bool_decide_false.
Qed.

(** ** Lists between quotes or not *)

Lemma spaced_stop {A} (p : parser A) s r x : stops is_space s = true → p s = Some (r, x) → stops is_space r = true →
  spaced p s = Some (r, x).
Proof.
  intros Hs Hp Hr. unfold spaced, delimited, preceded, terminated. rewrite space0_stop by done. cbn [mbind option_bind].
  rewrite Hp. cbn [mbind option_bind]. by rewrite space0_stop.
Qed.

Lemma spaced_none {A} (p : parser A) s : stops is_space s = true → p s = None → spaced p s = None.
Proof. intros Hs Hp. unfold spaced, delimited, preceded, terminated. rewrite space0_stop by done. cbn [mbind option_bind]. by rewrite Hp. Qed.

Section lists.
Context {A : Type} (p : parser A) (show : A → string) (ok : A → Prop) (follows : string → bool).
Context (p_show : ∀ x s, ok x → follows s = true → p (show x +:+ s) = Some (s, x)).
Context (show_starts : ∀ x s, ok x → stops is_space (show x +:+ s) = true ∧ char quote (show x +:+ s) = None).
Context (follows_comma : ∀ s, follows (String "," s) = true) (follows_quote : ∀ s, follows (String quote s) = true).

Lemma comma_list_show x l r : Forall ok (x :: l) → follows r = true → stops is_space r = true →
  (∀ s, r = String "," s → spaced p s = None) →
  separated_list1 (char ",") (spaced p) (join "," (map show (x :: l)) +:+ r) = Some (r, x :: l).
Proof.
  intros Hl Hf Hr Hc.
  apply (separated_list1_show (char ",") (spaced p) show "," ok (λ s, follows s = true ∧ stops is_space s = true)).
  - intros y s Hy [H1 H2]. apply spaced_stop; [by apply show_starts|by apply p_show|done].
  - intros y s Hy. by eexists.
  - intros y s Hy. by split; [apply follows_comma|].
  - done.
  - split; [done|]. destruct r as [|c r]; [done|]. cbn [char]. destruct (Ascii.eqb_spec c ",") as [->|]; [by apply Hc|done].
  - pose proof (join_length "," (map show (x :: l)) ltac:(done)) as H. rewrite length_map in H. cbn [length] in H.
    rewrite string_length_app. lia.
Qed.

Lemma quoted_list_show x l r : Forall ok (x :: l) →
  quoted (separated_list1 (char ",") (spaced p)) (in_quotes (join "," (map show (x :: l))) +:+ r) = Some (r, x :: l).
Proof.
  intros Hl. apply in_quotes_read. rewrite comma_list_show by (done || apply follows_quote). done.
Qed.

Lemma hints_show (q : bool) x l r : Forall ok (x :: l) → follows r = true → stops is_space r = true →
  (∀ s, r = String "," s → spaced p s = None) →
  hints p ((if q then in_quotes (join "," (map show (x :: l))) else join "," (map show (x :: l))) +:+ r) = Some (r, x :: l).
Proof.
  intros Hl Hf Hr Hc. unfold hints, orelse. destruct q; [by rewrite quoted_list_show|].
  rewrite comma_list_show by done. rewrite join_foldr. apply Forall_cons in Hl as [Hx _].
  unfold quoted, delimited, preceded. by rewrite (proj2 (show_starts x _ Hx)).
Qed.
End lists.

(** ** Parts *)

Section parts.
Context {Name : Type} `{!NameOps Name, NS : !NameSyntax Name}.
Context `{!Glob, RD : RuleData, FV : !ForeignValues Name, UC : !UrlCrate}.

(** The printed form of a part, with or without quotes around hints. *)
Definition hint_text (q : bool) (l : list string) : string := if q then in_quotes (join "," l) else join "," l.
Definition show_part (q : bool) (x : SvcbPart) : string :=
  match x with
  | PParam (Alpn l) => "alpn=" +:+ in_quotes (join "," l)
  | PParam (SvcPort n) => "port=" +:+ decimal n
  | PParam (Ipv4Hint l) => "ipv4hint=" +:+ hint_text q (map show_ipv4 l)
  | PParam (Ipv6Hint l) => "ipv6hint=" +:+ hint_text q (map show_ipv6 l)
  | PParam (EchConfigList t) => "ech=" +:+ in_quotes t
  | PTarget n => "target=" +:+ name_display n
  | PPriority n => "priority=" +:+ decimal n
  | PNothing => ""
  end.

Definition part_ok (x : SvcbPart) : Prop :=
  match x with
  | PParam (Alpn l) => l ≠ [] ∧ Forall (λ s, s ≠ "" ∧ all_chars alpn_char s = true) l
  | PParam (SvcPort n) | PPriority n => (0 <= n < 2 ^ 16)%Z
  | PParam (Ipv4Hint l) => l ≠ [] ∧ Forall (λ a, (0 <= a < 2 ^ 32)%Z) l
  | PParam (Ipv6Hint l) => l ≠ [] ∧ Forall (λ a, (0 <= a < 2 ^ 128)%Z) l
  | PParam (EchConfigList t) => t ≠ "" ∧ in_set t quote = false
  | PTarget n => plain_name n = true
  | PNothing => False
  end.

(** What may follow a part: nothing, or a comma and another part. *)
Definition part_follows (s : string) : Prop :=
  s = "" ∨ ∃ t, s = String "," t ∧ stops is_space t = true ∧ ipv4 t = None ∧ ipv6 t = None.

Lemma part_follows_comma q x s : part_ok x → part_follows (String "," (show_part q x +:+ s)).
Proof.
  intros Hx. right. eexists. split; [done|]. destruct x as [[]| | |]; try done; cbn [show_part]; by rewrite string_app_assoc.
Qed.

Lemma part_follows_space s : part_follows s → stops is_space s = true.
Proof. by intros [->|(t & -> & _)]. Qed.
Lemma part_follows_other s (f : ascii → bool) : f ","%char = false → part_follows s → stops f s = true.
Proof. intros Hf [->|(t & -> & _)]; [done|]. cbn. by rewrite Hf. Qed.

(** The characters with which addresses start. *)
Lemma hint_starts a s : ip_valid a = true → stops is_space (show_ip a +:+ s) = true ∧ char quote (show_ip a +:+ s) = None.
Proof.
  intros Ha. destruct (show_ip_chars a Ha) as [Hc Hne]. destruct (show_ip a) as [|c t]; [done|].
  cbn [all_chars] in Hc. apply andb_true_iff in Hc as [Hc _]. rewrite string_app_cons. cbn [stops char].
  by destruct c as [[] [] [] [] [] [] [] []].
Qed.

Lemma ipv4_valid a : (0 <= a < 2 ^ 32)%Z → ip_valid (IPv4 a) = true.
Proof. intros. cbn. apply andb_true_iff. split; [apply Z.leb_le|apply Z.ltb_lt]; lia. Qed.
Lemma ipv6_valid a : (0 <= a < 2 ^ 128)%Z → ip_valid (IPv6 a) = true.
Proof. intros. cbn. apply andb_true_iff. split; [apply Z.leb_le|apply Z.ltb_lt]; lia. Qed.

Lemma follows_none {A} (p : parser A) s t : part_follows s → (∀ t, ipv4 t = None → ipv6 t = None → p t = None) →
  s = String "," t → spaced p t = None.
Proof. intros [->|(t' & -> & H1 & H2 & H3)] Hp E; simplify_eq. apply spaced_none; auto. Qed.

Lemma hints4_show q l s : l ≠ [] → Forall (λ a, (0 <= a < 2 ^ 32)%Z) l → part_follows s →
  hints ipv4 (hint_text q (map show_ipv4 l) +:+ s) = Some (s, l).
Proof.
  intros Hne Hl Hs. destruct l as [|x l]; [done|]. unfold hint_text.
  apply (hints_show ipv4 show_ipv4 (λ a, (0 <= a < 2 ^ 32)%Z) ip_follows); try done.
  - intros y t Hy Ht. apply ipv4_show; [done|]. by apply ip_follows_hex.
  - intros y t Hy. apply (hint_starts (IPv4 y)). by apply ipv4_valid.
  - by apply part_follows_other.
  - by apply part_follows_space.
  - intros t. by apply follows_none.
Qed.

Lemma hints6_show q l s : l ≠ [] → Forall (λ a, (0 <= a < 2 ^ 128)%Z) l → part_follows s →
  hints ipv6 (hint_text q (map show_ipv6 l) +:+ s) = Some (s, map Some l).
Proof.
  intros Hne Hl Hs. set (show := λ x : option Z, show_ipv6 (default 0%Z x)).
  assert (E : map show_ipv6 l = map show (map Some l)) by by rewrite map_map. rewrite E. clear E.
  destruct l as [|x l]; [done|]. unfold hint_text. cbn [map].
  apply (hints_show ipv6 show (λ x, ∃ a, x = Some a ∧ (0 <= a < 2 ^ 128)%Z) ip_follows); try done.
  - intros y t (a & -> & Ha) Ht. by apply ipv6_show.
  - intros y t (a & -> & Ha). apply (hint_starts (IPv6 a)). by apply ipv6_valid.
  - change (Some x :: map Some l) with (map Some (x :: l)). apply Forall_map. eapply Forall_impl; [exact Hl|]. intros a Ha. by exists a.
  - by apply part_follows_other.
  - by apply part_follows_space.
  - intros t. by apply follows_none.
Qed.

Lemma alpn_show l s : l ≠ [] → Forall (λ s, s ≠ "" ∧ all_chars alpn_char s = true) l →
  quoted (separated_list1 (char ",") (spaced alpn_id)) (in_quotes (join "," l) +:+ s) = Some (s, l).
Proof.
  intros Hne Hl. destruct l as [|x l]; [done|]. replace (join "," (x :: l)) with (join "," (map id (x :: l))) by by rewrite map_id.
  apply (quoted_list_show alpn_id id (λ s, s ≠ "" ∧ all_chars alpn_char s = true)
    (stops (λ c, negb (Ascii.eqb c "," || Ascii.eqb c quote)))); try done.
  - intros y t [H1 H2] Ht. by apply alpn_id_show.
  - intros y t [H1 H2]. destruct y as [|c y]; [done|]. cbn [id all_chars] in *. apply andb_true_iff in H2 as [H2 _].
    unfold id. rewrite string_app_cons. cbn [stops char]. by destruct c as [[] [] [] [] [] [] [] []].
Qed.

Lemma ech_show t s : t ≠ "" → in_set t quote = false → quoted (is_not (String quote "")) (in_quotes t +:+ s) = Some (s, t).
Proof.
  intros Hne Ht. apply in_quotes_read. unfold is_not. apply take1_app; [|done|done].
  clear Hne. induction t as [|c t IH]; [done|]. rewrite in_set_cons in Ht. apply orb_false_iff in Ht as [H1 H2].
  cbn [all_chars]. rewrite in_set_cons, Ascii.eqb_sym, IH by done. by rewrite H1.
Qed.

Lemma starts_no_space t s (f : ascii → bool) : (∀ c, f c = true → is_space c = false) → t ≠ "" → all_chars f t = true →
  stops is_space (t +:+ s) = true.
Proof.
  intros Hf Hne Ht. destruct t as [|c t]; [done|]. cbn [all_chars] in Ht. apply andb_true_iff in Ht as [Ht _].
  rewrite string_app_cons. cbn [stops]. by rewrite Hf.
Qed.

Lemma hint_text_starts {A} (show : A → string) q l s : l ≠ [] → (∀ x t, x ∈ l → stops is_space (show x +:+ t) = true) →
  stops is_space (hint_text q (map show l) +:+ s) = true.
Proof.
  intros Hne Hl. destruct q; [done|]. destruct l as [|x l]; [done|]. cbn [hint_text]. rewrite join_foldr. apply Hl. left.
Qed.

Lemma key_part {A B} (f : A → B) (p : parser A) k t s v :
  k ∈ ["alpn"; "port"; "ipv4hint"; "ipv6hint"; "ech"; "target"; "priority"] →
  stops is_space (t +:+ s) = true → p (t +:+ s) = Some (s, v) →
  pmap f (preceded (param_key k) p) (k +:+ String "=" (t +:+ s)) = Some (s, f v).
Proof. intros Hk Ht Hp. unfold pmap. rewrite keyed_read by done. by rewrite Hp. Qed.

Lemma mapM_id_some {A} (l : list A) : mapM id (map Some l) = Some l.
Proof. induction l as [|x l IH]; [done|]. cbn. by rewrite IH. Qed.

Tactic Notation "own_key" constr(k) integer(n) :=
  do n (etrans; [apply alt_skip; reflexivity|]); apply alt_hit; etrans; [apply (key_part _ _ k); [set_solver|..]|].

Lemma svcb_part_show q x s : part_ok x → part_follows s → svcb_part (show_part q x +:+ s) = Some (s, Some x).
Proof.
  intros Hx Hs. pose proof (part_follows_other s is_digit eq_refl Hs) as Hd.
  pose proof (part_follows_other s name_char eq_refl Hs) as Hn. unfold svcb_part.
  destruct x as [[l|n|l|l|t]|n|n|]; cbn [part_ok show_part] in *; try done.
  - destruct Hx as [Hne Hx]. own_key "alpn" 0; [done|by apply alpn_show|done].
  - own_key "port" 1; [|by apply number_decimal|done]. destruct (decimal_ok n) as (H1 & H2 & _); [lia|].
    by apply (starts_no_space _ _ is_digit digit_not_space).
  - destruct Hx as [Hne Hx]. own_key "ipv4hint" 2; [|by apply hints4_show|done]. apply hint_text_starts; [done|]. intros a t Ha.
    apply (hint_starts (IPv4 a)), ipv4_valid. rewrite Forall_forall in Hx. auto.
  - destruct Hx as [Hne Hx]. own_key "ipv6hint" 3; [|by apply hints6_show|]. 2:{ by rewrite mapM_id_some. }
    apply hint_text_starts; [done|]. intros a t Ha.
    apply (hint_starts (IPv6 a)), ipv6_valid. rewrite Forall_forall in Hx. auto.
  - destruct Hx as [Hne Hx]. own_key "ech" 4; [done|by apply ech_show|done].
  - own_key "target" 5; [|by apply parse_name_show|done].
    pose proof Hx as [[H1%bool_decide_eq_true H2]%andb_true_iff _]%andb_true_iff.
    apply (starts_no_space _ _ name_char); [|done|done]. by intros [[] [] [] [] [] [] [] []].
  - own_key "priority" 6; [|by apply number_decimal|done]. destruct (decimal_ok n) as (H1 & H2 & _); [lia|].
    by apply (starts_no_space _ _ is_digit digit_not_space).
Qed.

(** ** Lines *)

Lemma https_value_show q x l : Forall part_ok (x :: l) →
  https_value (join "," (map (show_part q) (x :: l))) = Some ("", Some (svcb_of (x :: l))).
Proof.
  intros Hl. set (show := λ y : option SvcbPart, show_part q (default PNothing y)).
  assert (E : map (show_part q) (x :: l) = map show (map Some (x :: l))) by by rewrite map_map.
  assert (Hsep : separated_list1 (char ",") (spaced svcb_part) (join "," (map (show_part q) (x :: l)) +:+ "") = Some ("", map Some (x :: l))).
  { rewrite E. cbn [map]. apply (separated_list1_show _ _ show "," (λ y, ∃ z, y = Some z ∧ part_ok z) part_follows).
    - intros y s (z & -> & Hz) Hs. apply spaced_stop; [|by apply svcb_part_show|by apply part_follows_space].
      unfold show. destruct z as [[]| | |]; done.
    - intros y s _. by eexists.
    - intros y s (z & -> & Hz). by apply part_follows_comma.
    - change (Some x :: map Some l) with (map Some (x :: l)). apply Forall_map. eapply Forall_impl; [exact Hl|]. intros z Hz. by exists z.
    - by split; [left|].
    - pose proof (join_length "," (map show (Some x :: map Some l)) ltac:(done)) as Hlen. rewrite length_map in Hlen. cbn [length] in Hlen.
      rewrite string_length_app. lia. }
  rewrite string_app_nil_r in Hsep. unfold https_value, separated_list0, pmap. rewrite Hsep. cbn [mbind option_bind]. by rewrite mapM_id_some.
Qed.

Lemma https_rule_show q x l : Forall part_ok (x :: l) →
  parse_https_rule (join "," (map (show_part q) (x :: l))) = Some ("", Some (HttpsRecordData (svcb_of (x :: l)))).
Proof.
  intros Hl. unfold parse_https_rule.
  assert (Hv : pmap (fmap HttpsRecordData) https_value (join "," (map (show_part q) (x :: l))) = Some ("", Some (HttpsRecordData (svcb_of (x :: l))))).
  { unfold pmap. by rewrite https_value_show. }
  rewrite <-(string_app_nil_r (join "," _)), join_foldr in Hv |- *. apply Forall_cons in Hl as [Hx _].
  do 3 (etrans; [apply alt_skip; destruct x as [[]| | |]; done|]). by apply alt_hit.
Qed.

Definition priority_of (x : SvcbPart (Name := Name)) : option Z := match x with PPriority n => Some n | _ => None end.
Definition target_of (x : SvcbPart (Name := Name)) : option Name := match x with PTarget n => Some n | _ => None end.
Definition param_of (x : SvcbPart (Name := Name)) : option SvcParam := match x with PParam p => Some p | _ => None end.

(** An HTTPS record is read as it is written, with quotes around the lists of addresses
    or without: all its parameters in their order, its last target, or the root, and its
    last priority, or 0. *)
Theorem https_record_line (q : bool) (d : Domain Name) (xs : list (SvcbPart (Name := Name))) :
  domain_ok d = true → xs ≠ [] → Forall part_ok xs →
  parse_config ("https-record" +:+ " " +:+ String "/" (show_domain d +:+ String "/" (join "," (map (show_part q) xs)))) =
  Some (Some (HttpsRecord {| domain := d; DomainRule.config := HttpsRecordData
    (https_new (default 0%Z (last (omap priority_of xs))) (default name_root (last (omap target_of xs))) (omap param_of xs)) |})).
Proof.
  intros Hd Hne Hx. destruct xs as [|x xs]; [done|].
  etrans; [eapply (for_domain_line "https-record" HttpsRecord parse_https_rule d); [vm_compute; set_solver|done|done|done| |]|].
  - apply space0_stop. rewrite <-(string_app_nil_r (join "," _)), join_foldr. apply Forall_cons in Hx as [Hx _].
    by destruct x as [[]| | |].
  - by apply https_rule_show.
  - done.
Qed.
End parts.

(** ** A record *)

Module HttpsExample.
Import ListName ConfigProps.Example DomainRule.Example SimpleUrl ConfigValueProps.Example.

Definition parts : list (SvcbPart (Name := name)) :=
  [PParam (Alpn ["h2"; "h3"]); PParam (Ipv4Hint [16909060; 84281096]%Z); PParam (Ipv6Hint [1]%Z); PPriority 1%Z].

(** Unquoted addresses end where the next parameter starts. *)
Lemma https_record_line_witness :
  let d : Domain name := DName (Default (["example"; "com"], false)) in
  show_domain d = "example.com" ∧
  join "," (map (show_part false) (drop 1 parts)) = "ipv4hint=1.2.3.4,5.6.7.8,ipv6hint=::1,priority=1" ∧
  parse_config ("https-record" +:+ " " +:+ String "/" (show_domain d +:+ String "/" (join "," (map (show_part false) parts)))) =
  Some (Some (HttpsRecord {| domain := d; DomainRule.config := HttpsRecordData
    (https_new (default 0%Z (last (omap priority_of parts))) (default name_root (last (omap target_of parts))) (omap param_of parts)) |})).
Proof.
  intros d. split; [vm_compute; reflexivity|]. split; [vm_compute; reflexivity|].
  refine (https_record_line false d parts _ _ _); [vm_compute; reflexivity|discriminate|].
  unfold parts. repeat constructor; discriminate.
Defined.
End HttpsExample.
