(* ===== verification/DohApi.v ===== *)
(** * DNS over HTTPS

    The handlers of [/dns-query] (src/api/serve_dns.rs) and the handle through which they,
    like every listener, send a message to the request loop and wait for its reply
    (src/server/mod.rs).

    hickory's codec and the texts and numbers of its types are arguments; so are the headers
    of new messages, whose identifiers are random. *)

From S2P Require Import Prelude Float64 Dns App Jsx WebApi.

(** An error of [read_message] is a [ParsedFormError] or [ParsedOther]. *)
Class Codec := {
  read_name : string → option string;
  read_type : string → option RecordType;
  read_message : string → result Message Parsed;
  to_response : Message → Message;
  encode : Message → option string;
  truncated : Message → bool;
  code_number : ResponseCode → Z;
  type_number : RecordType → Z;
  data_text : RData → string;
}.

Section doh.
Context `{CO : Codec, HO : HeaderOps}.

(** ** Messages on their way *)

(** A [SerialMessage], without its address and protocol. *)
Inductive SerialMessage := SRaw (m : Message) | SBytes (b : string).

(** [DnsRequest::try_from]: the first question of a message is the one that is asked. *)
Definition message_of (m : SerialMessage) : result Message Parsed :=
  match m with SRaw m => Ok m | SBytes b => read_message b end.
Definition parsed_of (root : Query) (m : SerialMessage) : Parsed :=
  match message_of m with Ok m => ParsedRequest (m_header m) (default root (head (m_queries m))) | Err p => p end.

(** How a request that was sent ends: the loop is gone, the reply is never sent, or it
    arrives. *)
Inductive Delivery := Closed | Dropped | Replied (reply : Message).

(** [Message::query] *)
Definition new_query (fresh : Header) : Message := header_only fresh.
Definition refuse (m : Message) : Message := {|
  m_header := header_set_code (m_header m) Refused; m_queries := m_queries m; m_answers := m_answers m; m_authorities := m_authorities m |}.
Definition refused_response (fresh : Header) (m : SerialMessage) : SerialMessage :=
  SRaw (refuse match message_of m with Ok m => to_response m | Err _ => to_response (new_query fresh) end).
Definition send (fresh : Header) (m : SerialMessage) (d : Delivery) : SerialMessage :=
  match d with
  | Closed => refused_response fresh m
  | Dropped => SRaw (refuse (to_response (new_query fresh)))
  | Replied reply => SRaw reply
  end.

(** ** The handlers *)

Record QueryParam := { qp_name : string; qp_type : string; qp_dnssec : bool; qp_checking_disabled : bool }.
Record Question := { qu_name : string; qu_type : Z }.
Record Answer := { an_name : string; an_type : Z; an_TTL : Z; an_data : string }.
Record DohResponse := {
  dr_status : Z; dr_TC : bool; dr_RD : bool; dr_RA : bool; dr_AD : bool; dr_CD : bool;
  dr_Question : list Question; dr_Answer : list Answer }.

Definition question_of (q : Query) : Question := {| qu_name := q_name q; qu_type := type_number (q_type q) |}.
Definition answer_of (r : Record_) : Answer := {|
  an_name := r_name r; an_type := type_number (record_type r); an_TTL := r_ttl r; an_data := data_text (r_data r) |}.
Definition doh_response (m : Message) : DohResponse := {|
  dr_status := code_number (h_response_code (m_header m)); dr_TC := truncated m;
  dr_RD := h_recursion_desired (m_header m); dr_RA := h_recursion_available (m_header m);
  dr_AD := h_authoritative (m_header m); dr_CD := true;
  dr_Question := map question_of (m_queries m); dr_Answer := map answer_of (m_answers m) |}.
Definition serialize_DohResponse (r : DohResponse) : json :=
  JObj [("status", JInt (dr_status r)); ("TC", JBool (dr_TC r)); ("RD", JBool (dr_RD r)); ("RA", JBool (dr_RA r));
        ("AD", JBool (dr_AD r)); ("CD", JBool (dr_CD r));
        ("Question", JArr (map (λ q, JObj [("name", JStr (qu_name q)); ("type", JInt (qu_type q))]) (dr_Question r)));
        ("Answer", JArr (map (λ a, JObj [("name", JStr (an_name a)); ("type", JInt (an_type a)); ("TTL", JInt (an_TTL a));
                                         ("data", JStr (an_data a))]) (dr_Answer r)))].

Inductive Content := DnsMessage (b : string) | Json (j : json).
(** A reply with its content, or status 500. *)
Inductive HttpReply := Reply (c : Content) | InternalError.

Definition dns_message : string := "application/dns-message".

(** The request of a JSON query; the CD bit and EDNS are not part of [Message]. *)
Definition json_request (fresh : Header) (p : QueryParam) : option SerialMessage :=
  name ← read_name (qp_name p);
  Some (SRaw {| m_header := fresh; m_queries := [{| q_name := name; q_type := default RT_A (read_type (qp_type p)); q_class := 1 |}];
                m_answers := []; m_authorities := [] |}).
Definition request_of (fresh : Header) (accept body : string) (p : option QueryParam) : option SerialMessage :=
  match p with
  | Some p => if bool_decide (accept = dns_message) then Some (SBytes body) else json_request fresh p
  | None => Some (SBytes body)
  end.
Definition reply_of (accept : string) (res : SerialMessage) : HttpReply :=
  if bool_decide (accept = dns_message) then
    match res with
    | SRaw m => match encode m with Some b => Reply (DnsMessage b) | None => InternalError end
    | SBytes b => Reply (DnsMessage b)
    end
  else match res with SRaw m => Reply (Json (serialize_DohResponse (doh_response m))) | SBytes _ => InternalError end.

(** [process]: the query parameters are given with GET only; [deliver] is what happens to
    the request, and [late] the header of a refusal. *)
Definition serve_dns (fresh late : Header) (root : Query) (deliver : Parsed → Delivery) (accept body : string) (p : option QueryParam) : HttpReply :=
  match request_of fresh accept body p with
  | None => InternalError
  | Some m => reply_of accept (send late m (deliver (parsed_of root m)))
  end.

(** The request loop, when it answers. *)
Definition loop_answers (now : Z) (fresh : Header) (search : Query → result DnsResponse LookupError) (m : Parsed) : Delivery :=
  Replied (fst (process now fresh search m)).

(** ** What is answered *)

(** With the accept header of DNS messages, GET or POST, the body is the request and the
    reply the encoded answer; the query parameters are not looked at. *)
Lemma wire_reply fresh late root deliver body p reply : deliver (parsed_of root (SBytes body)) = Replied reply →
  serve_dns fresh late root deliver dns_message body p = match encode reply with Some b => Reply (DnsMessage b) | None => InternalError end.
Proof.
  intros Hd. unfold serve_dns, request_of. destruct p; rewrite ?bool_decide_true by done; rewrite Hd; unfold reply_of;
    by rewrite bool_decide_true.
Qed.

Context `{HL : !HeaderLaws}.

(** A JSON query is answered by what the handlers find for its name, of type A if the type
    cannot be read: the status is the code of the outcome and the answers are those of the
    lookup in order.  Whatever was asked and found, AD is false and CD true. *)
Theorem doh_json_answer (now : Z) (fresh late other : Header) (root : Query) (search : Query → result DnsResponse LookupError)
    (accept body name : string) (p : QueryParam) :
  h_message_type fresh = MT_Query → h_op_code fresh = Op_Query → accept ≠ dns_message → read_name (qp_name p) = Some name →
  let q := {| q_name := name; q_type := default RT_A (read_type (qp_type p)); q_class := 1 |} in
  ∃ r, serve_dns fresh late root (loop_answers now other search) accept body (Some p) = Reply (Json (serialize_DohResponse r)) ∧
    dr_status r = code_number (reply_code search (ParsedRequest fresh q)) ∧
    dr_RD r = h_recursion_desired fresh ∧ dr_RA r = true ∧ dr_AD r = false ∧ dr_CD r = true ∧
    ∀ lookup, search q = Ok lookup → dr_Question r = map question_of (queries lookup) ∧ dr_Answer r = map answer_of (answers lookup).
Proof.
  intros Ht Ho Ha Hn q. unfold serve_dns, request_of, json_request. rewrite bool_decide_false, Hn by done. cbn [mbind option_bind].
  unfold parsed_of, message_of. cbn [m_header m_queries head default from_option]. fold q. unfold id.
  unfold loop_answers at 1, send, reply_of. rewrite bool_decide_false by done. eexists. split; [reflexivity|].
  destruct (process_reply now other search (ParsedRequest fresh q) fresh eq_refl) as (_ & _ & Hrd & Hcode).
  unfold doh_response. cbn [dr_status dr_RD dr_RA dr_AD dr_CD dr_Question dr_Answer]. rewrite Hrd, Hcode. split; [done|]. split; [done|].
  unfold process. rewrite Ht, Ho. destruct (search q) as [l|e]; [by split_and!; try done; intros ? [= <-]|].
  destruct (as_soa now e q), (error_code e), (is_nx_domain e); cbn; split_and!; by try done.
Qed.
End doh.

(** ** A query *)

Module DohExample.
Definition codec : Codec := {|
  read_name s := if bool_decide (s = "") then None else Some (s +:+ "."); read_type _ := None; read_message _ := Err ParsedOther;
  to_response m := m; encode _ := None; truncated _ := false;
  code_number c := match c with NoError => 0%Z | _ => 2%Z end; type_number _ := 1%Z; data_text _ := "" |}.
Definition header : Header := {|
  h_id := 7%Z; h_message_type := MT_Query; h_op_code := Op_Query; h_authoritative := false; h_recursion_desired := true;
  h_recursion_available := false; h_response_code := NoError |}.
Definition root : Query := {| q_name := "."; q_type := RT_A; q_class := 1 |}.
Definition param : QueryParam := {| qp_name := "example.com"; qp_type := "28"; qp_dnssec := true; qp_checking_disabled := false |}.

(** The type [28] is not read, and A is asked for. *)
Lemma doh_json_answer_witness : ∃ r,
  serve_dns (CO := codec) header header root
    (loop_answers (HO := plain_headers) 0%Z header (λ q, Ok (empty_response 0%Z q))) "application/dns-json" "" (Some param)
    = Reply (Json (serialize_DohResponse r)) ∧
  dr_status r = 0%Z ∧ dr_AD r = false ∧ dr_CD r = true ∧ dr_Question r = [{| qu_name := "example.com."; qu_type := 1%Z |}].
Proof.
  destruct (doh_json_answer (CO := codec) (HO := plain_headers) (HL := plain_headers_laws) 0%Z header header header root
    (λ q, Ok (empty_response 0%Z q)) "application/dns-json" "" "example.com." param eq_refl eq_refl (ltac:(done)) eq_refl)
    as (r & Hr & Hs & _ & _ & Had & Hcd & Hl).
  exists r. split; [exact Hr|]. split; [exact Hs|]. split; [exact Had|]. split; [exact Hcd|].
  exact (proj1 (Hl _ eq_refl)).
Defined.
End DohExample.
